(* ===== verification/_CoqProject ===== *)
-Q . S2P
Prelude.v
Str.v
Utf8.v
Net.v
Net6.v
BTree.v
Core.v
Validation.v
State.v
Sql.v
World.v
Store.v
Nft.v
Xdp.v
Linux.v
Reconcile.v
Progress.v
Deployed.v
Migrate.v
Opened.v
Json.v
Testing.v
Oci.v
Netbird.v
Api.v
Wire.v
Gateway.v
Ui.v
Mock.v
Html.v
Routes.v
Serve.v
Served.v
Link.v
Agent.v
Cli.v
TestsCore.v
TestsStore.v
TestsTools.v
TestsServers.v
