(* ===== verification/Prelude.v ===== *)
(** * EdgeRoute: a verified core

    EdgeRoute maps public addresses of a cloud machine to targets of an overlay
    network. An agent keeps the mappings in SQLite, renders them into an
    nftables ruleset, loads the ruleset with [nft] and sets the addresses of the
    interface with [ip]; it allocates addresses with the [oci] tool. A gateway
    serves web pages and a proxy in front of the agent, and a command-line tool
    does the agent's work without it. This library translates the Rust crates
    under [src/crates/] and proves what makes them correct.

    ** Layers and files

    Foundations:
    - [Prelude]: this file. Rust's [Result] as a monad, results of loops, the
      tactics and hints of the development, lemmas on lists.
    - [Str], [Utf8]: byte strings and the operations of [str], UTF-8 decoding.
    - [Net], [Net6]: IPv4 and IPv6 addresses with their text; the operations of
      the [ipnet] crate as the class [Ipnet], with the laws [IpnetLaws] and an
      executable instance.
    - [BTree]: [BTreeMap] as a sorted list, and its view as a finite map.
    - [World]: the effects. A computation [IO E A] maps a world (database, files,
      log of effects) to a value, an error or a panic, and a new world. The class
      [Env] answers every effect from the log so far: clock, fresh identifiers,
      faults of SQLite and of the file system, short writes, replies of tools and
      sockets, and the statements of other clients that run between two of ours.
      A theorem over all [Env] covers every behaviour of the outside.

    The program (source under [src/crates/]):
    - [Core]: [edge-core/src/errors.rs], [mapping.rs]; the data model.
    - [Validation]: [edge-core/src/validation.rs].
    - [State]: [edge-core/src/state.rs]; generations, events, and
      [InMemoryStateStore] as functions of its state and the clock.
    - [Sql], [Store]: [edge-store/src/lib.rs]. [Sql] has the tables, the partial
      unique indexes, the triggers and each statement as an atomic step; [Store]
      has the public operations of [SqliteStore] as sequences of statements, and
      the codec of rows.
    - [Migrate]: [SqliteStore::connect] and [migrate] of the same file, over
      tables of named columns, since it changes the columns themselves.
    - [Opened]: the rows and indexes that [Migrate] leaves are those that [Sql] and
      [Store] work on.
    - [Nft]: [edge-nft/src/render.rs] and [apply.rs].
    - [Xdp]: [edge-xdp/src/lib.rs].
    - [Linux]: [edge-linux/src/lib.rs].
    - [Reconcile], [Progress]: [edge-reconcile/src/lib.rs], over [Store], [Nft],
      [Linux] and [Xdp]; [Progress] proves that a reconciliation ends well.
    - [Deployed]: what a reconciliation leaves on the machine, as a function of the log:
      the table that [nft] loaded and the addresses of the interface.
    - [Json]: JSON values and the derived decoding of fields.
    - [Oci], [Netbird]: [edge-oci/src/lib.rs], [edge-netbird/src/lib.rs].
    - [Api]: [edge-agent/src/api.rs]; the handlers behind [require_auth].
    - [Wire]: the derived serde code of the messages between gateway and agent.
    - [Gateway]: [edge-gateway/src/main.rs], [agent.rs]; tokens, proxy, client.
    - [Ui]: [edge-gateway/src/ui.rs]; forms, handlers, what a page asks of the
      agent and which data it shows, the diagnostic tools.
    - [Html], [Routes]: the templates of [ui.rs] as trees of elements, for every page;
      the table of routes of [edge-gateway/src/main.rs], and what a handler reads of
      a submitted form.
    - [Mock]: [edge-gateway/src/mock.rs], the fixture that answers the pages without an
      agent, in a monad whose store outlives a failed request.
    - [Serve]: the routes of [edge-agent/src/api.rs], what each extracts from a request
      and the answer that goes back.
    - [Served]: what the requests to the agent keep of its database.
    - [Link]: the two programs together, [linked]: an environment of the gateway in which
      the agent answers what is sent to it, from the world it started in.
    - [Agent]: [edge-agent/src/main.rs] with its listeners, and the start of the gateway.
    - [Cli]: [edge-cli/src/main.rs].

    The crates' own tests, run on these definitions:
    - [Testing]: the test monad, in which [unwrap] and [assert] panic, and concrete
      libraries: texts of JSON and of RFC 3339, SQLite's messages.
    - [TestsCore], [TestsStore], [TestsTools], [TestsServers]: the functions of the
      modules [tests] under their names, statement by statement, and the evaluations
      that all of them pass. [TestsStore] runs them on a file that [Migrate] opened, and
      the test of two concurrent insertions for every place of the other's statement.

    ** What the theorems show

    - Data: accepted configurations and mappings are as documented, and the
      pairwise test is the conflict relation ([Validation]); operations of the
      in-memory store refine an abstract contract ([State]); rows and mappings
      round-trip, an insertion stores exactly its mapping, every history of
      clients keeps the stored mappings valid, and the constraints of the schema
      alone keep one-to-one addresses disjoint whatever other clients write
      ([Store]); an upgrade of a legacy database loses no mapping, wherever it is
      interrupted, and without faults ends in the current schema ([Migrate]); the store
      then reads its mappings as they were, and they satisfy its invariant ([Opened]).
    - Rulesets: the rendered text, read by an evaluator of nft's documented
      semantics, forwards a packet exactly as the mappings say; rendering valid
      data never panics ([Nft]). The XDP plan holds exactly the selected
      mappings, in the byte layout of the map ([Xdp]).
    - Reconciliation: a ruleset is loaded only after [nft --check] accepted that
      file; a file is never seen half-written; a dry run only queries; an
      address of the interface follows the last mapping that uses it; and on a healthy machine the
      reconciliation completes whatever the health checks answer ([Reconcile],
      [Progress]). The table that [nft] has loaded when it returns forwards packets as the
      stored mappings say: those of a mapping that was inserted go to its target, those of
      one that was deleted are left alone; and a rollback has loaded the text of its generation
      ([Deployed]).
    - API and tools: no handler runs before the token check; a failed allocation
      leaves no address behind; a mapping is deleted only after a ruleset without
      it was loaded; clean-up tries every deletion ([Api], [Cli]).
    - Gateway: the proxy forwards what it got with exactly the rewritten headers,
      every request to the agent carries the agent's token, pages send only what
      their forms say, answer whatever happens, and read what the agent writes; ports stay
      in sixteen bits ([Gateway], [Ui], [Wire], [Agent]). Every request that an
      element of a page makes is a route, every form fits the handler it is sent to,
      and the dialogs and places that a page refers to are on it ([Routes]).
    - The programs together: every request of the pages, on the wire and back, is the
      call of its handler on the agent's world ([asks] lists the requests, [remote] says
      what that means); a form stores its mapping and the page lists it, or nothing is
      stored and the page says why ([Link]); no request, whatever its text, makes the
      stored mappings invalid ([Served]). The mock gives the pages what its store holds
      ([Mock]). A started agent has opened no listener before its checks ([Agent]).
    - Defects: the theorems named [racing_inserts_block_rendering],
      [interface_name_escapes_rule], [reconcile_removes_shared_address],
      [interrupted_release_is_stuck] and [enable_path_is_not_encoded] exhibit
      executions in which the code does less than it means to. [shared_target_does_not_open]
      is the database of the first schema that does not satisfy the hypothesis of
      [legacy_database_opens]. In [late_upgrade_drops_ports] another process upgrades the database
      between the test of the first and its upgrade.

    ** Bounds and termination

    No operation of the program needs fuel: every loop of the source runs over a
    list or a string and is structural here. (The reader of JSON in [Testing], which stands
    for a library, takes the length of its text.) Ports, priorities and statuses are
    [Z] with the range that their Rust type and their parser impose (the parser
    of [u16] refuses 65536 and above); the counters of the in-memory store wrap
    around as an [i64], and SQLite refuses a row past its largest row id. The proxy reads at most
    [MAX_PROXY_BODY_BYTES]. The environment's answers are functions, so a tool
    that never answers appears as the timeout that the code sets on it.

    ** Parameters

    Code outside the repository is an argument, with its documented laws as a
    class and a concrete instance in the witnesses: [Ipnet]; [StoreLib] (RFC 3339,
    the JSON of configurations, texts of errors); [JsonLib] ([serde_json]'s text);
    [HttpLib] (header maps, addresses, bodies), with [UriLaws] (plain paths parse);
    [AxumLib] (parameters of paths and queries, content types, the answer to a request
    that no handler takes); [FormLib] (numbers in forms); [TomlLib]; [NftEval] (what nft does
    with a ruleset); [IpTool] (what [ip] does to an interface). Smaller ones are
    arguments of their sections: the opening of the pool, pretty and compact JSON,
    the calendar of a timestamp, [Debug] texts of networks and OCI errors, and the
    engine's refusals in [Migrate].

    ** Not modelled

    - The text of a page's elements and the escaping in it, which are [maud]'s, and
      what the scripts of the pages do in a browser; [Routes] states what a browser
      submits for a form, with numbers typed in plain decimal.
    - Inside axum: the decoding of paths and queries and the texts of its own refusals;
      clap's parsing of the command line; tracing.
    - [UnixConnector] and [AgentStream] of [edge-gateway/src/main.rs], which hand every
      call to the socket of [tokio]: a request and its reply are one step of [World].
    - Directories: a listener's parent and the file a socket replaces are paths of one
      map of files, in which a socket is a file without a text.
    - A broken standard output while a command prints.
    - Other clients of the database during a migration, but for the one order of steps
      of [late_upgrade_drops_ports]; elsewhere their statements interleave with every
      operation. *)
From stdpp Require Export base tactics list strings gmap sorting.
From Stdlib Require Export ZArith Lia.

(** * Results

    [Result E T] is Rust's [Result<T, E>]; the error type comes first so that
    [Result E] is a monad and stdpp's [x ← m; k] is Rust's [let x = m?; k]. *)
Inductive Result (E T : Type) : Type :=
  | Ok (t : T)
  | Err (e : E).
Arguments Ok {E T} t.
Arguments Err {E T} e.

#[export] Instance result_ret E : MRet (Result E) := fun _ => Ok.
#[export] Instance result_bind E : MBind (Result E) := fun _ _ k m =>
  match m with Ok t => k t | Err e => Err e end.
#[export] Instance result_fmap E : FMap (Result E) := fun _ _ f m =>
  match m with Ok t => Ok (f t) | Err e => Err e end.

Definition map_err {E F T} (f : E -> F) (m : Result E T) : Result F T :=
  match m with Ok t => Ok t | Err e => Err (f e) end.

(** [Option::ok_or] *)
Definition ok_or {E T} (o : option T) (e : E) : Result E T :=
  match o with Some t => Ok t | None => Err e end.

(** [Result::ok] *)
Definition result_ok {E T} (m : Result E T) : option T :=
  match m with Ok t => Some t | Err _ => None end.

Definition is_ok {E T} (m : Result E T) : bool :=
  match m with Ok _ => true | Err _ => false end.

(** [opt.map(f).transpose()] *)
Definition transpose_map {E A B} (f : A -> Result E B) (o : option A) : Result E (option B) :=
  match o with
  | Some a => b ← f a; Ok (Some b)
  | None => Ok None
  end.

(** [iter.map(f).collect::<Result<Vec<_>, _>>()]: stops at the first error. *)
Fixpoint collect {E A B} (f : A -> Result E B) (l : list A) : Result E (list B) :=
  match l with
  | [] => Ok []
  | a :: l => b ← f a; bs ← collect f l; Ok (b :: bs)
  end.

(** [for x in l { f(x)?; }] *)
Fixpoint for_each {E A} (f : A -> Result E unit) (l : list A) : Result E unit :=
  match l with
  | [] => Ok tt
  | a :: l => f a ;; for_each f l
  end.

(** * Tactics *)

(** Case analysis on every match of the goal and the hypotheses, with the
    equations kept, then first-order clean-up. *)
Ltac case_matches := repeat (case_match; simplify_eq/=).

(** Splits [mbind] hypotheses of the result monad. *)
Lemma bind_Ok {E A B} (m : Result E A) (k : A -> Result E B) b :
  m ≫= k = Ok b <-> exists a, m = Ok a /\ k a = Ok b.
Proof. destruct m; cbn; naive_solver. Qed.

Lemma bind_Err {E A B} (m : Result E A) (k : A -> Result E B) e :
  m ≫= k = Err e <-> m = Err e \/ exists a, m = Ok a /\ k a = Err e.
Proof. destruct m; cbn; naive_solver. Qed.

(** Sequencing and guards of [Result _ unit]. *)
Lemma seq_Ok {E} (m : Result E unit) {B} (k : Result E B) b :
  (m ;; k) = Ok b <-> m = Ok tt /\ k = Ok b.
Proof. destruct m as [[]|]; cbn; naive_solver. Qed.

Lemma seq_Err {E} (m : Result E unit) {B} (k : Result E B) e :
  (m ;; k) = Err e <-> m = Err e \/ m = Ok tt /\ k = Err e.
Proof. destruct m as [[]|]; cbn; naive_solver. Qed.

Lemma guard_Ok {E} (b : bool) (e : E) (k : Result E unit) :
  (if b then Err e else k) = Ok tt <-> b = false /\ k = Ok tt.
Proof. destruct b; naive_solver. Qed.

Lemma check_Ok {E} (b : bool) (e : E) : (if b then Err e else Ok tt) = Ok tt <-> b = false.
Proof. destruct b; naive_solver. Qed.

Lemma is_ok_unit {E} (r : Result E unit) : is_ok r = true <-> r = Ok tt.
Proof. destruct r as [[]|]; naive_solver. Qed.

Lemma bool_iff (a b : bool) : (a = true <-> b = true) -> a = b.
Proof. destruct a, b; naive_solver. Qed.

Ltac res_inv :=
  repeat match goal with
  | H : mbind _ _ = Ok _ |- _ => apply bind_Ok in H as (? & ? & ?)
  | H : Ok _ = Ok _ |- _ => simplify_eq
  | H : Err _ = Ok _ |- _ => discriminate H
  | H : Ok _ = Err _ |- _ => discriminate H
  | x : unit |- _ => destruct x
  end.

Create HintDb edge.

(** * Lemmas on the loops *)

Lemma for_each_Ok {E A} (f : A -> Result E unit) l :
  for_each f l = Ok tt <-> Forall (fun a => f a = Ok tt) l.
Proof.
  induction l as [|a l IH]; cbn; [split; [constructor|done]|].
  rewrite Forall_cons, <- IH. destruct (f a) as [[]|e]; cbn; naive_solver.
Qed.

Lemma for_each_unit {E A} (f : A -> Result E unit) l : is_ok (for_each f l) = true -> for_each f l = Ok tt.
Proof. destruct (for_each f l) as [[]|]; done. Qed.

Lemma collect_Ok {E A B} (f : A -> Result E B) l bs :
  collect f l = Ok bs <-> Forall2 (fun a b => f a = Ok b) l bs.
Proof.
  revert bs; induction l as [|a l IH]; intros bs; cbn.
  - split; [intros [= <-]; constructor | by inversion 1].
  - rewrite bind_Ok; setoid_rewrite bind_Ok; setoid_rewrite IH; split.
    + intros (b & Hb & bs' & Hbs & [= <-]). by constructor.
    + inversion 1; subst; eauto.
Qed.

Lemma Forall_choose {A B} (P : A -> B -> Prop) l :
  Forall (fun a => exists b, P a b) l -> exists bs, Forall2 P l bs.
Proof.
  induction l as [|a l IH]; [by exists []|]. rewrite Forall_cons. intros [[b Hb] [bs Hbs]%IH].
  exists (b :: bs). by constructor.
Qed.

Lemma collect_length {E A B} (f : A -> Result E B) l bs :
  collect f l = Ok bs -> length bs = length l.
Proof. intros H%collect_Ok. symmetry. by eapply Forall2_length. Qed.

Lemma transpose_map_Ok {E A B} (f : A -> Result E B) o r :
  transpose_map f o = Ok r <->
  match o with Some a => exists b, f a = Ok b /\ r = Some b | None => r = None end.
Proof. destruct o as [a|]; cbn; [destruct (f a)|]; cbn; naive_solver. Qed.

Lemma and_iff_compat_l_dep (P Q R : Prop) : (P -> (Q <-> R)) -> P /\ Q <-> P /\ R.
Proof. tauto. Qed.

Lemma bool_decide_iff (P Q : Prop) `{!Decision P, !Decision Q} :
  (P <-> Q) -> bool_decide P = bool_decide Q.
Proof. intros; by apply bool_decide_ext. Qed.

(** Every pair of positions [i < j] satisfies [R]. *)
Definition pairwise {A} (R : A -> A -> Prop) : list A -> Prop := ForallOrdPairs R.

Lemma pairwise_cons {A} (R : A -> A -> Prop) a l :
  pairwise R (a :: l) <-> Forall (R a) l /\ pairwise R l.
Proof. split; [by inversion 1 | intros []; by constructor]. Qed.

Lemma pairwise_nil {A} (R : A -> A -> Prop) : pairwise R [].
Proof. constructor. Qed.

Lemma pairwise_app {A} (R : A -> A -> Prop) l k :
  pairwise R (l ++ k) <-> pairwise R l /\ pairwise R k /\ Forall (fun a => Forall (R a) k) l.
Proof.
  induction l as [|a l IH]; cbn.
  - split; [|tauto]. split; [apply pairwise_nil|]; split; [done|constructor].
  - rewrite !pairwise_cons, IH, Forall_app, Forall_cons. tauto.
Qed.

Lemma pairwise_impl {A} (R S : A -> A -> Prop) l :
  (forall a b, R a b -> S a b) -> pairwise R l -> pairwise S l.
Proof.
  intros HRS; induction l as [|a l IH]; [intros; apply pairwise_nil|].
  rewrite !pairwise_cons. intros [H1 H2]; split; [|auto]. eapply Forall_impl; eauto.
Qed.

Lemma pairwise_Permutation {A} (R : A -> A -> Prop) `{!Symmetric R} l k :
  l ≡ₚ k -> pairwise R l -> pairwise R k.
Proof.
  induction 1 as [|x l k Hp IH|x y l|]; auto.
  - rewrite !pairwise_cons. intros [H1 H2]; split; [by rewrite <- Hp|auto].
  - rewrite !pairwise_cons, !Forall_cons. intros [[? ?] [? ?]]. auto.
Qed.

Lemma pairwise_fmap {A B} (R : B -> B -> Prop) (f : A -> B) l :
  pairwise R (f <$> l) <-> pairwise (fun a b => R (f a) (f b)) l.
Proof.
  induction l as [|a l IH]; [split; intros; apply pairwise_nil|].
  rewrite fmap_cons, !pairwise_cons, IH, Forall_fmap. done.
Qed.

Lemma pairwise_filter {A} (R : A -> A -> Prop) (P : A -> Prop) `{!forall x, Decision (P x)} l :
  pairwise R l -> pairwise R (filter P l).
Proof.
  induction l as [|a l IH]; [done|].
  rewrite filter_cons, pairwise_cons. intros [H1 H2].
  case_decide; [|by auto]. apply pairwise_cons; split; [|by auto].
  apply Forall_forall; intros x [_ Hx]%list_elem_of_filter.
  rewrite Forall_forall in H1; auto.
Qed.

Lemma pairwise_lookup {A} (R : A -> A -> Prop) l i j a b :
  pairwise R l -> i < j -> l !! i = Some a -> l !! j = Some b -> R a b.
Proof.
  revert i j; induction l as [|x l IH]; intros i j Hp Hij Hi Hj; [done|].
  apply pairwise_cons in Hp as [H1 H2].
  destruct j as [|j]; [lia|]. destruct i as [|i]; simplify_eq/=.
  - rewrite Forall_lookup in H1. eauto.
  - eapply (IH i j); eauto with lia.
Qed.

Lemma pairwise_elem_of {A} (R : A -> A -> Prop) `{!Symmetric R} l a b :
  pairwise R l -> a ∈ l -> b ∈ l -> a = b \/ R a b.
Proof.
  intros Hp [i Hi]%list_elem_of_lookup [j Hj]%list_elem_of_lookup.
  destruct (decide (i = j)) as [->|Hne]; [left; congruence|right].
  destruct (decide (i < j)) as [Hlt|Hge].
  - eapply pairwise_lookup; eauto.
  - symmetry. eapply pairwise_lookup; [eauto| |eauto|eauto]; lia.
Qed.

#[export] Hint Resolve pairwise_nil : edge.
