(* ===== verification/Str.v ===== *)
(** Rust's [str] operations, on byte strings.

    A Rust [&str] is its UTF-8 byte sequence: a [string] of [ascii] bytes.
    [trim] and [split_whitespace] strip the Unicode [White_Space] characters,
    so they are written over the UTF-8 encodings of those characters (UTF-8 is
    self-synchronising: such an encoding occurs in a valid string only at a
    character boundary).  The ASCII operations act byte by byte. *)
From Stdlib Require Import Ascii Decimal DecimalString.
From S2P Require Import Prelude.

Abbreviation chars := String.list_ascii_of_string.
Abbreviation of_chars := String.string_of_list_ascii.

Definition dquote : string := String "034"%char EmptyString.
Definition newline : string := String "010"%char EmptyString.

(** UTF-8 encodings of U+0009..U+000D, U+0020, U+0085, U+00A0, U+1680,
    U+2000..U+200A, U+2028, U+2029, U+202F, U+205F, U+3000. *)
Definition ws_seqs : list (list ascii) :=
  [["009"]; ["010"]; ["011"]; ["012"]; ["013"]; [" "];
   ["194"; "133"]; ["194"; "160"]; ["225"; "154"; "128"];
   ["226"; "128"; "128"]; ["226"; "128"; "129"]; ["226"; "128"; "130"];
   ["226"; "128"; "131"]; ["226"; "128"; "132"]; ["226"; "128"; "133"];
   ["226"; "128"; "134"]; ["226"; "128"; "135"]; ["226"; "128"; "136"];
   ["226"; "128"; "137"]; ["226"; "128"; "138"]; ["226"; "128"; "168"];
   ["226"; "128"; "169"]; ["226"; "128"; "175"]; ["226"; "129"; "159"];
   ["227"; "128"; "128"]]%char.

(** [strip_list p l]: what follows the prefix [p] of [l]. *)
Fixpoint strip_list (p l : list ascii) : option (list ascii) :=
  match p, l with
  | [], _ => Some l
  | a :: p, b :: l => if Ascii.eqb a b then strip_list p l else None
  | _ :: _, [] => None
  end.

Fixpoint strip_any (ps : list (list ascii)) (l : list ascii) : option (list ascii) :=
  match ps with
  | [] => None
  | p :: ps => match strip_list p l with Some r => Some r | None => strip_any ps l end
  end.

(** [n] bounds the number of characters stripped; the length is enough. *)
Fixpoint trim_loop (ps : list (list ascii)) (n : nat) (l : list ascii) : list ascii :=
  match n with
  | O => l
  | S n => match strip_any ps l with Some r => trim_loop ps n r | None => l end
  end.

Definition trim_start_l (l : list ascii) : list ascii := trim_loop ws_seqs (length l) l.
Definition trim_end_l (l : list ascii) : list ascii :=
  rev (trim_loop (map (@rev ascii) ws_seqs) (length l) (rev l)).

(** [str::trim] *)
Definition trim (s : string) : string := of_chars (trim_end_l (trim_start_l (chars s))).

(** [str::is_empty] *)
Definition is_empty (s : string) : bool := match s with EmptyString => true | _ => false end.

(** [str::strip_prefix] *)
Definition strip_prefix (p s : string) : option string := of_chars <$> strip_list (chars p) (chars s).

(** [str::starts_with] *)
Definition starts_with (p s : string) : bool :=
  match strip_list (chars p) (chars s) with Some _ => true | None => false end.

Fixpoint contains_l (p l : list ascii) : bool :=
  match strip_list p l with
  | Some _ => true
  | None => match l with [] => false | _ :: l => contains_l p l end
  end.

(** [str::contains] with a string pattern *)
Definition contains (p s : string) : bool := contains_l (chars p) (chars s).

Definition byte_of (c : ascii) : Z := Z.of_N (N_of_ascii c).
Definition has_char (c : ascii) (s : string) : bool := existsb (Ascii.eqb c) (chars s).

(** [u8::to_ascii_lowercase], [str::to_ascii_lowercase], [str::eq_ignore_ascii_case] *)
Definition ascii_lower (c : ascii) : ascii :=
  let n := N_of_ascii c in
  if (65 <=? n)%N && (n <=? 90)%N then ascii_of_N (n + 32) else c.
Definition to_ascii_lowercase (s : string) : string := of_chars (map ascii_lower (chars s)).
Definition eq_ignore_ascii_case (s t : string) : bool :=
  bool_decide (to_ascii_lowercase s = to_ascii_lowercase t).

(** [u8::is_ascii_alphanumeric] *)
Definition is_ascii_alphanumeric (c : ascii) : bool :=
  let n := N_of_ascii c in
  ((48 <=? n) && (n <=? 57) || (65 <=? n) && (n <=? 90) || (97 <=? n) && (n <=? 122))%N.

Definition is_ascii_digit (c : ascii) : bool :=
  let n := N_of_ascii c in ((48 <=? n) && (n <=? 57))%N.

(** [s.bytes().all(f)] *)
Definition all_bytes (f : ascii -> bool) (s : string) : bool := forallb f (chars s).

(** [str::split(c)], on bytes *)
Fixpoint split_l (c : ascii) (l : list ascii) : list (list ascii) :=
  match l with
  | [] => [[]]
  | x :: l =>
      if Ascii.eqb x c then [] :: split_l c l
      else match split_l c l with h :: t => (x :: h) :: t | [] => [[x]] end
  end.
Definition split (c : ascii) (s : string) : list string := of_chars <$> split_l c (chars s).

(** [str::split_once(c)] *)
Fixpoint split_once_l (c : ascii) (l : list ascii) : option (list ascii * list ascii) :=
  match l with
  | [] => None
  | x :: l =>
      if Ascii.eqb x c then Some ([], l)
      else match split_once_l c l with Some (a, b) => Some (x :: a, b) | None => None end
  end.
Definition split_once (c : ascii) (s : string) : option (string * string) :=
  match split_once_l c (chars s) with Some (a, b) => Some (of_chars a, of_chars b) | None => None end.

(** [str::lines]: a line ends at "\n", with the "\r" before it dropped; the
    last line is dropped when empty and keeps its "\r" otherwise. *)
Definition strip_cr (l : list ascii) : list ascii :=
  match rev l with "013"%char :: r => rev r | _ => l end.
Fixpoint lines_of (parts : list (list ascii)) : list (list ascii) :=
  match parts with
  | [] => []
  | [last] => match last with [] => [] | _ => [last] end
  | p :: ps => strip_cr p :: lines_of ps
  end.
Definition lines (s : string) : list string := of_chars <$> lines_of (split_l "010"%char (chars s)).

(** [str::split_whitespace] *)
Definition emit_word (cur : list ascii) : list (list ascii) :=
  match cur with [] => [] | _ => [rev cur] end.
Fixpoint words_loop (n : nat) (cur l : list ascii) : list (list ascii) :=
  match n with
  | O => emit_word cur
  | S n =>
      match strip_any ws_seqs l with
      | Some r => emit_word cur ++ words_loop n [] r
      | None => match l with [] => emit_word cur | c :: l => words_loop n (c :: cur) l end
      end
  end.
Definition split_whitespace (s : string) : list string :=
  of_chars <$> words_loop (S (String.length s)) [] (chars s).

(** [[_].join(sep)] *)
Fixpoint join (sep : string) (l : list string) : string :=
  match l with
  | [] => EmptyString
  | [s] => s
  | s :: l => s +:+ sep +:+ join sep l
  end.

(** [String::push_str] in sequence *)
Fixpoint concat_str (l : list string) : string :=
  match l with [] => EmptyString | s :: l => s +:+ concat_str l end.

(** [Display] of the integer types *)
Definition show_Z (z : Z) : string := NilZero.string_of_int (Z.to_int z).

(** [Debug] of [Option<i32>] *)
Definition debug_opt_Z (o : option Z) : string :=
  match o with Some z => "Some(" +:+ show_Z z +:+ ")" | None => "None" end.

(** * Facts *)

Lemma byte_of_inj a b : byte_of a = byte_of b -> a = b.
Proof.
  unfold byte_of. intros Hab%N2Z.inj. rewrite <- (ascii_N_embedding a), <- (ascii_N_embedding b). by rewrite Hab.
Qed.

Lemma chars_of_chars l : chars (of_chars l) = l.
Proof. apply String.list_ascii_of_string_of_list_ascii. Qed.
Lemma of_chars_chars s : of_chars (chars s) = s.
Proof. apply String.string_of_list_ascii_of_string. Qed.
Lemma of_chars_inj l k : of_chars l = of_chars k -> l = k.
Proof. intros H%(f_equal chars). by rewrite !chars_of_chars in H. Qed.
Lemma chars_app s t : chars (s +:+ t) = chars s ++ chars t.
Proof.
  induction s as [|c s IH]; [done|].
  change (String c s +:+ t) with (String c (s +:+ t)). cbn. by f_equal.
Qed.
Lemma of_chars_app l k : of_chars (l ++ k) = of_chars l +:+ of_chars k.
Proof. induction l as [|c l IH]; [done|]. cbn [of_chars List.app app]. by rewrite IH. Qed.
Lemma app_nil_r s : s +:+ "" = s.
Proof. rewrite <- (of_chars_chars (s +:+ "")), chars_app. cbn. by rewrite app_nil_r, of_chars_chars. Qed.
Lemma app_assoc s t u : (s +:+ t) +:+ u = s +:+ t +:+ u.
Proof.
  rewrite <- (of_chars_chars ((s +:+ t) +:+ u)), <- (of_chars_chars (s +:+ t +:+ u)).
  by rewrite !chars_app, app_assoc.
Qed.

Lemma strip_list_Some p l r : strip_list p l = Some r <-> l = p ++ r.
Proof.
  revert l; induction p as [|a p IH]; intros [|b l]; cbn; try naive_solver.
  destruct (Ascii.eqb_spec a b) as [->|]; [rewrite IH|]; naive_solver.
Qed.

Lemma strip_list_app p l : strip_list p (p ++ l) = Some l.
Proof. by apply strip_list_Some. Qed.

Lemma strip_any_Some ps l r : strip_any ps l = Some r -> exists p, p ∈ ps /\ l = p ++ r.
Proof.
  induction ps as [|p ps IH]; cbn; [done|].
  destruct (strip_list p l) eqn:Hp.
  - intros [= <-]. exists p. apply strip_list_Some in Hp. split; [left|done].
  - intros (q & ? & ?)%IH. exists q. split; [by right|done].
Qed.

Lemma strip_any_None ps l : strip_any ps l = None <-> forall p r, p ∈ ps -> l <> p ++ r.
Proof.
  split.
  - induction ps as [|q ps IH]; intros H p r Hp; [by apply not_elem_of_nil in Hp|].
    cbn in H. destruct (strip_list q l) eqn:Hq; [done|].
    apply elem_of_cons in Hp as [->|Hp]; [|by eapply IH].
    intros Heq. apply strip_list_Some in Heq. congruence.
  - intros H. destruct (strip_any ps l) eqn:E; [|done].
    apply strip_any_Some in E as (p & Hp & ->). by destruct (H p l0 Hp).
Qed.

Lemma trim_loop_suffix ps n l : exists k, l = k ++ trim_loop ps n l.
Proof.
  revert l; induction n as [|n IH]; intros l; cbn; [by exists []|].
  destruct (strip_any ps l) as [r|] eqn:E; [|by exists []].
  apply strip_any_Some in E as (p & _ & ->). destruct (IH r) as [k Hk].
  exists (p ++ k). rewrite <- (List.app_assoc p k), <- Hk. done.
Qed.

Lemma trim_loop_stop ps n l : strip_any ps l = None -> trim_loop ps n l = l.
Proof. destruct n; cbn; [done|]. by intros ->. Qed.

Lemma trim_loop_done ps n l :
  Forall (fun p => p <> []) ps -> length l <= n -> strip_any ps (trim_loop ps n l) = None.
Proof.
  intros Hps; revert l; induction n as [|n IH]; intros l Hl; cbn.
  - destruct l; [|cbn in Hl; lia]. apply strip_any_None. intros p r Hp Heq.
    rewrite Forall_forall in Hps. destruct p; [by destruct (Hps [])|done].
  - destruct (strip_any ps l) as [r|] eqn:E; [|done].
    apply strip_any_Some in E as (p & Hp & ->). apply IH.
    rewrite Forall_forall in Hps. specialize (Hps p Hp).
    rewrite length_app in Hl. destruct p; [done|]. cbn in Hl. lia.
Qed.

(** A list that is stripped completely ends with one of the sequences. *)
Lemma trim_loop_nil ps n l :
  trim_loop ps n l = [] -> l <> [] -> exists p k, p ∈ ps /\ l = k ++ p.
Proof.
  revert l; induction n as [|n IH]; intros l; cbn; [done|].
  destruct (strip_any ps l) as [r|] eqn:E; [|done].
  apply strip_any_Some in E as (p & Hp & ->). intros Hr _.
  destruct (decide (r = [])) as [->|Hne].
  - exists p, []. rewrite List.app_nil_r. done.
  - destruct (IH r Hr Hne) as (q & k & Hq & ->). exists q, (p ++ k).
    split; [done|]. apply List.app_assoc.
Qed.

Lemma ws_seqs_nonempty : Forall (fun p => p <> []) ws_seqs.
Proof. repeat constructor; done. Qed.
Lemma ws_seqs_rev_nonempty : Forall (fun p => p <> []) (map (@rev ascii) ws_seqs).
Proof. vm_compute. repeat constructor; done. Qed.

Lemma trim_start_done l : strip_any ws_seqs (trim_start_l l) = None.
Proof. apply trim_loop_done; [apply ws_seqs_nonempty|done]. Qed.

Lemma trim_end_prefix l : exists k, l = trim_end_l l ++ k.
Proof.
  unfold trim_end_l. destruct (trim_loop_suffix (map (@rev ascii) ws_seqs) (length l) (rev l)) as [k Hk].
  exists (rev k). rewrite <- rev_app_distr, <- Hk. by rewrite rev_involutive.
Qed.

Lemma trim_end_done l : strip_any (map (@rev ascii) ws_seqs) (rev (trim_end_l l)) = None.
Proof.
  unfold trim_end_l. rewrite rev_involutive.
  apply trim_loop_done; [apply ws_seqs_rev_nonempty|by rewrite length_rev].
Qed.

Lemma strip_any_None_prefix ps l k : strip_any ps (l ++ k) = None -> strip_any ps l = None.
Proof.
  rewrite !strip_any_None. intros H p r Hp ->. apply (H p (r ++ k) Hp). by rewrite List.app_assoc.
Qed.

Lemma trim_idemp s : trim (trim s) = trim s.
Proof.
  unfold trim. rewrite chars_of_chars. f_equal. set (l := trim_start_l (chars s)).
  assert (Hs : trim_start_l (trim_end_l l) = trim_end_l l).
  { apply trim_loop_stop. destruct (trim_end_prefix l) as [k Hk].
    apply (strip_any_None_prefix _ _ k). rewrite <- Hk. apply trim_start_done. }
  rewrite Hs. unfold trim_end_l at 1. rewrite trim_loop_stop by apply trim_end_done.
  apply rev_involutive.
Qed.

(** A string whose first character is not whitespace does not trim to "". *)
Lemma trim_nonblank s : s <> "" -> strip_any ws_seqs (chars s) = None -> trim s <> "".
Proof.
  intros Hne Hs. unfold trim, trim_start_l. rewrite trim_loop_stop by done.
  intros Heq%(f_equal chars). rewrite chars_of_chars in Heq. cbn in Heq.
  unfold trim_end_l in Heq. apply (f_equal (@rev ascii)) in Heq. rewrite rev_involutive in Heq.
  apply trim_loop_nil in Heq as (p & k & Hp & Hk).
  - apply list_elem_of_In, in_map_iff in Hp as (q & <- & Hq).
    rewrite strip_any_None in Hs. apply (Hs q (rev k)); [by apply list_elem_of_In|].
    rewrite <- (rev_involutive (chars s)), Hk, rev_app_distr. by rewrite rev_involutive.
  - intros Hnil. apply Hne. apply (f_equal (@rev ascii)) in Hnil.
    rewrite rev_involutive in Hnil. rewrite <- (of_chars_chars s), Hnil. done.
Qed.

Lemma is_empty_true s : is_empty s = true <-> s = "".
Proof. destruct s; cbn; naive_solver. Qed.
Lemma is_empty_false s : is_empty s = false <-> s <> "".
Proof. destruct s; cbn; naive_solver. Qed.

Lemma split_l_no_sep c l : c ∉ l -> split_l c l = [l].
Proof.
  induction l as [|x l IH]; cbn; [done|]. intros Hx.
  destruct (Ascii.eqb_spec x c) as [->|]; [destruct Hx; left|].
  rewrite IH; [done|]. intros ?; apply Hx; by right.
Qed.

Lemma split_l_app c l k : c ∉ l -> split_l c (l ++ c :: k) = l :: split_l c k.
Proof.
  induction l as [|x l IH]; cbn; intros Hx; [by rewrite Ascii.eqb_refl|].
  destruct (Ascii.eqb_spec x c) as [->|]; [destruct Hx; left|].
  rewrite IH; [done|]. intros ?; apply Hx; by right.
Qed.

(** The pieces of a split, put together again. *)
Fixpoint glue (c : ascii) (ls : list (list ascii)) : list ascii :=
  match ls with
  | [] => []
  | [l] => l
  | l :: ls => l ++ c :: glue c ls
  end.

Lemma split_l_nonempty c l : split_l c l <> [].
Proof. destruct l as [|x l]; cbn; [done|]. destruct (Ascii.eqb x c); [done|]. by case_match. Qed.

Lemma glue_split c l : glue c (split_l c l) = l.
Proof.
  induction l as [|x l IH]; [done|]. cbn [split_l]. pose proof (split_l_nonempty c l) as Hne.
  destruct (Ascii.eqb_spec x c) as [->|].
  - destruct (split_l c l) as [|h t]; [done|]. cbn [glue List.app]. f_equal. exact IH.
  - destruct (split_l c l) as [|h t]; [done|]. rewrite <- IH. by destruct t.
Qed.

Lemma to_ascii_lowercase_idemp s : to_ascii_lowercase (to_ascii_lowercase s) = to_ascii_lowercase s.
Proof.
  unfold to_ascii_lowercase. rewrite chars_of_chars, map_map. f_equal. apply map_ext.
  by intros [[] [] [] [] [] [] [] []].
Qed.


#[export] Hint Resolve trim_idemp : edge.

(** ** Characters outside every white-space sequence *)

Definition plain (c : ascii) : bool :=
  forallb (fun p => negb (existsb (Ascii.eqb c) p)) ws_seqs.

Lemma plain_spec c p : plain c = true -> p ∈ ws_seqs -> c ∉ p.
Proof.
  unfold plain. rewrite forallb_forall. intros Hc Hp%list_elem_of_In Hin%list_elem_of_In.
  specialize (Hc p Hp). apply negb_true_iff in Hc.
  assert (existsb (Ascii.eqb c) p = true); [|congruence].
  apply existsb_exists. exists c. split; [done|apply Ascii.eqb_refl].
Qed.

Lemma app_plain p r x c (y : list ascii) : c ∉ p -> p ++ r = x ++ c :: y -> exists x', x = p ++ x' /\ r = x' ++ c :: y.
Proof.
  revert x; induction p as [|a p IH]; intros x Hc E; [by exists x|].
  destruct x as [|b x]; cbn in E; injection E as -> E; [destruct Hc; left|].
  destruct (IH x) as (x' & -> & ->); [by intros ?; apply Hc; right|done|]. by exists x'.
Qed.

(** A plain character stops the trimming. *)
Lemma strip_any_plain ps c l : (forall p, p ∈ ps -> p <> [] /\ c ∉ p) -> strip_any ps (c :: l) = None.
Proof.
  intros Hps. apply strip_any_None. intros p r Hp E. destruct (Hps p Hp) as [Hne Hc].
  destruct p as [|a p]; [done|]. injection E as -> E. apply Hc. left.
Qed.

Lemma trim_loop_plain ps n x c y :
  (forall p, p ∈ ps -> c ∉ p) -> exists x', trim_loop ps n (x ++ c :: y) = x' ++ c :: y.
Proof.
  intros Hps. revert x; induction n as [|n IH]; intros x; cbn; [by exists x|].
  destruct (strip_any ps (x ++ c :: y)) as [r|] eqn:E; [|by exists x].
  apply strip_any_Some in E as (p & Hp & E). symmetry in E.
  destruct (app_plain p r x c y (Hps p Hp) E) as (x' & _ & ->). apply IH.
Qed.

Lemma rev_elem_plain c ps : (forall p, p ∈ ps -> c ∉ p) -> forall p, p ∈ map (@rev ascii) ps -> c ∉ p.
Proof.
  intros Hps p (q & <- & Hq%list_elem_of_In)%list_elem_of_In%in_map_iff Hin.
  apply (Hps q Hq). apply list_elem_of_In, in_rev, list_elem_of_In. done.
Qed.

Lemma trim_end_plain p c b : plain c = true -> exists b', trim_end_l (p ++ c :: b) = p ++ c :: b'.
Proof.
  intros Hc. unfold trim_end_l. rewrite rev_app_distr. cbn [rev]. rewrite <- List.app_assoc. cbn [List.app].
  destruct (trim_loop_plain (map (@rev ascii) ws_seqs) (length (p ++ c :: b)) (rev b) c (rev p)) as [x' ->].
  { apply rev_elem_plain. intros q. by apply plain_spec. }
  exists (rev x'). rewrite rev_app_distr. cbn. by rewrite rev_involutive, <- List.app_assoc.
Qed.

Lemma ws_plain c l : plain c = true -> strip_any ws_seqs (c :: l) = None.
Proof.
  intros Hc. apply strip_any_plain. intros p Hp. split; [|by apply plain_spec].
  pose proof ws_seqs_nonempty as Hn. rewrite Forall_forall in Hn. by apply Hn.
Qed.

Lemma trim_start_spaces n c l : plain c = true ->
  trim_start_l (replicate n " "%char ++ c :: l) = c :: l.
Proof.
  intros Hc. unfold trim_start_l. rewrite length_app, length_replicate.
  induction n as [|n IH]; cbn [replicate List.app plus]; [by apply trim_loop_stop, ws_plain|].
  cbn [trim_loop]. assert (E : forall k, strip_any ws_seqs (" "%char :: k) = Some k) by done.
  by rewrite E.
Qed.

(** ** The first word *)

Lemma words_loop_plain w n cur l : forallb plain w = true ->
  words_loop (length w + n) cur (w ++ l) = words_loop n (rev w ++ cur) l.
Proof.
  revert cur; induction w as [|c w IH]; intros cur Hw; [done|]. cbn in Hw. apply andb_true_iff in Hw as [Hc Hw].
  cbn [length plus words_loop List.app]. rewrite ws_plain by done. rewrite IH by done.
  cbn [rev]. by rewrite <- List.app_assoc.
Qed.

Lemma words_loop_head n cur l : cur <> [] ->
  exists t rest, words_loop n cur l = (rev cur ++ t) :: rest.
Proof.
  assert (He : forall k, k <> [] -> emit_word k = [rev k]) by (intros [|? ?] ?; done).
  revert cur l; induction n as [|n IH]; intros cur l Hc; cbn [words_loop].
  - exists [], []. rewrite List.app_nil_r. by apply He.
  - destruct (strip_any ws_seqs l) as [r|].
    { exists [], (words_loop n [] r). rewrite List.app_nil_r. by rewrite (He cur Hc). }
    destruct l as [|c l]; [exists [], []; rewrite List.app_nil_r; by apply He|].
    destruct (IH (c :: cur) l) as (t & rest & E); [done|]. exists (c :: t), rest.
    rewrite E. cbn [rev]. by rewrite <- List.app_assoc.
Qed.

Lemma first_word w l : w <> [] -> forallb plain w = true ->
  exists t rest, split_whitespace (of_chars (w ++ l)) = of_chars (w ++ t) :: rest.
Proof.
  intros Hne Hw. unfold split_whitespace. rewrite chars_of_chars.
  assert (Hlen : forall k, String.length (of_chars k) = length k) by (induction k; cbn; congruence).
  rewrite Hlen, length_app, <- Nat.add_succ_r, words_loop_plain by done.
  destruct (words_loop_head (S (length l)) (rev w ++ []) l) as (t & rest & ->).
  - rewrite List.app_nil_r. intros E. apply Hne. by rewrite <- (rev_involutive w), E.
  - rewrite List.app_nil_r, rev_involutive. by eexists _, _.
Qed.

(** A word, as [split_whitespace] yields them. *)
Definition word (w : list ascii) : Prop := w <> [] /\ forallb plain w = true.

Lemma words_loop_glue ls : Forall word ls -> forall n, (length (glue " "%char ls) < n)%nat ->
  words_loop n [] (glue " "%char ls) = ls.
Proof.
  assert (He : forall w, w <> [] -> emit_word (rev w ++ []) = [w]).
  { intros w Hw. rewrite List.app_nil_r. unfold emit_word. destruct (rev w) eqn:E; [|by rewrite <- E, rev_involutive].
    destruct Hw. by rewrite <- (rev_involutive w), E. }
  induction 1 as [|w ls [Hne Hw] Hls IH]; intros n Hn; [by destruct n|].
  cbn [glue] in *. destruct ls as [|w' ls].
  - replace n with (length w + S (n - length w - 1))%nat by lia.
    pose proof (words_loop_plain w (S (n - length w - 1)) [] [] Hw) as Hp.
    rewrite (List.app_nil_r w) in Hp. rewrite Hp. by apply He.
  - rewrite length_app in Hn. cbn [length] in Hn.
    replace n with (length w + S (n - length w - 1))%nat by lia. rewrite words_loop_plain by done.
    set (rest := glue " "%char (w' :: ls)) in *. cbn [words_loop].
    assert (E : strip_any ws_seqs (" "%char :: rest) = Some rest) by done. rewrite E, He by done.
    rewrite IH by lia. done.
Qed.

Lemma chars_join c ls : chars (join (String c EmptyString) ls) = glue c (chars <$> ls).
Proof.
  induction ls as [|s ls IH]; [done|]. destruct ls as [|s' ls]; [done|].
  change (join (String c "") (s :: s' :: ls)) with (s +:+ String c "" +:+ join (String c "") (s' :: ls)).
  rewrite !chars_app, IH. done.
Qed.

Lemma split_join ws : Forall (word ∘ chars) ws -> split_whitespace (join " " ws) = ws.
Proof.
  intros Hws. unfold split_whitespace. rewrite (chars_join " "%char).
  rewrite words_loop_glue.
  - clear Hws. induction ws as [|s ws IH]; [done|]. rewrite !fmap_cons, IH, of_chars_chars. done.
  - by apply Forall_fmap.
  - rewrite <- (chars_join " "%char). assert (Hl : forall s, String.length s = length (chars s)) by (induction s; cbn; congruence).
    rewrite Hl. lia.
Qed.

(** ** Lines *)

(** A line without a line feed or a carriage return. *)
Definition line_ok (l : string) : Prop := "010"%char ∉ chars l /\ "013"%char ∉ chars l.

Lemma strip_cr_id l : "013"%char ∉ l -> strip_cr l = l.
Proof.
  intros Hl. unfold strip_cr. destruct (rev l) as [|c r] eqn:E; [done|].
  assert (Hc : c ∈ l) by (apply list_elem_of_In, in_rev; rewrite E; apply in_eq).
  destruct c as [[] [] [] [] [] [] [] []]; try done.
Qed.

Lemma lines_of_cons p ps : ps <> [] -> lines_of (p :: ps) = strip_cr p :: lines_of ps.
Proof. by destruct ps. Qed.

(** Lines written one after the other are read back. *)
Lemma lines_concat ls :
  Forall line_ok ls -> lines (concat_str ((fun l => l +:+ newline) <$> ls)) = ls.
Proof.
  unfold lines. induction 1 as [|l ls [Hn Hr] _ IH]; [done|]. cbn [fmap list_fmap concat_str].
  rewrite !chars_app, <- List.app_assoc. change (chars newline) with ["010"%char]. cbn [List.app].
  rewrite split_l_app, lines_of_cons, strip_cr_id by (done || apply split_l_nonempty).
  rewrite fmap_cons, of_chars_chars. f_equal. exact IH.
Qed.

(** ** Numbers as binary text, for the libraries of the examples *)

Fixpoint pos_text (p : positive) : string :=
  match p with
  | xH => ""
  | xO p => String "0"%char (pos_text p)
  | xI p => String "1"%char (pos_text p)
  end.
Fixpoint text_pos (s : string) : option positive :=
  match s with
  | EmptyString => Some xH
  | String c s =>
      p ← text_pos s;
      if Ascii.eqb c "0"%char then Some (xO p) else if Ascii.eqb c "1"%char then Some (xI p) else None
  end.

Lemma text_pos_text p : text_pos (pos_text p) = Some p.
Proof. induction p as [p IH|p IH|]; cbn; rewrite ?IH; done. Qed.
