(* ===== verification/Utf8.v ===== *)
(** UTF-8 as the standard library reads it: which byte strings are texts, and
    [String::from_utf8_lossy]. *)
From Stdlib Require Import Ascii.
From S2P Require Import Prelude Str.
Local Open Scope Z_scope.

Definition within (a b : Z) (c : ascii) : bool := (a <=? byte_of c) && (byte_of c <=? b).
Definition continuation : ascii -> bool := within 128 191.

(** The tests on the bytes after the first one, which sets their number. *)
Definition utf8_tests (c : ascii) : option (list (ascii -> bool)) :=
  let b := byte_of c in
  if b <? 128 then Some []
  else if within 194 223 c then Some [continuation]
  else if b =? 224 then Some [within 160 191; continuation]
  else if b =? 237 then Some [within 128 159; continuation]
  else if within 225 239 c then Some [continuation; continuation]
  else if b =? 240 then Some [within 144 191; continuation; continuation]
  else if within 241 243 c then Some [continuation; continuation; continuation]
  else if b =? 244 then Some [within 128 143; continuation; continuation]
  else None.

(** The bytes that pass their tests, up to the first that does not; whether all
    did; what is left. *)
Fixpoint utf8_take (tests : list (ascii -> bool)) (l : list ascii) : list ascii * bool * list ascii :=
  match tests with
  | [] => ([], true, l)
  | t :: tests =>
      match l with
      | c :: r => if t c then let '(taken, all, r) := utf8_take tests r in (c :: taken, all, r) else ([], false, l)
      | [] => ([], false, [])
      end
  end.

(** The first chunk: a character, or the longest beginning of one, and the rest. *)
Definition utf8_chunk (c : ascii) (r : list ascii) : list ascii * bool * list ascii :=
  match utf8_tests c with
  | Some tests => let '(taken, all, r) := utf8_take tests r in (c :: taken, all, r)
  | None => ([c], false, r)
  end.

(** U+FFFD *)
Definition replacement : list ascii := ["239"; "191"; "189"]%char.

Fixpoint utf8_loop (n : nat) (l : list ascii) : list ascii :=
  match n, l with
  | S n, c :: r =>
      let '(chunk, valid, r) := utf8_chunk c r in
      (if valid then chunk else replacement) ++ utf8_loop n r
  | _, _ => []
  end.
Definition from_utf8_lossy (bytes : string) : string :=
  of_chars (utf8_loop (length (chars bytes)) (chars bytes)).

(** A sequence of characters. *)
Inductive utf8 : list ascii -> Prop :=
  | utf8_nil : utf8 []
  | utf8_char c r chunk rest : utf8_chunk c r = (chunk, true, rest) -> utf8 rest -> utf8 (c :: r).

Fixpoint utf8_check (n : nat) (l : list ascii) : bool :=
  match n, l with
  | _, [] => true
  | S n, c :: r => let '(_, valid, r) := utf8_chunk c r in valid && utf8_check n r
  | O, _ :: _ => false
  end.
(** [str::from_utf8(bytes).is_ok()] *)
Definition is_utf8 (bytes : string) : bool := utf8_check (length (chars bytes)) (chars bytes).

(** ** Lemmas *)

Lemma utf8_take_split tests l taken all r :
  utf8_take tests l = (taken, all, r) -> l = taken ++ r.
Proof.
  revert l taken all r; induction tests as [|t tests IH]; intros l taken all r; cbn; [by intros [= <- <- <-]|].
  destruct l as [|c l]; [by intros [= <- <- <-]|]. destruct (t c); [|by intros [= <- <- <-]].
  destruct (utf8_take tests l) as [[taken' all'] r'] eqn:E. intros [= <- <- <-]. cbn. f_equal. by eapply IH.
Qed.

(** A character is found whatever follows it. *)
Lemma utf8_take_app tests r taken r' k :
  utf8_take tests r = (taken, true, r') -> utf8_take tests (r ++ k) = (taken, true, r' ++ k).
Proof.
  revert r taken r'; induction tests as [|t tests IH]; intros r taken r'; cbn; [by intros [= <- <-]|].
  destruct r as [|x r]; [done|]. cbn. destruct (t x); [|done].
  destruct (utf8_take tests r) as [[taken' all'] r''] eqn:E. intros [= <- -> <-]. by rewrite (IH _ _ _ E).
Qed.
Lemma utf8_take_cut tests r taken r' :
  utf8_take tests r = (taken, true, r') -> utf8_take tests taken = (taken, true, []).
Proof.
  revert r taken r'; induction tests as [|t tests IH]; intros r taken r'; cbn; [by intros [= <- <-]|].
  destruct r as [|x r]; [done|]. destruct (t x) eqn:Ex; [|done].
  destruct (utf8_take tests r) as [[taken' all'] r''] eqn:E. intros [= <- -> <-]. cbn. by rewrite Ex, (IH _ _ _ E).
Qed.

Lemma utf8_chunk_split c r chunk valid rest :
  utf8_chunk c r = (chunk, valid, rest) -> c :: r = chunk ++ rest /\ (length rest <= length r)%nat.
Proof.
  unfold utf8_chunk. destruct (utf8_tests c) as [tests|]; [|intros [= <- <- <-]; auto].
  destruct (utf8_take tests r) as [[taken all] r'] eqn:E. intros [= <- <- <-].
  apply utf8_take_split in E as ->. split; [done|]. rewrite length_app. lia.
Qed.

Lemma utf8_check_spec n l : (length l <= n)%nat -> utf8_check n l = true <-> utf8 l.
Proof.
  revert l; induction n as [|n IH]; intros [|c r] Hn; cbn in *; try lia; [split; [constructor|done]..|].
  destruct (utf8_chunk c r) as [[chunk valid] rest] eqn:E.
  destruct (utf8_chunk_split _ _ _ _ _ E) as [_ Hlen]. rewrite andb_true_iff, IH by lia. split.
  - intros [-> Hr]. by apply (utf8_char c r chunk rest).
  - inversion 1 as [|c' r' chunk' rest' E' Hr]; subst. rewrite E in E'. by injection E' as -> -> ->.
Qed.

Lemma utf8_loop_valid l : utf8 l -> forall n, (length l <= n)%nat -> utf8_loop n l = l.
Proof.
  induction 1 as [|c r chunk rest E _ IH]; intros n Hn; [by destruct n|].
  destruct n as [|n]; cbn in *; [lia|]. destruct (utf8_chunk_split _ _ _ _ _ E) as [Hs Hl].
  rewrite E, IH by lia. by rewrite Hs.
Qed.

Lemma utf8_ascii l : Forall (fun c => byte_of c < 128) l -> utf8 l.
Proof.
  induction 1 as [|c l Hc _ IH]; [constructor|]. apply (utf8_char c l [c] l); [|done].
  unfold utf8_chunk, utf8_tests. apply Z.ltb_lt in Hc. by rewrite Hc.
Qed.

Lemma is_utf8_spec s : is_utf8 s = true <-> utf8 (chars s).
Proof. by apply utf8_check_spec. Qed.

(** A text is what it reads as. *)
Lemma from_utf8_lossy_text s : is_utf8 s = true -> from_utf8_lossy s = s.
Proof. intros Hs%is_utf8_spec. unfold from_utf8_lossy. rewrite utf8_loop_valid by done. apply of_chars_chars. Qed.

Lemma utf8_app l k : utf8 l -> utf8 k -> utf8 (l ++ k).
Proof.
  induction 1 as [|c r chunk rest E _ IH]; intros Hk; [done|]. cbn. apply (utf8_char c (r ++ k) chunk (rest ++ k)); [|by apply IH].
  clear IH. unfold utf8_chunk in *. destruct (utf8_tests c) as [tests|]; [|done].
  destruct (utf8_take tests r) as [[taken all] r'] eqn:Et. injection E as <- -> <-.
  by rewrite (utf8_take_app _ _ _ _ k Et).
Qed.

(** Whatever the bytes are, the result is a text. *)
Lemma from_utf8_lossy_utf8 bytes : is_utf8 (from_utf8_lossy bytes) = true.
Proof.
  apply is_utf8_spec. unfold from_utf8_lossy. rewrite chars_of_chars.
  generalize (length (chars bytes)) as n. intros n. generalize (chars bytes) as l. revert n.
  induction n as [|n IH]; intros [|c r]; cbn; try constructor.
  destruct (utf8_chunk c r) as [[chunk []] rest] eqn:E; apply utf8_app; auto.
  - destruct (utf8_chunk_split _ _ _ _ _ E) as [Hs _].
    unfold utf8_chunk in E. destruct (utf8_tests c) as [tests|] eqn:Et; [|done].
    destruct (utf8_take tests r) as [[taken all] r'] eqn:Ek. injection E as <- -> <-.
    apply (utf8_char c taken (c :: taken) []); [|constructor]. unfold utf8_chunk. rewrite Et.
    by rewrite (utf8_take_cut _ _ _ _ Ek).
  - apply (utf8_check_spec 3); [cbn; lia|by vm_compute].
Qed.
