(* ===== verification/Net.v ===== *)
(** IPv4 addresses ([std::net::Ipv4Addr]) and networks ([ipnet::Ipv4Net]).

    An [Ipv4Addr] is its four octets.  The [ipnet] crate is not part of the
    repository: its operations are the fields of the class [Ipnet], what the
    code relies on is the class [IpnetLaws], and [ipnet_model] is a concrete
    implementation that satisfies the laws. *)
From Stdlib Require Import Ascii Strings.Byte Decimal DecimalString.
From S2P Require Import Prelude Str.
Local Open Scope Z_scope.

#[export] Instance byte_eq_dec : EqDecision byte := Byte.byte_eq_dec.

Record Ipv4Addr := mkIp { oct0 : byte; oct1 : byte; oct2 : byte; oct3 : byte }.

#[export] Instance Ipv4Addr_eq_dec : EqDecision Ipv4Addr.
Proof. solve_decision. Defined.

(** [Ipv4Addr::octets] *)
Definition octets (ip : Ipv4Addr) : list byte := [oct0 ip; oct1 ip; oct2 ip; oct3 ip].

(** The octet as a number. *)
Definition oz (b : byte) : Z := Z.of_N (Byte.to_N b).

(** The octet with the low 8 bits of [z]. *)
Definition zo (z : Z) : byte :=
  match Byte.of_N (Z.to_N (z mod 256)) with Some b => b | None => x00 end.

(** The address as a 32-bit big-endian number. *)
Definition ip_u32 (ip : Ipv4Addr) : Z :=
  oz (oct0 ip) * 2 ^ 24 + oz (oct1 ip) * 2 ^ 16 + oz (oct2 ip) * 2 ^ 8 + oz (oct3 ip).

Definition ip_of_u32 (z : Z) : Ipv4Addr :=
  mkIp (zo (z / 2 ^ 24)) (zo (z / 2 ^ 16)) (zo (z / 2 ^ 8)) (zo z).

(** Short way to write addresses in samples. *)
Definition ip4 (a b c d : Z) : Ipv4Addr := mkIp (zo a) (zo b) (zo c) (zo d).

(** The classification predicates of [std::net::Ipv4Addr]. *)
Definition is_private (ip : Ipv4Addr) : bool :=
  let a := oz (oct0 ip) in let b := oz (oct1 ip) in
  (a =? 10) || (a =? 172) && (16 <=? b) && (b <=? 31) || (a =? 192) && (b =? 168).
Definition is_loopback (ip : Ipv4Addr) : bool := oz (oct0 ip) =? 127.
Definition is_link_local (ip : Ipv4Addr) : bool := (oz (oct0 ip) =? 169) && (oz (oct1 ip) =? 254).
Definition is_multicast (ip : Ipv4Addr) : bool := (224 <=? oz (oct0 ip)) && (oz (oct0 ip) <=? 239).
Definition is_broadcast (ip : Ipv4Addr) : bool := bool_decide (octets ip = [xff; xff; xff; xff]).
Definition is_unspecified (ip : Ipv4Addr) : bool := bool_decide (octets ip = [x00; x00; x00; x00]).

(** [Display for Ipv4Addr] *)
Definition show_octet (b : byte) : string := NilZero.string_of_uint (N.to_uint (Byte.to_N b)).
Definition show_ip (ip : Ipv4Addr) : string :=
  show_octet (oct0 ip) +:+ "." +:+ show_octet (oct1 ip) +:+ "." +:+
  show_octet (oct2 ip) +:+ "." +:+ show_octet (oct3 ip).

(** [FromStr for Ipv4Addr]: four decimal octets, one to three digits each, no
    leading zero, at most 255. *)
Definition digit_val (c : ascii) : N := (N_of_ascii c - 48)%N.
Definition parse_octet (s : string) : option byte :=
  let l := chars s in
  if forallb is_ascii_digit l && (length l <=? 3)%nat
     && match l with [] => false | ["0"%char] => true | "0"%char :: _ => false | _ => true end
  then
    let v := fold_left (fun acc c => acc * 10 + digit_val c)%N l 0%N in
    if (v <=? 255)%N then Byte.of_N v else None
  else None.
Definition parse_ip (s : string) : option Ipv4Addr :=
  match split "."%char s with
  | [a; b; c; d] =>
      a ← parse_octet a; b ← parse_octet b; c ← parse_octet c; d ← parse_octet d;
      Some (mkIp a b c d)
  | _ => None
  end.

Lemma parse_show_octet b : parse_octet (show_octet b) = Some b.
Proof. by destruct b. Qed.

Lemma show_octet_no_dot b : "."%char ∉ chars (show_octet b).
Proof.
  intros H%list_elem_of_In. destruct b; vm_compute in H;
    repeat match goal with H : _ \/ _ |- _ => destruct H as [H|H] end; done.
Qed.

(** The textual form of an address determines it: what the store writes it
    reads back. *)
Lemma parse_show_ip ip : parse_ip (show_ip ip) = Some ip.
Proof.
  destruct ip as [a b c d]. unfold parse_ip, split, show_ip; cbn [oct0 oct1 oct2 oct3].
  rewrite !chars_app. cbn [chars List.app].
  rewrite !split_l_app by apply show_octet_no_dot.
  rewrite split_l_no_sep by apply show_octet_no_dot.
  cbn [fmap list_fmap]. rewrite !of_chars_chars, !parse_show_octet. done.
Qed.

Lemma show_ip_inj ip1 ip2 : show_ip ip1 = show_ip ip2 -> ip1 = ip2.
Proof. intros H%(f_equal parse_ip). rewrite !parse_show_ip in H. congruence. Qed.

#[export] Instance show_ip_Inj : Inj (=) (=) show_ip := show_ip_inj.

(** Decimal digits, and the lists of at most [n] of them. *)
Definition digits : list ascii := chars "0123456789".
Fixpoint digit_lists (n : nat) : list (list ascii) :=
  match n with
  | O => [[]]
  | S n => [] :: (l ← digit_lists n; (fun d => d :: l) <$> digits)
  end.

Lemma digit_lists_complete n l :
  forallb is_ascii_digit l = true -> (length l <= n)%nat -> l ∈ digit_lists n.
Proof.
  revert l; induction n as [|n IH]; intros [|c l] Hl Hn; cbn in Hl, Hn |- *;
    [left|lia|left|right].
  apply andb_true_iff in Hl as [Hc Hl]. apply list_elem_of_bind. exists l.
  split; [|apply IH; [done|lia]].
  destruct c as [[] [] [] [] [] [] [] []]; vm_compute in Hc; try discriminate; cbn;
    repeat first [left | right].
Qed.

(** An octet is read only from its one decimal form. *)
Definition octet_canonical (l : list ascii) : bool :=
  match parse_octet (of_chars l) with
  | Some b => String.eqb (show_octet b) (of_chars l)
  | None => true
  end.

Lemma octets_canonical : forallb octet_canonical (digit_lists 3) = true.
Proof. vm_compute. reflexivity. Qed.

Lemma show_parse_octet s b : parse_octet s = Some b -> show_octet b = s.
Proof.
  intros Hp. assert (Hin : chars s ∈ digit_lists 3).
  { unfold parse_octet in Hp. cbn zeta in Hp.
    destruct (forallb is_ascii_digit (chars s)) eqn:Hd; [|done].
    destruct (Nat.leb_spec (length (chars s)) 3); [|done]. by apply digit_lists_complete. }
  pose proof octets_canonical as Hc. rewrite forallb_forall in Hc.
  apply list_elem_of_In, Hc in Hin. unfold octet_canonical in Hin.
  rewrite of_chars_chars, Hp in Hin. by apply String.eqb_eq.
Qed.

(** An address is read only from the text it prints as. *)
Lemma show_parse_ip s ip : parse_ip s = Some ip -> show_ip ip = s.
Proof.
  unfold parse_ip, split. intros Hp. rewrite <- (of_chars_chars s), <- (glue_split "."%char (chars s)).
  destruct (split_l "."%char (chars s)) as [|a [|b [|c [|d [|]]]]]; try done. cbn [fmap list_fmap] in Hp.
  destruct (parse_octet (of_chars a)) as [oa|] eqn:Ea; [|done].
  destruct (parse_octet (of_chars b)) as [ob|] eqn:Eb; [|done].
  destruct (parse_octet (of_chars c)) as [oc|] eqn:Ec; [|done].
  destruct (parse_octet (of_chars d)) as [od|] eqn:Ed; [|done].
  cbn in Hp. simplify_eq. apply show_parse_octet in Ea, Eb, Ec, Ed.
  unfold show_ip; cbn [oct0 oct1 oct2 oct3 glue]. rewrite Ea, Eb, Ec, Ed.
  do 3 (rewrite of_chars_app; cbn [String.string_of_list_ascii]). reflexivity.
Qed.

Lemma oz_range b : 0 <= oz b < 256.
Proof. destruct b; vm_compute; done. Qed.

Lemma zo_oz b : zo (oz b) = b.
Proof. by destruct b. Qed.

Lemma oz_zo z : oz (zo z) = z mod 256.
Proof.
  unfold zo, oz. pose proof (Z.mod_pos_bound z 256 ltac:(lia)) as Hz.
  destruct (Byte.of_N (Z.to_N (z mod 256))) as [b|] eqn:E.
  - apply Byte.to_of_N in E. rewrite E. lia.
  - apply Byte.of_N_None_iff in E. lia.
Qed.

Lemma ip_u32_range ip : 0 <= ip_u32 ip < 2 ^ 32.
Proof.
  unfold ip_u32. pose proof (oz_range (oct0 ip)). pose proof (oz_range (oct1 ip)).
  pose proof (oz_range (oct2 ip)). pose proof (oz_range (oct3 ip)). lia.
Qed.

Lemma ip_of_u32_u32 ip : ip_of_u32 (ip_u32 ip) = ip.
Proof.
  destruct ip as [a b c d]. unfold ip_of_u32, ip_u32; cbn [oct0 oct1 oct2 oct3].
  pose proof (oz_range a). pose proof (oz_range b). pose proof (oz_range c). pose proof (oz_range d).
  assert (Hz : forall z x, z mod 256 = oz x -> zo z = x).
  { intros z x Hx. rewrite <- (zo_oz x), <- Hx. unfold zo. by rewrite Z.mod_mod. }
  f_equal; apply Hz; Z.div_mod_to_equations; lia.
Qed.

Lemma ip_u32_of_u32 z : 0 <= z < 2 ^ 32 -> ip_u32 (ip_of_u32 z) = z.
Proof.
  intros Hz. unfold ip_u32, ip_of_u32; cbn [oct0 oct1 oct2 oct3]. rewrite !oz_zo.
  Z.div_mod_to_equations; lia.
Qed.

Lemma ip_u32_inj ip1 ip2 : ip_u32 ip1 = ip_u32 ip2 -> ip1 = ip2.
Proof. intros H%(f_equal ip_of_u32). by rewrite !ip_of_u32_u32 in H. Qed.

(** * Networks *)

(** [ipnet::Ipv4Net]: an address and a prefix length. *)
Record Ipv4Net := mkNet { net_addr : Ipv4Addr; prefix_len : Z }.

#[export] Instance Ipv4Net_eq_dec : EqDecision Ipv4Net.
Proof. solve_decision. Defined.

(** The operations of the crate the code calls. *)
Class Ipnet := {
  net_contains : Ipv4Net -> Ipv4Addr -> bool;
  net_network : Ipv4Net -> Ipv4Addr;
  net_broadcast : Ipv4Net -> Ipv4Addr;
  show_net : Ipv4Net -> string;
}.

Definition valid_prefix (n : Ipv4Net) : Prop := 0 <= prefix_len n <= 32.
Definition block_size (n : Ipv4Net) : Z := 2 ^ (32 - prefix_len n).

(** What its documentation says of them, for a valid prefix length. *)
Class IpnetLaws `{Ipnet} : Prop := {
  network_spec n : valid_prefix n ->
    ip_u32 (net_network n) = ip_u32 (net_addr n) - ip_u32 (net_addr n) mod block_size n;
  broadcast_spec n : valid_prefix n ->
    ip_u32 (net_broadcast n) = ip_u32 (net_network n) + block_size n - 1;
  contains_spec n ip : valid_prefix n ->
    net_contains n ip = true <->
    ip_u32 (net_network n) <= ip_u32 ip <= ip_u32 (net_broadcast n);
}.

Definition model_network (n : Ipv4Net) : Ipv4Addr :=
  ip_of_u32 (ip_u32 (net_addr n) - ip_u32 (net_addr n) mod block_size n).
Definition model_broadcast (n : Ipv4Net) : Ipv4Addr :=
  ip_of_u32 (ip_u32 (model_network n) + block_size n - 1).

Definition ipnet_model : Ipnet := {|
  net_contains n ip :=
    (ip_u32 (model_network n) <=? ip_u32 ip) && (ip_u32 ip <=? ip_u32 (model_broadcast n));
  net_network := model_network;
  net_broadcast := model_broadcast;
  show_net n := show_ip (net_addr n) +:+ "/" +:+ show_Z (prefix_len n);
|}.

Lemma block_size_pos n : valid_prefix n -> 0 < block_size n.
Proof. intros []; apply Z.pow_pos_nonneg; lia. Qed.

Lemma block_size_divides n : valid_prefix n -> 2 ^ 32 = 2 ^ prefix_len n * block_size n.
Proof. intros []. unfold block_size. rewrite <- Z.pow_add_r by lia. f_equal. lia. Qed.

Lemma model_network_spec n : valid_prefix n ->
  ip_u32 (model_network n) = ip_u32 (net_addr n) - ip_u32 (net_addr n) mod block_size n.
Proof.
  intros Hp. apply ip_u32_of_u32. pose proof (block_size_pos n Hp) as Hb.
  pose proof (ip_u32_range (net_addr n)) as Hr.
  pose proof (Z.mod_pos_bound (ip_u32 (net_addr n)) _ Hb).
  pose proof (Z.mod_le (ip_u32 (net_addr n)) (block_size n)). lia.
Qed.

Lemma model_broadcast_spec n : valid_prefix n ->
  ip_u32 (model_broadcast n) = ip_u32 (model_network n) + block_size n - 1.
Proof.
  intros Hp. apply ip_u32_of_u32. rewrite model_network_spec by done.
  pose proof (block_size_pos n Hp) as Hb. pose proof (block_size_divides n Hp) as Hd.
  pose proof (ip_u32_range (net_addr n)) as Hr.
  set (a := ip_u32 (net_addr n)) in *. set (b := block_size n) in *.
  assert (Hq : a - a mod b = b * (a / b)) by (pose proof (Z.div_mod a b); lia).
  rewrite Hq. assert (Hlt : a / b < 2 ^ prefix_len n) by (apply Z.div_lt_upper_bound; lia).
  assert (0 <= a / b) by (apply Z.div_pos; lia). nia.
Qed.

Lemma ipnet_model_laws : @IpnetLaws ipnet_model.
Proof.
  constructor; cbn.
  - apply model_network_spec.
  - apply model_broadcast_spec.
  - intros n ip Hp. rewrite andb_true_iff, !Z.leb_le. done.
Qed.
