(* ===== verification/Net6.v ===== *)
(** [std::net]: IPv6 addresses, their text, and socket addresses. *)
From Stdlib Require Import Ascii Strings.Byte.
From S2P Require Import Prelude Str Net.
Local Open Scope Z_scope.

(** Eight 16-bit segments. *)
Record Ipv6Addr := mkIp6 { segments : list Z }.
Inductive IpAddr := V4 (ip : Ipv4Addr) | V6 (ip : Ipv6Addr).
Inductive SocketAddr :=
  | SockV4 (ip : Ipv4Addr) (port : Z)
  | SockV6 (ip : Ipv6Addr) (port scope : Z).

#[export] Instance Ipv6Addr_eq_dec : EqDecision Ipv6Addr.
Proof. solve_decision. Defined.
#[export] Instance IpAddr_eq_dec : EqDecision IpAddr.
Proof. solve_decision. Defined.

Definition is_unspecified6 (ip : Ipv6Addr) : bool := bool_decide (segments ip = repeat 0 8).
Definition socket_ip (a : SocketAddr) : IpAddr :=
  match a with SockV4 ip _ => V4 ip | SockV6 ip _ _ => V6 ip end.
Definition ip_unspecified (ip : IpAddr) : bool :=
  match ip with V4 ip => is_unspecified ip | V6 ip => is_unspecified6 ip end.

(** ** Display *)

Definition hex_digit (z : Z) : ascii := ascii_of_N (Z.to_N (if z <? 10 then 48 + z else 87 + z)).
Fixpoint hex_loop (n : nat) (z : Z) (acc : list ascii) : list ascii :=
  match n with
  | O => acc
  | S n => let acc := hex_digit (z mod 16) :: acc in if z / 16 =? 0 then acc else hex_loop n (z / 16) acc
  end.
(** [{:x}] of a [u16] *)
Definition show_hex (z : Z) : string := of_chars (hex_loop 4 z []).
Definition show_segments (l : list Z) : string := join ":" (show_hex <$> l).

(** The first longest run of zeros: its start and length. *)
Fixpoint zero_run (i : nat) (cur best : nat * nat) (l : list Z) : nat * nat :=
  match l with
  | [] => best
  | z :: l =>
      if z =? 0 then
        let cur := (if (cur.2 =? 0)%nat then i else cur.1, S cur.2) in
        zero_run (S i) cur (if (best.2 <? cur.2)%nat then cur else best) l
      else zero_run (S i) (0%nat, 0%nat) best l
  end.
Definition show_ip6 (ip : Ipv6Addr) : string :=
  match segments ip with
  | [0; 0; 0; 0; 0; 65535; a; b] => "::ffff:" +:+ show_ip (ip4 (a / 256) (a mod 256) (b / 256) (b mod 256))
  | l =>
      let '(start, len) := zero_run 0 (0%nat, 0%nat) (0%nat, 0%nat) l in
      if (1 <? len)%nat then show_segments (take start l) +:+ "::" +:+ show_segments (drop (start + len) l)
      else show_segments l
  end.
Definition show_ip_addr (ip : IpAddr) : string := match ip with V4 ip => show_ip ip | V6 ip => show_ip6 ip end.
Definition show_socket (a : SocketAddr) : string :=
  match a with
  | SockV4 ip port => show_ip ip +:+ ":" +:+ show_Z port
  | SockV6 ip port scope =>
      "[" +:+ show_ip6 ip +:+ (if scope =? 0 then "" else "%" +:+ show_Z scope) +:+ "]:" +:+ show_Z port
  end.

(** ** Reading

    A reader takes the beginning of the text and gives what is left of it. *)

Abbreviation Reader A := (list ascii -> option (A * list ascii)).

Fixpoint span (f : ascii -> bool) (l : list ascii) : list ascii * list ascii :=
  match l with
  | c :: r => if f c then let '(a, b) := span f r in (c :: a, b) else ([], l)
  | [] => ([], [])
  end.
Definition hex_value (c : ascii) : option Z :=
  let b := byte_of c in
  if (48 <=? b) && (b <=? 57) then Some (b - 48)
  else if (97 <=? b) && (b <=? 102) then Some (b - 87)
  else if (65 <=? b) && (b <=? 70) then Some (b - 55) else None.
Definition is_hex (c : ascii) : bool := bool_decide (is_Some (hex_value c)).

(** At most four hexadecimal digits. *)
Definition read_group : Reader Z := fun l =>
  let '(d, r) := span is_hex l in
  if bool_decide (1 <= length d <= 4)%nat
  then Some (foldl (fun n c => 16 * n + default 0 (hex_value c)) 0 d, r) else None.
Definition read_octet : Reader byte := fun l =>
  let '(d, r) := span is_ascii_digit l in
  o ← parse_octet (of_chars d); Some (o, r).
Definition read_char (c : ascii) : Reader unit := fun l =>
  match l with d :: r => if Ascii.eqb c d then Some (tt, r) else None | [] => None end.
(** [read_separator] *)
Definition separated {A} (c : ascii) (i : nat) (inner : Reader A) : Reader A := fun l =>
  match i with O => inner l | S _ => '(_, r) ← read_char c l; inner r end.

Definition read_ipv4 : Reader Ipv4Addr := fun l =>
  '(a, l) ← read_octet l;
  '(b, l) ← separated "." 1 read_octet l;
  '(c, l) ← separated "." 2 read_octet l;
  '(d, l) ← separated "." 3 read_octet l;
  Some (mkIp a b c d, l).

(** Up to [n] groups, the last two possibly an IPv4 address; whether they were. *)
Fixpoint read_groups (n i : nat) (l : list ascii) : list Z * bool * list ascii :=
  match n with
  | O => ([], false, l)
  | S n =>
      match (if (0 <? n)%nat then separated ":" i read_ipv4 l else None) with
      | Some (ip, r) =>
          ([256 * oz (oct0 ip) + oz (oct1 ip); 256 * oz (oct2 ip) + oz (oct3 ip)], true, r)
      | None =>
          match separated ":" i read_group l with
          | Some (g, r) => let '(gs, v4, r) := read_groups n (S i) r in (g :: gs, v4, r)
          | None => ([], false, l)
          end
      end
  end.
Definition read_ipv6 : Reader Ipv6Addr := fun l =>
  let '(head, v4, r) := read_groups 8 0 l in
  if (length head =? 8)%nat then Some (mkIp6 head, r)
  else if v4 : bool then None
  else
    '(_, r) ← read_char ":" r;
    '(_, r) ← read_char ":" r;
    let '(tail, _, r) := read_groups (8 - (length head + 1)) 0 r in
    Some (mkIp6 (head ++ repeat 0 (8 - length head - length tail) ++ tail), r).

(** [s.parse::<IpAddr>()] *)
Definition parse_ip_addr (s : string) : option IpAddr :=
  let read := match read_ipv4 (chars s) with
    | Some (ip, r) => Some (V4 ip, r)
    | None => '(ip, r) ← read_ipv6 (chars s); Some (V6 ip, r)
    end in
  match read with Some (ip, []) => Some ip | _ => None end.

Example parse_loopback6 : parse_ip_addr "::1" = Some (V6 (mkIp6 [0; 0; 0; 0; 0; 0; 0; 1])).
Proof. reflexivity. Qed.
Example parse_mapped6 : parse_ip_addr "::ffff:10.0.0.1" = Some (V6 (mkIp6 [0; 0; 0; 0; 0; 65535; 2560; 1])).
Proof. reflexivity. Qed.
Example parse_short6 : parse_ip_addr "fd00:1::A:2" = Some (V6 (mkIp6 [64768; 1; 0; 0; 0; 0; 10; 2])).
Proof. reflexivity. Qed.
Example parse_long6 : parse_ip_addr "1:2:3:4:5:6:7:8:9" = None.
Proof. reflexivity. Qed.
Example show_short6 : show_ip6 (mkIp6 [64768; 1; 0; 0; 0; 0; 10; 2]) = "fd00:1::a:2".
Proof. reflexivity. Qed.
Example show_unspecified6 : show_socket (SockV6 (mkIp6 (repeat 0 8)) 8443 0) = "[::]:8443".
Proof. reflexivity. Qed.

(** ** Addresses that are read are addresses *)

Definition segment_ok (z : Z) : Prop := 0 <= z < 65536.
Definition ip6_wf (ip : Ipv6Addr) : Prop := length (segments ip) = 8%nat /\ Forall segment_ok (segments ip).

Lemma hex_value_range c z : hex_value c = Some z -> 0 <= z < 16.
Proof.
  unfold hex_value. repeat case_match; intros [= <-];
    repeat match goal with H : _ && _ = true |- _ => apply andb_true_iff in H as [?%Z.leb_le ?%Z.leb_le] end; lia.
Qed.

Lemma hex_digits_range d : forall n, 0 <= n ->
  0 <= foldl (fun n c => 16 * n + default 0 (hex_value c)) n d < (n + 1) * 16 ^ Z.of_nat (length d).
Proof.
  induction d as [|c d IH]; intros n Hn; cbn [foldl length]; [lia|].
  assert (Hc : 0 <= default 0 (hex_value c) < 16).
  { destruct (hex_value c) eqn:E; cbn; [by eapply hex_value_range|lia]. }
  rewrite Nat2Z.inj_succ, Z.pow_succ_r by lia.
  specialize (IH (16 * n + default 0 (hex_value c)) ltac:(lia)). nia.
Qed.

Lemma read_group_ok l g r : read_group l = Some (g, r) -> segment_ok g.
Proof.
  unfold read_group. destruct (span is_hex l) as [d r']. case_bool_decide as Hd; [|done]. intros [= <- <-].
  pose proof (hex_digits_range d 0 ltac:(lia)) as Hr.
  assert (16 ^ Z.of_nat (length d) <= 16 ^ 4) by (apply Z.pow_le_mono_r; lia).
  unfold segment_ok. change (16 ^ 4) with 65536 in *. lia.
Qed.

Lemma read_groups_ok n : forall i l gs v4 r, read_groups n i l = (gs, v4, r) ->
  (length gs <= n)%nat /\ Forall segment_ok gs.
Proof.
  induction n as [|n IH]; intros i l gs v4 r; cbn [read_groups]; [intros [= <- <- <-]; split; [done|constructor]|].
  destruct (if (0 <? n)%nat then _ else _) as [[ip r']|] eqn:E.
  { intros [= <- <- <-]. destruct (0 <? n)%nat eqn:Hn; [|done]. apply Nat.ltb_lt in Hn.
    pose proof (oz_range (oct0 ip)). pose proof (oz_range (oct1 ip)).
    pose proof (oz_range (oct2 ip)). pose proof (oz_range (oct3 ip)).
    split; [cbn; lia|]. repeat constructor; lia. }
  destruct (separated ":" i read_group l) as [[g r']|] eqn:Eg; [|intros [= <- <- <-]; cbn; split; [lia|constructor]].
  destruct (read_groups n (S i) r') as [[gs' v4'] r''] eqn:Er. intros [= <- <- <-].
  destruct (IH _ _ _ _ _ Er) as [Hlen Hall]. split; [cbn; lia|]. constructor; [|done].
  unfold separated in Eg. destruct i; [by eapply read_group_ok|].
  destruct (read_char ":" l) as [[[] l']|]; [by eapply read_group_ok|done].
Qed.

Lemma read_ipv6_wf l ip r : read_ipv6 l = Some (ip, r) -> ip6_wf ip.
Proof.
  unfold read_ipv6. destruct (read_groups 8 0 l) as [[head v4] r1] eqn:Eh.
  destruct (read_groups_ok _ _ _ _ _ _ Eh) as [Hlen Hhead].
  destruct (Nat.eqb_spec (length head) 8) as [H8|H8]; [intros [= <- <-]; by split|].
  destruct v4; [done|]. destruct (read_char ":" r1) as [[[] r2]|]; [|done]. cbn [mbind option_bind].
  destruct (read_char ":" r2) as [[[] r3]|]; [|done]. cbn [mbind option_bind].
  destruct (read_groups (8 - (length head + 1)) 0 r3) as [[tail v4] r4] eqn:Et. intros [= <- <-].
  destruct (read_groups_ok _ _ _ _ _ _ Et) as [Hlen' Htail]. split; cbn [segments].
  - rewrite !length_app, repeat_length. lia.
  - rewrite !Forall_app. split_and!; [done| |done]. apply Forall_forall. intros z Hz%list_elem_of_In%repeat_spec.
    subst. unfold segment_ok. lia.
Qed.

(** What a program may pass on as an address has eight 16-bit segments. *)
Lemma parse_ip_addr_wf s ip : parse_ip_addr s = Some (V6 ip) -> ip6_wf ip.
Proof.
  unfold parse_ip_addr. destruct (read_ipv4 (chars s)) as [[ip4 r]|]; [by destruct r|].
  destruct (read_ipv6 (chars s)) as [[ip6 r]|] eqn:E; [|done]. cbn. destruct r; [|done]. intros [= <-].
  by eapply read_ipv6_wf.
Qed.
