(* ===== verification/BTree.v ===== *)
(** [std::collections::BTreeMap<String, V>]: entries in strictly increasing
    key order (byte-wise, as Rust orders strings), and its view as a finite
    map. *)
From S2P Require Import Prelude Str.

Definition key_lt (a b : string) : Prop := String.compare a b = Lt.

Lemma compare_refl a : String.compare a a = Eq.
Proof. pose proof (String.compare_antisym a a). by destruct (String.compare a a). Qed.

Lemma key_lt_le a b : key_lt a b <-> String.le a b /\ a <> b.
Proof.
  unfold key_lt, String.le, String.leb. split.
  - intros H. rewrite H. split; [done|]. intros ->.
    by rewrite compare_refl in H.
  - intros [H Hne]. destruct (String.compare a b) eqn:E; [|done|done].
    by apply String.compare_eq_iff in E.
Qed.

Lemma key_lt_trans a b c : key_lt a b -> key_lt b c -> key_lt a c.
Proof.
  rewrite !key_lt_le. intros [Hab Hn] [Hbc Hm]. split; [by transitivity b|].
  intros ->. apply Hn. by apply (anti_symm String.le).
Qed.

Lemma key_lt_irrefl a : ~ key_lt a a.
Proof. rewrite key_lt_le. naive_solver. Qed.

Lemma compare_Gt a b : String.compare a b = Gt -> key_lt b a.
Proof. intros H. unfold key_lt. by rewrite String.compare_antisym, H. Qed.

Section btree.
Context {V : Type}.
Implicit Types l : list (string * V).

(** [BTreeMap::insert] *)
Fixpoint bt_insert (k : string) (v : V) l : list (string * V) :=
  match l with
  | [] => [(k, v)]
  | (k', v') :: t =>
      match String.compare k k' with
      | Lt => (k, v) :: l
      | Eq => (k, v) :: t
      | Gt => (k', v') :: bt_insert k v t
      end
  end.

(** [BTreeMap::get] *)
Fixpoint bt_get (k : string) l : option V :=
  match l with
  | [] => None
  | (k', v') :: t => if decide (k = k') then Some v' else bt_get k t
  end.

(** [BTreeMap::remove] *)
Fixpoint bt_remove (k : string) l : list (string * V) :=
  match l with
  | [] => []
  | (k', v') :: t => if decide (k = k') then t else (k', v') :: bt_remove k t
  end.

Definition bt_values l : list V := snd <$> l.

(** The ordering invariant of the map. *)
Definition bt_wf l : Prop := pairwise (fun a b => key_lt a.1 b.1) l.

Lemma bt_wf_nil : bt_wf [].
Proof. constructor. Qed.

Lemma bt_wf_cons k v l : bt_wf ((k, v) :: l) <-> Forall (fun b => key_lt k b.1) l /\ bt_wf l.
Proof. apply pairwise_cons. Qed.

Lemma bt_get_insert k k' v l :
  bt_get k' (bt_insert k v l) = if decide (k = k') then Some v else bt_get k' l.
Proof.
  induction l as [|[j w] t IH]; cbn; [repeat case_decide; congruence|].
  destruct (String.compare k j) eqn:E; cbn.
  - apply String.compare_eq_iff in E as ->. repeat case_decide; congruence.
  - repeat case_decide; congruence.
  - rewrite IH. apply compare_Gt in E.
    repeat case_decide; subst; try done. by destruct (key_lt_irrefl j).
Qed.

Lemma bt_insert_elem k v l x : x ∈ bt_insert k v l -> x = (k, v) \/ x ∈ l.
Proof.
  induction l as [|[j w] t IH]; cbn; [set_solver|].
  destruct (String.compare k j); set_solver.
Qed.

Lemma bt_insert_wf k v l : bt_wf l -> bt_wf (bt_insert k v l).
Proof.
  induction l as [|[j w] t IH]; cbn [bt_insert].
  - intros _. apply bt_wf_cons. split; [constructor|apply bt_wf_nil].
  - intros Hwf. pose proof Hwf as [Hj Ht]%bt_wf_cons.
    destruct (String.compare k j) eqn:E.
    + apply String.compare_eq_iff in E as ->. by apply bt_wf_cons.
    + apply bt_wf_cons. split; [|done]. constructor; [done|].
      eapply Forall_impl; [apply Hj|]. intros [i u]; cbn. by apply key_lt_trans.
    + apply bt_wf_cons. split; [|auto]. apply Forall_forall. intros x Hx.
      apply bt_insert_elem in Hx as [->|Hx]; [by apply compare_Gt|].
      rewrite Forall_forall in Hj; auto.
Qed.

Lemma bt_remove_elem k l x : x ∈ bt_remove k l -> x ∈ l.
Proof. induction l as [|[j w] t IH]; cbn; [done|]. case_decide; set_solver. Qed.

Lemma bt_remove_wf k l : bt_wf l -> bt_wf (bt_remove k l).
Proof.
  induction l as [|[j w] t IH]; [done|]. intros [Hj Ht]%bt_wf_cons. cbn [bt_remove].
  case_decide; [done|]. apply bt_wf_cons. split; [|auto].
  apply Forall_forall. intros x Hx%bt_remove_elem. rewrite Forall_forall in Hj; auto.
Qed.

Lemma bt_get_elem k v l : bt_get k l = Some v -> (k, v) ∈ l.
Proof. induction l as [|[j w] t IH]; cbn; [done|]. case_decide; set_solver. Qed.

Lemma bt_elem_get k v l : bt_wf l -> (k, v) ∈ l -> bt_get k l = Some v.
Proof.
  induction l as [|[j w] t IH]; [intros _ []%not_elem_of_nil|].
  intros [Hj Ht]%bt_wf_cons Hx. cbn [bt_get]. apply elem_of_cons in Hx as [[= -> ->]|Hx].
  - by case_decide.
  - case_decide as Hkj; [subst|auto]. rewrite Forall_forall in Hj.
    destruct (key_lt_irrefl j). by apply (Hj (j, v)).
Qed.

Lemma bt_get_None_below k l : Forall (fun b => key_lt k b.1) l -> bt_get k l = None.
Proof.
  induction 1 as [|[j w] t Hk _ IH]; cbn; [done|].
  case_decide as Hkj; [subst|done]. by apply key_lt_irrefl in Hk.
Qed.

Lemma bt_get_remove k k' l :
  bt_wf l -> bt_get k' (bt_remove k l) = if decide (k = k') then None else bt_get k' l.
Proof.
  induction l as [|[j w] t IH]; [by case_decide|].
  intros [Hj Ht]%bt_wf_cons. cbn [bt_remove].
  destruct (decide (k = j)) as [->|Hkj].
  - cbn [bt_get]. case_decide as E; [subst|by case_decide].
    by apply bt_get_None_below.
  - cbn [bt_get]. rewrite IH by done. repeat case_decide; congruence.
Qed.

(** The map the ordered entries stand for. *)
Definition bt_map l : gmap string V := list_to_map l.
#[global] Arguments bt_map : simpl never.

Lemma bt_map_lookup l k : bt_map l !! k = bt_get k l.
Proof.
  induction l as [|[j w] t IH]; [apply lookup_empty|].
  unfold bt_map in *; cbn. case_decide as E; [subst; by rewrite lookup_insert_eq|].
  by rewrite lookup_insert_ne.
Qed.

Lemma bt_map_insert k v l : bt_map (bt_insert k v l) = <[k:=v]> (bt_map l).
Proof.
  apply map_eq; intros i. rewrite bt_map_lookup, bt_get_insert, lookup_insert, bt_map_lookup.
  by repeat case_decide.
Qed.

Lemma bt_map_remove k l : bt_wf l -> bt_map (bt_remove k l) = delete k (bt_map l).
Proof.
  intros Hwf. apply map_eq; intros i.
  rewrite bt_map_lookup, bt_get_remove, lookup_delete, bt_map_lookup by done.
  by repeat case_decide.
Qed.

Lemma bt_values_elem v l : bt_wf l -> v ∈ bt_values l <-> exists k, bt_get k l = Some v.
Proof.
  intros Hwf. unfold bt_values. rewrite list_elem_of_fmap. split.
  - intros ([k w] & -> & Hx). exists k. by apply bt_elem_get.
  - intros [k Hk]. exists (k, v). split; [done|]. by apply bt_get_elem.
Qed.
End btree.

#[export] Hint Resolve bt_wf_nil bt_insert_wf bt_remove_wf : edge.
