(* ===== verification/Core.v ===== *)
(** The data model of [edge-core]: [errors.rs] and [mapping.rs]. *)
From Stdlib Require Import Ascii.
From S2P Require Import Prelude Str Net.
Local Open Scope Z_scope.

(** [MappingId(String)] *)
Abbreviation MappingId := string.

(** ** errors.rs *)
Inductive EdgeCoreError :=
  | Validation (message : string)
  | NotFound (id : MappingId)
  | DuplicatePublicIp (ip : Ipv4Addr)
  | DuplicateEdgePrivateIp (ip : Ipv4Addr)
  | DuplicateTargetIp (ip : Ipv4Addr)
  | DuplicateMappingId (id : MappingId)
  | StoreError (message : string).

(** [Display for EdgeCoreError], from the [#[error(..)]] attributes. *)
Definition show_core_error (e : EdgeCoreError) : string :=
  match e with
  | Validation m => "validation failed: " +:+ m
  | NotFound id => "mapping not found: " +:+ id
  | DuplicatePublicIp ip => "public IP already mapped: " +:+ show_ip ip
  | DuplicateEdgePrivateIp ip => "edge private IP already mapped: " +:+ show_ip ip
  | DuplicateTargetIp ip => "target IP already mapped: " +:+ show_ip ip
  | DuplicateMappingId id => "mapping id already exists: " +:+ id
  | StoreError m => "store error: " +:+ m
  end.

(** ** mapping.rs *)

(** [MappingId::from_str] *)
Definition mapping_id_from_str (value : string) : Result EdgeCoreError MappingId :=
  let trimmed := trim value in
  if is_empty trimmed then Err (Validation "mapping id cannot be empty") else Ok trimmed.

(** [MappingId::new]; [uuid] is the hyphen-free form of a fresh v4 UUID. *)
Definition mapping_id_new (uuid : string) : MappingId := "map_" +:+ uuid.

Inductive Protocol := All | Tcp | Udp.
Inductive MappingMode := OneToOneSnat | PortForwardSnat.
Inductive MappingBackend := Nft | Xdp | Proxy.
Inductive MappingStatus := Pending | Active | Disabled | Degraded | Error.
Inductive OciAuthMode := InstancePrincipal | ApiKey.

#[export] Instance Protocol_eq_dec : EqDecision Protocol.
Proof. solve_decision. Defined.
#[export] Instance MappingMode_eq_dec : EqDecision MappingMode.
Proof. solve_decision. Defined.
#[export] Instance MappingBackend_eq_dec : EqDecision MappingBackend.
Proof. solve_decision. Defined.
#[export] Instance MappingStatus_eq_dec : EqDecision MappingStatus.
Proof. solve_decision. Defined.
#[export] Instance OciAuthMode_eq_dec : EqDecision OciAuthMode.
Proof. solve_decision. Defined.

(** [#[default]] variants *)
Definition default_protocol : Protocol := All.
Definition default_mode : MappingMode := OneToOneSnat.
Definition default_backend : MappingBackend := Nft.
Definition default_status : MappingStatus := Pending.
Definition default_auth : OciAuthMode := InstancePrincipal.

(** An enum that serialises as a string ([#[serde(rename_all = "snake_case")]]):
    its variants with their wire names, each name naming one variant. *)
Class WireEnum (T : Type) := {
  wire_eq_dec :: EqDecision T;
  variants : list T;
  wire : T -> string;
  variants_complete : forall t, t ∈ variants;
  wire_inj : forall t u, wire t = wire u -> t = u;
}.

#[global] Arguments wire : simpl never.

(** [Deserialize]: the variant with that name. *)
Definition from_wire {T} `{WireEnum T} (s : string) : option T :=
  snd <$> list_find (fun t => wire t = s) variants.

Lemma from_wire_wire {T} `{WireEnum T} (t : T) : from_wire (wire t) = Some t.
Proof.
  unfold from_wire. destruct (list_find (fun u => wire u = wire t) variants) as [[i u]|] eqn:E; cbn.
  - apply list_find_Some in E as (_ & Hu & _). apply wire_inj in Hu. by subst.
  - apply list_find_None in E. rewrite Forall_forall in E.
    by destruct (E t (variants_complete t)).
Qed.

Lemma wire_from_wire {T} `{WireEnum T} (s : string) (t : T) : from_wire s = Some t -> wire t = s.
Proof.
  unfold from_wire. destruct (list_find (fun u => wire u = s) variants) as [[i u]|] eqn:E; [|done].
  cbn. intros [= <-]. by apply list_find_Some in E as (_ & Hu & _).
Qed.

Ltac solve_variants := intros []; set_solver.
Ltac solve_wire_inj := intros [] []; vm_compute; congruence.

Definition protocol_wire (p : Protocol) : string :=
  match p with All => "all" | Tcp => "tcp" | Udp => "udp" end.
#[export] Program Instance Protocol_wire : WireEnum Protocol :=
  {| variants := [All; Tcp; Udp]; wire := protocol_wire |}.
Next Obligation. solve_variants. Qed.
Next Obligation. solve_wire_inj. Qed.

Definition mode_wire (m : MappingMode) : string :=
  match m with OneToOneSnat => "one_to_one_snat" | PortForwardSnat => "port_forward_snat" end.
#[export] Program Instance MappingMode_wire : WireEnum MappingMode :=
  {| variants := [OneToOneSnat; PortForwardSnat]; wire := mode_wire |}.
Next Obligation. solve_variants. Qed.
Next Obligation. solve_wire_inj. Qed.

Definition backend_wire (b : MappingBackend) : string :=
  match b with Nft => "nft" | Xdp => "xdp" | Proxy => "proxy" end.
#[export] Program Instance MappingBackend_wire : WireEnum MappingBackend :=
  {| variants := [Nft; Xdp; Proxy]; wire := backend_wire |}.
Next Obligation. solve_variants. Qed.
Next Obligation. solve_wire_inj. Qed.

Definition status_wire (s : MappingStatus) : string :=
  match s with
  | Pending => "pending" | Active => "active" | Disabled => "disabled"
  | Degraded => "degraded" | Error => "error"
  end.
#[export] Program Instance MappingStatus_wire : WireEnum MappingStatus :=
  {| variants := [Pending; Active; Disabled; Degraded; Error]; wire := status_wire |}.
Next Obligation. solve_variants. Qed.
Next Obligation. solve_wire_inj. Qed.

Definition auth_wire (a : OciAuthMode) : string :=
  match a with InstancePrincipal => "instance_principal" | ApiKey => "api_key" end.
#[export] Program Instance OciAuthMode_wire : WireEnum OciAuthMode :=
  {| variants := [InstancePrincipal; ApiKey]; wire := auth_wire |}.
Next Obligation. solve_variants. Qed.
Next Obligation. solve_wire_inj. Qed.

(** The [FromStr] implementations: trimmed, ASCII case ignored. *)
Definition protocol_from_str (value : string) : Result EdgeCoreError Protocol :=
  let v := to_ascii_lowercase (trim value) in
  if bool_decide (v = "all") then Ok All
  else if bool_decide (v = "tcp") then Ok Tcp
  else if bool_decide (v = "udp") then Ok Udp
  else Err (Validation ("unsupported protocol: " +:+ v)).
Definition mode_from_str (value : string) : Result EdgeCoreError MappingMode :=
  let v := to_ascii_lowercase (trim value) in
  if bool_decide (v = "one_to_one_snat") then Ok OneToOneSnat
  else if bool_decide (v = "port_forward_snat") then Ok PortForwardSnat
  else Err (Validation ("unsupported mapping mode: " +:+ v)).
Definition backend_from_str (value : string) : Result EdgeCoreError MappingBackend :=
  let v := to_ascii_lowercase (trim value) in
  if bool_decide (v = "nft") then Ok Nft
  else if bool_decide (v = "xdp") then Ok Xdp
  else if bool_decide (v = "proxy") then Ok Proxy
  else Err (Validation ("unsupported mapping backend: " +:+ v)).
Definition auth_from_str (value : string) : Result EdgeCoreError OciAuthMode :=
  let v := to_ascii_lowercase (trim value) in
  if bool_decide (v = "instance_principal") then Ok InstancePrincipal
  else if bool_decide (v = "api_key") then Ok ApiKey
  else Err (Validation ("unsupported OCI auth mode: " +:+ v)).

(** [EdgeConfig] *)
Record EdgeConfig := mkConfig {
  wan_interface : string;
  netbird_interface : string;
  target_cidrs : list Ipv4Net;
  oci_compartment_id : option string;
  oci_vnic_id : option string;
  oci_subnet_id : option string;
  oci_nsg_ids : list string;
  oci_region : option string;
  oci_auth : OciAuthMode;
  api_token : option string;
}.

(** [EdgeConfig::new] *)
Definition config_new (wan netbird : string) (cidrs : list Ipv4Net) : EdgeConfig := {|
  wan_interface := wan;
  netbird_interface := netbird;
  target_cidrs := cidrs;
  oci_compartment_id := None;
  oci_vnic_id := None;
  oci_subnet_id := None;
  oci_nsg_ids := [];
  oci_region := None;
  oci_auth := default_auth;
  api_token := None;
|}.

(** [EdgeConfig::contains_target] *)
Definition contains_target `{Ipnet} (c : EdgeConfig) (ip : Ipv4Addr) : bool :=
  existsb (fun cidr => net_contains cidr ip) (target_cidrs c).

(** A point in time ([time::OffsetDateTime]) in nanoseconds since the epoch. *)
Abbreviation Time := Z.

(** [Mapping]; the ports are [u16] values. *)
Record Mapping := mkMapping {
  id : MappingId;
  name : string;
  public_ip : option Ipv4Addr;
  oci_public_ip_ocid : option string;
  edge_private_ip : Ipv4Addr;
  oci_private_ip_ocid : option string;
  target_ip : Ipv4Addr;
  public_port : option Z;
  target_port : option Z;
  protocol : Protocol;
  mode : MappingMode;
  backend : MappingBackend;
  enabled : bool;
  status : MappingStatus;
  last_error : option string;
  health_status : option string;
  last_checked_at : option Time;
  created_at : Time;
  updated_at : Time;
}.

#[export] Instance Mapping_eq_dec : EqDecision Mapping.
Proof. solve_decision. Defined.

(** [Mapping::new]; [fresh] is the id of [MappingId::new], [now] the clock. *)
Definition mapping_new (fresh : MappingId) (now : Time) (nm : string)
    (public : option Ipv4Addr) (edge target : Ipv4Addr) : Mapping := {|
  id := fresh;
  name := nm;
  public_ip := public;
  oci_public_ip_ocid := None;
  edge_private_ip := edge;
  oci_private_ip_ocid := None;
  target_ip := target;
  public_port := None;
  target_port := None;
  protocol := default_protocol;
  mode := default_mode;
  backend := default_backend;
  enabled := true;
  status := default_status;
  last_error := None;
  health_status := None;
  last_checked_at := None;
  created_at := now;
  updated_at := now;
|}.

(** Field assignments used by the operations. *)
Definition set_id (m : Mapping) (i : MappingId) : Mapping :=
  mkMapping i (name m) (public_ip m) (oci_public_ip_ocid m) (edge_private_ip m)
    (oci_private_ip_ocid m) (target_ip m) (public_port m) (target_port m) (protocol m) (mode m)
    (backend m) (enabled m) (status m) (last_error m) (health_status m) (last_checked_at m)
    (created_at m) (updated_at m).
Definition set_endpoints (m : Mapping) (pp tp : option Z) (md : MappingMode) (pr : Protocol)
    (be : MappingBackend) : Mapping :=
  mkMapping (id m) (name m) (public_ip m) (oci_public_ip_ocid m) (edge_private_ip m)
    (oci_private_ip_ocid m) (target_ip m) pp tp pr md
    be (enabled m) (status m) (last_error m) (health_status m) (last_checked_at m)
    (created_at m) (updated_at m).
Definition set_oci (m : Mapping) (public : option Ipv4Addr) (public_ocid : option string)
    (edge : Ipv4Addr) (private_ocid : option string) : Mapping :=
  mkMapping (id m) (name m) public public_ocid edge
    private_ocid (target_ip m) (public_port m) (target_port m) (protocol m) (mode m)
    (backend m) (enabled m) (status m) (last_error m) (health_status m) (last_checked_at m)
    (created_at m) (updated_at m).
Definition set_state (m : Mapping) (en : bool) (st : MappingStatus) (now : Time) : Mapping :=
  mkMapping (id m) (name m) (public_ip m) (oci_public_ip_ocid m) (edge_private_ip m)
    (oci_private_ip_ocid m) (target_ip m) (public_port m) (target_port m) (protocol m) (mode m)
    (backend m) en st (last_error m) (health_status m) (last_checked_at m)
    (created_at m) now.
Definition set_health (m : Mapping) (st : MappingStatus) (health err : option string)
    (checked now : Time) : Mapping :=
  mkMapping (id m) (name m) (public_ip m) (oci_public_ip_ocid m) (edge_private_ip m)
    (oci_private_ip_ocid m) (target_ip m) (public_port m) (target_port m) (protocol m) (mode m)
    (backend m) (enabled m) st err health (Some checked)
    (created_at m) now.

(** [Mapping::with_id], [Mapping::mark_status], [Mapping::set_enabled] *)
Definition with_id (m : Mapping) (i : MappingId) : Mapping := set_id m i.
Definition mark_status (m : Mapping) (st : MappingStatus) (now : Time) : Mapping :=
  set_state m (enabled m) st now.
Definition set_enabled (m : Mapping) (en : bool) (now : Time) : Mapping :=
  set_state m en (if en then Pending else Disabled) now.

(** A value of the Rust type: [u16] ports, an id produced by [MappingId]. *)
Definition u16_ok (p : Z) : Prop := 0 <= p < 65536.
Definition opt_all {A} (P : A -> Prop) (o : option A) : Prop :=
  match o with Some a => P a | None => True end.
Definition id_ok (i : MappingId) : Prop := trim i = i /\ i <> "".
Record mapping_wf (m : Mapping) : Prop := {
  wf_id : id_ok (id m);
  wf_public_port : opt_all u16_ok (public_port m);
  wf_target_port : opt_all u16_ok (target_port m);
}.

Lemma mapping_id_from_str_ok s i : mapping_id_from_str s = Ok i -> id_ok i.
Proof.
  unfold mapping_id_from_str. destruct (is_empty (trim s)) eqn:E; [done|].
  intros [= <-]. split; [apply trim_idemp|by apply is_empty_false].
Qed.

Lemma mapping_id_from_str_id i : id_ok i -> mapping_id_from_str i = Ok i.
Proof.
  intros [Ht Hne]. unfold mapping_id_from_str. rewrite Ht.
  apply is_empty_false in Hne. by rewrite Hne.
Qed.

#[export] Hint Resolve mapping_id_from_str_ok : edge.
