(* ===== verification/Validation.v ===== *)
(** [edge-core/src/validation.rs]: validation of configurations and mappings,
    and the conflict test between mappings. *)
From Stdlib Require Import Ascii.
From S2P Require Import Prelude Str Net Core.
Local Open Scope Z_scope.

(** ** The validators *)

Definition name_byte_ok (c : ascii) : bool :=
  is_ascii_alphanumeric c || bool_decide (c = "-"%char) || bool_decide (c = "_"%char).

Definition validate_name (nm : string) : Result EdgeCoreError unit :=
  let trimmed := trim nm in
  if is_empty trimmed then Err (Validation "mapping name cannot be empty")
  else if (63 <? String.length trimmed)%nat then
    Err (Validation "mapping name cannot exceed 63 bytes")
  else if negb (all_bytes name_byte_ok trimmed) then
    Err (Validation "mapping name may only contain ASCII letters, digits, '-' and '_'")
  else Ok tt.

Definition validate_interface_name (field nm : string) : Result EdgeCoreError unit :=
  let trimmed := trim nm in
  if is_empty trimmed then Err (Validation (field +:+ " cannot be empty"))
  else if (15 <? String.length trimmed)%nat then
    Err (Validation (field +:+ " cannot exceed 15 bytes"))
  else if has_char "/"%char trimmed || has_char "000"%char trimmed
          || bool_decide (trimmed = ".") || bool_decide (trimmed = "..") then
    Err (Validation (field +:+ " is not a valid Linux interface name"))
  else Ok tt.

Definition is_reserved_or_private (ip : Ipv4Addr) : bool :=
  let a := oz (oct0 ip) in let b := oz (oct1 ip) in let c := oz (oct2 ip) in
  is_private ip || is_loopback ip || is_link_local ip || is_multicast ip || is_broadcast ip
  || is_unspecified ip
  || (a =? 100) && ((64 <=? b) && (b <=? 127))
  || (a =? 192) && (b =? 0) && (c =? 0)
  || (a =? 192) && (b =? 0) && (c =? 2)
  || (a =? 198) && (b =? 51) && (c =? 100)
  || (a =? 203) && (b =? 0) && (c =? 113)
  || (240 <=? a).

Definition validate_public_ip (ip : Ipv4Addr) : Result EdgeCoreError unit :=
  if is_reserved_or_private ip then
    Err (Validation ("public IP must be globally routable: " +:+ show_ip ip))
  else Ok tt.

Definition validate_edge_private_ip (ip : Ipv4Addr) : Result EdgeCoreError unit :=
  if negb (is_private ip) then
    Err (Validation ("edge private IP must be RFC1918 private: " +:+ show_ip ip))
  else Ok tt.

Section validation.
Context `{Ipnet}.

Definition is_network_or_broadcast (ip : Ipv4Addr) (cidr : Ipv4Net) : bool :=
  if 31 <=? prefix_len cidr then false
  else bool_decide (ip = net_network cidr) || bool_decide (ip = net_broadcast cidr).

Definition validate_target_ip (ip : Ipv4Addr) (cidrs : list Ipv4Net) : Result EdgeCoreError unit :=
  match list_find (fun cidr => net_contains cidr ip = true) cidrs with
  | None => Err (Validation ("target IP is outside configured target CIDRs: " +:+ show_ip ip))
  | Some (_, cidr) =>
      if is_network_or_broadcast ip cidr then
        Err (Validation ("target IP cannot be network or broadcast address: " +:+ show_ip ip))
      else Ok tt
  end.

Definition validate_edge_config (config : EdgeConfig) : Result EdgeCoreError unit :=
  validate_interface_name "wan_interface" (wan_interface config) ;;
  validate_interface_name "netbird_interface" (netbird_interface config) ;;
  (if bool_decide (target_cidrs config = []) then
     Err (Validation "at least one target CIDR must be configured")
   else Ok tt) ;;
  for_each (fun cidr =>
    if is_unspecified (net_addr cidr) then
      Err (Validation ("target CIDR cannot be unspecified: " +:+ show_net cidr))
    else Ok tt) (target_cidrs config).

Definition validate_backend (m : Mapping) : Result EdgeCoreError unit :=
  match backend m with
  | Nft => Ok tt
  | Xdp =>
      if bool_decide (mode m = PortForwardSnat) then Ok tt
      else Err (Validation "xdp backend only supports port-forward mappings")
  | Proxy => Err (Validation "proxy mapping backend is not implemented")
  end.

Definition validate_mode (m : Mapping) : Result EdgeCoreError unit :=
  match mode m with
  | OneToOneSnat =>
      if bool_decide (is_Some (public_port m)) then
        Err (Validation "one-to-one mappings cannot set public_port")
      else if bool_decide (target_port m = Some 0) then
        Err (Validation "target port must be between 1 and 65535")
      else if bool_decide (protocol m <> All) then
        Err (Validation "one-to-one mappings must use protocol=all")
      else Ok tt
  | PortForwardSnat =>
      if bool_decide (public_port m = None) then
        Err (Validation "port-forward mappings require public_port")
      else if bool_decide (public_port m = Some 0) then
        Err (Validation "public port must be between 1 and 65535")
      else if bool_decide (target_port m = None) then
        Err (Validation "port-forward mappings require target_port")
      else if bool_decide (target_port m = Some 0) then
        Err (Validation "target port must be between 1 and 65535")
      else if bool_decide (protocol m = All) then
        Err (Validation "port-forward mappings must use protocol=tcp or protocol=udp")
      else Ok tt
  end.

Definition validate_mapping (m : Mapping) (config : EdgeConfig) : Result EdgeCoreError unit :=
  validate_name (name m) ;;
  match public_ip m with Some ip => validate_public_ip ip | None => Ok tt end ;;
  validate_edge_private_ip (edge_private_ip m) ;;
  validate_target_ip (target_ip m) (target_cidrs config) ;;
  (if bool_decide (public_ip m = Some (edge_private_ip m)) then
     Err (Validation "public IP and edge private IP cannot match")
   else Ok tt) ;;
  (if bool_decide (edge_private_ip m = target_ip m) then
     Err (Validation "edge private IP and target IP cannot match")
   else Ok tt) ;;
  validate_backend m ;;
  validate_mode m.

(** ** Conflicts *)

Definition conflicts (l r : Mapping) : bool :=
  if negb (enabled l) || negb (enabled r) then false
  else match mode l, mode r with
  | OneToOneSnat, OneToOneSnat =>
      bool_decide (edge_private_ip l = edge_private_ip r) || bool_decide (target_ip l = target_ip r)
  | OneToOneSnat, PortForwardSnat | PortForwardSnat, OneToOneSnat =>
      bool_decide (edge_private_ip l = edge_private_ip r)
  | PortForwardSnat, PortForwardSnat =>
      bool_decide (edge_private_ip l = edge_private_ip r)
      && bool_decide (protocol l = protocol r)
      && bool_decide (public_port l = public_port r)
  end.

Definition both_one_to_one (l r : Mapping) : bool :=
  bool_decide (mode l = OneToOneSnat) && bool_decide (mode r = OneToOneSnat).
Definition some_one_to_one (l r : Mapping) : bool :=
  bool_decide (mode l = OneToOneSnat) || bool_decide (mode r = OneToOneSnat).

Definition conflict_error (l r : Mapping) : EdgeCoreError :=
  if both_one_to_one l r && bool_decide (target_ip l = target_ip r) then
    DuplicateTargetIp (target_ip l)
  else if bool_decide (edge_private_ip l = edge_private_ip r) then
    DuplicateEdgePrivateIp (edge_private_ip l)
  else Validation "mapping conflicts with an existing enabled mapping".

(** The body of the inner loop of [validate_mappings]. *)
Definition validate_pair (m existing : Mapping) : Result EdgeCoreError unit :=
  if conflicts m existing then Err (conflict_error m existing)
  else match public_ip m with
  | Some ip =>
      if bool_decide (public_ip m = public_ip existing) && some_one_to_one m existing then
        Err (DuplicatePublicIp ip)
      else Ok tt
  | None => Ok tt
  end.

(** The outer loop; [seen] are the elements of the [public_ips] hash set. *)
Fixpoint validate_pairs (seen : list Ipv4Addr) (ms : list Mapping) : Result EdgeCoreError unit :=
  match ms with
  | [] => Ok tt
  | m :: rest =>
      seen' ← match public_ip m, mode m with
              | Some ip, OneToOneSnat =>
                  if decide (ip ∈ seen) then Err (DuplicatePublicIp ip) else Ok (ip :: seen)
              | _, _ => Ok seen
              end;
      for_each (validate_pair m) rest ;;
      validate_pairs seen' rest
  end.

Definition validate_mappings (ms : list Mapping) (config : EdgeConfig) : Result EdgeCoreError unit :=
  for_each (fun m => validate_mapping m config) ms ;;
  validate_pairs [] ms.
End validation.

(** ** What the validators accept *)

Record name_valid (nm : string) : Prop := {
  nv_nonempty : trim nm <> "";
  nv_length : (String.length (trim nm) <= 63)%nat;
  nv_bytes : all_bytes name_byte_ok (trim nm) = true;
}.

(** The first configured network that contains the address decides, and the
    address is not its network or broadcast address. *)
Definition target_valid `{Ipnet} (cidrs : list Ipv4Net) (ip : Ipv4Addr) : Prop :=
  exists pre cidr post, cidrs = pre ++ cidr :: post /\
    Forall (fun c => net_contains c ip = false) pre /\ net_contains cidr ip = true /\
    (prefix_len cidr < 31 -> ip <> net_network cidr /\ ip <> net_broadcast cidr).

Definition backend_valid (m : Mapping) : Prop :=
  match backend m with Nft => True | Xdp => mode m = PortForwardSnat | Proxy => False end.

Definition mode_valid (m : Mapping) : Prop :=
  match mode m with
  | OneToOneSnat => public_port m = None /\ target_port m <> Some 0 /\ protocol m = All
  | PortForwardSnat =>
      (exists p, public_port m = Some p /\ p <> 0) /\
      (exists q, target_port m = Some q /\ q <> 0) /\ protocol m <> All
  end.

Record mapping_valid `{Ipnet} (cidrs : list Ipv4Net) (m : Mapping) : Prop := {
  mv_name : name_valid (name m);
  mv_public : opt_all (fun ip => is_reserved_or_private ip = false) (public_ip m);
  mv_edge : is_private (edge_private_ip m) = true;
  mv_target : target_valid cidrs (target_ip m);
  mv_distinct : edge_private_ip m <> target_ip m;
  mv_backend : backend_valid m;
  mv_mode : mode_valid m;
}.

(** A public address is claimed exclusively by a one-to-one mapping. *)
Definition public_clash (l r : Mapping) : bool :=
  bool_decide (is_Some (public_ip l)) && bool_decide (public_ip l = public_ip r)
  && some_one_to_one l r.

Definition compatible (l r : Mapping) : Prop := conflicts l r = false /\ public_clash l r = false.

Ltac bool_cases :=
  repeat match goal with
  | |- context [bool_decide ?P] => destruct (bool_decide_reflect P)
  | H : context [bool_decide ?P] |- _ => destruct (bool_decide_reflect P)
  end.

Lemma validate_name_Ok nm : validate_name nm = Ok tt <-> name_valid nm.
Proof.
  unfold validate_name. split.
  - destruct (is_empty (trim nm)) eqn:E1; [done|]. destruct (Nat.ltb_spec 63 (String.length (trim nm))); [done|].
    destruct (all_bytes name_byte_ok (trim nm)) eqn:E3; [|done].
    intros _. constructor; [by apply is_empty_false|lia|done].
  - intros [E1%is_empty_false E2 E3]. rewrite E1, E3.
    destruct (Nat.ltb_spec 63 (String.length (trim nm))); [lia|done].
Qed.

Lemma validate_target_ip_Ok `{Ipnet} ip cidrs :
  validate_target_ip ip cidrs = Ok tt <-> target_valid cidrs ip.
Proof.
  unfold validate_target_ip, target_valid, is_network_or_broadcast.
  split.
  - destruct (list_find _ cidrs) as [[i cidr]|] eqn:E; [|done].
    apply list_find_Some in E as (Hi & Hc & Hpre). intros Hok%check_Ok.
    exists (take i cidrs), cidr, (drop (S i) cidrs).
    split; [symmetry; by apply take_drop_middle|]. split_and!.
    + apply Forall_lookup. intros j c [Hj Hlt]%lookup_take_Some.
      apply not_true_iff_false. by eapply Hpre.
    + done.
    + intros Hp. destruct (Z.leb_spec 31 (prefix_len cidr)); [lia|]. bool_cases; naive_solver.
  - intros (pre & cidr & post & -> & Hpre & Hc & Hnb).
    assert (Hf : list_find (fun c => net_contains c ip = true) (pre ++ cidr :: post)
      = Some (length pre, cidr)).
    { apply list_find_Some. split_and!.
      - by apply list_lookup_middle.
      - done.
      - intros j c Hj Hlt. rewrite lookup_app_l in Hj by done.
        rewrite Forall_lookup in Hpre. apply not_true_iff_false. eauto. }
    rewrite Hf. apply check_Ok. destruct (Z.leb_spec 31 (prefix_len cidr)); [done|].
    bool_cases; naive_solver.
Qed.

Lemma validate_backend_Ok m : validate_backend m = Ok tt <-> backend_valid m.
Proof. unfold validate_backend, backend_valid. destruct (backend m); bool_cases; naive_solver. Qed.

Lemma validate_mode_Ok m : validate_mode m = Ok tt <-> mode_valid m.
Proof.
  unfold validate_mode, mode_valid. destruct (mode m).
  - rewrite !guard_Ok, !bool_decide_eq_false, <- eq_None_not_Some.
    destruct (decide (protocol m = All)); naive_solver.
  - rewrite !guard_Ok, !bool_decide_eq_false.
    destruct (public_port m) as [p|], (target_port m) as [q|]; naive_solver.
Qed.

Lemma private_is_reserved ip : is_private ip = true -> is_reserved_or_private ip = true.
Proof. intros Hp. unfold is_reserved_or_private. by rewrite Hp. Qed.

Lemma validate_mapping_Ok `{Ipnet} m c :
  validate_mapping m c = Ok tt <-> mapping_valid (target_cidrs c) m.
Proof.
  unfold validate_mapping. rewrite !seq_Ok, !check_Ok, validate_name_Ok, validate_target_ip_Ok,
    validate_backend_Ok, validate_mode_Ok.
  unfold validate_edge_private_ip. rewrite check_Ok, negb_false_iff, !bool_decide_eq_false.
  assert (Hpub : match public_ip m with Some ip => validate_public_ip ip | None => Ok tt end = Ok tt
    <-> opt_all (fun ip => is_reserved_or_private ip = false) (public_ip m)).
  { unfold validate_public_ip. destruct (public_ip m); cbn; [apply check_Ok|done]. }
  rewrite Hpub. split.
  - intros (? & ? & ? & ? & ? & ? & ? & ?). by constructor.
  - intros [? Hp He ? ? ? ?]. split_and!; try done. intros Heq. rewrite Heq in Hp; cbn in Hp.
    apply private_is_reserved in He. congruence.
Qed.

Lemma conflicts_sym l r : conflicts l r = conflicts r l.
Proof.
  unfold conflicts. rewrite orb_comm. destruct (negb _ || negb _); [done|].
  destruct (mode l), (mode r);
    repeat match goal with |- context [bool_decide (?f l = ?f r)] =>
      rewrite (bool_decide_ext (f l = f r) (f r = f l)) by (split; congruence) end; done.
Qed.

Lemma public_clash_sym l r : public_clash l r = public_clash r l.
Proof.
  unfold public_clash, some_one_to_one.
  destruct (decide (public_ip l = public_ip r)) as [E|E].
  - rewrite E. f_equal. apply orb_comm.
  - rewrite (bool_decide_eq_false_2 (public_ip l = public_ip r)),
      (bool_decide_eq_false_2 (public_ip r = public_ip l)) by congruence.
    by rewrite !andb_false_r.
Qed.

#[export] Instance compatible_sym : Symmetric compatible.
Proof. intros l r. unfold compatible. by rewrite conflicts_sym, public_clash_sym. Qed.

Lemma validate_pair_Ok m e : validate_pair m e = Ok tt <-> compatible m e.
Proof.
  unfold validate_pair, compatible, public_clash. destruct (conflicts m e); [naive_solver|].
  destruct (public_ip m) as [ip|] eqn:E.
  - rewrite check_Ok. rewrite (bool_decide_eq_true_2 (is_Some _)) by done. naive_solver.
  - rewrite (bool_decide_eq_false_2 (is_Some _)) by (by intros []). naive_solver.
Qed.

Lemma validate_pairs_Ok seen ms :
  (forall ip m, ip ∈ seen -> m ∈ ms -> public_ip m = Some ip -> mode m <> OneToOneSnat) ->
  validate_pairs seen ms = Ok tt <-> pairwise compatible ms.
Proof.
  revert seen; induction ms as [|m ms IH]; intros seen Hseen.
  { cbn. split; auto with edge. }
  cbn [validate_pairs]. rewrite pairwise_cons.
  assert (Hloop : for_each (validate_pair m) ms = Ok tt <-> Forall (compatible m) ms).
  { rewrite for_each_Ok. apply Forall_iff. intros ?; by rewrite validate_pair_Ok. }
  destruct (public_ip m) as [ip|] eqn:Hip; [destruct (mode m) eqn:Hm|].
  - destruct (decide (ip ∈ seen)) as [Hin|Hin].
    { exfalso. eapply (Hseen ip m); eauto. left. }
    cbn. rewrite seq_Ok, Hloop. apply and_iff_compat_l_dep. intros Hc. apply IH.
    intros ip' m' [->|Hip']%elem_of_cons Hm' Hpub Hmode.
    + rewrite Forall_forall in Hc. destruct (Hc m' Hm') as [_ Hcl].
      revert Hcl. unfold public_clash, some_one_to_one. rewrite Hip, Hpub, Hm.
      by rewrite !bool_decide_eq_true_2.
    + eapply (Hseen ip' m'); eauto. by right.
  - cbn. rewrite seq_Ok, Hloop, IH; [done|]. intros ip' m' ? Hm'; apply Hseen; [done|by right].
  - cbn. rewrite seq_Ok, Hloop, IH; [done|]. intros ip' m' ? Hm'; apply Hseen; [done|by right].
Qed.

Lemma validate_mappings_Ok `{Ipnet} ms c :
  validate_mappings ms c = Ok tt <->
  Forall (mapping_valid (target_cidrs c)) ms /\ pairwise compatible ms.
Proof.
  unfold validate_mappings. rewrite seq_Ok, for_each_Ok, validate_pairs_Ok.
  - apply and_iff_compat_r, Forall_iff. intros m; cbn. by rewrite validate_mapping_Ok.
  - intros ip m []%not_elem_of_nil.
Qed.

(** ** The traffic a mapping claims *)

Inductive L4 := L4Tcp (port : Z) | L4Udp (port : Z) | L4Other.

(** An inbound packet: its destination address and transport. *)
Record Flow := mkFlow { flow_dst : Ipv4Addr; flow_l4 : L4 }.

#[export] Instance L4_eq_dec : EqDecision L4.
Proof. solve_decision. Defined.

Definition l4_matches (p : Protocol) (port : option Z) (t : L4) : bool :=
  match p, t with
  | Tcp, L4Tcp d | Udp, L4Udp d => bool_decide (port = Some d)
  | _, _ => false
  end.

(** The flows an enabled mapping redirects: every packet to its edge address
    when one-to-one, those of its protocol and public port otherwise. *)
Definition captures (m : Mapping) (f : Flow) : bool :=
  enabled m && bool_decide (edge_private_ip m = flow_dst f) &&
  match mode m with
  | OneToOneSnat => true
  | PortForwardSnat => l4_matches (protocol m) (public_port m) (flow_l4 f)
  end.

Definition own_flow (m : Mapping) : Flow :=
  mkFlow (edge_private_ip m)
    match mode m, protocol m, public_port m with
    | PortForwardSnat, Tcp, Some p => L4Tcp p
    | PortForwardSnat, Udp, Some p => L4Udp p
    | _, _, _ => L4Other
    end.

Lemma own_flow_captured m : enabled m = true -> mode_valid m -> captures m (own_flow m) = true.
Proof.
  unfold captures, own_flow, mode_valid. intros -> Hm; cbn [flow_dst flow_l4].
  rewrite bool_decide_eq_true_2 by done.
  destruct (mode m); [done|]. destruct Hm as [(p & -> & _) [_ Hp]].
  destruct (protocol m); [done| |]; cbn; by rewrite bool_decide_eq_true_2.
Qed.

Definition same_target (l r : Mapping) : Prop :=
  enabled l = true /\ enabled r = true /\ mode l = OneToOneSnat /\ mode r = OneToOneSnat /\
  target_ip l = target_ip r.

Lemma captures_both_conflict l r f :
  captures l f = true -> captures r f = true -> conflicts l r = true.
Proof.
  unfold captures, conflicts. rewrite !andb_true_iff, !bool_decide_eq_true.
  intros [[-> El] Ml] [[-> Er] Mr]; cbn.
  rewrite (bool_decide_eq_true_2 (edge_private_ip l = edge_private_ip r)) by congruence.
  destruct (mode l), (mode r); try done; cbn.
  unfold l4_matches in Ml, Mr.
  destruct (protocol l), (flow_l4 f), (protocol r); try done;
    apply bool_decide_eq_true in Ml, Mr; rewrite Ml, Mr; by rewrite !bool_decide_eq_true_2.
Qed.

Lemma conflict_captures_both l r :
  mode_valid l -> mode_valid r -> conflicts l r = true ->
  (exists f, captures l f = true /\ captures r f = true) \/ same_target l r.
Proof.
  intros Vl Vr Hc. unfold conflicts in Hc.
  destruct (enabled l) eqn:El; [|done]. destruct (enabled r) eqn:Er; [|done]. cbn in Hc.
  pose proof (own_flow_captured l El Vl) as Hl. pose proof (own_flow_captured r Er Vr) as Hr.
  unfold same_target. destruct (mode l) eqn:Ml, (mode r) eqn:Mr.
  - apply orb_true_iff in Hc as [He|Ht]; apply bool_decide_eq_true in He || apply bool_decide_eq_true in Ht.
    + left. exists (own_flow l). split; [done|]. unfold captures, own_flow; cbn.
      rewrite Er, Mr; cbn. by rewrite bool_decide_eq_true_2.
    + right. auto.
  - apply bool_decide_eq_true in Hc. left. exists (own_flow r). split; [|done].
    unfold captures, own_flow; cbn. rewrite El, Ml; cbn. by rewrite bool_decide_eq_true_2.
  - apply bool_decide_eq_true in Hc. left. exists (own_flow l). split; [done|].
    unfold captures, own_flow; cbn. rewrite Er, Mr; cbn. by rewrite bool_decide_eq_true_2.
  - rewrite !andb_true_iff, !bool_decide_eq_true in Hc. destruct Hc as [[He Hp] Hq].
    left. exists (own_flow l). split; [done|]. revert Hl. unfold captures, own_flow; cbn.
    by rewrite El, Er, Ml, Mr, He, Hp, Hq.
Qed.

#[export] Hint Resolve conflicts_sym public_clash_sym : edge.

(** ** The traffic reading of a valid set of mappings *)

(** Neither mapping takes a packet, a one-to-one target or an exclusively held
    public address from the other. *)
Record disjoint (l r : Mapping) : Prop := {
  dj_flows : forall f, captures l f = true -> captures r f = false;
  dj_targets : ~ same_target l r;
  dj_public : forall ip, public_ip l = Some ip -> public_ip r = Some ip ->
    mode l = PortForwardSnat /\ mode r = PortForwardSnat;
}.

Lemma public_clash_false l r : public_clash l r = false <->
  forall ip, public_ip l = Some ip -> public_ip r = Some ip ->
    mode l = PortForwardSnat /\ mode r = PortForwardSnat.
Proof.
  unfold public_clash, some_one_to_one. split.
  - intros Hf ip Hl Hr. rewrite Hl, Hr, !bool_decide_eq_true_2 in Hf by done.
    destruct (mode l), (mode r); done.
  - intros Hd. destruct (public_ip l) as [ip|] eqn:Hl;
      [|by rewrite (bool_decide_eq_false_2 (is_Some None)) by (by intros [])].
    case_bool_decide; [|done]. case_bool_decide as Hr; [|done].
    by destruct (Hd ip eq_refl (eq_sym Hr)) as [-> ->].
Qed.

Lemma compatible_disjoint l r : mode_valid l -> mode_valid r -> compatible l r <-> disjoint l r.
Proof.
  intros Vl Vr. unfold compatible. rewrite public_clash_false. split.
  - intros [Hc Hp]. constructor; [|intros (El & Er & Ml & Mr & Ht)|done].
    + intros f Hl. apply not_true_is_false. intros Hr.
      by rewrite (captures_both_conflict l r f Hl Hr) in Hc.
    + unfold conflicts in Hc. rewrite El, Er, Ml, Mr in Hc; cbn in Hc.
      by rewrite (bool_decide_eq_true_2 (target_ip l = _)), orb_true_r in Hc.
  - intros [Hf Ht Hp]. split; [|done]. apply not_true_is_false. intros Hc.
    apply conflict_captures_both in Hc as [(f & Hl & Hr)|Hs]; [|done..].
    by rewrite (Hf f Hl) in Hr.
Qed.

Lemma pairwise_iff_Forall {A} (P : A -> Prop) (R S : A -> A -> Prop) l :
  (forall a b, P a -> P b -> R a b <-> S a b) -> Forall P l -> pairwise R l <-> pairwise S l.
Proof.
  intros HRS. induction 1 as [|a l Ha Hl IH]; [split; auto with edge|].
  rewrite !pairwise_cons, IH. apply and_iff_compat_r. rewrite !Forall_forall.
  rewrite Forall_forall in Hl. split; intros Hx b Hb; apply HRS; auto.
Qed.

(** The network containing an address, and the addresses usable inside it. *)
Definition block_start (n : Ipv4Net) : Z := ip_u32 (net_addr n) - ip_u32 (net_addr n) mod block_size n.
Definition in_block (n : Ipv4Net) (ip : Ipv4Addr) : Prop :=
  block_start n <= ip_u32 ip < block_start n + block_size n.
Definition usable_host (n : Ipv4Net) (ip : Ipv4Addr) : Prop :=
  block_size n <= 2 \/ block_start n < ip_u32 ip < block_start n + block_size n - 1.

Lemma contains_block `{IpnetLaws} n ip : valid_prefix n -> net_contains n ip = true <-> in_block n ip.
Proof.
  intros Hp. rewrite contains_spec, broadcast_spec, network_spec by done.
  unfold in_block, block_start. lia.
Qed.

Lemma block_size_small n : valid_prefix n -> prefix_len n < 31 <-> ~ block_size n <= 2.
Proof.
  intros [H0 H1]. unfold block_size. split; intros Hp.
  - assert (2 ^ 2 <= 2 ^ (32 - prefix_len n)) by (apply Z.pow_le_mono_r; lia). lia.
  - destruct (Z.lt_ge_cases (prefix_len n) 31); [done|]. exfalso. apply Hp.
    assert (2 ^ (32 - prefix_len n) <= 2 ^ 1) by (apply Z.pow_le_mono_r; lia). lia.
Qed.

Lemma usable_spec `{IpnetLaws} n ip : valid_prefix n -> in_block n ip ->
  (prefix_len n < 31 -> ip <> net_network n /\ ip <> net_broadcast n) <-> usable_host n ip.
Proof.
  intros Hp Hin. unfold usable_host. rewrite block_size_small by done.
  assert (Hn : ip_u32 (net_network n) = block_start n) by (by rewrite network_spec).
  assert (Hb : ip_u32 (net_broadcast n) = block_start n + block_size n - 1)
    by (rewrite broadcast_spec, Hn; done).
  unfold in_block in Hin. split.
  - intros Hd. destruct (Z.le_gt_cases (block_size n) 2); [by left|]. right.
    destruct Hd as [Hd1 Hd2]; [lia|].
    assert (ip_u32 ip <> ip_u32 (net_network n)) by (intros E%ip_u32_inj; done).
    assert (ip_u32 ip <> ip_u32 (net_broadcast n)) by (intros E%ip_u32_inj; done). lia.
  - intros [?|Hd] Hbs; [done|]. split; intros ->; lia.
Qed.

(** Two messages that differ at byte [n]. *)
Definition message_byte {T} (n : nat) (r : Result EdgeCoreError T) : option ascii :=
  match r with Err (Validation m) => String.get n m | _ => None end.
Ltac differ n := intros He%(f_equal (message_byte n)); vm_compute in He; discriminate.

(** ** Properties *)

(** C23: a set of mappings passes [validate_mappings] exactly when each one is
    valid on its own and no two of them are redirected the same packet, forward
    one-to-one to the same target, or share a public address that one of them
    holds one-to-one. *)
Theorem validate_mappings_meaning `{Ipnet} ms c :
  validate_mappings ms c = Ok tt <->
  Forall (mapping_valid (target_cidrs c)) ms /\ pairwise disjoint ms.
Proof.
  rewrite validate_mappings_Ok. apply and_iff_compat_l_dep. intros Hv.
  apply (pairwise_iff_Forall (mapping_valid (target_cidrs c))); [|done].
  intros a b [] []. by apply compatible_disjoint.
Qed.

(** For mappings of a valid mode, [conflicts] is exactly: both are enabled
    and some packet is redirected by both, or both forward one-to-one to the
    same target. *)
Theorem conflicts_meaning l r (Hl : mode_valid l) (Hr : mode_valid r) :
  conflicts l r = true <->
  (exists f, captures l f = true /\ captures r f = true) \/ same_target l r.
Proof.
  split; [by apply conflict_captures_both|].
  intros [(f & Cl & Cr)|(El & Er & Ml & Mr & Ht)]; [by eapply captures_both_conflict|].
  unfold conflicts. rewrite El, Er, Ml, Mr; cbn. apply orb_true_iff. right.
  by apply bool_decide_eq_true.
Qed.

(** Validation accepts exactly the mappings whose name is 1 to 63 letters,
    digits, dashes or underscores, whose public address is not reserved, whose
    edge address is RFC1918, whose target lies in a configured network and differs from the edge
    address, and whose backend, mode, ports and protocol agree; the check that the public
    and edge addresses differ never fires. *)
Theorem validate_mapping_exact `{Ipnet} m c :
  (validate_mapping m c = Ok tt <-> mapping_valid (target_cidrs c) m) /\
  validate_mapping m c <> Err (Validation "public IP and edge private IP cannot match").
Proof.
  split; [apply validate_mapping_Ok|]. intros He. unfold validate_mapping in He.
  rewrite !seq_Err in He.
  destruct He as [He|(_ & [He|(Hpub & [He|(Hpriv & [He|(_ & [He|(_ & [He|(_ & [He|(_ & He)])])])])])])].
  - revert He. unfold validate_name. repeat case_match; discriminate.
  - destruct (public_ip m); [|done]. revert He. unfold validate_public_ip. case_match; differ 10%nat.
  - revert He. unfold validate_edge_private_ip. destruct (negb _); differ 0%nat.
  - revert He. unfold validate_target_ip. repeat case_match; differ 0%nat.
  - case_bool_decide as Hp; [|discriminate]. rewrite Hp in Hpub.
    apply check_Ok in Hpub. apply check_Ok, negb_false_iff, private_is_reserved in Hpriv. congruence.
  - case_bool_decide; discriminate.
  - revert He. unfold validate_backend. repeat case_match; discriminate.
  - revert He. unfold validate_mode. repeat case_match; discriminate.
Qed.

(** With the documented behaviour of the network type, a target address is
    accepted exactly when some configured network contains it and it is a usable
    host of the first such network: neither its first nor its last address,
    unless the network has at most two. *)
Theorem validate_target_ip_usable `{Hlaws : IpnetLaws} ip cidrs (Hv : Forall valid_prefix cidrs) :
  validate_target_ip ip cidrs = Ok tt <->
  exists pre cidr post, cidrs = pre ++ cidr :: post /\
    Forall (fun c => ~ in_block c ip) pre /\ in_block cidr ip /\ usable_host cidr ip.
Proof.
  rewrite validate_target_ip_Ok. unfold target_valid.
  split; intros (pre & cidr & post & -> & Hpre & Hc & Hu); exists pre, cidr, post;
    rewrite Forall_app, Forall_cons in Hv; destruct Hv as (Vp & Vc & _); (split; [done|]);
    rewrite Forall_forall in Hpre, Vp.
  - apply contains_block in Hc; [|done]. split_and!; [|done|by apply usable_spec].
    apply Forall_forall. intros n Hn Hin%contains_block; [|by apply Vp].
    by rewrite (Hpre n Hn) in Hin.
  - split_and!; [|by apply contains_block|by apply usable_spec].
    apply Forall_forall. intros n Hn. apply not_true_is_false.
    rewrite contains_block by (by apply Vp). by apply Hpre.
Qed.

(** ** Witnesses *)

#[local] Existing Instance ipnet_model.

Definition sample_mapping (i : MappingId) (edge target : Ipv4Addr) : Mapping :=
  mapping_new i 0 "vm_1" None edge target.
Definition sample_forward (i : MappingId) (edge target : Ipv4Addr) (port : Z) : Mapping :=
  set_endpoints (mapping_new i 0 "web" None edge target) (Some port) (Some 80) PortForwardSnat Tcp Nft.
Definition sample_net : Ipv4Net := mkNet (ip4 192 168 20 0) 24.
Definition sample_config : EdgeConfig := config_new "ens3" "wt0" [sample_net].

Lemma conflicts_meaning_witness :
  (exists f, captures (sample_forward "a" (ip4 10 0 0 5) (ip4 192 168 20 1) 443) f = true /\
     captures (sample_forward "b" (ip4 10 0 0 5) (ip4 192 168 20 2) 443) f = true) \/
  same_target (sample_forward "a" (ip4 10 0 0 5) (ip4 192 168 20 1) 443)
    (sample_forward "b" (ip4 10 0 0 5) (ip4 192 168 20 2) 443).
Proof.
  apply conflicts_meaning.
  - split; [by exists 443|]. by split; [exists 80|].
  - split; [by exists 443|]. by split; [exists 80|].
  - vm_compute. reflexivity.
Defined.

Lemma validate_target_ip_usable_witness :
  validate_target_ip (ip4 192 168 20 42) [sample_net] = Ok tt /\
  (exists pre cidr post, [sample_net] = pre ++ cidr :: post /\
    Forall (fun c => ~ in_block c (ip4 192 168 20 42)) pre /\ in_block cidr (ip4 192 168 20 42) /\
    usable_host cidr (ip4 192 168 20 42)).
Proof.
  split; [vm_compute; reflexivity|].
  apply (@validate_target_ip_usable ipnet_model ipnet_model_laws).
  - repeat constructor; cbn; lia.
  - vm_compute. reflexivity.
Defined.
