(* ===== verification/State.v ===== *)
(** [edge-core/src/state.rs]: generations, events, the [StateStore] trait and
    its in-memory implementation. *)
From S2P Require Import Prelude Str Net BTree Core Validation.
Local Open Scope Z_scope.

(** ** Generations and events *)

Module GenerationStatus.
Inductive t := Rendered | Validated | Active | Failed.
#[export] Instance eq_dec : EqDecision t.
Proof. solve_decision. Defined.
Definition name (s : t) : string :=
  match s with
  | Rendered => "rendered" | Validated => "validated" | Active => "active" | Failed => "failed"
  end.
#[export] Program Instance wire_enum : WireEnum t :=
  {| variants := [Rendered; Validated; Active; Failed]; wire := name |}.
Next Obligation. solve_variants. Qed.
Next Obligation. solve_wire_inj. Qed.
End GenerationStatus.
Export (hints) GenerationStatus.

Module EventLevel.
Inductive t := Debug | Info | Warn | Error.
#[export] Instance eq_dec : EqDecision t.
Proof. solve_decision. Defined.
Definition name (l : t) : string :=
  match l with Debug => "debug" | Info => "info" | Warn => "warn" | Error => "error" end.
#[export] Program Instance wire_enum : WireEnum t :=
  {| variants := [Debug; Info; Warn; Error]; wire := name |}.
Next Obligation. solve_variants. Qed.
Next Obligation. solve_wire_inj. Qed.
End EventLevel.
Export (hints) EventLevel.

Record Generation := mkGeneration {
  g_id : Z;
  g_status : GenerationStatus.t;
  g_config : string;
  g_created_at : Time;
  g_applied_at : option Time;
  g_error : option string;
}.

Record NewGeneration := mkNewGeneration {
  ng_status : GenerationStatus.t;
  ng_config : string;
  ng_applied_at : option Time;
  ng_error : option string;
}.

Record Event := mkEvent {
  e_id : Z;
  e_level : EventLevel.t;
  e_message : string;
  e_data : option string;
  e_created_at : Time;
}.

Record NewEvent := mkNewEvent {
  ne_level : EventLevel.t;
  ne_message : string;
  ne_data : option string;
}.

(** Two's complement wrap-around of [i64] (a release build wraps). *)
Definition wrap_i64 (z : Z) : Z := (z + 2 ^ 63) mod 2 ^ 64 - 2 ^ 63.
Definition i64_max : Z := 2 ^ 63 - 1.

Lemma wrap_i64_small z : - 2 ^ 63 <= z <= i64_max -> wrap_i64 z = z.
Proof. unfold wrap_i64, i64_max. intros. rewrite Z.mod_small; lia. Qed.

(** ** The duplicate check shared by the writes *)

Definition write_conflict (existing candidate : Mapping) : Result EdgeCoreError unit :=
  match public_ip candidate with
  | Some ip =>
      if bool_decide (public_ip existing = Some ip) && some_one_to_one existing candidate then
        Err (DuplicatePublicIp ip)
      else Ok tt
  | None => Ok tt
  end ;;
  if both_one_to_one existing candidate && bool_decide (target_ip existing = target_ip candidate) then
    Err (DuplicateTargetIp (target_ip candidate))
  else if conflicts existing candidate then
    Err (DuplicateEdgePrivateIp (edge_private_ip candidate))
  else Ok tt.

(** What holds of two stored mappings whether or not they are enabled: no
    public address shared with a one-to-one mapping, no target shared by two
    one-to-one mappings. *)
Definition target_clash (l r : Mapping) : bool :=
  both_one_to_one l r && bool_decide (target_ip l = target_ip r).
Definition static_ok (l r : Mapping) : Prop := public_clash l r = false /\ target_clash l r = false.
Definition no_conflict (l r : Mapping) : Prop := conflicts l r = false.

Lemma target_clash_sym l r : target_clash l r = target_clash r l.
Proof.
  unfold target_clash, both_one_to_one. rewrite (andb_comm (bool_decide (mode l = _))). f_equal.
  apply bool_decide_ext. split; congruence.
Qed.

#[export] Instance static_ok_sym : Symmetric static_ok.
Proof. intros l r. unfold static_ok. by rewrite public_clash_sym, target_clash_sym. Qed.
#[export] Instance no_conflict_sym : Symmetric no_conflict.
Proof. intros l r. unfold no_conflict. by rewrite conflicts_sym. Qed.

Lemma write_conflict_Ok e c : write_conflict e c = Ok tt <-> static_ok e c /\ no_conflict e c.
Proof.
  unfold write_conflict, static_ok, no_conflict, target_clash. rewrite seq_Ok, guard_Ok, check_Ok.
  assert (Hp : match public_ip c with
    | Some ip => if bool_decide (public_ip e = Some ip) && some_one_to_one e c
                 then Err (DuplicatePublicIp ip) else Ok tt
    | None => Ok tt end = Ok tt <-> public_clash e c = false).
  { unfold public_clash. destruct (public_ip c) as [ip|] eqn:Hc, (public_ip e) as [ip'|] eqn:He.
    - rewrite check_Ok, (bool_decide_eq_true_2 (is_Some (Some ip'))) by done. done.
    - rewrite check_Ok, (bool_decide_eq_false_2 (is_Some None)) by (by intros []).
      by rewrite (bool_decide_eq_false_2 (None = Some ip)).
    - rewrite (bool_decide_eq_false_2 (Some ip' = None)) by done. by rewrite andb_false_r.
    - rewrite (bool_decide_eq_false_2 (is_Some None)) by (by intros []). done. }
  rewrite Hp. tauto.
Qed.

(** ** The in-memory store *)

Record InMemoryStateStore := mkStore {
  s_config : option EdgeConfig;
  s_mappings : list (MappingId * Mapping);
  s_generations : list Generation;
  s_events : list Event;
  s_next_generation_id : Z;
  s_next_event_id : Z;
}.

Definition store_new : InMemoryStateStore := mkStore None [] [] [] 1 1.

Definition set_mappings (s : InMemoryStateStore) (ms : list (MappingId * Mapping)) : InMemoryStateStore :=
  mkStore (s_config s) ms (s_generations s) (s_events s) (s_next_generation_id s) (s_next_event_id s).

Section store.
Context `{Ipnet}.
Implicit Types s : InMemoryStateStore.

Definition validate_mapping_for_write s (candidate : Mapping) : Result EdgeCoreError unit :=
  config ← ok_or (s_config s) (StoreError "edge config must be set before mappings");
  validate_mapping candidate config ;;
  for_each (fun existing =>
    if bool_decide (id existing = id candidate) then Ok tt
    else write_conflict existing candidate) (bt_values (s_mappings s)).

Definition set_edge_config (config : EdgeConfig) s : Result EdgeCoreError unit * InMemoryStateStore :=
  match (validate_edge_config config ;;
         for_each (fun m => validate_mapping m config) (bt_values (s_mappings s))) with
  | Err e => (Err e, s)
  | Ok _ => (Ok tt, mkStore (Some config) (s_mappings s) (s_generations s) (s_events s)
                      (s_next_generation_id s) (s_next_event_id s))
  end.

Definition insert_mapping (m : Mapping) s : Result EdgeCoreError unit * InMemoryStateStore :=
  match bt_get (id m) (s_mappings s) with
  | Some _ => (Err (DuplicateMappingId (id m)), s)
  | None =>
      match validate_mapping_for_write s m with
      | Err e => (Err e, s)
      | Ok _ => (Ok tt, set_mappings s (bt_insert (id m) m (s_mappings s)))
      end
  end.

Definition get_mapping (i : MappingId) s : Result EdgeCoreError Mapping :=
  ok_or (bt_get i (s_mappings s)) (NotFound i).

Definition list_mappings s : list Mapping := bt_values (s_mappings s).

Definition update_mapping (now : Time) (m : Mapping) s : Result EdgeCoreError unit * InMemoryStateStore :=
  match bt_get (id m) (s_mappings s) with
  | None => (Err (NotFound (id m)), s)
  | Some _ =>
      let m := set_state m (enabled m) (status m) now in
      match validate_mapping_for_write s m with
      | Err e => (Err e, s)
      | Ok _ => (Ok tt, set_mappings s (bt_insert (id m) m (s_mappings s)))
      end
  end.

Definition delete_mapping (i : MappingId) s : Result EdgeCoreError Mapping * InMemoryStateStore :=
  match bt_get i (s_mappings s) with
  | None => (Err (NotFound i), s)
  | Some m => (Ok m, set_mappings s (bt_remove i (s_mappings s)))
  end.

Definition set_mapping_enabled (now : Time) (i : MappingId) (en : bool) s
    : Result EdgeCoreError unit * InMemoryStateStore :=
  match bt_get i (s_mappings s) with
  | None => (Err (NotFound i), s)
  | Some m => (Ok tt, set_mappings s (bt_insert i (set_enabled m en now) (s_mappings s)))
  end.

Definition record_generation (now : Time) (g : NewGeneration) s
    : Result EdgeCoreError Generation * InMemoryStateStore :=
  if is_empty (trim (ng_config g)) then
    (Err (Validation "generation nftables_config cannot be empty"), s)
  else
    let gen := mkGeneration (s_next_generation_id s) (ng_status g) (ng_config g) now
                 (ng_applied_at g) (ng_error g) in
    (Ok gen, mkStore (s_config s) (s_mappings s) (s_generations s ++ [gen]) (s_events s)
               (wrap_i64 (s_next_generation_id s + 1)) (s_next_event_id s)).

Definition record_event (now : Time) (e : NewEvent) s
    : Result EdgeCoreError Event * InMemoryStateStore :=
  if is_empty (trim (ne_message e)) then
    (Err (Validation "event message cannot be empty"), s)
  else
    let ev := mkEvent (s_next_event_id s) (ne_level e) (ne_message e) (ne_data e) now in
    (Ok ev, mkStore (s_config s) (s_mappings s) (s_generations s) (s_events s ++ [ev])
              (s_next_generation_id s) (wrap_i64 (s_next_event_id s + 1))).

(** ** Operations as steps *)

Inductive StoreOp :=
  | OpSetConfig (c : EdgeConfig)
  | OpInsert (m : Mapping)
  | OpUpdate (m : Mapping)
  | OpDelete (i : MappingId)
  | OpSetEnabled (i : MappingId) (en : bool)
  | OpGeneration (g : NewGeneration)
  | OpEvent (e : NewEvent).

Definition run_op (now : Time) (op : StoreOp) s : InMemoryStateStore :=
  match op with
  | OpSetConfig c => (set_edge_config c s).2
  | OpInsert m => (insert_mapping m s).2
  | OpUpdate m => (update_mapping now m s).2
  | OpDelete i => (delete_mapping i s).2
  | OpSetEnabled i en => (set_mapping_enabled now i en s).2
  | OpGeneration g => (record_generation now g s).2
  | OpEvent e => (record_event now e s).2
  end.

(** A history of timed operations. *)
Definition run_ops (ops : list (Time * StoreOp)) s : InMemoryStateStore :=
  foldl (fun s '(now, op) => run_op now op s) s ops.

(** Two entries under different keys are related. *)
Definition entries_rel (R : Mapping -> Mapping -> Prop) (l : list (MappingId * Mapping)) : Prop :=
  forall i j m n, i <> j -> bt_get i l = Some m -> bt_get j l = Some n -> R m n.

Record store_inv s : Prop := {
  inv_sorted : bt_wf (s_mappings s);
  inv_keys : forall i m, bt_get i (s_mappings s) = Some m -> id m = i;
  inv_valid : forall i m, bt_get i (s_mappings s) = Some m ->
    exists c, s_config s = Some c /\ mapping_valid (target_cidrs c) m;
  inv_static : entries_rel static_ok (s_mappings s);
}.

Definition conflict_free s : Prop := entries_rel no_conflict (s_mappings s).
End store.

Lemma bt_get_tail k v (t : list (MappingId * Mapping)) j n :
  bt_wf ((k, v) :: t) -> bt_get j t = Some n -> k <> j /\ bt_get j ((k, v) :: t) = Some n.
Proof.
  intros [Hk _]%bt_wf_cons Hj. assert (k <> j).
  { intros ->. rewrite (bt_get_None_below j) in Hj by done. done. }
  split; [done|]. cbn. by rewrite decide_False by congruence.
Qed.

Lemma entries_rel_pairwise R `{!Symmetric R} l :
  bt_wf l -> entries_rel R l <-> pairwise R (bt_values l).
Proof.
  intros Hwf; induction l as [|[k v] t IH].
  { split; [intros; apply pairwise_nil | intros _ i j m n _ Hi; done]. }
  pose proof Hwf as [Hk Ht]%bt_wf_cons. unfold bt_values; cbn [fmap list_fmap snd].
  rewrite pairwise_cons. fold (bt_values t). rewrite <- IH by done.
  assert (Hhd : bt_get k ((k, v) :: t) = Some v) by (cbn; by rewrite decide_True).
  split.
  - intros HR. split.
    + apply Forall_forall. intros m Hm. apply bt_values_elem in Hm as [j Hj]; [|done].
      apply (bt_get_tail k v) in Hj as [Hne Hj]; [|done]. by apply (HR k j).
    + intros i j m n Hij Hi Hj.
      apply (bt_get_tail k v) in Hi as [_ Hi], Hj as [_ Hj]; [|done..]. by apply (HR i j).
  - intros [HF HR] i j m n Hij; cbn. rewrite Forall_forall in HF.
    repeat case_decide; subst; try done; intros Hi Hj; simplify_eq.
    + apply HF, bt_values_elem; eauto.
    + symmetry. apply HF, bt_values_elem; eauto.
    + exact (HR i j m n Hij Hi Hj).
Qed.

Lemma entries_rel_insert R `{!Symmetric R} k v l :
  entries_rel R l -> (forall j n, j <> k -> bt_get j l = Some n -> R n v) ->
  entries_rel R (bt_insert k v l).
Proof.
  intros HR Hv i j m n Hij. rewrite !bt_get_insert. repeat case_decide; intros; simplify_eq.
  - symmetry. eapply Hv; eauto.
  - eapply Hv; eauto.
  - eapply (HR i j); eauto.
Qed.

Lemma entries_rel_remove R k l : bt_wf l -> entries_rel R l -> entries_rel R (bt_remove k l).
Proof.
  intros Hwf HR i j m n Hij. rewrite !bt_get_remove by done. repeat case_decide; try done. eauto.
Qed.

Lemma write_check_Ok `{Ipnet} s c :
  store_inv s ->
  validate_mapping_for_write s c = Ok tt <->
  exists cfg, s_config s = Some cfg /\ mapping_valid (target_cidrs cfg) c /\
    forall j n, j <> id c -> bt_get j (s_mappings s) = Some n -> static_ok n c /\ no_conflict n c.
Proof.
  intros Hinv. unfold validate_mapping_for_write.
  destruct (s_config s) as [cfg|] eqn:Hc; cbn; [|naive_solver].
  rewrite seq_Ok, validate_mapping_Ok, for_each_Ok, Forall_forall. split.
  - intros [Hv HF]. exists cfg. split_and!; [done|done|]. intros j n Hj Hn.
    apply write_conflict_Ok. specialize (HF n). rewrite bt_values_elem in HF by apply Hinv.
    specialize (HF (ex_intro _ j Hn)). rewrite bool_decide_eq_false_2 in HF; [done|].
    apply (inv_keys _ Hinv) in Hn. congruence.
  - intros (cfg' & [= <-] & Hv & HR). split; [done|]. intros n.
    rewrite bt_values_elem by apply Hinv. intros [j Hj].
    destruct (decide (id n = id c)) as [E|E]; [by rewrite bool_decide_eq_true_2|].
    rewrite bool_decide_eq_false_2 by done. apply write_conflict_Ok.
    apply (HR j); [|done]. apply (inv_keys _ Hinv) in Hj. congruence.
Qed.

(** The checks do not read the id, the status or the timestamps, and turning a
    mapping on or off does not touch what [static_ok] reads. *)
Lemma mapping_valid_state `{Ipnet} cidrs m en st now :
  mapping_valid cidrs m -> mapping_valid cidrs (set_state m en st now).
Proof. intros []. by constructor. Qed.

Lemma no_conflict_disable n m now : no_conflict n (set_enabled m false now).
Proof. unfold no_conflict, conflicts. by rewrite orb_true_r. Qed.

Lemma store_new_inv `{Ipnet} : store_inv store_new.
Proof. constructor; cbn; [apply bt_wf_nil|done|done|by intros ????]. Qed.

(** A validated write under the candidate's own id keeps the invariant. *)
Lemma write_inv `{Ipnet} s c :
  store_inv s -> validate_mapping_for_write s c = Ok tt ->
  store_inv (set_mappings s (bt_insert (id c) c (s_mappings s))).
Proof.
  intros Hinv Hw. apply write_check_Ok in Hw as (cfg & Hc & Hv & HR); [|done].
  constructor; cbn.
  - apply bt_insert_wf, Hinv.
  - intros i m. rewrite bt_get_insert. case_decide; [naive_solver|apply Hinv].
  - intros i m. rewrite bt_get_insert. case_decide; [intros [= <-]; eauto|apply Hinv].
  - apply entries_rel_insert; [apply _|apply Hinv|]. intros j n Hj Hn. by apply (HR j n).
Qed.

Lemma write_conflict_free `{Ipnet} s c :
  store_inv s -> conflict_free s -> validate_mapping_for_write s c = Ok tt ->
  conflict_free (set_mappings s (bt_insert (id c) c (s_mappings s))).
Proof.
  intros Hinv Hcf Hw. apply write_check_Ok in Hw as (cfg & Hc & Hv & HR); [|done].
  apply entries_rel_insert; [apply _|apply Hcf|]. intros j n Hj Hn. by apply (HR j n).
Qed.

Lemma set_enabled_inv `{Ipnet} s i m en now :
  store_inv s -> bt_get i (s_mappings s) = Some m ->
  store_inv (set_mappings s (bt_insert i (set_enabled m en now) (s_mappings s))).
Proof.
  intros Hinv Hm. constructor; cbn.
  - apply bt_insert_wf, Hinv.
  - intros j n. rewrite bt_get_insert. case_decide; [|apply Hinv].
    intros [= <-]; subst. exact (inv_keys _ Hinv _ m Hm).
  - intros j n. rewrite bt_get_insert. case_decide; [|apply Hinv].
    intros [= <-]; subst. destruct (inv_valid _ Hinv _ m Hm) as (c & Hc & Hv).
    exists c. split; [done|]. by apply mapping_valid_state.
  - apply entries_rel_insert; [apply _|apply Hinv|]. intros j n Hj Hn.
    by apply (inv_static _ Hinv j i n m).
Qed.

Lemma run_op_inv `{Ipnet} now op s : store_inv s -> store_inv (run_op now op s).
Proof.
  intros Hinv. destruct op as [c|m|m|i|i en|g|e]; cbn [run_op].
  - unfold set_edge_config. destruct (_ ;; _) as [[]|] eqn:E; cbn [snd]; [|done].
    apply seq_Ok in E as [_ E]. rewrite for_each_Ok, Forall_forall in E.
    destruct Hinv as [Hs Hk Hv Hst]. constructor; cbn; try done.
    intros i m Hm. exists c. split; [done|]. apply validate_mapping_Ok, E, bt_values_elem; eauto.
  - unfold insert_mapping. destruct (bt_get _ _); [done|].
    destruct (validate_mapping_for_write s m) as [[]|] eqn:E; [|done]. by apply write_inv.
  - unfold update_mapping. destruct (bt_get _ _); [|done]. cbn zeta.
    destruct (validate_mapping_for_write s _) as [[]|] eqn:E; [|done]. by apply write_inv in E.
  - unfold delete_mapping. destruct (bt_get i _); [|done]. cbn [snd].
    destruct Hinv as [Hs Hk Hv Hst]. constructor; cbn.
    + by apply bt_remove_wf.
    + intros j n. rewrite bt_get_remove by done. case_decide; [done|apply Hk].
    + intros j n. rewrite bt_get_remove by done. case_decide; [done|apply Hv].
    + by apply entries_rel_remove.
  - unfold set_mapping_enabled. destruct (bt_get i _) eqn:E; [|done]. by apply set_enabled_inv.
  - unfold record_generation. destruct (is_empty _); [done|]. by destruct Hinv; constructor.
  - unfold record_event. destruct (is_empty _); [done|]. by destruct Hinv; constructor.
Qed.

Definition not_enabling (op : StoreOp) : Prop := forall i, op <> OpSetEnabled i true.

Lemma run_op_conflict_free `{Ipnet} now op s :
  store_inv s -> not_enabling op -> conflict_free s -> conflict_free (run_op now op s).
Proof.
  intros Hinv Hop Hcf. destruct op as [c|m|m|i|i en|g|e]; cbn [run_op].
  - unfold set_edge_config. by destruct (_ ;; _) as [[]|].
  - unfold insert_mapping. destruct (bt_get _ _); [done|].
    destruct (validate_mapping_for_write s m) as [[]|] eqn:E; [|done]. by apply write_conflict_free.
  - unfold update_mapping. destruct (bt_get _ _); [|done]. cbn zeta.
    destruct (validate_mapping_for_write s _) as [[]|] eqn:E; [|done]. by apply write_conflict_free in E.
  - unfold delete_mapping. destruct (bt_get i _); [|done]. apply entries_rel_remove; [apply Hinv|done].
  - unfold set_mapping_enabled. destruct (bt_get i _) as [m|] eqn:E; [|done].
    destruct en; [by destruct (Hop i)|]. apply entries_rel_insert; [apply _|done|].
    intros j n _ _. apply no_conflict_disable.
  - unfold record_generation. by destruct (is_empty _).
  - unfold record_event. by destruct (is_empty _).
Qed.

Lemma run_ops_inv `{Ipnet} ops s : store_inv s -> store_inv (run_ops ops s).
Proof.
  revert s; induction ops as [|[now op] ops IH]; intros s Hs; [done|].
  apply IH, run_op_inv, Hs.
Qed.

Lemma run_ops_conflict_free `{Ipnet} ops s :
  store_inv s -> conflict_free s -> Forall (fun x => not_enabling x.2) ops ->
  conflict_free (run_ops ops s).
Proof.
  intros Hinv Hcf Hops. revert s Hinv Hcf. induction Hops as [|[now op] ops Hop _ IH]; intros s Hinv Hcf; [done|].
  apply IH; [by apply run_op_inv|by apply run_op_conflict_free].
Qed.

(** The stored mappings pass the validation done before every render. *)
Lemma store_validates `{Ipnet} s c :
  store_inv s -> conflict_free s -> s_config s = Some c -> validate_mappings (list_mappings s) c = Ok tt.
Proof.
  intros Hinv Hcf Hc. apply validate_mappings_Ok. unfold list_mappings. split.
  - apply Forall_forall. intros m Hm. apply bt_values_elem in Hm as [i Hi]; [|apply Hinv].
    destruct (inv_valid _ Hinv i m Hi) as (c' & Hc' & Hv). congruence.
  - apply entries_rel_pairwise; [apply _|apply Hinv|]. intros i j m n Hij Hi Hj. split.
    + by apply (Hcf i j).
    + by apply (inv_static _ Hinv i j m n).
Qed.

(** ** Generation and event numbers *)

(** The records are numbered from 1 in the order they were made. *)
Record numbered (s : InMemoryStateStore) : Prop := {
  num_gen : forall k g, s_generations s !! k = Some g -> g_id g = wrap_i64 (Z.of_nat k + 1);
  num_gen_next : s_next_generation_id s = wrap_i64 (Z.of_nat (length (s_generations s)) + 1);
  num_ev : forall k e, s_events s !! k = Some e -> e_id e = wrap_i64 (Z.of_nat k + 1);
  num_ev_next : s_next_event_id s = wrap_i64 (Z.of_nat (length (s_events s)) + 1);
}.

Lemma wrap_i64_succ z : wrap_i64 (wrap_i64 z + 1) = wrap_i64 (z + 1).
Proof.
  unfold wrap_i64. f_equal.
  replace ((z + 2 ^ 63) mod 2 ^ 64 - 2 ^ 63 + 1 + 2 ^ 63) with ((z + 2 ^ 63) mod 2 ^ 64 + 1) by lia.
  rewrite Zplus_mod_idemp_l. f_equal. lia.
Qed.

Lemma numbered_snoc {A} (f : A -> Z) l a n :
  (forall k x, l !! k = Some x -> f x = wrap_i64 (Z.of_nat k + 1)) ->
  n = wrap_i64 (Z.of_nat (length l) + 1) -> f a = n ->
  (forall k x, (l ++ [a]) !! k = Some x -> f x = wrap_i64 (Z.of_nat k + 1)) /\
  wrap_i64 (n + 1) = wrap_i64 (Z.of_nat (length (l ++ [a])) + 1).
Proof.
  intros Hl -> Ha. split.
  - intros k x [[_ Hk]|[-> <-]]%lookup_snoc_Some; [by apply Hl|done].
  - rewrite wrap_i64_succ, length_app; cbn. f_equal. lia.
Qed.

Lemma run_op_numbered `{Ipnet} now op s : numbered s -> numbered (run_op now op s).
Proof.
  intros Hn. destruct op as [c|m|m|i|i en|g|e]; cbn [run_op].
  - unfold set_edge_config. destruct (_ ;; _) as [[]|]; [|done]. by destruct Hn; constructor.
  - unfold insert_mapping. destruct (bt_get _ _); [done|].
    destruct (validate_mapping_for_write s m); [|done]. by destruct Hn; constructor.
  - unfold update_mapping. destruct (bt_get _ _); [|done]. cbn zeta.
    destruct (validate_mapping_for_write s _); [|done]. by destruct Hn; constructor.
  - unfold delete_mapping. destruct (bt_get i _); [|done]. by destruct Hn; constructor.
  - unfold set_mapping_enabled. destruct (bt_get i _); [|done]. by destruct Hn; constructor.
  - unfold record_generation. destruct (is_empty _); [done|]. destruct Hn as [G Gn E En].
    cbn zeta. set (gen := mkGeneration _ _ _ _ _ _).
    destruct (numbered_snoc g_id _ gen _ G Gn eq_refl) as [G' Gn']. by constructor.
  - unfold record_event. destruct (is_empty _); [done|]. destruct Hn as [G Gn E En].
    cbn zeta. set (ev := mkEvent _ _ _ _ _).
    destruct (numbered_snoc e_id _ ev _ E En eq_refl) as [E' En']. by constructor.
Qed.

Lemma run_ops_numbered `{Ipnet} ops s : numbered s -> numbered (run_ops ops s).
Proof.
  revert s; induction ops as [|[now op] ops IH]; intros s Hs; [done|].
  apply IH, run_op_numbered, Hs.
Qed.

(** ** The contract: a finite map of mappings under a configuration *)

#[export] Instance static_ok_dec l r : Decision (static_ok l r).
Proof. unfold static_ok. apply _. Defined.
#[export] Instance no_conflict_dec l r : Decision (no_conflict l r).
Proof. unfold no_conflict. apply _. Defined.

Record AbsStore := mkAbs { a_config : option EdgeConfig; a_mappings : gmap MappingId Mapping }.

Section contract.
Context `{Ipnet}.

(** A mapping may be written when it is valid and neither clashes nor
    conflicts with any other stored mapping. *)
Definition admissible (a : AbsStore) (m : Mapping) : bool :=
  match a_config a with
  | Some c => is_ok (validate_mapping m c)
      && bool_decide (map_Forall (fun j n => j <> id m -> static_ok n m /\ no_conflict n m) (a_mappings a))
  | None => false
  end.

Definition put (a : AbsStore) (m : Mapping) : AbsStore :=
  mkAbs (a_config a) (<[id m := m]> (a_mappings a)).

Definition abs_step (now : Time) (op : StoreOp) (a : AbsStore) : AbsStore :=
  match op with
  | OpSetConfig c =>
      if is_ok (validate_edge_config c)
         && bool_decide (map_Forall (fun _ m => is_ok (validate_mapping m c) = true) (a_mappings a))
      then mkAbs (Some c) (a_mappings a) else a
  | OpInsert m =>
      if bool_decide (a_mappings a !! id m = None) && admissible a m then put a m else a
  | OpUpdate m =>
      let m := set_state m (enabled m) (status m) now in
      if bool_decide (is_Some (a_mappings a !! id m)) && admissible a m then put a m else a
  | OpDelete i => mkAbs (a_config a) (delete i (a_mappings a))
  | OpSetEnabled i en =>
      mkAbs (a_config a) (alter (fun m => set_enabled m en now) i (a_mappings a))
  | OpGeneration _ | OpEvent _ => a
  end.
Definition abs_steps (ops : list (Time * StoreOp)) (a : AbsStore) : AbsStore :=
  foldl (fun a '(now, op) => abs_step now op a) a ops.

Definition view (s : InMemoryStateStore) : AbsStore := mkAbs (s_config s) (bt_map (s_mappings s)).
End contract.

Lemma bt_map_Forall (P : MappingId -> Mapping -> Prop) l :
  map_Forall P (bt_map l) <-> forall i m, bt_get i l = Some m -> P i m.
Proof. unfold map_Forall. setoid_rewrite bt_map_lookup. done. Qed.

(** The write check of the code is the admission test of the contract. *)
Lemma write_check_admissible `{Ipnet} s m :
  store_inv s -> is_ok (validate_mapping_for_write s m) = admissible (view s) m.
Proof.
  intros Hinv. apply bool_iff. rewrite is_ok_unit, write_check_Ok by done.
  unfold admissible; cbn. destruct (s_config s) as [c|]; [|naive_solver].
  rewrite andb_true_iff, is_ok_unit, bool_decide_eq_true, bt_map_Forall, validate_mapping_Ok.
  split; [intros (c' & [= <-] & Hv & HR); split; [done|]; eauto|].
  intros [Hv HR]. exists c. split_and!; eauto.
Qed.

Lemma config_check `{Ipnet} s c :
  store_inv s ->
  is_ok (validate_edge_config c ;; for_each (fun m => validate_mapping m c) (bt_values (s_mappings s)))
  = is_ok (validate_edge_config c) &&
    bool_decide (map_Forall (fun _ m => is_ok (validate_mapping m c) = true) (bt_map (s_mappings s))).
Proof.
  intros Hinv. apply bool_iff.
  rewrite andb_true_iff, !is_ok_unit, seq_Ok, bool_decide_eq_true, bt_map_Forall, for_each_Ok, Forall_forall.
  apply and_iff_compat_l. setoid_rewrite bt_values_elem; [|apply Hinv].
  setoid_rewrite is_ok_unit. naive_solver.
Qed.

(** Every operation of the store is the step of the contract on its view. *)
Lemma run_op_view `{Ipnet} now op s :
  store_inv s -> view (run_op now op s) = abs_step now op (view s).
Proof.
  intros Hinv. destruct op as [c|m|m|i|i en|g|e]; cbn [run_op abs_step].
  - pose proof (config_check s c Hinv) as Hc. unfold set_edge_config; cbn. rewrite <- Hc.
    by destruct (_ ;; _) as [[]|].
  - unfold insert_mapping; cbn. rewrite bt_map_lookup.
    destruct (bt_get (id m) _) eqn:E; [done|]. rewrite bool_decide_eq_true_2 by done; cbn [andb].
    rewrite <- write_check_admissible by done.
    destruct (validate_mapping_for_write s m); [|done]. unfold view, put; cbn. by rewrite bt_map_insert.
  - unfold update_mapping; cbn. rewrite bt_map_lookup.
    destruct (bt_get (id m) _) eqn:E; [|done]. rewrite bool_decide_eq_true_2 by done; cbn [andb].
    rewrite <- write_check_admissible by done.
    destruct (validate_mapping_for_write s _); [|done]. unfold view, put; cbn. by rewrite bt_map_insert.
  - unfold delete_mapping. destruct (bt_get i _) eqn:E; cbn.
    + unfold view; cbn. by rewrite bt_map_remove by apply Hinv.
    + unfold view; cbn. by rewrite delete_id by (by rewrite bt_map_lookup).
  - unfold set_mapping_enabled. destruct (bt_get i _) as [m|] eqn:E; unfold view; cbn.
    + f_equal. rewrite bt_map_insert.
      apply map_eq. intros j. destruct (decide (i = j)) as [<-|].
      * by rewrite lookup_insert_eq, lookup_alter_eq, bt_map_lookup, E.
      * by rewrite lookup_insert_ne, lookup_alter_ne.
    + f_equal. apply map_eq. intros j. destruct (decide (i = j)) as [<-|].
      * by rewrite lookup_alter_eq, bt_map_lookup, E.
      * by rewrite lookup_alter_ne.
  - unfold record_generation. by destruct (is_empty _).
  - unfold record_event. by destruct (is_empty _).
Qed.

(** An admissible mapping with a fresh id is stored. *)
Lemma insert_Ok `{Ipnet} s c m :
  store_inv s -> s_config s = Some c -> mapping_valid (target_cidrs c) m ->
  bt_get (id m) (s_mappings s) = None ->
  (forall j n, bt_get j (s_mappings s) = Some n -> static_ok n m /\ no_conflict n m) ->
  insert_mapping m s = (Ok tt, set_mappings s (bt_insert (id m) m (s_mappings s))).
Proof.
  intros Hinv Hc Hv Hn HR. unfold insert_mapping. rewrite Hn.
  assert (E : validate_mapping_for_write s m = Ok tt); [|by rewrite E].
  apply write_check_Ok; [done|]. exists c. split_and!; eauto.
Qed.

(** ** Properties *)

(** After any history of operations on a new store the mappings are sorted
    by id under their own ids, each is valid under the configuration in force,
    and no two share a one-to-one target or a public address held one-to-one. *)
Theorem store_history_invariant `{Ipnet} ops : store_inv (run_ops ops store_new).
Proof. apply run_ops_inv, store_new_inv. Qed.

(** As long as no operation turns a mapping on, the stored mappings always
    pass the validation that rendering performs. *)
Theorem store_history_renderable `{Ipnet} ops c
    (Hops : Forall (fun x => not_enabling x.2) ops)
    (Hc : s_config (run_ops ops store_new) = Some c) :
  validate_mappings (list_mappings (run_ops ops store_new)) c = Ok tt.
Proof.
  apply store_validates; [apply run_ops_inv, store_new_inv| |done].
  apply run_ops_conflict_free; [apply store_new_inv|by intros ????|done].
Qed.

(** Turning a mapping on is not checked against the others: on a store
    where the mapping, once on, conflicts with another one, the operation
    succeeds and the stored mappings no longer pass validation. *)
Theorem enabling_is_unchecked `{Ipnet} s c (now : Time) i j l r (Hinv : store_inv s)
    (Hc : s_config s = Some c)
    (Hl : bt_get i (s_mappings s) = Some l) (Hr : bt_get j (s_mappings s) = Some r)
    (Hij : i <> j) (Hlr : conflicts (set_enabled l true now) r = true) :
  exists s', set_mapping_enabled now i true s = (Ok tt, s') /\ store_inv s' /\
    validate_mappings (list_mappings s') c <> Ok tt.
Proof.
  unfold set_mapping_enabled. rewrite Hl. eexists. split; [done|].
  assert (I : store_inv (set_mappings s (bt_insert i (set_enabled l true now) (s_mappings s))))
    by (by apply set_enabled_inv).
  split; [done|]. rewrite validate_mappings_Ok. intros [_ Hp].
  destruct (pairwise_elem_of compatible _ (set_enabled l true now) r Hp) as [E|[E _]].
  - apply bt_values_elem; [apply I|]. exists i. cbn. by rewrite bt_get_insert, decide_True.
  - apply bt_values_elem; [apply I|]. exists j. cbn. by rewrite bt_get_insert, decide_False.
  - apply Hij. rewrite <- (inv_keys _ Hinv i l Hl), <- (inv_keys _ Hinv j r Hr). by rewrite <- E.
  - congruence.
Qed.

(** Inserting succeeds exactly when the id is free, a configuration is set,
    the mapping is valid under it and neither clashes nor conflicts with a
    stored mapping; the mapping can then be read back under its id, the other
    entries are as before, and a refused insertion changes nothing. *)
Theorem insert_mapping_exact `{Ipnet} s m (Hinv : store_inv s) :
  ((insert_mapping m s).1 = Ok tt <->
     bt_get (id m) (s_mappings s) = None /\
     exists c, s_config s = Some c /\ mapping_valid (target_cidrs c) m /\
       forall j n, bt_get j (s_mappings s) = Some n -> static_ok n m /\ no_conflict n m) /\
  ((insert_mapping m s).1 = Ok tt ->
     forall j, get_mapping j (insert_mapping m s).2 = if decide (j = id m) then Ok m else get_mapping j s) /\
  ((insert_mapping m s).1 <> Ok tt -> (insert_mapping m s).2 = s).
Proof.
  split_and!.
  - split.
    + unfold insert_mapping. destruct (bt_get _ _) eqn:E; [done|].
      destruct (validate_mapping_for_write s m) as [[]|] eqn:Ew; [|done]. intros _. split; [done|].
      apply write_check_Ok in Ew as (c & ? & ? & HR); [|done]. exists c. split_and!; try done.
      intros j n Hn. apply (HR j); [|done]. intros ->. congruence.
    + intros (Hn & c & Hc & Hv & HR). by rewrite (insert_Ok s c).
  - unfold insert_mapping. destruct (bt_get _ _) eqn:E; [done|].
    destruct (validate_mapping_for_write s m) as [[]|]; [|done]. intros _ j.
    unfold get_mapping; cbn. rewrite bt_get_insert.
    destruct (decide (j = id m)); by repeat case_decide.
  - unfold insert_mapping. destruct (bt_get _ _); [done|].
    by destruct (validate_mapping_for_write s m) as [[]|].
Qed.

(** C31: the in-memory store refines its contract: a history of operations takes
    the view of the store, a finite map of mappings under a configuration, to
    the state the contract gives for the same history. *)
Theorem store_refines_contract `{Ipnet} ops :
  view (run_ops ops store_new) = abs_steps ops (mkAbs None ∅).
Proof.
  assert (Hs : forall s a, store_inv s -> view s = a -> view (run_ops ops s) = abs_steps ops a).
  { induction ops as [|[now op] ops IH]; intros s a Hinv Ha; [done|].
    apply IH; [by apply run_op_inv|]. rewrite <- Ha. by apply run_op_view. }
  apply Hs; [apply store_new_inv|done].
Qed.

(** The generations and the events of a store are numbered consecutively
    from 1 in the order they were recorded, up to the wrap-around of [i64]. *)
Theorem records_are_numbered `{Ipnet} ops : numbered (run_ops ops store_new).
Proof. apply run_ops_numbered. by constructor. Qed.

(** ** Witnesses *)

#[local] Existing Instance ipnet_model.

Definition fwd (i : MappingId) (host : Z) : Mapping :=
  sample_forward i (ip4 10 0 0 5) (ip4 192 168 20 host) 443.
Definition sample_ops : list (Time * StoreOp) :=
  [(1, OpSetConfig sample_config); (2, OpInsert (fwd "a" 1)); (3, OpSetEnabled "a" false);
   (4, OpInsert (fwd "b" 2))].

Lemma store_history_renderable_witness :
  s_config (run_ops sample_ops store_new) = Some sample_config /\
  length (list_mappings (run_ops sample_ops store_new)) = 2%nat /\
  validate_mappings (list_mappings (run_ops sample_ops store_new)) sample_config = Ok tt.
Proof.
  split_and!; [reflexivity|vm_compute; reflexivity|].
  apply store_history_renderable; [|reflexivity].
  repeat constructor; intros i; cbn; congruence.
Defined.

Lemma enabling_is_unchecked_witness :
  exists s', set_mapping_enabled 5 "a" true (run_ops sample_ops store_new) = (Ok tt, s') /\
    store_inv s' /\ validate_mappings (list_mappings s') sample_config <> Ok tt.
Proof.
  refine (enabling_is_unchecked _ sample_config 5 "a" "b" (set_enabled (fwd "a" 1) false 3) (fwd "b" 2)
    _ _ _ _ _ _).
  - apply run_ops_inv, store_new_inv.
  - reflexivity.
  - vm_compute. reflexivity.
  - vm_compute. reflexivity.
  - congruence.
  - vm_compute. reflexivity.
Defined.

Lemma insert_mapping_exact_witness :
  (insert_mapping (fwd "c" 3) (run_ops sample_ops store_new)).1
    = Err (DuplicateEdgePrivateIp (ip4 10 0 0 5)) /\
  (insert_mapping (fwd "c" 3) (run_ops sample_ops store_new)).2 = run_ops sample_ops store_new.
Proof.
  split; [vm_compute; reflexivity|].
  apply (insert_mapping_exact (run_ops sample_ops store_new) (fwd "c" 3)).
  - apply run_ops_inv, store_new_inv.
  - vm_compute. discriminate.
Defined.
