(* ===== verification/Sql.v ===== *)
(** The SQLite database of [edge-store]: the tables of [SQLITE_SCHEMA]
    ([edge-core/src/state.rs]), the partial unique indexes and the triggers of
    [MAPPING_CONSTRAINTS] ([edge-store/src/lib.rs]) and the statements the store
    executes, each one atomic. *)
From Stdlib Require Import Btauto.
From S2P Require Import Prelude Str Net Core.
Local Open Scope Z_scope.

(** ** Rows *)

(** A row of [mappings]; NULL is [None]. *)
Record MapRow := mkRow {
  r_id : string;
  r_name : string;
  r_public_ip : option string;
  r_oci_public_ip_ocid : option string;
  r_edge_private_ip : string;
  r_oci_private_ip_ocid : option string;
  r_target_ip : string;
  r_public_port : option Z;
  r_target_port : option Z;
  r_protocol : string;
  r_mode : string;
  r_backend : string;
  r_enabled : Z;
  r_status : string;
  r_last_error : option string;
  r_health_status : option string;
  r_last_checked_at : option string;
  r_created_at : string;
  r_updated_at : string;
}.

Record GenRow := mkGenRow {
  gr_id : Z;
  gr_status : string;
  gr_config : string;
  gr_created_at : string;
  gr_applied_at : option string;
  gr_error : option string;
}.

Record EventRow := mkEventRow {
  er_id : Z;
  er_level : string;
  er_message : string;
  er_data : option string;
  er_created_at : string;
}.

(** The tables in rowid order, with the sequences of the [AUTOINCREMENT] keys. *)
Record Db := mkDb {
  db_mappings : list MapRow;
  db_config : gmap string string;
  db_generations : list GenRow;
  db_generation_seq : Z;
  db_events : list EventRow;
  db_event_seq : Z;
}.

Definition db_empty : Db := mkDb [] ∅ [] 0 [] 0.

Definition set_rows (db : Db) (rows : list MapRow) : Db :=
  mkDb rows (db_config db) (db_generations db) (db_generation_seq db) (db_events db) (db_event_seq db).

(** ** Constraints *)

Definition one_to_one_name : string := "one_to_one_snat".
Definition port_forward_name : string := "port_forward_snat".

(** [enabled = 1 AND mode = name] *)
Definition on_with (nm : string) (r : MapRow) : bool :=
  (r_enabled r =? 1) && bool_decide (r_mode r = nm).

(** SQL equality of two nullable columns: NULL equals nothing. *)
Definition same_value {A} `{EqDecision A} (a b : option A) : bool :=
  match a, b with Some x, Some y => bool_decide (x = y) | _, _ => false end.

Definition same_edge (r s : MapRow) : bool := bool_decide (r_edge_private_ip r = r_edge_private_ip s).
Definition same_target_text (r s : MapRow) : bool := bool_decide (r_target_ip r = r_target_ip s).
Definition same_public (r s : MapRow) : bool := same_value (r_public_ip r) (r_public_ip s).
Definition same_tuple (r s : MapRow) : bool :=
  same_edge r s && bool_decide (r_protocol r = r_protocol s)
  && same_value (r_public_port r) (r_public_port s).

(** A partial unique index: the rows it covers, by mode, and its key. *)
Record UniqueIndex := mkIndex {
  ix_name : string;
  ix_mode : string;
  ix_same : MapRow -> MapRow -> bool;
}.

Definition mapping_indexes : list UniqueIndex := [
  mkIndex "mappings_one_to_one_edge_private_ip_enabled_idx" one_to_one_name same_edge;
  mkIndex "mappings_one_to_one_public_ip_enabled_idx" one_to_one_name same_public;
  mkIndex "mappings_one_to_one_target_ip_enabled_idx" one_to_one_name same_target_text;
  mkIndex "mappings_port_forward_tuple_enabled_idx" port_forward_name same_tuple
].

Definition violates (others : list MapRow) (new : MapRow) (ix : UniqueIndex) : bool :=
  on_with (ix_mode ix) new && existsb (fun r => on_with (ix_mode ix) r && ix_same ix r new) others.

(** The triggers [mappings_reject_conflict_insert] and
    [mappings_reject_conflict_update]; [others] are the rows their queries
    range over. *)
Definition reject_conflict (others : list MapRow) (new : MapRow) : option string :=
  if negb (r_enabled new =? 1) then None
  else if bool_decide (r_mode new = port_forward_name)
          && existsb (fun r => on_with one_to_one_name r && same_edge r new) others then
    Some "mapping conflict: one-to-one owns edge_private_ip"
  else if bool_decide (r_mode new = one_to_one_name)
          && existsb (fun r => on_with port_forward_name r && same_edge r new) others then
    Some "mapping conflict: edge_private_ip already has port forwards"
  else if bool_decide (r_mode new = port_forward_name)
          && existsb (fun r => on_with one_to_one_name r && same_public r new) others then
    Some "mapping conflict: public_ip already used by one-to-one"
  else if bool_decide (r_mode new = one_to_one_name)
          && existsb (fun r => (r_enabled r =? 1) && same_public r new) others then
    Some "mapping conflict: public_ip already used"
  else None.

(** ** Statements *)

(** Why SQLite refuses a statement; the last is a fault of the engine. *)
Inductive SqlFailure :=
  | PrimaryKeyTaken
  | IndexTaken (index : string)
  | Raised (message : string)
  | RowidsExhausted
  | SqlFault (message : string).

(** What [execute] reports; the rowid is kept for the [AUTOINCREMENT] tables,
    the only ones whose rowid is read. *)
Record SqlDone := mkDone { rows_affected : Z; last_insert_rowid : Z }.

Definition check_row (others : list MapRow) (new : MapRow) : Result SqlFailure unit :=
  match find (violates others new) mapping_indexes with
  | Some ix => Err (IndexTaken (ix_name ix))
  | None => Ok tt
  end.

Definition check_trigger (others : list MapRow) (new : MapRow) : Result SqlFailure unit :=
  match reject_conflict others new with Some m => Err (Raised m) | None => Ok tt end.

(** [INSERT INTO mappings]: the trigger, the primary key, the indexes. *)
Definition insert_row (rows : list MapRow) (new : MapRow) : Result SqlFailure (list MapRow) :=
  check_trigger rows new ;;
  (if existsb (fun r => bool_decide (r_id r = r_id new)) rows then Err PrimaryKeyTaken else Ok tt) ;;
  check_row rows new ;;
  Ok (rows ++ [new]).

(** [UPDATE mappings SET .. WHERE id = i], rows in order; [before] are the rows
    already visited and [fires] whether the assigned columns include one the
    update trigger watches. *)
Fixpoint update_rows (fires : bool) (i : string) (f : MapRow -> MapRow)
    (before rows : list MapRow) : Result SqlFailure (list MapRow * Z) :=
  match rows with
  | [] => Ok (before, 0)
  | r :: rest =>
      if bool_decide (r_id r = i) then
        let new := f r in
        let others := before ++ rest in
        (if fires then check_trigger (filter (fun s => r_id s <> r_id new) (before ++ r :: rest)) new
         else Ok tt) ;;
        check_row others new ;;
        '(rows', n) ← update_rows fires i f (before ++ [new]) rest;
        Ok (rows', 1 + n)
      else update_rows fires i f (before ++ [r]) rest
  end.

Definition b2z (b : bool) : Z := if b then 1 else 0.

(** The assignments of the three [UPDATE] statements. *)
Definition assign_mapping (new r : MapRow) : MapRow :=
  mkRow (r_id r) (r_name new) (r_public_ip new) (r_oci_public_ip_ocid new) (r_edge_private_ip new)
    (r_oci_private_ip_ocid new) (r_target_ip new) (r_public_port new) (r_target_port new)
    (r_protocol new) (r_mode new) (r_backend new) (r_enabled new) (r_status new) (r_last_error new)
    (r_health_status new) (r_last_checked_at new) (r_created_at r) (r_updated_at new).
Definition assign_enabled (en : bool) (st updated : string) (r : MapRow) : MapRow :=
  mkRow (r_id r) (r_name r) (r_public_ip r) (r_oci_public_ip_ocid r) (r_edge_private_ip r)
    (r_oci_private_ip_ocid r) (r_target_ip r) (r_public_port r) (r_target_port r)
    (r_protocol r) (r_mode r) (r_backend r) (b2z en) st (r_last_error r)
    (r_health_status r) (r_last_checked_at r) (r_created_at r) updated.
Definition assign_health (st : string) (health err : option string) (checked updated : string)
    (r : MapRow) : MapRow :=
  mkRow (r_id r) (r_name r) (r_public_ip r) (r_oci_public_ip_ocid r) (r_edge_private_ip r)
    (r_oci_private_ip_ocid r) (r_target_ip r) (r_public_port r) (r_target_port r)
    (r_protocol r) (r_mode r) (r_backend r) (r_enabled r) st err
    health (Some checked) (r_created_at r) updated.

Inductive Stmt :=
  | InsertMapping (new : MapRow)
  | UpdateMapping (i : string) (new : MapRow)
  | UpdateEnabled (i : string) (en : bool) (st updated : string)
  | UpdateHealth (i : string) (st : string) (health err : option string) (checked updated : string)
  | DeleteMapping (i : string)
  | UpsertConfig (value : string)
  | InsertGeneration (st config created : string) (applied err : option string)
  | InsertEvent (level message : string) (data : option string) (created : string).

Definition max_rowid : Z := 2 ^ 63 - 1.

Definition update_stmt (fires : bool) (i : string) (f : MapRow -> MapRow) (db : Db)
    : Result SqlFailure (Db * SqlDone) :=
  '(rows, n) ← update_rows fires i f [] (db_mappings db);
  Ok (set_rows db rows, mkDone n 0).

Definition exec (s : Stmt) (db : Db) : Result SqlFailure (Db * SqlDone) :=
  match s with
  | InsertMapping new =>
      rows ← insert_row (db_mappings db) new;
      Ok (set_rows db rows, mkDone 1 0)
  | UpdateMapping i new => update_stmt true i (assign_mapping new) db
  | UpdateEnabled i en st updated => update_stmt true i (assign_enabled en st updated) db
  | UpdateHealth i st health err checked updated =>
      update_stmt false i (assign_health st health err checked updated) db
  | DeleteMapping i =>
      Ok (set_rows db (filter (fun r => r_id r <> i) (db_mappings db)),
          mkDone (Z.of_nat (length (filter (fun r => r_id r = i) (db_mappings db)))) 0)
  | UpsertConfig value =>
      Ok (mkDb (db_mappings db) (<["default" := value]> (db_config db)) (db_generations db)
            (db_generation_seq db) (db_events db) (db_event_seq db), mkDone 1 0)
  | InsertGeneration st config created applied err =>
      if db_generation_seq db <? max_rowid then
        let i := db_generation_seq db + 1 in
        Ok (mkDb (db_mappings db) (db_config db)
              (db_generations db ++ [mkGenRow i st config created applied err]) i
              (db_events db) (db_event_seq db), mkDone 1 i)
      else Err RowidsExhausted
  | InsertEvent level message data created =>
      if db_event_seq db <? max_rowid then
        let i := db_event_seq db + 1 in
        Ok (mkDb (db_mappings db) (db_config db) (db_generations db) (db_generation_seq db)
              (db_events db ++ [mkEventRow i level message data created]) i, mkDone 1 i)
      else Err RowidsExhausted
  end.

(** Statements of any number of clients, in the order the engine runs them. A
    refused statement changes nothing. *)
Inductive db_step : Db -> Db -> Prop :=
  | step_exec s db db' d : exec s db = Ok (db', d) -> db_step db db'.

Definition run_stmts (ss : list Stmt) (db : Db) : Db :=
  foldl (fun db s => match exec s db with Ok (db', _) => db' | Err _ => db end) db ss.

(** ** What the constraints keep apart *)

(** Two enabled rows that may not coexist. *)
Definition row_clash (r s : MapRow) : bool :=
  (r_enabled r =? 1) && (r_enabled s =? 1) &&
  let oto x := bool_decide (r_mode x = one_to_one_name) in
  let pf x := bool_decide (r_mode x = port_forward_name) in
  (oto r && oto s && (same_edge r s || same_target_text r s || same_public r s)
   || pf r && pf s && same_tuple r s
   || (oto r && pf s || pf r && oto s) && (same_edge r s || same_public r s)).

Definition apart (r s : MapRow) : Prop := row_clash r s = false.
Definition bool_column (r : MapRow) : Prop := r_enabled r = 0 \/ r_enabled r = 1.

Record rows_ok (rows : list MapRow) : Prop := {
  ro_ids : NoDup (r_id <$> rows);
  ro_apart : pairwise apart rows;
  ro_bools : Forall bool_column rows;
}.

Lemma same_value_sym {A} `{EqDecision A} (a b : option A) : same_value a b = same_value b a.
Proof. destruct a, b; cbn; try done. by apply bool_decide_ext. Qed.

Lemma text_sym (x y : string) : bool_decide (x = y) = bool_decide (y = x).
Proof. by apply bool_decide_ext. Qed.

Lemma row_clash_sym r s : row_clash r s = row_clash s r.
Proof.
  unfold row_clash, same_tuple, same_edge, same_target_text, same_public. cbn zeta.
  rewrite (text_sym (r_edge_private_ip r)), (text_sym (r_target_ip r)), (text_sym (r_protocol r)),
    (same_value_sym (r_public_ip r)), (same_value_sym (r_public_port r)).
  btauto.
Qed.

#[export] Instance apart_sym : Symmetric apart.
Proof. intros r s. unfold apart. by rewrite row_clash_sym. Qed.

Lemma existsb_false {A} (f : A -> bool) l : existsb f l = false <-> Forall (fun a => f a = false) l.
Proof.
  induction l as [|a l IH]; cbn; [split; [constructor|done]|].
  by rewrite orb_false_iff, IH, Forall_cons.
Qed.

Lemma check_row_Ok others new :
  check_row others new = Ok tt <-> Forall (fun ix => violates others new ix = false) mapping_indexes.
Proof.
  unfold check_row. destruct (find _ _) as [ix|] eqn:E.
  - apply find_some in E as [Hin Hv]. split; [done|]. rewrite Forall_forall. intros HF.
    apply list_elem_of_In in Hin. by rewrite (HF ix Hin) in Hv.
  - split; [intros _|done]. apply Forall_forall. intros ix Hin%list_elem_of_In.
    by apply (find_none _ _ E).
Qed.

(** The clause of a constraint, at one of the rows it ranges over. *)
Lemma clause_at (b : bool) (f : MapRow -> bool) others r :
  b && existsb f others = false -> r ∈ others -> b && f r = false.
Proof.
  intros H Hr. destruct b; [|done]. cbn in *. rewrite existsb_false, Forall_forall in H. auto.
Qed.

(** A row that passes the trigger and the indexes is apart from the others. *)
Lemma checks_apart others new :
  check_trigger others new = Ok tt -> check_row others new = Ok tt ->
  Forall (fun r => apart r new) others.
Proof.
  intros Ht Hi. apply Forall_forall. intros r Hr. unfold apart, row_clash.
  destruct (r_enabled new =? 1) eqn:En; [|by rewrite andb_false_r].
  destruct (r_enabled r =? 1) eqn:Er; [|done]. cbn [andb].
  rewrite check_row_Ok in Hi. unfold mapping_indexes in Hi. rewrite !Forall_cons in Hi.
  destruct Hi as (H1 & H2 & H3 & H4 & _).
  unfold violates in H1, H2, H3, H4.
  apply (clause_at _ _ _ r) in H1, H2, H3, H4; [|done..].
  unfold on_with in *. cbn [ix_mode ix_same] in *. rewrite En, Er in *.
  unfold check_trigger, reject_conflict in Ht. rewrite En in Ht. cbn [negb] in Ht.
  destruct (_ && existsb _ others) eqn:T1 in Ht; [done|].
  destruct (_ && existsb _ others) eqn:T2 in Ht; [done|].
  destruct (_ && existsb _ others) eqn:T3 in Ht; [done|].
  destruct (_ && existsb _ others) eqn:T4 in Ht; [done|]. clear Ht.
  apply (clause_at _ _ _ r) in T1, T2, T3, T4; [|done..].
  unfold on_with in *. rewrite Er in *. cbn [andb] in *. cbn zeta.
  destruct (bool_decide (r_mode r = one_to_one_name)), (bool_decide (r_mode r = port_forward_name)),
    (bool_decide (r_mode new = one_to_one_name)), (bool_decide (r_mode new = port_forward_name));
    cbn [andb orb] in *; rewrite ?H1, ?H2, ?H3, ?H4, ?T1, ?T2, ?T3, ?T4; try done.
Qed.

(** What [apart] says of each constraint: [o] and [f] are the modes of the two
    rows, the others what they have in common. *)
Lemma apart_clauses (o f o' f' e t p u : bool) :
  o && o' && (e || t || p) || f && f' && u || (o && f' || f && o') && (e || p) = false ->
  o || f = true ->
  (f' && (o && e) = false /\ o' && (f && e) = false /\ f' && (o && p) = false /\ o' && p = false) /\
  (o' && (o && e) = false /\ o' && (o && p) = false /\ o' && (o && t) = false /\ f' && (f && u) = false).
Proof. destruct o, f, o', f', e, t, p, u; cbn; try discriminate; repeat split; reflexivity. Qed.

Definition known_mode (r : MapRow) : Prop := r_mode r = one_to_one_name \/ r_mode r = port_forward_name.

(** Conversely, a row apart from all others passes both. *)
Lemma apart_checks others new :
  Forall (fun r => apart r new) others -> Forall known_mode others ->
  check_trigger others new = Ok tt /\ check_row others new = Ok tt.
Proof.
  intros Hap Hmd. rewrite Forall_forall in Hap, Hmd.
  unfold check_trigger, reject_conflict. rewrite check_row_Ok. unfold mapping_indexes.
  rewrite !Forall_cons. unfold violates, on_with. cbn [ix_mode ix_same].
  destruct (r_enabled new =? 1) eqn:En; cbn [negb andb]; [|by repeat constructor].
  assert (Hno : forall (b : bool) (h : MapRow -> bool),
    (forall r, r ∈ others -> b && h r = false) -> b && existsb h others = false).
  { intros [] h Hh; [|done]. cbn in *. by apply existsb_false, Forall_forall. }
  assert (Hall : forall r, r ∈ others -> r_enabled r =? 1 = true ->
    let o x := bool_decide (r_mode x = one_to_one_name) in
    let f x := bool_decide (r_mode x = port_forward_name) in
    (f new && (o r && same_edge r new) = false /\ o new && (f r && same_edge r new) = false /\
     f new && (o r && same_public r new) = false /\ o new && same_public r new = false) /\
    (o new && (o r && same_edge r new) = false /\ o new && (o r && same_public r new) = false /\
     o new && (o r && same_target_text r new) = false /\ f new && (f r && same_tuple r new) = false)).
  { intros r Hr Er. cbn zeta. pose proof (Hap r Hr) as Ha. unfold apart, row_clash in Ha.
    rewrite Er, En in Ha. apply (apart_clauses _ _ _ _ _ _ _ _ Ha).
    destruct (Hmd r Hr) as [->| ->]; done. }
  assert (Hc : forall (b : bool) (h : MapRow -> bool),
    (forall r, r ∈ others -> r_enabled r =? 1 = true -> b && h r = false) ->
    b && existsb (fun r => (r_enabled r =? 1) && h r) others = false).
  { intros b h Hh. apply Hno. intros r Hr. destruct (r_enabled r =? 1) eqn:Er; [by apply Hh|].
    by rewrite andb_false_r. }
  assert (Hc' : forall (b : bool) (g h : MapRow -> bool),
    (forall r, r ∈ others -> r_enabled r =? 1 = true -> b && (g r && h r) = false) ->
    b && existsb (fun r => (r_enabled r =? 1) && g r && h r) others = false).
  { intros b g h Hh. apply Hno. intros r Hr. rewrite <- andb_assoc.
    destruct (r_enabled r =? 1) eqn:Er; [by apply Hh|]. by rewrite andb_false_r. }
  rewrite !Hc', Hc; [done|..]; intros r Hr Er; apply (Hall r Hr Er).
Qed.

Lemma rows_ok_perm rows rows' : rows ≡ₚ rows' -> rows_ok rows -> rows_ok rows'.
Proof.
  intros Hp [H1 H2 H3]. constructor.
  - by rewrite <- Hp.
  - by apply (pairwise_Permutation apart rows).
  - by rewrite <- Hp.
Qed.

Lemma rows_ok_cons r rows :
  rows_ok (r :: rows) <-> r_id r ∉ r_id <$> rows /\ Forall (apart r) rows /\ bool_column r /\ rows_ok rows.
Proof.
  split.
  - intros [H1 H2 H3]. rewrite fmap_cons, NoDup_cons in H1. rewrite pairwise_cons in H2.
    rewrite Forall_cons in H3. destruct H1, H2, H3. by repeat split.
  - intros (H1 & H2 & H3 & [H4 H5 H6]). constructor; [|by apply pairwise_cons|by constructor].
    rewrite fmap_cons. by apply NoDup_cons.
Qed.

Lemma insert_row_ok rows new rows' :
  rows_ok rows -> bool_column new -> insert_row rows new = Ok rows' ->
  rows' = rows ++ [new] /\ rows_ok rows'.
Proof.
  intros Hok Hb Hi. unfold insert_row in Hi. res_inv. split; [done|].
  apply (rows_ok_perm (new :: rows)); [apply Permutation_cons_append|].
  apply rows_ok_cons. split_and!; [| |done|done].
  - case_match; [done|]. intros (r & Hid & Hr)%list_elem_of_fmap.
    match goal with Hx : existsb _ _ = false |- _ => rewrite existsb_false, Forall_forall in Hx;
      specialize (Hx r Hr); apply bool_decide_eq_false in Hx; congruence end.
  - eapply Forall_impl; [by apply checks_apart|]. by intros r ?%symmetry.
Qed.

(** What an [UPDATE] may assign without breaking the constraints. *)
Record safe_update (fires : bool) (f : MapRow -> MapRow) : Prop := {
  su_id : forall r, r_id (f r) = r_id r;
  su_bool : forall r, bool_column r -> bool_column (f r);
  su_apart : fires = false -> forall r s, row_clash (f r) s = row_clash r s;
}.

Definition updated (i : string) (f : MapRow -> MapRow) (r : MapRow) : MapRow :=
  if decide (r_id r = i) then f r else r.

(** The rows the trigger looks at are all rows but the one being updated. *)
Lemma filter_other_ids (new : MapRow) (rows : list MapRow) :
  r_id new ∉ r_id <$> rows -> filter (fun s => r_id s <> r_id new) rows = rows.
Proof.
  induction rows as [|s rows IH]; [done|]. rewrite fmap_cons, not_elem_of_cons. intros [Hne Hn].
  by rewrite filter_cons, decide_True, IH by congruence.
Qed.

Lemma filter_self (new r : MapRow) (before rest : list MapRow) :
  r_id new = r_id r -> r_id r ∉ r_id <$> before ++ rest ->
  filter (fun s => r_id s <> r_id new) (before ++ r :: rest) = before ++ rest.
Proof.
  intros Hid Hn. rewrite fmap_app in Hn. apply not_elem_of_app in Hn as [Hb Hr].
  rewrite filter_app, filter_cons, decide_False by (intros E; by apply E).
  by rewrite !filter_other_ids by (by rewrite Hid).
Qed.

Lemma update_rows_ok fires i f before rows rows' n :
  safe_update fires f -> rows_ok (before ++ rows) ->
  update_rows fires i f before rows = Ok (rows', n) ->
  rows_ok rows' /\ rows' = before ++ (updated i f <$> rows) /\
  n = Z.of_nat (length (filter (fun r => r_id r = i) rows)).
Proof.
  intros Hf. revert before n. induction rows as [|r rest IH]; intros before n Hok Hu; cbn in Hu.
  { simplify_eq/=. rewrite List.app_nil_r in *. done. }
  rewrite filter_cons, fmap_cons. unfold updated at 1.
  destruct (decide (r_id r = i)) as [Hi|Hi].
  - rewrite bool_decide_eq_true_2 in Hu by done. rewrite !seq_Ok, bind_Ok in Hu.
    destruct Hu as (Ht & Hc & [rows1 n1] & Hu & Hret). simplify_eq/=.
    assert (Hp : before ++ r :: rest ≡ₚ r :: before ++ rest) by (symmetry; apply Permutation_middle).
    apply (rows_ok_perm _ _ Hp), rows_ok_cons in Hok as (Hid & Hap & Hb & Hrest).
    apply IH in Hu as (Hok' & -> & ->).
    + split_and!; [done|by rewrite <- (assoc_L (++))|]. cbn [length]. lia.
    + rewrite <- (assoc_L (++)); cbn. apply (rows_ok_perm (f r :: before ++ rest)); [apply Permutation_middle|].
      apply rows_ok_cons. rewrite (su_id _ _ Hf). split_and!; [done| |by apply (su_bool _ _ Hf)|done].
      destruct fires.
      * rewrite (filter_self _ r) in Ht by (by rewrite ?(su_id _ _ Hf)).
        eapply Forall_impl; [by apply checks_apart|by intros s ?%symmetry].
      * eapply Forall_impl; [exact Hap|]. intros s Hs. unfold apart. by rewrite (su_apart _ _ Hf).
  - rewrite bool_decide_eq_false_2 in Hu by done. apply IH in Hu as (Hok' & -> & ->).
    + split_and!; [done|by rewrite <- (assoc_L (++))|done].
    + by rewrite <- (assoc_L (++)).
Qed.

(** ** The invariant of the database *)

(** [bool] parameters bind 0 or 1. *)
Definition bound_stmt (s : Stmt) : Prop :=
  match s with
  | InsertMapping new | UpdateMapping _ new => bool_column new
  | _ => True
  end.

(** Keys drawn from a sequence: increasing, positive and below its value. *)
Definition ids_ok (ids : list Z) (seq : Z) : Prop :=
  StronglySorted Z.lt ids /\ Forall (fun i => 0 < i <= seq) ids /\ 0 <= seq <= max_rowid.

Record db_ok (db : Db) : Prop := {
  ok_rows : rows_ok (db_mappings db);
  ok_generations : ids_ok (gr_id <$> db_generations db) (db_generation_seq db);
  ok_events : ids_ok (er_id <$> db_events db) (db_event_seq db);
}.

Lemma db_empty_ok : db_ok db_empty.
Proof.
  split; [repeat constructor| |]; (split_and!; cbn; [constructor|constructor|lia|unfold max_rowid; lia]).
Qed.

Lemma ids_ok_snoc ids seq : ids_ok ids seq -> seq < max_rowid -> ids_ok (ids ++ [seq + 1]) (seq + 1).
Proof.
  intros (Hs & Hb & Hr) Hlt. split_and!; [|apply Forall_app; split; [|repeat constructor; lia]|lia|lia].
  - apply StronglySorted_app_2; [|done|repeat constructor]. intros x y Hx ->%list_elem_of_singleton.
    rewrite Forall_forall in Hb. specialize (Hb x Hx). cbn in Hb. lia.
  - eapply Forall_impl; [exact Hb|]. cbn. lia.
Qed.

Lemma assign_mapping_safe new : bool_column new -> safe_update true (assign_mapping new).
Proof. intros Hb. constructor; [done|by intros|done]. Qed.

Lemma assign_enabled_safe en st upd : safe_update true (assign_enabled en st upd).
Proof. constructor; [done| |done]. intros r _. destruct en; [by right|by left]. Qed.

Lemma assign_health_safe fires st h e c u : safe_update fires (assign_health st h e c u).
Proof. constructor; [done|by intros ? []; [left|right]|done]. Qed.

Lemma update_stmt_ok fires i f db db' d :
  safe_update fires f -> db_ok db -> update_stmt fires i f db = Ok (db', d) ->
  db_ok db' /\ db' = set_rows db (updated i f <$> db_mappings db) /\
  rows_affected d = Z.of_nat (length (filter (fun r => r_id r = i) (db_mappings db))).
Proof.
  intros Hf [Hr Hg He] Hu. unfold update_stmt in Hu. apply bind_Ok in Hu as ([rows n] & Hu & Hret).
  simplify_eq/=. apply update_rows_ok in Hu as (Hok & -> & ->); [|done..]. split; [by constructor|done].
Qed.

Lemma rows_ok_filter (P : MapRow -> Prop) `{!forall r, Decision (P r)} rows :
  rows_ok rows -> rows_ok (filter P rows).
Proof.
  induction rows as [|r rows IH]; [done|]. rewrite rows_ok_cons. intros (Hid & Hap & Hb & Hok).
  rewrite filter_cons. case_decide; [|auto]. apply rows_ok_cons. split_and!; [| |done|auto].
  - intros (s & E & [_ Hs]%list_elem_of_filter)%list_elem_of_fmap. apply Hid. rewrite E.
    by apply list_elem_of_fmap_2.
  - rewrite Forall_forall in *. intros s [_ Hs]%list_elem_of_filter. auto.
Qed.

(** Every statement keeps the invariant. *)
Lemma exec_ok s db db' d : bound_stmt s -> db_ok db -> exec s db = Ok (db', d) -> db_ok db'.
Proof.
  intros Hb Hok He. pose proof Hok as [Hr Hg Hv].
  destruct s as [new|i new|i en st upd|i st h e c u|i|v|st cfg cr ap er|lv m dt cr]; cbn in He.
  - apply bind_Ok in He as (rows & Hi & Hret). simplify_eq/=.
    apply insert_row_ok in Hi as [-> Hr']; [|done..]. by constructor.
  - by apply update_stmt_ok in He as [? _]; [|apply assign_mapping_safe|].
  - by apply update_stmt_ok in He as [? _]; [|apply assign_enabled_safe|].
  - by apply update_stmt_ok in He as [? _]; [|apply assign_health_safe|].
  - simplify_eq/=. constructor; [by apply rows_ok_filter|done|done].
  - simplify_eq/=. by constructor.
  - destruct (Z.ltb_spec (db_generation_seq db) max_rowid); [|done]. simplify_eq/=.
    constructor; cbn; [done| |done]. rewrite fmap_app; cbn. by apply ids_ok_snoc.
  - destruct (Z.ltb_spec (db_event_seq db) max_rowid); [|done]. simplify_eq/=.
    constructor; cbn; [done|done|]. rewrite fmap_app; cbn. by apply ids_ok_snoc.
Qed.

Lemma run_stmts_ok ss db : Forall bound_stmt ss -> db_ok db -> db_ok (run_stmts ss db).
Proof.
  intros Hss. revert db. induction Hss as [|s ss Hs _ IH]; intros db Hok; [done|]. cbn.
  destruct (exec s db) as [[db' d]|f] eqn:E; apply IH; [by eapply exec_ok|done].
Qed.
