(* ===== verification/World.v ===== *)
(** The effects of the program: the database and the files it changes, the
    processes and connections it starts, the clock and the fresh identifiers it
    reads. The environment answers each of them from the history of effects so
    far, so that a theorem quantified over environments covers every behaviour
    of the outside, the statements of other clients of the database included. *)
From S2P Require Import Prelude Str Utf8 Net Net6 Core Sql.
Local Open Scope Z_scope.

(** ** Effects *)

(** What a finished process leaves: no status when a signal ended it, and the
    texts that [String::from_utf8_lossy] makes of its outputs. *)
Record CommandOutput := mkOutput {
  co_status : option Z;
  co_stdout : string;
  co_stderr : string;
}.

Inductive CmdReply :=
  | CmdTimedOut
  | CmdIo (message : string)
  | CmdDone (o : CommandOutput).

Inductive TcpReply :=
  | TcpTimedOut
  | TcpRefused (message : string)
  | TcpConnected.

(** A request as it is sent: the address, the header lines and the body. *)
Record HttpRequest := mkHttpRequest {
  rq_method : string;
  rq_uri : string;
  rq_headers : list (string * string);
  rq_body : string;
}.
(** An answer; the body may break off. *)
Record HttpResponse := mkHttpResponse {
  rp_status : Z;
  rp_headers : list (string * string);
  rp_body : Result string string;
}.
Inductive HttpReply :=
  | HttpFailed (message : string)
  | HttpAnswered (r : HttpResponse).

Inductive FsOp :=
  | MakeDirs (path : string)
  | OpenTruncate (path : string)
  | WriteAll (path content : string)
  | SyncAll (path : string)
  | Rename (from to : string)
  | ReadFile (path : string)
  | Stat (path : string)
  | RemoveFile (path : string)
  | BindUnix (path : string)
  | BindTcp (address : string).

Inductive Effect :=
  | EQuery
  | EStmt (s : Stmt) (ok : bool)
  | EFs (op : FsOp) (ok : bool)
  | ECommand (program : string) (args : list string) (reply : CmdReply)
  | EConnect (ip : IpAddr) (port : Z) (reply : TcpReply)
  | EClock
  | EFresh
  | EHttp (request : HttpRequest) (reply : HttpReply)
  | EPrint (to_stderr : bool) (text : string).

Abbreviation History := (list Effect).

Class Env := {
  env_now : History -> Time;
  env_uuid : History -> string;
  env_sql_fault : History -> option string;
  env_others : History -> list Stmt;
  env_fs_fault : History -> FsOp -> option string;
  env_short_write : History -> nat;
  env_command : History -> string -> list string -> CmdReply;
  env_connect : History -> IpAddr -> Z -> TcpReply;
  env_http : History -> HttpRequest -> HttpReply;
}.

(** No other client writes to the database. *)
Class Alone `{Env} : Prop := others_silent : forall h, env_others h = [].
(** Other clients bind their parameters as this program does. *)
Class Typed `{Env} : Prop := others_bound : forall h, Forall bound_stmt (env_others h).
(** The database engine has no fault of its own. *)
Class Reliable `{Env} : Prop := no_sql_fault : forall h, env_sql_fault h = None.

#[export] Instance alone_typed `{Alone} : Typed.
Proof. intros h. rewrite others_silent. constructor. Qed.

Record World := mkWorld { w_db : Db; w_fs : gmap string string; w_log : History }.

Definition set_db (w : World) (db : Db) : World := mkWorld db (w_fs w) (w_log w).
Definition note (e : Effect) (w : World) : World := mkWorld (w_db w) (w_fs w) (w_log w ++ [e]).

(** ** Effectful computations *)

(** [Panicked] is a Rust panic. *)
Inductive Out (E A : Type) :=
  | Ret (a : A)
  | Fail (e : E)
  | Panicked (message : string).
Arguments Ret {E A} a.
Arguments Fail {E A} e.
Arguments Panicked {E A} message.

(** An [async fn] returning [Result<A, E>]. *)
Definition IO (E A : Type) : Type := World -> Out E A * World.

#[export] Instance io_ret E : MRet (IO E) := fun _ a w => (Ret a, w).
#[export] Instance io_bind E : MBind (IO E) := fun _ _ k m w =>
  match m w with
  | (Ret a, w') => k a w'
  | (Fail e, w') => (Fail e, w')
  | (Panicked s, w') => (Panicked s, w')
  end.

Definition io_fail {E A} (e : E) : IO E A := fun w => (Fail e, w).
Definition lift {E A} (r : Result E A) : IO E A := fun w =>
  (match r with Ok a => Ret a | Err e => Fail e end, w).
Definition from_out {E A} (o : Out E A) : IO E A := fun w => (o, w).

(** [.map_err(f)] *)
Definition io_map_err {E F A} (f : E -> F) (m : IO E A) : IO F A := fun w =>
  match m w with
  | (Ret a, w') => (Ret a, w')
  | (Fail e, w') => (Fail (f e), w')
  | (Panicked s, w') => (Panicked s, w')
  end.

(** The [Result] itself, as [match] and [if let] see it. *)
Definition io_try {E F A} (m : IO E A) : IO F (Result E A) := fun w =>
  match m w with
  | (Ret a, w') => (Ret (Ok a), w')
  | (Fail e, w') => (Ret (Err e), w')
  | (Panicked s, w') => (Panicked s, w')
  end.

(** [for x in l { f(x).await?; }] *)
Fixpoint io_for_each {E A} (f : A -> IO E unit) (l : list A) : IO E unit :=
  match l with
  | [] => mret tt
  | a :: l => f a ;; io_for_each f l
  end.

(** ** Primitive effects *)

Section effects.
Context `{Env}.

(** Other clients run between two statements of this one. *)
Definition interfere (w : World) : World :=
  set_db w (run_stmts (env_others (w_log w)) (w_db w)).

Definition sql_query {A} (q : Db -> A) : IO SqlFailure A := fun w =>
  let w := interfere w in
  match env_sql_fault (w_log w) with
  | Some m => (Fail (SqlFault m), note EQuery w)
  | None => (Ret (q (w_db w)), note EQuery w)
  end.

Definition sql_exec (s : Stmt) : IO SqlFailure SqlDone := fun w =>
  let w := interfere w in
  match env_sql_fault (w_log w) with
  | Some m => (Fail (SqlFault m), note (EStmt s false) w)
  | None =>
      match exec s (w_db w) with
      | Ok (db, d) => (Ret d, note (EStmt s true) (set_db w db))
      | Err f => (Fail f, note (EStmt s false) w)
      end
  end.

Definition now_utc {E} : IO E Time := fun w => (Ret (env_now (w_log w)), note EClock w).
Definition fresh_uuid {E} : IO E string := fun w => (Ret (env_uuid (w_log w)), note EFresh w).

(** A process run to its end or to the timeout. *)
Definition run_command {E} (program : string) (args : list string) : IO E CmdReply := fun w =>
  let r := env_command (w_log w) program args in
  (Ret r, note (ECommand program args r) w).

Definition tcp_connect {E} (ip : IpAddr) (port : Z) : IO E TcpReply := fun w =>
  let r := env_connect (w_log w) ip port in
  (Ret r, note (EConnect ip port r) w).

(** A request to the agent over its socket. *)
Definition http_request {E} (request : HttpRequest) : IO E HttpReply := fun w =>
  let r := env_http (w_log w) request in
  (Ret r, note (EHttp request r) w).

(** [print!] and [eprint!], on outputs that take everything. *)
Definition print_to {E} (to_stderr : bool) (text : string) : IO E unit := fun w =>
  (Ret tt, note (EPrint to_stderr text) w).
Definition print {E} (text : string) : IO E unit := print_to false text.

(** What an operation does to the files; directories are not represented, and a socket
    is a file without a text. *)
Definition fs_apply (op : FsOp) (fs : gmap string string) : gmap string string :=
  match op with
  | MakeDirs _ | SyncAll _ | ReadFile _ | Stat _ | BindTcp _ => fs
  | RemoveFile p => delete p fs
  | BindUnix p => <[p := ""]> fs
  | OpenTruncate p => <[p := ""]> fs
  | WriteAll p c => <[p := c]> fs
  | Rename a b =>
      match fs !! a with Some c => <[b := c]> (delete a fs) | None => fs end
  end.

(** A failed [write_all] may have written a part. *)
Definition fs_failed (short : nat) (op : FsOp) (fs : gmap string string) : gmap string string :=
  match op with
  | WriteAll p c => <[p := String.substring 0 short c]> fs
  | _ => fs
  end.

Definition fs_do (op : FsOp) : IO string unit := fun w =>
  match env_fs_fault (w_log w) op with
  | Some m =>
      (Fail m, mkWorld (w_db w) (fs_failed (env_short_write (w_log w)) op (w_fs w))
                 (w_log w ++ [EFs op false]))
  | None => (Ret tt, mkWorld (w_db w) (fs_apply op (w_fs w)) (w_log w ++ [EFs op true]))
  end.

(** [std::fs::read_to_string] *)
Definition read_to_string (path : string) : IO string string := fun w =>
  match env_fs_fault (w_log w) (ReadFile path) with
  | Some m => (Fail m, note (EFs (ReadFile path) false) w)
  | None =>
      (match w_fs w !! path with
       | Some c => if is_utf8 c then Ret c else Fail "stream did not contain valid UTF-8"
       | None => Fail "No such file or directory (os error 2)"
       end, note (EFs (ReadFile path) true) w)
  end.
(** [Path::exists]: no, when it cannot be told. *)
Definition path_exists {E} (path : string) : IO E bool := fun w =>
  match env_fs_fault (w_log w) (Stat path) with
  | Some _ => (Ret false, note (EFs (Stat path) false) w)
  | None => (Ret (bool_decide (is_Some (w_fs w !! path))), note (EFs (Stat path) true) w)
  end.
(** [UnixListener::bind], which takes no path that is there, and [TcpListener::bind]. *)
Definition bind_unix (path : string) : IO string unit := fun w =>
  match w_fs w !! path with
  | Some _ => (Fail "Address already in use (os error 98)", note (EFs (BindUnix path) false) w)
  | None => fs_do (BindUnix path) w
  end.
Definition bind_tcp (address : string) : IO string unit := fs_do (BindTcp address).
End effects.

(** ** Reasoning *)

Lemma bind_run {E A B} (m : IO E A) (k : A -> IO E B) w o w' :
  (m ≫= k) w = (o, w') <->
  (exists a w1, m w = (Ret a, w1) /\ k a w1 = (o, w')) \/
  (exists e, m w = (Fail e, w') /\ o = Fail e) \/
  (exists s, m w = (Panicked s, w') /\ o = Panicked s).
Proof.
  unfold mbind, io_bind. destruct (m w) as [[a|e|s] w1]; naive_solver.
Qed.

Lemma bind_Ret {E A B} (m : IO E A) (k : A -> IO E B) w b w' :
  (m ≫= k) w = (Ret b, w') <-> exists a w1, m w = (Ret a, w1) /\ k a w1 = (Ret b, w').
Proof. rewrite bind_run. naive_solver. Qed.

(** One step of a sequence, when its first part is known. *)
Lemma bind_step {E A B} (m : IO E A) (k : A -> IO E B) w a w' :
  m w = (Ret a, w') -> (m ≫= k) w = k a w'.
Proof. unfold mbind, io_bind. by intros ->. Qed.
Lemma bind_stop {E A B} (m : IO E A) (k : A -> IO E B) w e w' :
  m w = (Fail e, w') -> (m ≫= k) w = (Fail e, w').
Proof. unfold mbind, io_bind. by intros ->. Qed.
Lemma lift_step {E A B} (a : A) (r : Result E A) (k : A -> IO E B) w :
  r = Ok a -> (lift r ≫= k) w = k a w.
Proof. by intros ->. Qed.
Lemma lift_stop {E A B} (e : E) (r : Result E A) (k : A -> IO E B) w :
  r = Err e -> (lift r ≫= k) w = (Fail e, w).
Proof. by intros ->. Qed.

Lemma run_pair {E A} (m : IO E A) w o : (m w).1 = o -> m w = (o, (m w).2).
Proof. intros <-. by destruct (m w). Qed.

(** The computation takes each world to one related to it, however it ends. *)
Definition preserves {E A} (R : World -> World -> Prop) (m : IO E A) : Prop := forall w, R w (m w).2.

Lemma ran {E A} (R : World -> World -> Prop) (m : IO E A) w o w' : m w = (o, w') -> preserves R m -> R w w'.
Proof. intros Hrun Hm. specialize (Hm w). by rewrite Hrun in Hm. Qed.

Section preserves.
Context (R : World -> World -> Prop) `{!PreOrder R}.

Lemma preserves_ret {E A} (a : A) : preserves R (mret a : IO E A).
Proof. intros w; cbn. reflexivity. Qed.
Lemma preserves_fail {E A} (e : E) : preserves R (io_fail e : IO E A).
Proof. intros w; cbn. reflexivity. Qed.
Lemma preserves_lift {E A} (r : Result E A) : preserves R (lift r).
Proof. intros w; cbn. reflexivity. Qed.
Lemma preserves_from_out {E A} (o : Out E A) : preserves R (from_out o).
Proof. intros w; cbn. reflexivity. Qed.
Lemma preserves_bind {E A B} (m : IO E A) (k : A -> IO E B) :
  preserves R m -> (forall a, preserves R (k a)) -> preserves R (m ≫= k).
Proof.
  intros Hm Hk w. specialize (Hm w). unfold mbind, io_bind.
  destruct (m w) as [[a|e|s] w1]; [|done..]. etrans; [exact Hm|apply Hk].
Qed.
Lemma preserves_lift_bind {E A B} (r : Result E A) (k : A -> IO E B) :
  (forall a, r = Ok a -> preserves R (k a)) -> preserves R (lift r ≫= k).
Proof. intros Hk. destruct r as [a|e]; [exact (Hk a eq_refl)|intros w; cbn; reflexivity]. Qed.
Lemma preserves_map_err {E F A} (f : E -> F) (m : IO E A) :
  preserves R m -> preserves R (io_map_err f m).
Proof. intros Hm w. specialize (Hm w). unfold io_map_err. by destruct (m w) as [[]]. Qed.
Lemma preserves_try {E F A} (m : IO E A) : preserves R m -> preserves R (io_try m : IO F _).
Proof. intros Hm w. specialize (Hm w). unfold io_try. by destruct (m w) as [[]]. Qed.
Lemma preserves_for_each {E A} (f : A -> IO E unit) l :
  (forall a, a ∈ l -> preserves R (f a)) -> preserves R (io_for_each f l).
Proof.
  induction l as [|a l IH]; intros Hf; cbn; [apply preserves_ret|].
  apply preserves_bind; [apply Hf; left|]. intros _. apply IH. intros b Hb. apply Hf. by right.
Qed.
End preserves.

Create HintDb io.
#[export] Hint Resolve preserves_ret preserves_fail preserves_lift preserves_from_out
  preserves_map_err preserves_try preserves_for_each : io.
#[export] Hint Extern 0 (PreOrder _) => typeclasses eauto : io.
#[export] Hint Extern 1 (preserves _ (mbind _ _)) => apply preserves_bind; [typeclasses eauto| |intros ?] : io.

(** The history grows by effects satisfying [P]. *)
Definition logs (P : Effect -> Prop) (w w' : World) : Prop :=
  exists effs, w_log w' = w_log w ++ effs /\ Forall P effs.

#[export] Instance logs_preorder P : PreOrder (logs P).
Proof.
  split.
  - intros w. exists []. by rewrite List.app_nil_r.
  - intros w1 w2 w3 (e1 & H1 & F1) (e2 & H2 & F2). exists (e1 ++ e2).
    rewrite H2, H1, (assoc_L (++)). split; [done|]. by apply Forall_app.
Qed.

Lemma logs_one P w w' e : w_log w' = w_log w ++ [e] -> P e -> logs P w w'.
Proof. intros Hl HP. exists [e]. auto. Qed.

(** A sequence starts with the effects of its first part. *)
Lemma bind_log {E A B} P (m : IO E A) (k : A -> IO E B) w : (forall a, preserves (logs P) (k a)) ->
  exists rest, w_log ((m ≫= k) w).2 = w_log (m w).2 ++ rest.
Proof.
  intros Hk. unfold mbind, io_bind. destruct (m w) as [[a|e|x] w1]; cbn [fst snd].
  - destruct (Hk a w1) as (rest & Hl & _). by exists rest.
  - exists []. by rewrite List.app_nil_r.
  - exists []. by rewrite List.app_nil_r.
Qed.

Section log_lemmas.
Context `{Env} (P : Effect -> Prop).

Lemma logs_sql_query {A} (q : Db -> A) : P EQuery -> preserves (logs P) (sql_query q).
Proof. intros HP w. unfold sql_query. cbn zeta. case_match; by eapply logs_one. Qed.
Lemma logs_sql_exec s : (forall b, P (EStmt s b)) -> preserves (logs P) (sql_exec s).
Proof.
  intros HP w. unfold sql_exec. cbn zeta. case_match; [by eapply logs_one|].
  destruct (exec _ _) as [[]|]; by eapply logs_one.
Qed.
Lemma logs_now {E} : P EClock -> preserves (logs P) (now_utc : IO E _).
Proof. intros HP w. by eapply logs_one. Qed.
Lemma logs_uuid {E} : P EFresh -> preserves (logs P) (fresh_uuid : IO E _).
Proof. intros HP w. by eapply logs_one. Qed.
Lemma logs_command {E} prog args :
  (forall r, P (ECommand prog args r)) -> preserves (logs P) (run_command prog args : IO E _).
Proof. intros HP w. by eapply logs_one. Qed.
Lemma logs_connect {E} ip port :
  (forall r, P (EConnect ip port r)) -> preserves (logs P) (tcp_connect ip port : IO E _).
Proof. intros HP w. by eapply logs_one. Qed.
Lemma logs_http {E} request :
  (forall r, P (EHttp request r)) -> preserves (logs P) (http_request request : IO E _).
Proof. intros HP w. by eapply logs_one. Qed.
Lemma logs_print {E} b text : P (EPrint b text) -> preserves (logs P) (print_to b text : IO E _).
Proof. intros HP w. by eapply logs_one. Qed.
Lemma logs_fs op : (forall b, P (EFs op b)) -> preserves (logs P) (fs_do op).
Proof. intros HP w. unfold fs_do. case_match; by eapply logs_one. Qed.
End log_lemmas.

#[export] Hint Resolve logs_sql_query logs_sql_exec logs_now logs_uuid logs_command logs_connect
  logs_fs logs_http logs_print : io.

(** ** Panics *)

(** The computation does not panic. *)
Definition calm {E A} (m : IO E A) : Prop := forall w x, (m w).1 <> Panicked x.

Lemma calm_ret {E A} (a : A) : calm (mret a : IO E A).
Proof. done. Qed.
Lemma calm_fail {E A} (e : E) : calm (io_fail e : IO E A).
Proof. done. Qed.
Lemma calm_lift {E A} (r : Result E A) : calm (lift r).
Proof. intros w x. by destruct r. Qed.
Lemma calm_bind {E A B} (m : IO E A) (k : A -> IO E B) : calm m -> (forall a, calm (k a)) -> calm (m ≫= k).
Proof.
  intros Hm Hk w x. specialize (Hm w x). unfold mbind, io_bind. destruct (m w) as [[a|e|y] w1]; [apply Hk|done|].
  intros [= ->]. by apply Hm.
Qed.
Lemma calm_map_err {E F A} (f : E -> F) (m : IO E A) : calm m -> calm (io_map_err f m).
Proof. intros Hm w x. specialize (Hm w x). unfold io_map_err. destruct (m w) as [[]]; cbn in *; congruence. Qed.
Lemma calm_try {E F A} (m : IO E A) : calm m -> calm (io_try m : IO F _).
Proof. intros Hm w x. specialize (Hm w x). unfold io_try. destruct (m w) as [[]]; cbn in *; congruence. Qed.

Section calm.
Context `{Env}.

Lemma calm_query {A} (q : Db -> A) : calm (sql_query q).
Proof. intros w x. unfold sql_query. cbn zeta. by case_match. Qed.
Lemma calm_exec s : calm (sql_exec s).
Proof. intros w x. unfold sql_exec. cbn zeta. case_match; [done|]. by destruct (exec _ _) as [[]|]. Qed.
Lemma calm_now {E} : calm (now_utc : IO E _).
Proof. done. Qed.
Lemma calm_uuid {E} : calm (fresh_uuid : IO E _).
Proof. done. Qed.
Lemma calm_command {E} prog args : calm (run_command prog args : IO E _).
Proof. done. Qed.
Lemma calm_connect {E} ip port : calm (tcp_connect ip port : IO E _).
Proof. done. Qed.
Lemma calm_http {E} request : calm (http_request request : IO E _).
Proof. done. Qed.
Lemma calm_print {E} b text : calm (print_to b text : IO E _).
Proof. done. Qed.
Lemma calm_fs op : calm (fs_do op).
Proof. intros w x. unfold fs_do. by case_match. Qed.
End calm.

#[export] Hint Resolve calm_ret calm_fail calm_lift calm_map_err calm_try calm_query calm_exec calm_now
  calm_uuid calm_command calm_connect calm_fs calm_http calm_print : io.
Ltac calm_steps :=
  repeat first [ by auto with io | apply calm_bind; [|intros ?] | apply calm_map_err | apply calm_try | case_match ].

(** The files are the same. *)
Definition same_fs (w w' : World) : Prop := w_fs w' = w_fs w.

#[export] Instance same_fs_preorder : PreOrder same_fs.
Proof. split; [done|]. intros w1 w2 w3 H12 H23. unfold same_fs in *. by rewrite H23. Qed.

Section same_fs.
Context `{Env}.

Lemma same_fs_query {A} (q : Db -> A) : preserves same_fs (sql_query q).
Proof. intros w. unfold sql_query. cbn zeta. by case_match. Qed.
Lemma same_fs_exec s : preserves same_fs (sql_exec s).
Proof. intros w. unfold sql_exec. cbn zeta. case_match; [done|]. by destruct (exec _ _) as [[]|]. Qed.
Lemma same_fs_now {E} : preserves same_fs (now_utc : IO E _).
Proof. done. Qed.
Lemma same_fs_uuid {E} : preserves same_fs (fresh_uuid : IO E _).
Proof. done. Qed.
Lemma same_fs_command {E} prog args : preserves same_fs (run_command prog args : IO E _).
Proof. done. Qed.
Lemma same_fs_connect {E} ip port : preserves same_fs (tcp_connect ip port : IO E _).
Proof. done. Qed.
Lemma same_fs_http {E} request : preserves same_fs (http_request request : IO E _).
Proof. done. Qed.
Lemma same_fs_print {E} b text : preserves same_fs (print_to b text : IO E _).
Proof. done. Qed.
End same_fs.

#[export] Hint Resolve same_fs_query same_fs_exec same_fs_now same_fs_uuid same_fs_command
  same_fs_connect same_fs_http same_fs_print : io.

(** The database invariant is kept. *)
Definition keeps_db (w w' : World) : Prop := db_ok (w_db w) -> db_ok (w_db w').

#[export] Instance keeps_db_preorder : PreOrder keeps_db.
Proof. split; [intros w; unfold keeps_db; auto|intros w1 w2 w3; unfold keeps_db; auto]. Qed.

Lemma interfere_ok `{Typed} w : keeps_db w (interfere w).
Proof. intros Hok. by apply run_stmts_ok. Qed.

Lemma interfere_alone `{Alone} w : interfere w = w.
Proof. unfold interfere. rewrite others_silent. by destruct w. Qed.

Section keep_lemmas.
Context `{Typed}.

Lemma keeps_sql_query {A} (q : Db -> A) : preserves keeps_db (sql_query q).
Proof.
  intros w Hok. apply interfere_ok in Hok. unfold sql_query. cbn zeta. by case_match.
Qed.
Lemma keeps_sql_exec s : bound_stmt s -> preserves keeps_db (sql_exec s).
Proof.
  intros Hs w Hok. apply interfere_ok in Hok. unfold sql_exec. cbn zeta. case_match; [done|].
  destruct (exec _ _) as [[]|] eqn:E; [|done]. by eapply exec_ok.
Qed.
Lemma keeps_now {E} : preserves keeps_db (now_utc : IO E _).
Proof. by intros w Hok. Qed.
Lemma keeps_uuid {E} : preserves keeps_db (fresh_uuid : IO E _).
Proof. by intros w Hok. Qed.
Lemma keeps_command {E} prog args : preserves keeps_db (run_command prog args : IO E _).
Proof. by intros w Hok. Qed.
Lemma keeps_connect {E} ip port : preserves keeps_db (tcp_connect ip port : IO E _).
Proof. by intros w Hok. Qed.
Lemma keeps_http {E} request : preserves keeps_db (http_request request : IO E _).
Proof. by intros w Hok. Qed.
Lemma keeps_print {E} b text : preserves keeps_db (print_to b text : IO E _).
Proof. by intros w Hok. Qed.
Lemma keeps_fs op : preserves keeps_db (fs_do op).
Proof. intros w Hok. unfold fs_do. by case_match. Qed.
End keep_lemmas.

#[export] Hint Resolve keeps_sql_query keeps_sql_exec keeps_now keeps_uuid keeps_command
  keeps_connect keeps_fs keeps_http keeps_print : io.

(** Weakest preconditions over the outcome and the final world. *)
Definition wp {E A} (m : IO E A) (w : World) (Φ : Out E A -> World -> Prop) : Prop :=
  Φ (m w).1 (m w).2.

(** What follows a step: the next one when it returns, the end otherwise. *)
Definition continue {E A B} (Φ : Out E B -> World -> Prop) (k : A -> IO E B) (o : Out E A) (w : World) : Prop :=
  match o with
  | Ret a => wp (k a) w Φ
  | Fail e => Φ (Fail e) w
  | Panicked s => Φ (Panicked s) w
  end.

Lemma wp_bind {E A B} (m : IO E A) (k : A -> IO E B) w Φ :
  wp m w (continue Φ k) -> wp (m ≫= k) w Φ.
Proof. unfold wp, mbind, io_bind. by destruct (m w) as [[]]. Qed.

Lemma wp_mono {E A} (m : IO E A) w (Φ Ψ : Out E A -> World -> Prop) :
  (forall o w', Φ o w' -> Ψ o w') -> wp m w Φ -> wp m w Ψ.
Proof. unfold wp. auto. Qed.

Lemma wp_lift {E A} (r : Result E A) w Φ :
  (forall a, r = Ok a -> Φ (Ret a) w) -> (forall e, r = Err e -> Φ (Fail e) w) -> wp (lift r) w Φ.
Proof. unfold wp, lift. destruct r; cbn; auto. Qed.

Lemma wp_map_err {E F A} (f : E -> F) (m : IO E A) w Φ :
  wp m w (fun o w' => Φ match o with Ret a => Ret a | Fail e => Fail (f e) | Panicked s => Panicked s end w') ->
  wp (io_map_err f m) w Φ.
Proof. unfold wp, io_map_err. by destruct (m w) as [[]]. Qed.

Lemma wp_now `{Env} {E} w (Φ : Out E Time -> World -> Prop) :
  Φ (Ret (env_now (w_log w))) (note EClock w) -> wp now_utc w Φ.
Proof. done. Qed.

(** The database after a query or a refused statement is as before. *)
Lemma wp_sql_query `{Alone} {A} (q : Db -> A) w Φ :
  (forall w', w_db w' = w_db w -> Φ (Ret (q (w_db w))) w' /\ forall f, Φ (Fail f) w') ->
  wp (sql_query q) w Φ.
Proof.
  intros HΦ. unfold wp, sql_query. rewrite interfere_alone. cbn zeta.
  destruct (env_sql_fault _); by apply HΦ.
Qed.

Lemma wp_sql_exec `{Alone} s w Φ :
  (forall w' f, w_db w' = w_db w -> Φ (Fail f) w') ->
  (forall w' d, exec s (w_db w) = Ok (w_db w', d) -> Φ (Ret d) w') ->
  wp (sql_exec s) w Φ.
Proof.
  intros Hf Hr. unfold wp, sql_exec. rewrite interfere_alone. cbn zeta.
  destruct (env_sql_fault _); [by apply Hf|].
  destruct (exec s (w_db w)) as [[db d]|f] eqn:E; [by apply Hr|by apply Hf].
Qed.

(** ** Monitors

    A monitor reads the effects of a computation one after the other and may
    reject; [tracks s m Q] says that, started in state [s], it accepts those of
    [m] and ends in a state related by [Q] to the outcome. *)
Section monitor.
Context {S : Type} (delta : S -> Effect -> option S).

Fixpoint mon_run (s : S) (effs : list Effect) : option S :=
  match effs with
  | [] => Some s
  | e :: effs => s' ← delta s e; mon_run s' effs
  end.

Definition tracks {E A} (s : S) (m : IO E A) (Q : Out E A -> S -> Prop) : Prop :=
  forall w, exists effs s', w_log (m w).2 = w_log w ++ effs /\ mon_run s effs = Some s' /\ Q (m w).1 s'.

Lemma mon_run_app s e1 e2 : mon_run s (e1 ++ e2) = (s' ← mon_run s e1; mon_run s' e2).
Proof.
  revert s; induction e1 as [|e e1 IH]; intros s; [done|]. cbn. destruct (delta s e); cbn; [apply IH|done].
Qed.

Lemma tracks_mono {E A} s (m : IO E A) (Q R : Out E A -> S -> Prop) :
  tracks s m Q -> (forall o s', Q o s' -> R o s') -> tracks s m R.
Proof. intros Hm HQ w. destruct (Hm w) as (effs & s' & ? & ? & ?). eauto 6. Qed.

Lemma tracks_bind {E A B} s (m : IO E A) (k : A -> IO E B) (Q : Out E B -> S -> Prop) :
  tracks s m (fun o s' => match o with
    | Ret a => tracks s' (k a) Q
    | Fail e => Q (Fail e) s'
    | Panicked x => Q (Panicked x) s'
    end) ->
  tracks s (m ≫= k) Q.
Proof.
  intros Hm w. destruct (Hm w) as (effs & s' & Hl & Hr & HQ). unfold mbind, io_bind.
  destruct (m w) as [[a|e|x] w1]; cbn in *; [|eauto 6..].
  destruct (HQ w1) as (effs' & s'' & Hl' & Hr' & HQ'). exists (effs ++ effs'), s''.
  rewrite Hl', Hl, (assoc_L (++)), mon_run_app, Hr. done.
Qed.

(** An effect that no state rejects. *)
Definition harmless (e : Effect) : Prop := forall s, is_Some (delta s e).

Lemma tracks_harmless {E A} s (m : IO E A) :
  preserves (logs harmless) m -> tracks s m (fun _ _ => True).
Proof.
  intros Hm w. destruct (Hm w) as (effs & Hl & HF). exists effs.
  assert (Hr : forall s, exists s', mon_run s effs = Some s').
  { clear -HF. induction HF as [|e effs He _ IH]; intros s; [by exists s|].
    destruct (He s) as [s' Hs]. destruct (IH s') as [s'' Hs']. exists s''. cbn. by rewrite Hs. }
  destruct (Hr s) as [s' Hs]. by exists s'.
Qed.

(** An effect that leaves the state as it is. *)
Definition idle (s : S) (e : Effect) : Prop := delta s e = Some s.

Lemma tracks_idle {E A} s (m : IO E A) : preserves (logs (idle s)) m -> tracks s m (fun _ s' => s' = s).
Proof.
  intros Hm w. destruct (Hm w) as (effs & Hl & HF). exists effs, s. split; [done|]. split; [|done].
  clear Hl. induction HF as [|e effs He _ IH]; [done|]. cbn. by rewrite He.
Qed.

Lemma tracks_calm {E A} s (m : IO E A) (Q : Out E A -> S -> Prop) :
  calm m -> tracks s m (fun o s' => match o with Panicked _ => True | _ => Q o s' end) -> tracks s m Q.
Proof.
  intros Hc Hm w. destruct (Hm w) as (effs & s' & Hl & Hr & HQ). exists effs, s'. split_and!; [done..|].
  specialize (Hc w). destruct (m w) as [[a|e|x] w1]; [done|done|]. by destruct (Hc x).
Qed.

Lemma tracks_map_err {E F A} s (f : E -> F) (m : IO E A) (Q : Out F A -> S -> Prop) :
  tracks s m (fun o s' => Q match o with Ret a => Ret a | Fail e => Fail (f e) | Panicked x => Panicked x end s') ->
  tracks s (io_map_err f m) Q.
Proof.
  intros Hm w. destruct (Hm w) as (effs & s' & Hl & Hr & HQ). exists effs, s'. unfold io_map_err.
  by destruct (m w) as [[] w1].
Qed.

Lemma tracks_try {E F A} s (m : IO E A) (Q : Out F (Result E A) -> S -> Prop) :
  tracks s m (fun o s' => Q match o with Ret a => Ret (Ok a) | Fail e => Ret (Err e) | Panicked x => Panicked x end s') ->
  tracks s (io_try m) Q.
Proof.
  intros Hm w. destruct (Hm w) as (effs & s' & Hl & Hr & HQ). exists effs, s'. unfold io_try.
  by destruct (m w) as [[] w1].
Qed.

Lemma tracks_lift {E A} s (r : Result E A) (Q : Out E A -> S -> Prop) :
  (forall a, r = Ok a -> Q (Ret a) s) -> (forall e, r = Err e -> Q (Fail e) s) -> tracks s (lift r) Q.
Proof.
  intros Hr Hf w. exists [], s. rewrite List.app_nil_r. split; [done|]. split; [done|].
  unfold lift; cbn. destruct r; auto.
Qed.

Lemma tracks_fail {E A} s (e : E) (Q : Out E A -> S -> Prop) : Q (Fail e) s -> tracks s (io_fail e) Q.
Proof. intros HQ w. exists [], s. by rewrite List.app_nil_r. Qed.
Lemma tracks_ret {E A} s (a : A) (Q : Out E A -> S -> Prop) : Q (Ret a) s -> tracks s (mret a : IO E A) Q.
Proof. intros HQ w. exists [], s. by rewrite List.app_nil_r. Qed.
End monitor.
