(* ===== verification/Store.v ===== *)
(** [edge-store/src/lib.rs]: the operations of [SqliteStore] as sequences of
    statements, and the codec between rows and mappings. *)
From Stdlib Require Import Ascii.
From S2P Require Import Prelude Str Net BTree Core Validation State Sql World.
Local Open Scope Z_scope.

(** ** Library code the store relies on *)

(** [time]'s RFC 3339 format, [serde_json] on configurations, and the texts of
    the errors of [serde] and [sqlx]. *)
Class StoreLib := {
  format_rfc3339 : Time -> Result string string;
  parse_rfc3339 : string -> Result string Time;
  encode_config : EdgeConfig -> Result string string;
  decode_config : string -> Result string EdgeConfig;
  unknown_variant : list string -> string -> string;
  sql_failure_text : SqlFailure -> string;
}.

(** What is encoded decodes to itself. *)
Class StoreLibLaws `{StoreLib} : Prop := {
  parse_format t s : format_rfc3339 t = Ok s -> parse_rfc3339 s = Ok t;
  decode_encode_config c s : encode_config c = Ok s -> decode_config s = Ok c;
}.

(** ** Columns *)

Section codec.
Context `{StoreLib}.

Definition sql_error (f : SqlFailure) : EdgeCoreError := StoreError (sql_failure_text f).

Definition decode_ip (value : string) : Result EdgeCoreError Ipv4Addr :=
  match parse_ip value with
  | Some ip => Ok ip
  | None => Err (StoreError ("decode IPv4 address " +:+ value +:+ ": invalid IPv4 address syntax"))
  end.
Definition decode_optional_ip (value : option string) : Result EdgeCoreError (option Ipv4Addr) :=
  transpose_map decode_ip value.

(** The derived serialisers of the enums always give a string. *)
Definition enum_string {T} `{WireEnum T} (value : T) : Result EdgeCoreError string := Ok (wire value).
Definition enum_from_string {T} `{WireEnum T} (value : string) : Result EdgeCoreError T :=
  match from_wire value with
  | Some t => Ok t
  | None => Err (StoreError ("decode enum: " +:+ unknown_variant (wire <$> variants (T:=T)) value))
  end.

Definition format_time (t : Time) : Result EdgeCoreError string :=
  map_err (fun e => StoreError ("format time: " +:+ e)) (format_rfc3339 t).
Definition format_optional_time (t : option Time) : Result EdgeCoreError (option string) :=
  transpose_map format_time t.
Definition parse_time (value : string) : Result EdgeCoreError Time :=
  map_err (fun e => StoreError ("parse time " +:+ value +:+ ": " +:+ e)) (parse_rfc3339 value).
Definition parse_optional_time (value : option string) : Result EdgeCoreError (option Time) :=
  transpose_map parse_time value.

Definition decode_port (value : option Z) (column : string) : Result EdgeCoreError (option Z) :=
  match value with
  | Some port =>
      if (1 <=? port) && (port <=? 65535) then Ok (Some port)
      else Err (StoreError ("invalid " +:+ column +:+ " in database: " +:+ show_Z port))
  | None => Ok None
  end.

Definition row_to_mapping (r : MapRow) : Result EdgeCoreError Mapping :=
  pp ← decode_port (r_public_port r) "public_port";
  tp ← decode_port (r_target_port r) "target_port";
  i ← mapping_id_from_str (r_id r);
  pub ← decode_optional_ip (r_public_ip r);
  edge ← decode_ip (r_edge_private_ip r);
  target ← decode_ip (r_target_ip r);
  pr ← enum_from_string (r_protocol r);
  md ← enum_from_string (r_mode r);
  be ← enum_from_string (r_backend r);
  st ← enum_from_string (r_status r);
  checked ← parse_optional_time (r_last_checked_at r);
  created ← parse_time (r_created_at r);
  upd ← parse_time (r_updated_at r);
  Ok (mkMapping i (r_name r) pub (r_oci_public_ip_ocid r) edge (r_oci_private_ip_ocid r) target
        pp tp pr md be (negb (r_enabled r =? 0)) st (r_last_error r) (r_health_status r)
        checked created upd).

(** The values [insert_mapping] and [update_mapping] bind; an update binds no
    [created_at]. *)
Definition bind_row (m : Mapping) (created : string) : Result EdgeCoreError MapRow :=
  pr ← enum_string (protocol m);
  md ← enum_string (mode m);
  be ← enum_string (backend m);
  st ← enum_string (status m);
  checked ← format_optional_time (last_checked_at m);
  upd ← format_time (updated_at m);
  Ok (mkRow (id m) (name m) (show_ip <$> public_ip m) (oci_public_ip_ocid m)
        (show_ip (edge_private_ip m)) (oci_private_ip_ocid m) (show_ip (target_ip m))
        (public_port m) (target_port m) pr md be (b2z (enabled m)) st (last_error m)
        (health_status m) checked created upd).
Definition row_of_mapping (m : Mapping) : Result EdgeCoreError MapRow :=
  created ← format_time (created_at m); bind_row m created.

Definition row_to_generation (r : GenRow) : Result EdgeCoreError Generation :=
  st ← enum_from_string (gr_status r);
  created ← parse_time (gr_created_at r);
  applied ← parse_optional_time (gr_applied_at r);
  Ok (mkGeneration (gr_id r) st (gr_config r) created applied (gr_error r)).

Definition row_to_event (r : EventRow) : Result EdgeCoreError Event :=
  lv ← enum_from_string (er_level r);
  created ← parse_time (er_created_at r);
  Ok (mkEvent (er_id r) lv (er_message r) (er_data r) created).
End codec.

(** [ORDER BY created_at, id] on text columns compares bytes. *)
Definition text_le (a b : string) : bool :=
  match String.compare a b with Gt => false | _ => true end.
Definition row_le (r s : MapRow) : Prop :=
  (if decide (r_created_at r = r_created_at s) then text_le (r_id r) (r_id s)
   else text_le (r_created_at r) (r_created_at s)) = true.
#[export] Instance row_le_dec r s : Decision (row_le r s).
Proof. unfold row_le. apply _. Defined.

(** [ORDER BY id DESC] *)
Definition later {A} (key : A -> Z) (a b : A) : Prop := key b <= key a.
#[export] Instance later_dec {A} (key : A -> Z) a b : Decision (later key a b).
Proof. unfold later. apply _. Defined.
Definition newest_first {A} (key : A -> Z) (l : list A) : list A := merge_sort (later key) l.

(** ** Operations *)

Section store.
Context `{Ipnet} `{StoreLib} `{Env}.

Definition sql {A} (m : IO SqlFailure A) : IO EdgeCoreError A := io_map_err sql_error m.

Definition set_edge_config (config : EdgeConfig) : IO EdgeCoreError unit :=
  lift (validate_edge_config config) ;;
  value ← lift (map_err (fun e => StoreError ("encode edge config: " +:+ e)) (encode_config config));
  sql (sql_exec (UpsertConfig value)) ;;
  mret tt.

Definition edge_config : IO EdgeCoreError (option EdgeConfig) :=
  row ← sql (sql_query (fun db => db_config db !! "default"));
  lift (transpose_map
    (fun value => map_err (fun e => StoreError ("decode edge config: " +:+ e)) (decode_config value)) row).

Definition ensure_edge_config (config : EdgeConfig) : IO EdgeCoreError EdgeConfig :=
  existing ← edge_config;
  match existing with
  | Some existing => mret existing
  | None => set_edge_config config ;; mret config
  end.

Definition resolve_edge_config (config : EdgeConfig) (authoritative : bool)
    : IO EdgeCoreError EdgeConfig :=
  if authoritative then set_edge_config config ;; mret config else ensure_edge_config config.

(** The loop body of [reject_duplicates] is the in-memory store's check. *)
Definition reject_duplicates (m : Mapping) : IO EdgeCoreError unit :=
  rows ← sql (sql_query (fun db => filter (fun r => r_id r <> id m) (db_mappings db)));
  lift (for_each (fun r => existing ← row_to_mapping r; write_conflict existing m) rows).

Definition config_for_write : IO EdgeCoreError EdgeConfig :=
  config ← edge_config;
  lift (ok_or config (StoreError "edge config must be set before mappings")).

Definition insert_mapping (m : Mapping) : IO EdgeCoreError unit :=
  config ← config_for_write;
  lift (validate_mapping m config) ;;
  reject_duplicates m ;;
  row ← lift (row_of_mapping m);
  sql (sql_exec (InsertMapping row)) ;;
  mret tt.

Definition get_mapping (i : MappingId) : IO EdgeCoreError Mapping :=
  row ← sql (sql_query (fun db => find (fun r => bool_decide (r_id r = i)) (db_mappings db)));
  row ← lift (ok_or row (NotFound i));
  lift (row_to_mapping row).

Definition list_mappings : IO EdgeCoreError (list Mapping) :=
  rows ← sql (sql_query (fun db => merge_sort row_le (db_mappings db)));
  lift (collect row_to_mapping rows).

Definition delete_mapping (i : MappingId) : IO EdgeCoreError Mapping :=
  m ← get_mapping i;
  sql (sql_exec (DeleteMapping i)) ;;
  mret m.

Definition update_mapping (m : Mapping) : IO EdgeCoreError unit :=
  config ← config_for_write;
  lift (validate_mapping m config) ;;
  reject_duplicates m ;;
  row ← lift (bind_row m "");
  done ← sql (sql_exec (UpdateMapping (id m) row));
  if rows_affected done =? 0 then io_fail (NotFound (id m)) else mret tt.

Definition set_mapping_enabled (i : MappingId) (en : bool) : IO EdgeCoreError Mapping :=
  st ← lift (enum_string (if en then Pending else Disabled));
  now ← now_utc;
  upd ← lift (format_time now);
  sql (sql_exec (UpdateEnabled i en st upd)) ;;
  get_mapping i.

Definition set_mapping_health (i : MappingId) (st : MappingStatus) (health err : option string)
    : IO EdgeCoreError Mapping :=
  st ← lift (enum_string st);
  now ← now_utc;
  checked ← lift (format_time now);
  now ← now_utc;
  upd ← lift (format_time now);
  sql (sql_exec (UpdateHealth i st health err checked upd)) ;;
  get_mapping i.

Definition record_generation (st : GenerationStatus.t) (config : string)
    (applied_at : option Time) (error : option string) : IO EdgeCoreError Generation :=
  if is_empty (trim config) then
    io_fail (Validation "generation nftables_config cannot be empty")
  else
    created_at ← now_utc;
    st' ← lift (enum_string st);
    created ← lift (format_time created_at);
    applied ← lift (format_optional_time applied_at);
    done ← sql (sql_exec (InsertGeneration st' config created applied error));
    mret (mkGeneration (last_insert_rowid done) st config created_at applied_at error).

Definition latest_active_generation : IO EdgeCoreError (option Generation) :=
  row ← sql (sql_query (fun db =>
    head (newest_first gr_id (filter (fun r => gr_status r = "active") (db_generations db)))));
  lift (transpose_map row_to_generation row).

Definition get_generation (i : Z) : IO EdgeCoreError Generation :=
  row ← sql (sql_query (fun db => find (fun r => gr_id r =? i) (db_generations db)));
  row ← lift (ok_or row (StoreError ("generation not found: " +:+ show_Z i)));
  lift (row_to_generation row).

Definition record_event (lv : EventLevel.t) (message : string) (data : option string)
    : IO EdgeCoreError Event :=
  if is_empty (trim message) then io_fail (Validation "event message cannot be empty")
  else
    created_at ← now_utc;
    lv' ← lift (enum_string lv);
    created ← lift (format_time created_at);
    done ← sql (sql_exec (InsertEvent lv' message data created));
    mret (mkEvent (last_insert_rowid done) lv message data created_at).

Definition clamp (lo hi z : Z) : Z := if z <? lo then lo else if hi <? z then hi else z.

Definition list_events (limit : Z) : IO EdgeCoreError (list Event) :=
  rows ← sql (sql_query (fun db =>
    take (Z.to_nat (clamp 1 500 limit)) (newest_first er_id (db_events db))));
  lift (collect row_to_event rows).
End store.

(** ** What every step respects

    An operation respects each preorder on worlds that its steps respect. *)

Section through.
Context `{Ipnet} `{StoreLib} `{Env} (R : World -> World -> Prop) `{!PreOrder R}.
Context (Hq : forall A (q : Db -> A), preserves R (sql_query q)).
Context (Hc : forall E, preserves R (now_utc : IO E Time)).

Lemma through_query {A} (q : Db -> A) : preserves R (sql (sql_query q)).
Proof. apply preserves_map_err, Hq. Qed.

Ltac io_steps :=
  repeat first
    [ apply preserves_bind; [apply _| |intros ?]
    | apply through_query | apply preserves_lift; apply _
    | apply Hc | apply preserves_ret; apply _ | apply preserves_fail; apply _
    | case_match ].

Lemma through_list_mappings : preserves R list_mappings.
Proof. unfold list_mappings. io_steps. Qed.
Lemma through_get_mapping i : preserves R (get_mapping i).
Proof. unfold get_mapping. io_steps. Qed.
Lemma through_reject_duplicates m : preserves R (reject_duplicates m).
Proof. unfold reject_duplicates. io_steps. Qed.
Lemma through_config_for_write : preserves R config_for_write.
Proof. unfold config_for_write, edge_config. io_steps. Qed.
Lemma through_get_generation i : preserves R (get_generation i).
Proof. unfold get_generation. io_steps. Qed.

(** Those of the recording operations, with what each statement says. *)
Lemma through_set_mapping_health i st h e :
  (forall c u, preserves R (sql_exec (UpdateHealth i (wire st) h e c u))) ->
  preserves R (set_mapping_health i st h e).
Proof.
  intros Hst w. unfold set_mapping_health. rewrite (lift_step (wire st)) by done. revert w.
  apply (preserves_bind R now_utc); [apply Hc|]. intros now. unfold get_mapping. io_steps.
  apply preserves_map_err; auto.
Qed.
Lemma through_record_generation st cfg ap er :
  (forall c a, preserves R (sql_exec (InsertGeneration (wire st) cfg c a er))) ->
  preserves R (record_generation st cfg ap er).
Proof.
  intros Hst. unfold record_generation. case_match; [apply preserves_fail, _|].
  apply preserves_bind; [apply _|apply Hc|]. intros now w.
  rewrite (lift_step (wire st)) by done. revert w.
  apply (preserves_bind R (lift (format_time now))); [apply preserves_lift, _|]. intros c.
  apply preserves_bind; [apply _|apply preserves_lift, _|]. intros a.
  apply preserves_bind; [apply _|by apply preserves_map_err|].
  intros; apply preserves_ret, _.
Qed.
Lemma through_record_event lv msg data :
  (forall c, preserves R (sql_exec (InsertEvent (wire lv) msg data c))) ->
  preserves R (record_event lv msg data).
Proof.
  intros Hst. unfold record_event. case_match; [apply preserves_fail, _|].
  apply preserves_bind; [apply _|apply Hc|]. intros now w.
  rewrite (lift_step (wire lv)) by done. revert w.
  apply (preserves_bind R (lift (format_time now))); [apply preserves_lift, _|]. intros c.
  apply preserves_bind; [apply _|by apply preserves_map_err|].
  intros; apply preserves_ret, _.
Qed.
Lemma through_set_mapping_enabled i en :
  (forall st u, preserves R (sql_exec (UpdateEnabled i en st u))) -> preserves R (set_mapping_enabled i en).
Proof.
  intros Hst. unfold set_mapping_enabled, get_mapping. io_steps; apply preserves_map_err; auto.
Qed.
Lemma through_update_mapping m :
  (forall row, preserves R (sql_exec (UpdateMapping (id m) row))) -> preserves R (update_mapping m).
Proof.
  intros Hst. unfold update_mapping. apply preserves_bind; [apply _|apply through_config_for_write|]. intros c.
  apply preserves_bind; [apply _|apply preserves_lift, _|]. intros _.
  apply preserves_bind; [apply _|apply through_reject_duplicates|]. intros _.
  apply preserves_bind; [apply _|apply preserves_lift, _|]. intros row.
  apply preserves_bind; [apply _|by apply preserves_map_err|]. intros d.
  case_match; [apply preserves_fail, _|apply preserves_ret, _].
Qed.
Lemma through_delete_mapping i :
  preserves R (sql_exec (DeleteMapping i)) -> preserves R (delete_mapping i).
Proof.
  intros Hst. unfold delete_mapping. apply preserves_bind; [apply _|apply through_get_mapping|]. intros m.
  apply preserves_bind; [apply _|by apply preserves_map_err|]. intros _. apply preserves_ret, _.
Qed.
End through.

(** None of the operations panics. *)
Section calm.
Context `{Ipnet} `{StoreLib} `{Env}.

Lemma calm_get_mapping i : calm (get_mapping i).
Proof. unfold get_mapping, sql. calm_steps. Qed.
Lemma calm_list_mappings : calm list_mappings.
Proof. unfold list_mappings, sql. calm_steps. Qed.
Lemma calm_insert_mapping m : calm (insert_mapping m).
Proof. unfold insert_mapping, config_for_write, edge_config, reject_duplicates, sql. calm_steps. Qed.
Lemma calm_update_mapping m : calm (update_mapping m).
Proof. unfold update_mapping, config_for_write, edge_config, reject_duplicates, sql. calm_steps. Qed.
Lemma calm_record_event lv msg data : calm (record_event lv msg data).
Proof. unfold record_event, sql. calm_steps. Qed.
Lemma calm_record_generation st cfg ap er : calm (record_generation st cfg ap er).
Proof. unfold record_generation, sql. calm_steps. Qed.
Lemma calm_set_mapping_enabled i en : calm (set_mapping_enabled i en).
Proof. unfold set_mapping_enabled, get_mapping, sql. calm_steps. Qed.
Lemma calm_set_mapping_health i st h e : calm (set_mapping_health i st h e).
Proof. unfold set_mapping_health, get_mapping, sql. calm_steps. Qed.
Lemma calm_delete_mapping i : calm (delete_mapping i).
Proof. unfold delete_mapping, get_mapping, sql. calm_steps. Qed.
Lemma calm_list_events n : calm (list_events n).
Proof. unfold list_events, sql. calm_steps. Qed.
End calm.
#[export] Hint Resolve calm_get_mapping calm_list_mappings calm_insert_mapping calm_update_mapping
  calm_record_event calm_record_generation calm_set_mapping_enabled calm_set_mapping_health
  calm_delete_mapping calm_list_events : io.

(** ** The codec *)

(** What a row says of the mapping read from it. *)
Record row_reads (r : MapRow) (m : Mapping) : Prop := {
  rr_id : mapping_id_from_str (r_id r) = Ok (id m);
  rr_public : r_public_ip r = show_ip <$> public_ip m;
  rr_edge : r_edge_private_ip r = show_ip (edge_private_ip m);
  rr_target : r_target_ip r = show_ip (target_ip m);
  rr_port : r_public_port r = public_port m;
  rr_protocol : r_protocol r = wire (protocol m);
  rr_mode : r_mode r = wire (mode m);
  rr_enabled : enabled m = negb (r_enabled r =? 0);
}.

Section codec_lemmas.
Context `{StoreLib}.

Lemma decode_ip_Ok s ip : decode_ip s = Ok ip -> s = show_ip ip.
Proof.
  unfold decode_ip. destruct (parse_ip s) eqn:E; [|done]. intros [= <-]. by apply show_parse_ip in E.
Qed.

Lemma decode_show_ip ip : decode_ip (show_ip ip) = Ok ip.
Proof. unfold decode_ip. by rewrite parse_show_ip. Qed.

Lemma decode_optional_show o : decode_optional_ip (show_ip <$> o) = Ok o.
Proof. destruct o as [ip|]; [|done]. cbn. by rewrite decode_show_ip. Qed.

Lemma decode_port_Ok o col p : decode_port o col = Ok p -> o = p.
Proof. unfold decode_port. destruct o as [q|]; [|by intros [= <-]]. case_match; [|done]. by intros [= <-]. Qed.

Lemma decode_port_id o col : opt_all (fun p => 1 <= p <= 65535) o -> decode_port o col = Ok o.
Proof.
  destruct o as [p|]; [|done]. cbn. intros Hp.
  destruct (Z.leb_spec 1 p); [|lia]. destruct (Z.leb_spec p 65535); [done|lia].
Qed.

Lemma enum_from_string_Ok {T} `{WireEnum T} s (t : T) : enum_from_string s = Ok t -> s = wire t.
Proof.
  unfold enum_from_string. destruct (from_wire s) as [u|] eqn:E; [|done]. intros [= <-].
  symmetry. by apply wire_from_wire.
Qed.

Lemma enum_from_string_wire {T} `{WireEnum T} (t : T) : enum_from_string (wire t) = Ok t.
Proof. unfold enum_from_string. by rewrite from_wire_wire. Qed.

Lemma parse_format_time `{!StoreLibLaws} t s : format_time t = Ok s -> parse_time s = Ok t.
Proof.
  unfold format_time, parse_time. destruct (format_rfc3339 t) eqn:E; [|done]. cbn. intros [= ->].
  by rewrite (parse_format _ _ E).
Qed.

Lemma parse_format_optional `{!StoreLibLaws} o s :
  format_optional_time o = Ok s -> parse_optional_time s = Ok o.
Proof.
  unfold format_optional_time, parse_optional_time. rewrite transpose_map_Ok.
  destruct o as [t|]; [intros (u & Ht & ->)|by intros ->]. cbn. by rewrite (parse_format_time _ _ Ht).
Qed.

Lemma row_to_mapping_reads r m : row_to_mapping r = Ok m -> row_reads r m.
Proof.
  unfold row_to_mapping. intros Hr. res_inv. simplify_eq. constructor; cbn; try done.
  - unfold decode_optional_ip in *. apply transpose_map_Ok in H3. destruct (r_public_ip r) as [s|];
      [|by subst]. destruct H3 as (ip & Hip & ->). cbn. f_equal. by apply decode_ip_Ok.
  - by apply decode_ip_Ok.
  - by apply decode_ip_Ok.
  - by eapply decode_port_Ok.
  - by apply enum_from_string_Ok.
  - by apply enum_from_string_Ok.
Qed.

(** Port columns the decoder accepts. *)
Definition ports_ok (m : Mapping) : Prop :=
  opt_all (fun p => 1 <= p <= 65535) (public_port m) /\
  opt_all (fun p => 1 <= p <= 65535) (target_port m).

Lemma bind_row_decodes `{!StoreLibLaws} m created t r :
  id_ok (id m) -> ports_ok m -> parse_time created = Ok t -> bind_row m created = Ok r ->
  r_id r = id m /\ r_enabled r = b2z (enabled m) /\
  row_to_mapping r = Ok (mkMapping (id m) (name m) (public_ip m) (oci_public_ip_ocid m)
    (edge_private_ip m) (oci_private_ip_ocid m) (target_ip m) (public_port m) (target_port m)
    (protocol m) (mode m) (backend m) (enabled m) (status m) (last_error m) (health_status m)
    (last_checked_at m) t (updated_at m)).
Proof.
  intros Hid [Hpp Htp] Ht. unfold bind_row, enum_string. cbn [mbind result_bind].
  rewrite !bind_Ok. intros (checked & Hc & Hr). rewrite bind_Ok in Hr. destruct Hr as (upd & Hu & Hr).
  simplify_eq. split_and!; [done..|]. unfold row_to_mapping; cbn.
  rewrite !decode_port_id by done. cbn. rewrite mapping_id_from_str_id by done. cbn.
  rewrite decode_optional_show. cbn. rewrite !decode_show_ip. cbn.
  rewrite !enum_from_string_wire. cbn. rewrite (parse_format_optional _ _ Hc). cbn.
  rewrite Ht. cbn. rewrite (parse_format_time _ _ Hu). cbn. by destruct (enabled m).
Qed.

Lemma row_of_mapping_decodes `{!StoreLibLaws} m r :
  id_ok (id m) -> ports_ok m -> row_of_mapping m = Ok r ->
  r_id r = id m /\ r_enabled r = b2z (enabled m) /\ row_to_mapping r = Ok m.
Proof.
  intros Hid Hp. unfold row_of_mapping. rewrite bind_Ok. intros (created & Hc & Hr).
  destruct (bind_row_decodes m created _ r Hid Hp (parse_format_time _ _ Hc) Hr) as (? & ? & Hd).
  split_and!; [done..|]. rewrite Hd. by destruct m.
Qed.
End codec_lemmas.

(** ** Rows apart, mappings compatible *)

Lemma same_value_map {A B} `{EqDecision A, EqDecision B} (f : A -> B) `{!Inj (=) (=) f} (a b : option A) :
  same_value (f <$> a) (f <$> b) = same_value a b.
Proof. destruct a, b; cbn; try done. apply bool_decide_ext. split; [by intros ?%(inj f)|by intros ->]. Qed.

Lemma same_public_reads r s l m : row_reads r l -> row_reads s m ->
  same_public r s = same_value (public_ip l) (public_ip m).
Proof. intros Hr Hs. unfold same_public. rewrite (rr_public _ _ Hr), (rr_public _ _ Hs). apply same_value_map, _. Qed.

Lemma text_ip (a b : Ipv4Addr) : bool_decide (show_ip a = show_ip b) = bool_decide (a = b).
Proof. apply bool_decide_ext. split; [by intros ?%(inj show_ip)|by intros ->]. Qed.

Lemma enabled_column r m : row_reads r m -> bool_column r -> (r_enabled r =? 1) = enabled m.
Proof. intros Hr [E|E]; rewrite (rr_enabled _ _ Hr), E; done. Qed.

Lemma one_to_one_wire md : bool_decide (wire md = one_to_one_name) = bool_decide (md = OneToOneSnat).
Proof. by destruct md. Qed.
Lemma port_forward_wire md : bool_decide (wire md = port_forward_name) = bool_decide (md = PortForwardSnat).
Proof. by destruct md. Qed.

Lemma one_one : bool_decide (OneToOneSnat = OneToOneSnat) = true. Proof. done. Qed.
Lemma fwd_fwd : bool_decide (PortForwardSnat = PortForwardSnat) = true. Proof. done. Qed.
Lemma one_fwd : bool_decide (OneToOneSnat = PortForwardSnat) = false. Proof. done. Qed.
Lemma fwd_one : bool_decide (PortForwardSnat = OneToOneSnat) = false. Proof. done. Qed.

Lemma public_value l m :
  bool_decide (is_Some (public_ip l)) && bool_decide (public_ip l = public_ip m)
  = same_value (public_ip l) (public_ip m).
Proof.
  destruct (public_ip l) as [a|]; [|by rewrite bool_decide_eq_false_2 by (by intros [])].
  rewrite bool_decide_eq_true_2 by done. destruct (public_ip m) as [b|]; cbn;
    [apply bool_decide_ext; split; congruence|by rewrite bool_decide_eq_false_2].
Qed.

(** The constraints see in two rows what [conflicts] and [public_clash] see in
    the mappings read from them. *)
Lemma row_clash_reads r s l m :
  bool_column r -> bool_column s -> row_reads r l -> row_reads s m -> mode_valid l ->
  row_clash r s = conflicts l m || (enabled l && enabled m && public_clash l m).
Proof.
  intros Br Bs Hr Hs Vl. unfold row_clash; cbn zeta.
  rewrite (enabled_column r l), (enabled_column s m) by done.
  unfold same_tuple, same_edge, same_target_text.
  rewrite (same_public_reads r s l m) by done.
  rewrite (rr_edge _ _ Hr), (rr_edge _ _ Hs), (rr_target _ _ Hr), (rr_target _ _ Hs),
    (rr_port _ _ Hr), (rr_port _ _ Hs), (rr_protocol _ _ Hr), (rr_protocol _ _ Hs),
    (rr_mode _ _ Hr), (rr_mode _ _ Hs), !text_ip, !one_to_one_wire, !port_forward_wire.
  unfold conflicts, public_clash, some_one_to_one.
  destruct (enabled l), (enabled m); try done. cbn [negb orb andb].
  rewrite public_value. unfold mode_valid in Vl. destruct (mode l) eqn:Ml, (mode m) eqn:Mm.
  - rewrite one_one, one_fwd. cbn [andb orb]. by rewrite andb_true_r, !orb_false_r.
  - rewrite one_one, one_fwd, fwd_one, fwd_fwd. cbn [andb orb]. by rewrite andb_true_r.
  - rewrite one_one, one_fwd, fwd_one, fwd_fwd. cbn [andb orb]. by rewrite andb_true_r.
  - rewrite fwd_one, fwd_fwd. cbn [andb orb]. rewrite andb_false_r, !orb_false_r.
    destruct Vl as [(p & -> & _) _]. f_equal.
    + f_equal. apply bool_decide_ext. split; [apply wire_inj|by intros ->].
    + destruct (public_port m) as [q|]; cbn; [apply bool_decide_ext; naive_solver|].
      by rewrite bool_decide_eq_false_2.
Qed.

(** Stored rows kept apart are read as compatible mappings. *)
Lemma apart_compatible r s l m :
  bool_column r -> bool_column s -> row_reads r l -> row_reads s m ->
  enabled l = true -> enabled m = true -> mode_valid l -> apart r s -> compatible l m.
Proof.
  intros Br Bs Hr Hs El Em Vl Hap. unfold apart in Hap.
  rewrite (row_clash_reads r s l m), El, Em in Hap by done. by apply orb_false_iff in Hap.
Qed.

(** Conversely, a row whose mapping is compatible with those of the others
    passes the trigger and the indexes. *)
Lemma compatible_apart r s l m :
  bool_column r -> bool_column s -> row_reads r l -> row_reads s m -> mode_valid l ->
  compatible l m -> apart r s.
Proof.
  intros Br Bs Hr Hs Vl [Hc Hp]. unfold apart.
  rewrite (row_clash_reads r s l m), Hc, Hp by done. by rewrite andb_false_r.
Qed.

(** ** The store used by one client *)

Lemma pairwise_by_key {A} (key : A -> string) (R : A -> A -> Prop) l :
  NoDup (key <$> l) -> (forall a b, a ∈ l -> b ∈ l -> key a <> key b -> R a b) -> pairwise R l.
Proof.
  induction l as [|a l IH]; intros Hn HR; [apply pairwise_nil|].
  rewrite fmap_cons, NoDup_cons in Hn. destruct Hn as [Ha Hn]. apply pairwise_cons. split.
  - apply Forall_forall. intros b Hb. apply HR; [left|by right|].
    intros E. apply Ha. rewrite E. by apply list_elem_of_fmap_2.
  - apply IH; [done|]. intros b c Hb Hc. apply HR; by right.
Qed.

Lemma pairwise_Forall2 {A B} (P : A -> B -> Prop) (R : B -> B -> Prop) l k :
  Forall2 P l k -> pairwise (fun a b => forall x y, P a x -> P b y -> R x y) l -> pairwise R k.
Proof.
  induction 1 as [|a x l k Hax Hlk IH]; [intros; apply pairwise_nil|].
  rewrite !pairwise_cons. intros [Ha Hl]. split; [|auto].
  apply Forall_forall. intros y (i & Hi)%list_elem_of_lookup.
  destruct (Forall2_lookup_r _ _ _ _ _ Hlk Hi) as (b & Hb & Hby).
  apply list_elem_of_lookup_2 in Hb. rewrite Forall_forall in Ha. eauto.
Qed.

Section client.
Context `{Ipnet} `{StoreLib}.

(** The rows decode to valid mappings under their own ids, and no two clash,
    enabled or not. *)
Record seq_inv (c : EdgeConfig) (db : Db) : Prop := {
  si_config : exists v, db_config db !! "default" = Some v /\ decode_config v = Ok c;
  si_ok : db_ok db;
  si_valid : forall r, r ∈ db_mappings db ->
    exists m, row_to_mapping r = Ok m /\ mapping_valid (target_cidrs c) m /\ id m = r_id r;
  si_static : forall r s l m, r ∈ db_mappings db -> s ∈ db_mappings db -> r_id r <> r_id s ->
    row_to_mapping r = Ok l -> row_to_mapping s = Ok m -> static_ok l m;
}.

(** The mappings read back pass the validation that rendering performs. *)
Lemma seq_inv_validates c db :
  seq_inv c db -> exists ms, collect row_to_mapping (merge_sort row_le (db_mappings db)) = Ok ms /\
    validate_mappings ms c = Ok tt.
Proof.
  intros [Hc Hok Hv Hst]. pose proof (merge_sort_Permutation row_le (db_mappings db)) as Hp.
  assert (Hdec : exists ms, Forall2 (fun r m => row_to_mapping r = Ok m)
    (merge_sort row_le (db_mappings db)) ms).
  { apply Forall_choose, Forall_forall. intros r Hr. rewrite Hp in Hr.
    destruct (Hv r Hr) as (m & Hm & _). eauto. }
  destruct Hdec as [ms Hms]. exists ms. split; [by apply collect_Ok|].
  apply validate_mappings_Ok. split.
  - apply Forall_forall. intros m (i & Hi)%list_elem_of_lookup.
    destruct (Forall2_lookup_r _ _ _ _ _ Hms Hi) as (r & Hr & Hrm).
    apply list_elem_of_lookup_2 in Hr. rewrite Hp in Hr. destruct (Hv r Hr) as (m' & Hm' & Hval & _).
    congruence.
  - apply (pairwise_Forall2 _ _ _ _ Hms), (pairwise_by_key r_id).
    { rewrite Hp. apply Hok. }
    intros r s Hr Hs Hne l m Hl Hm. rewrite Hp in Hr, Hs.
    destruct (Hst r s l m Hr Hs Hne Hl Hm) as [Hpub _].
    destruct (enabled l) eqn:El, (enabled m) eqn:Em;
      try (split; [|done]; unfold conflicts; rewrite El, Em; done).
    destruct (ok_rows _ Hok) as [_ Hap Hb]. rewrite Forall_forall in Hb.
    apply (apart_compatible r s); [by apply Hb|by apply Hb|by apply row_to_mapping_reads..|done|done| |].
    + destruct (Hv r Hr) as (l' & Hl' & Hval & _). assert (l' = l) as <- by congruence. apply Hval.
    + destruct (pairwise_elem_of apart _ r s Hap Hr Hs) as [->|Ha]; done.
Qed.

Lemma static_ok_same l l' m :
  public_ip l' = public_ip l -> mode l' = mode l -> target_ip l' = target_ip l ->
  static_ok l m -> static_ok l' m.
Proof.
  unfold static_ok, public_clash, target_clash, some_one_to_one, both_one_to_one. by intros -> -> ->.
Qed.

(** A statement that leaves the configuration and the rows alone. *)
Lemma seq_inv_other c db db' :
  seq_inv c db -> db_ok db' -> db_config db' = db_config db -> db_mappings db' = db_mappings db ->
  seq_inv c db'.
Proof. intros [Hc _ Hv Hst] Hok Ec Em. constructor; rewrite ?Ec, ?Em; done. Qed.

Lemma seq_inv_insert `{!StoreLibLaws} c db db' m row d :
  seq_inv c db -> id_ok (id m) -> ports_ok m -> mapping_valid (target_cidrs c) m ->
  row_of_mapping m = Ok row ->
  (forall r l, r ∈ db_mappings db -> r_id r <> id m -> row_to_mapping r = Ok l -> static_ok l m) ->
  exec (InsertMapping row) db = Ok (db', d) -> seq_inv c db' /\ db_mappings db' = db_mappings db ++ [row].
Proof.
  intros [Hc Hok Hv Hst] Hid Hp Hm Hrow Hs He.
  destruct (row_of_mapping_decodes m row Hid Hp Hrow) as (Ei & Een & Hd).
  assert (Hb : bool_column row) by (unfold bool_column; rewrite Een; destruct (enabled m); auto).
  pose proof (exec_ok (InsertMapping row) _ _ _ Hb Hok He) as Hok'.
  cbn in He. apply bind_Ok in He as (rows & Hi & Hret). simplify_eq/=.
  apply insert_row_ok in Hi as [-> _]; [|apply Hok|done]. split; [|done]. constructor; cbn; try done.
  - intros r [Hr| ->%list_elem_of_singleton]%elem_of_app; [by apply Hv|]. exists m. by rewrite Ei.
  - intros r s l n [Hr| ->%list_elem_of_singleton]%elem_of_app
      [Hs'| ->%list_elem_of_singleton]%elem_of_app Hne Hl Hn; [by apply (Hst r s)| | |done].
    + assert (n = m) as -> by congruence. apply (Hs r); [done|congruence|done].
    + assert (l = m) as -> by congruence. symmetry. apply (Hs s); [done|congruence|done].
Qed.

(** An update of the row with id [i] whose new content is valid and clashes
    with no other row. *)
Lemma seq_inv_update c db i f :
  seq_inv c db -> db_ok (set_rows db (updated i f <$> db_mappings db)) ->
  (forall r m, r ∈ db_mappings db -> r_id r = i -> row_to_mapping r = Ok m ->
    mapping_valid (target_cidrs c) m -> id m = i ->
    exists m', row_to_mapping (f r) = Ok m' /\ mapping_valid (target_cidrs c) m' /\
      id m' = i /\ r_id (f r) = i /\
      forall s l, s ∈ db_mappings db -> r_id s <> i -> row_to_mapping s = Ok l -> static_ok l m') ->
  seq_inv c (set_rows db (updated i f <$> db_mappings db)).
Proof.
  intros [Hc Hok Hv Hst] Hok' Hf. constructor; cbn; [done|done| |].
  - intros r' (r & -> & Hr)%list_elem_of_fmap. destruct (Hv r Hr) as (m & Hm & Hval & Hi).
    unfold updated. case_decide as E; [|eauto].
    destruct (Hf r m Hr E Hm Hval) as (m' & ? & ? & ? & Hri & _); [congruence|].
    exists m'. by rewrite Hri.
  - assert (Hwlog : forall r s l m, r ∈ db_mappings db -> s ∈ db_mappings db -> r_id r = i -> r_id s <> i ->
      row_to_mapping (f r) = Ok l -> row_to_mapping s = Ok m -> static_ok m l).
    { intros r s l m Hr Hs Er Es Hl Hm. destruct (Hv r Hr) as (r0 & Hr0 & Hval & Hi).
      destruct (Hf r r0 Hr Er Hr0 Hval) as (m' & Hm' & _ & _ & _ & Hsm); [congruence|].
      assert (l = m') as -> by congruence. by apply (Hsm s). }
    intros r' s' l m (r & -> & Hr)%list_elem_of_fmap (s & -> & Hs)%list_elem_of_fmap Hne Hl Hm.
    assert (Hid : forall x, x ∈ db_mappings db -> r_id x = i -> r_id (f x) = i).
    { intros x Hx Ex. destruct (Hv x Hx) as (x0 & Hx0 & Hval & Hi).
      destruct (Hf x x0 Hx Ex Hx0 Hval) as (? & _ & _ & _ & ? & _); [congruence|done]. }
    unfold updated in *. destruct (decide (r_id r = i)), (decide (r_id s = i)).
    + exfalso. apply Hne. by rewrite !Hid.
    + symmetry. by apply (Hwlog r s).
    + by apply (Hwlog s r).
    + by apply (Hst r s).
Qed.
End client.

Section alone.
Context `{Ipnet} `{StoreLibLaws} `{Alone}.

Lemma wp_query {A} (q : Db -> A) w Φ :
  (forall w', w_db w' = w_db w -> Φ (Ret (q (w_db w))) w' /\ forall e, Φ (Fail e) w') ->
  wp (sql (sql_query q)) w Φ.
Proof. intros HΦ. apply wp_map_err, wp_sql_query. intros w' Hw. destruct (HΦ w' Hw). auto. Qed.

Lemma wp_exec s w Φ :
  (forall w' e, w_db w' = w_db w -> Φ (Fail e) w') ->
  (forall w' d, exec s (w_db w) = Ok (w_db w', d) -> Φ (Ret d) w') ->
  wp (sql (sql_exec s)) w Φ.
Proof. intros Hf Hr. apply wp_map_err, wp_sql_exec; auto. Qed.

(** The steps of a client keep the invariant. *)
Definition safe (c : EdgeConfig) {A} (o : Out EdgeCoreError A) (w : World) : Prop := seq_inv c (w_db w).

Lemma config_for_write_safe c w Φ :
  seq_inv c (w_db w) ->
  (forall w', w_db w' = w_db w -> Φ (Ret c) w' /\ forall e, Φ (Fail e) w') ->
  wp config_for_write w Φ.
Proof.
  intros Hinv HΦ. destruct (si_config _ _ Hinv) as (v & Hv & Hd).
  apply wp_bind, wp_bind, wp_query. intros w' Hw. split; [|intros e; cbn; by apply HΦ].
  cbn [continue]. rewrite Hv. apply wp_lift; cbn; rewrite Hd; cbn; [|done].
  intros a [= <-]. apply wp_lift; cbn; [|done]. intros a [= <-]. by apply HΦ.
Qed.

(** Passing [reject_duplicates] means clashing with no other row. *)
Lemma reject_duplicates_safe m w Φ :
  (forall w', w_db w' = w_db w ->
    (forall e, Φ (Fail e) w') /\
    ((forall r l, r ∈ db_mappings (w_db w) -> r_id r <> id m -> row_to_mapping r = Ok l -> static_ok l m) ->
     Φ (Ret tt) w')) ->
  wp (reject_duplicates m) w Φ.
Proof.
  intros HΦ. apply wp_bind, wp_query. intros w' Hw. destruct (HΦ w' Hw) as [Hf Hr].
  split; [|intros e; apply Hf]. cbn [continue]. apply wp_lift; [|intros; apply Hf]. intros [] Hfe. apply Hr.
  rewrite for_each_Ok, Forall_forall in Hfe. intros r l Hin Hne Hl.
  assert (Hc := Hfe r). rewrite Hl in Hc. apply write_conflict_Ok. apply Hc.
  by apply list_elem_of_filter.
Qed.

Lemma insert_mapping_safe c m w :
  seq_inv c (w_db w) -> id_ok (id m) -> ports_ok m -> wp (insert_mapping m) w (safe c).
Proof.
  intros Hinv Hid Hp. apply wp_bind, (config_for_write_safe c); [done|]. unfold safe.
  intros w1 E1. split; [|intros e; cbn; by rewrite E1]. cbn [continue].
  apply wp_bind, wp_lift; cbn [continue]; [|intros; by rewrite E1]. intros [] Hv%validate_mapping_Ok.
  apply wp_bind, reject_duplicates_safe. intros w2 E2. rewrite E1 in E2.
  split; [intros e; cbn; by rewrite E2|]. rewrite E1. intros Hs. cbn [continue].
  apply wp_bind, wp_lift; cbn [continue]; [|intros; by rewrite E2]. intros row Hrow.
  apply wp_bind, wp_exec; cbn [continue]; [intros w3 e E3; by rewrite E3, E2|].
  intros w3 d He. rewrite E2 in He. unfold wp; cbn.
  by eapply (proj1 (seq_inv_insert c _ _ m row d Hinv Hid Hp Hv Hrow Hs He)).
Qed.

Lemma bind_row_assign m a row r :
  bind_row m a = Ok row -> r_id r = id m -> bind_row m (r_created_at r) = Ok (assign_mapping row r).
Proof.
  unfold bind_row, enum_string. cbn [mbind result_bind]. rewrite !bind_Ok.
  intros (checked & Hc & Hr) Hi. rewrite bind_Ok in Hr. destruct Hr as (upd & Hu & Hr).
  exists checked. rewrite bind_Ok. split; [done|]. exists upd. split; [done|].
  simplify_eq/=. unfold assign_mapping; cbn. by rewrite Hi.
Qed.

Lemma row_created r m : row_to_mapping r = Ok m -> parse_time (r_created_at r) = Ok (created_at m).
Proof. unfold row_to_mapping. intros Hr. res_inv. by simplify_eq. Qed.

(** The effect of the smaller updates on the mapping read back. *)
Lemma assign_enabled_decodes r m en st now upd :
  row_to_mapping r = Ok m -> format_time now = Ok upd ->
  row_to_mapping (assign_enabled en (wire st) upd r) = Ok (set_state m en st now).
Proof.
  unfold row_to_mapping. intros Hr Hu%parse_format_time. res_inv. simplify_eq. cbn.
  repeat match goal with Hx : _ = Ok _ |- _ => rewrite Hx; cbn end.
  rewrite enum_from_string_wire; cbn.
  repeat match goal with Hx : _ = Ok _ |- _ => rewrite Hx; cbn end. by destruct en.
Qed.

Lemma assign_health_decodes r m st health err now chk now' upd :
  row_to_mapping r = Ok m -> format_time now = Ok chk -> format_time now' = Ok upd ->
  row_to_mapping (assign_health (wire st) health err chk upd r)
  = Ok (set_health m st health err now now').
Proof.
  unfold row_to_mapping. intros Hr Hc%parse_format_time Hu%parse_format_time. res_inv. simplify_eq. cbn.
  repeat match goal with Hx : _ = Ok _ |- _ => rewrite Hx; cbn end.
  rewrite enum_from_string_wire; cbn.
  repeat match goal with Hx : _ = Ok _ |- _ => rewrite Hx; cbn end. done.
Qed.

Lemma get_mapping_safe c i w : seq_inv c (w_db w) -> wp (get_mapping i) w (safe c).
Proof.
  intros Hinv. unfold safe. apply wp_bind, wp_query. intros w1 E1.
  split; [|intros e; cbn; by rewrite E1]. cbn [continue].
  apply wp_bind, wp_lift; cbn [continue]; [|intros; by rewrite E1]. intros row _.
  apply wp_lift; intros; by rewrite E1.
Qed.

Lemma update_mapping_safe c m w :
  seq_inv c (w_db w) -> id_ok (id m) -> ports_ok m -> wp (update_mapping m) w (safe c).
Proof.
  intros Hinv Hid Hp. apply wp_bind, (config_for_write_safe c); [done|]. unfold safe.
  intros w1 E1. split; [|intros e; cbn; by rewrite E1]. cbn [continue].
  apply wp_bind, wp_lift; cbn [continue]; [|intros; by rewrite E1]. intros [] Hv%validate_mapping_Ok.
  apply wp_bind, reject_duplicates_safe. intros w2 E2. rewrite E1 in E2.
  split; [intros e; cbn; by rewrite E2|]. rewrite E1. intros Hs. cbn [continue].
  apply wp_bind, wp_lift; cbn [continue]; [|intros; by rewrite E2]. intros row Hrow.
  apply wp_bind, wp_exec; cbn [continue]; [intros w3 e E3; by rewrite E3, E2|].
  intros w3 d He. rewrite E2 in He.
  assert (Hsafe : seq_inv c (w_db w3)); [|by destruct (rows_affected d =? 0)].
  assert (Hb : bool_column row).
  { unfold bind_row, enum_string in Hrow. res_inv. unfold bool_column; cbn. destruct (enabled m); auto. }
  apply update_stmt_ok in He as (Hok' & Hdb & _); [|by apply assign_mapping_safe|apply Hinv].
  rewrite Hdb in Hok' |- *. apply seq_inv_update; [done|done|].
  intros r old Hr Er Hold Hvold Hio.
  destruct (bind_row_decodes m _ _ _ Hid Hp (row_created _ _ Hold) (bind_row_assign _ _ _ _ Hrow Er))
    as (Ei & _ & Hd).
  eexists. split; [exact Hd|]. split_and!; [by destruct Hv; constructor|done|done|].
  intros s l Hin Hne Hl. symmetry. eapply static_ok_same; [..|symmetry; by apply (Hs s)]; done.
Qed.

(** The updates that keep what [static_ok] and the validators read. *)
Lemma keep_static_safe c i f db :
  seq_inv c db -> db_ok (set_rows db (updated i f <$> db_mappings db)) ->
  (forall r, r_id (f r) = r_id r) ->
  (forall r m, row_to_mapping r = Ok m -> exists m', row_to_mapping (f r) = Ok m' /\
     (forall cidrs, mapping_valid cidrs m -> mapping_valid cidrs m') /\ id m' = id m /\
     public_ip m' = public_ip m /\ mode m' = mode m /\ target_ip m' = target_ip m) ->
  seq_inv c (set_rows db (updated i f <$> db_mappings db)).
Proof.
  intros Hinv Hok' Hid Hf. apply seq_inv_update; [done|done|].
  intros r m Hr Er Hm Hval Him. destruct (Hf r m Hm) as (m' & Hm' & Hv & Hi & Hp & Hmd & Ht).
  exists m'. split_and!; [done|auto|congruence|by rewrite Hid|].
  intros s l Hs Hne Hl. symmetry. eapply static_ok_same; [done..|].
  apply (si_static _ _ Hinv r s); auto. congruence.
Qed.

Lemma set_mapping_enabled_safe c i en w :
  seq_inv c (w_db w) -> wp (set_mapping_enabled i en) w (safe c).
Proof.
  intros Hinv. unfold safe. apply wp_bind, wp_lift; cbn [continue]; [|done]. intros st [= <-].
  apply wp_bind, wp_now. cbn [continue].
  apply wp_bind, wp_lift; cbn [continue]; [|done]. intros upd Hu.
  apply wp_bind, wp_exec; cbn [continue]; [intros w1 e E1; by rewrite E1|].
  intros w1 d He. apply get_mapping_safe.
  apply update_stmt_ok in He as (Hok' & Hdb & _); [|apply assign_enabled_safe|apply Hinv].
  rewrite Hdb in Hok' |- *. apply keep_static_safe; [done|done|done|].
  intros r m Hm. eexists. split; [by eapply assign_enabled_decodes|].
  split_and!; try done. intros cidrs. apply mapping_valid_state.
Qed.

Lemma health_update_safe c i (st : MappingStatus) health err now now' chk upd db db' d :
  seq_inv c db -> format_time now = Ok chk -> format_time now' = Ok upd ->
  exec (UpdateHealth i (wire st) health err chk upd) db = Ok (db', d) ->
  seq_inv c db' /\ db' = set_rows db (updated i (assign_health (wire st) health err chk upd) <$> db_mappings db).
Proof.
  intros Hinv Hc Hu He. apply update_stmt_ok in He as (Hok' & -> & _); [|apply assign_health_safe|apply Hinv].
  split; [|done]. apply keep_static_safe; [done|done|done|].
  intros r m Hm. eexists. split; [exact (assign_health_decodes _ _ _ _ _ _ _ _ _ Hm Hc Hu)|].
  split_and!; try done. intros cidrs []. by constructor.
Qed.

Lemma set_mapping_health_safe c i st health err w :
  seq_inv c (w_db w) -> wp (set_mapping_health i st health err) w (safe c).
Proof.
  intros Hinv. unfold safe. apply wp_bind, wp_lift; cbn [continue]; [|done]. intros ? [= <-].
  apply wp_bind, wp_now. cbn [continue].
  apply wp_bind, wp_lift; cbn [continue]; [|done]. intros chk Hc.
  apply wp_bind, wp_now. cbn [continue].
  apply wp_bind, wp_lift; cbn [continue]; [|done]. intros upd Hu.
  apply wp_bind, wp_exec; cbn [continue]; [intros w1 e E1; by rewrite E1|].
  intros w1 d He. apply get_mapping_safe. exact (proj1 (health_update_safe _ _ _ _ _ _ _ _ _ _ _ _ Hinv Hc Hu He)).
Qed.

Lemma delete_mapping_safe c i w : seq_inv c (w_db w) -> wp (delete_mapping i) w (safe c).
Proof.
  intros Hinv. apply wp_bind. eapply wp_mono; [|by apply (get_mapping_safe c)].
  unfold safe. intros [m|e|s] w1 Hi1; cbn [continue]; [|done..].
  apply wp_bind, wp_exec; cbn [continue]; [intros w2 e E2; by rewrite E2|].
  intros w2 d He. pose proof (exec_ok (DeleteMapping i) _ _ _ I (si_ok _ _ Hi1) He) as Hok.
  cbn in He. injection He as Hdb _. unfold wp; cbn. rewrite <- Hdb in Hok |- *.
  destruct Hi1 as [Hc _ Hv Hst]. constructor; cbn; [done|done| |].
  - intros r [_ Hr]%list_elem_of_filter. auto.
  - intros r s l n [_ Hr]%list_elem_of_filter [_ Hs]%list_elem_of_filter. eauto.
Qed.

Lemma record_generation_safe c st cfg ap er w :
  seq_inv c (w_db w) -> wp (record_generation st cfg ap er) w (safe c).
Proof.
  intros Hinv. unfold record_generation, safe. destruct (is_empty _); [done|].
  apply wp_bind, wp_now. cbn [continue]. apply wp_bind, wp_lift; cbn [continue]; [|done]. intros ? _.
  apply wp_bind, wp_lift; cbn [continue]; [|done]. intros created _.
  apply wp_bind, wp_lift; cbn [continue]; [|done]. intros applied _.
  apply wp_bind, wp_exec; cbn [continue]; [intros w1 e E1; by rewrite E1|].
  intros w1 d He. pose proof (exec_ok (InsertGeneration _ _ _ _ _) _ _ _ I (si_ok _ _ Hinv) He) as Hok.
  unfold wp; cbn. cbn in He. case_match; [|done]. injection He as Hdb _.
  apply (seq_inv_other c (w_db w)); [done|done|by rewrite <- Hdb..].
Qed.

Lemma record_event_safe c lv msg data w :
  seq_inv c (w_db w) -> wp (record_event lv msg data) w (safe c).
Proof.
  intros Hinv. unfold record_event, safe. destruct (is_empty _); [done|].
  apply wp_bind, wp_now. cbn [continue]. apply wp_bind, wp_lift; cbn [continue]; [|done]. intros ? _.
  apply wp_bind, wp_lift; cbn [continue]; [|done]. intros created _.
  apply wp_bind, wp_exec; cbn [continue]; [intros w1 e E1; by rewrite E1|].
  intros w1 d He. pose proof (exec_ok (InsertEvent _ _ _ _) _ _ _ I (si_ok _ _ Hinv) He) as Hok.
  unfold wp; cbn. cbn in He. case_match; [|done]. injection He as Hdb _.
  apply (seq_inv_other c (w_db w)); [done|done|by rewrite <- Hdb..].
Qed.
End alone.

(** ** An executable library for the examples

    Times and configurations are written as binary text. *)

#[export] Program Instance Ipv4Addr_countable : Countable Ipv4Addr :=
  inj_countable ip_u32 (fun z => Some (ip_of_u32 z)) _.
Next Obligation. intros ip. cbn. by rewrite ip_of_u32_u32. Qed.
#[export] Program Instance Ipv4Net_countable : Countable Ipv4Net :=
  inj_countable' (fun n => (net_addr n, prefix_len n)) (fun '(a, p) => mkNet a p) _.
Next Obligation. by intros []. Qed.
#[export] Program Instance OciAuthMode_countable : Countable OciAuthMode :=
  inj_countable' (fun a => match a with InstancePrincipal => true | ApiKey => false end)
    (fun b : bool => if b then InstancePrincipal else ApiKey) _.
Next Obligation. by intros []. Qed.
#[export] Instance EdgeConfig_eq_dec : EqDecision EdgeConfig.
Proof. solve_decision. Defined.
#[export] Program Instance EdgeConfig_countable : Countable EdgeConfig :=
  inj_countable'
    (fun c => (wan_interface c, netbird_interface c, target_cidrs c, oci_compartment_id c,
       oci_vnic_id c, oci_subnet_id c, oci_nsg_ids c, oci_region c, oci_auth c, api_token c))
    (fun '(a, b, t, d, e, f, g, h, i, j) => mkConfig a b t d e f g h i j) _.
Next Obligation. by intros []. Qed.

Definition model_lib : StoreLib := {|
  format_rfc3339 t := Ok (pos_text (encode t));
  parse_rfc3339 s := ok_or (text_pos s ≫= decode) "unparseable";
  encode_config c := Ok (pos_text (encode c));
  decode_config s := ok_or (text_pos s ≫= decode) "unparseable";
  unknown_variant names s := "unknown variant `" +:+ s +:+ "`, expected one of " +:+ join ", " names;
  sql_failure_text f :=
    match f with
    | PrimaryKeyTaken => "UNIQUE constraint failed: mappings.id"
    | IndexTaken ix => "UNIQUE constraint failed: " +:+ ix
    | Raised m | SqlFault m => m
    | RowidsExhausted => "database or disk is full"
    end;
|}.

Lemma model_lib_laws : @StoreLibLaws model_lib.
Proof.
  constructor; intros x s [= <-]; cbn [parse_rfc3339 decode_config model_lib];
    by rewrite text_pos_text; cbn; rewrite decode_encode.
Qed.

(** A quiet outside: nothing fails and nobody else writes. *)
Definition quiet_env : Env := {|
  env_now h := Z.of_nat (length h);
  env_uuid h := pos_text (Pos.of_succ_nat (length h));
  env_sql_fault _ := None;
  env_others _ := [];
  env_fs_fault _ _ := None;
  env_short_write _ := 0%nat;
  env_command _ _ _ := CmdDone (mkOutput (Some 0) "" "");
  env_connect _ _ _ := TcpConnected;
  env_http _ _ := HttpFailed "";
|}.
#[export] Instance quiet_alone : @Alone quiet_env.
Proof. by intros h. Qed.
#[export] Instance quiet_reliable : @Reliable quiet_env.
Proof. by intros h. Qed.

Definition config_db (v : string) : Db := mkDb [] {["default" := v]} [] 0 [] 0.
Definition sample_text : string := pos_text (encode sample_config).
Definition sample_world : World := mkWorld (config_db sample_text) ∅ [].

Lemma sample_decodes : decode_config (StoreLib := model_lib) sample_text = Ok sample_config.
Proof. by apply (decode_encode_config (StoreLibLaws := model_lib_laws)). Qed.

(** ** Histories of one client *)

Inductive StoreCall :=
  | CallInsert (m : Mapping)
  | CallUpdate (m : Mapping)
  | CallEnable (i : MappingId) (en : bool)
  | CallHealth (i : MappingId) (st : MappingStatus) (health err : option string)
  | CallDelete (i : MappingId)
  | CallGeneration (st : GenerationStatus.t) (config : string) (applied : option Time) (err : option string)
  | CallEvent (lv : EventLevel.t) (message : string) (data : option string).

(** The mappings the program passes are values of the Rust type. *)
Definition call_wf (c : StoreCall) : Prop :=
  match c with CallInsert m | CallUpdate m => mapping_wf m | _ => True end.

Section calls.
Context `{Ipnet} `{StoreLib} `{Env}.

(** The world after a call, whatever it returned. *)
Definition run_call (w : World) (c : StoreCall) : World :=
  match c with
  | CallInsert m => (insert_mapping m w).2
  | CallUpdate m => (update_mapping m w).2
  | CallEnable i en => (set_mapping_enabled i en w).2
  | CallHealth i st health err => (set_mapping_health i st health err w).2
  | CallDelete i => (delete_mapping i w).2
  | CallGeneration st config applied err => (record_generation st config applied err w).2
  | CallEvent lv message data => (record_event lv message data w).2
  end.
Definition run_calls (cs : list StoreCall) (w : World) : World := foldl run_call w cs.
End calls.

Lemma valid_ports `{Ipnet} cidrs m : mapping_wf m -> mapping_valid cidrs m -> ports_ok m.
Proof.
  intros [_ Hp Ht] [_ _ _ _ _ _ Hm]. unfold mode_valid in Hm. unfold ports_ok, u16_ok in *.
  destruct (mode m).
  - destruct Hm as (-> & Hz & _). split; [done|]. destruct (target_port m) as [q|]; [|done]. cbn in *.
    assert (q <> 0) by congruence. lia.
  - destruct Hm as ((p & Ep & Hp0) & (q & Eq & Hq0) & _). rewrite Ep, Eq in *. cbn in *. lia.
Qed.

(** Insertion and update with the ports the validation leaves. *)
Lemma config_ports `{Ipnet} `{StoreLibLaws} `{Alone} c m w (op : IO EdgeCoreError unit)
    (k : IO EdgeCoreError unit) :
  mapping_wf m -> seq_inv c (w_db w) ->
  (op = (config ← config_for_write; lift (validate_mapping m config) ;; k)) ->
  (ports_ok m -> wp op w (safe c)) -> wp op w (safe c).
Proof.
  intros Hwf Hinv -> Hk. destruct (validate_mapping m c) as [[]|e] eqn:E.
  - apply Hk. apply validate_mapping_Ok in E. by eapply valid_ports.
  - apply wp_bind, (config_for_write_safe c); [done|]. unfold safe. intros w1 E1.
    split; [|intros e'; cbn; by rewrite E1]. cbn [continue].
    apply wp_bind, wp_lift; cbn [continue]; [congruence|intros; by rewrite E1].
Qed.

Lemma run_call_inv `{Ipnet} `{StoreLibLaws} `{Alone} c call w :
  call_wf call -> seq_inv c (w_db w) -> seq_inv c (w_db (run_call w call)).
Proof.
  intros Hwf Hinv. destruct call as [m|m|i en|i st h e|i|st cfg ap er|lv msg d]; cbn [run_call].
  - eapply (config_ports c m w (insert_mapping m)); [done|done|reflexivity|].
    intros Hp. apply insert_mapping_safe; [done|apply Hwf|done].
  - eapply (config_ports c m w (update_mapping m)); [done|done|reflexivity|].
    intros Hp. apply update_mapping_safe; [done|apply Hwf|done].
  - by apply set_mapping_enabled_safe.
  - by apply set_mapping_health_safe.
  - by apply delete_mapping_safe.
  - by apply record_generation_safe.
  - by apply record_event_safe.
Qed.

Lemma run_calls_inv `{Ipnet} `{StoreLibLaws} `{Alone} c calls w :
  Forall call_wf calls -> seq_inv c (w_db w) -> seq_inv c (w_db (run_calls calls w)).
Proof.
  intros Hwf. revert w. induction Hwf as [|call calls Hc _ IH]; intros w Hinv; [done|].
  apply IH. by apply run_call_inv.
Qed.

Lemma config_db_inv `{Ipnet} `{StoreLib} v c : decode_config v = Ok c -> seq_inv c (config_db v).
Proof.
  intros Hd. constructor.
  - exists v. split; [apply lookup_singleton_eq|done].
  - pose proof db_empty_ok as [? ? ?]. by constructor.
  - by intros r ?%not_elem_of_nil.
  - by intros r s l m ?%not_elem_of_nil.
Qed.

(** Reading the mappings back. *)
Lemma list_mappings_run `{Ipnet} `{StoreLibLaws} `{Alone} c w :
  seq_inv c (w_db w) ->
  wp list_mappings w (fun o w' => w_db w' = w_db w /\
    match o with
    | Ret ms => collect row_to_mapping (merge_sort row_le (db_mappings (w_db w))) = Ok ms /\
        validate_mappings ms c = Ok tt
    | Fail e => True
    | Panicked _ => False
    end).
Proof.
  intros Hinv. destruct (seq_inv_validates c _ Hinv) as (ms & Hms & Hv).
  apply wp_bind, wp_query. intros w1 E1. split; [|done]. cbn [continue].
  apply wp_lift; [|done]. intros ms' Hms'. split; [done|].
  assert (ms' = ms) as -> by congruence. done.
Qed.

(** ** Properties *)

(** C32: a well-formed mapping that passes validation is read back from the row
    written for it as it was, whatever the text formats of the library, as long
    as they decode what they encode. *)
Theorem mapping_round_trip `{Ipnet} `{StoreLibLaws} m c r (Hwf : mapping_wf m)
    (Hv : validate_mapping m c = Ok tt) (Hr : row_of_mapping m = Ok r) :
  row_to_mapping r = Ok m.
Proof.
  apply validate_mapping_Ok in Hv.
  apply row_of_mapping_decodes; [apply Hwf|by eapply valid_ports|done].
Qed.

(** C6: whatever statements any number of clients run, in whatever order, two
    enabled mappings of valid modes read from different rows of the database
    are never redirected the same packet, never share a one-to-one target and
    never share a public address that one of them holds one-to-one. *)
Theorem constraints_keep_disjoint `{StoreLib} ss i j r s l m (Hss : Forall bound_stmt ss)
    (Hi : db_mappings (run_stmts ss db_empty) !! i = Some r)
    (Hj : db_mappings (run_stmts ss db_empty) !! j = Some s) (Hij : i <> j)
    (Hl : row_to_mapping r = Ok l) (Hm : row_to_mapping s = Ok m)
    (El : enabled l = true) (Em : enabled m = true) (Vl : mode_valid l) (Vm : mode_valid m) :
  disjoint l m.
Proof.
  pose proof (ok_rows _ (run_stmts_ok ss _ Hss db_empty_ok)) as [_ Hap Hb].
  apply compatible_disjoint; [done..|].
  assert (Hrs : apart r s).
  { destruct (decide (i < j)%nat); [by apply (pairwise_lookup apart _ i j r s Hap)|].
    symmetry. apply (pairwise_lookup apart _ j i s r Hap); [lia|done..]. }
  rewrite Forall_lookup in Hb.
  apply (apart_compatible r s); eauto using row_to_mapping_reads.
Qed.


(** Running on a reliable database without other clients. *)
Lemma query_run `{Alone} `{!Reliable} `{StoreLib} {A} (q : Db -> A) w :
  sql (sql_query q) w = (Ret (q (w_db w)), note EQuery w).
Proof. unfold sql, io_map_err, sql_query. cbn zeta. by rewrite interfere_alone, no_sql_fault. Qed.

Lemma exec_run `{Alone} `{!Reliable} `{StoreLib} s w :
  sql (sql_exec s) w =
  match exec s (w_db w) with
  | Ok (db, d) => (Ret d, note (EStmt s true) (set_db w db))
  | Err f => (Fail (sql_error f), note (EStmt s false) w)
  end.
Proof.
  unfold sql, io_map_err, sql_exec. cbn zeta. rewrite interfere_alone, no_sql_fault.
  by destruct (exec s (w_db w)) as [[]|].
Qed.

Section exact.
Context `{Ipnet} `{StoreLibLaws} `{Alone} `{!Reliable}.

Lemma config_for_write_run c w :
  seq_inv c (w_db w) -> config_for_write w = (Ret c, note EQuery w).
Proof.
  intros Hinv. destruct (si_config _ _ Hinv) as (v & Hv & Hd).
  unfold config_for_write, edge_config, mbind, io_bind. rewrite query_run, Hv. cbn. by rewrite Hd.
Qed.

(** The other rows neither clash nor conflict with the mapping. *)
Definition admits (db : Db) (m : Mapping) : Prop :=
  forall r l, r ∈ db_mappings db -> r_id r <> id m -> row_to_mapping r = Ok l ->
    static_ok l m /\ no_conflict l m.

Lemma reject_duplicates_run c m w :
  seq_inv c (w_db w) ->
  exists res : Result EdgeCoreError unit,
    reject_duplicates m w = (match res with Ok _ => Ret tt | Err e => Fail e end, note EQuery w) /\
    (res = Ok tt <-> admits (w_db w) m).
Proof.
  intros Hinv. unfold reject_duplicates, mbind at 1, io_bind. rewrite query_run. cbn beta.
  unfold lift at 1. set (res := for_each _ _). exists res. split; [by destruct res as [[]|]|].
  subst res.
  rewrite for_each_Ok, Forall_forall. unfold admits. split.
  - intros HF r l Hr Hne Hl. specialize (HF r). rewrite Hl in HF. apply write_conflict_Ok, HF.
    by apply list_elem_of_filter.
  - intros Ha r [Hne Hr]%list_elem_of_filter. destruct (si_valid _ _ Hinv r Hr) as (l & Hl & _).
    rewrite Hl. cbn. apply write_conflict_Ok. by apply (Ha r).
Qed.

(** The constraints of the database let an admitted mapping through. *)
Lemma admitted_row c db m row :
  seq_inv c db -> mapping_wf m -> mapping_valid (target_cidrs c) m -> row_of_mapping m = Ok row ->
  id m ∉ r_id <$> db_mappings db -> admits db m ->
  insert_row (db_mappings db) row = Ok (db_mappings db ++ [row]).
Proof.
  intros Hinv Hwf Hv Hrow Hid Ha.
  destruct (row_of_mapping_decodes m row (wf_id _ Hwf) (valid_ports _ _ Hwf Hv) Hrow) as (Ei & Een & Hd).
  destruct (ok_rows _ (si_ok _ _ Hinv)) as [_ _ Hb]. rewrite Forall_forall in Hb.
  destruct (apart_checks (db_mappings db) row) as [Ht Hc].
  - apply Forall_forall. intros r Hr. destruct (si_valid _ _ Hinv r Hr) as (l & Hl & Hvl & _).
    apply (compatible_apart r row l m); [by apply Hb| |by apply row_to_mapping_reads..|apply Hvl|].
    { unfold bool_column. rewrite Een. destruct (enabled m); auto. }
    destruct (Ha r l Hr) as [[Hp _] Hn]; [|done|by split].
    intros E. apply Hid. rewrite <- E. by apply list_elem_of_fmap_2.
  - apply Forall_forall. intros r Hr. destruct (si_valid _ _ Hinv r Hr) as (l & Hl & _).
    unfold known_mode. rewrite (rr_mode _ _ (row_to_mapping_reads _ _ Hl)). destruct (mode l); auto.
  - unfold insert_row. rewrite Ht. cbn. rewrite (proj2 (existsb_false _ _)).
    + cbn. by rewrite Hc.
    + apply Forall_forall. intros r Hr. apply bool_decide_eq_false. rewrite Ei. intros E.
      apply Hid. rewrite <- E. by apply list_elem_of_fmap_2.
Qed.

(** A row is not stored under an id that is taken. *)
Lemma insert_row_fresh c db m row rows :
  seq_inv c db -> mapping_wf m -> mapping_valid (target_cidrs c) m -> row_of_mapping m = Ok row ->
  insert_row (db_mappings db) row = Ok rows -> id m ∉ r_id <$> db_mappings db.
Proof.
  intros Hinv Hwf Hv Hrow Hi.
  destruct (row_of_mapping_decodes m row (wf_id _ Hwf) (valid_ports _ _ Hwf Hv) Hrow) as (Ei & Een & _).
  assert (Hb : bool_column row) by (unfold bool_column; rewrite Een; destruct (enabled m); auto).
  apply insert_row_ok in Hi as [-> [Hnd _ _]]; [|apply Hinv|done].
  rewrite fmap_app in Hnd. apply NoDup_app in Hnd as (_ & Hdis & _).
  intros Hin. apply (Hdis (id m) Hin). rewrite <- Ei. left.
Qed.

(** Reading a stored mapping by its id. *)
Lemma get_mapping_run c i w :
  seq_inv c (w_db w) ->
  get_mapping i w =
  (match find (fun r => bool_decide (r_id r = i)) (db_mappings (w_db w)) with
   | Some r => match row_to_mapping r with Ok m => Ret m | Err e => Fail e end
   | None => Fail (NotFound i)
   end, note EQuery w).
Proof.
  intros Hinv. unfold get_mapping, mbind, io_bind. rewrite query_run. cbn.
  destruct (find _ _) as [r|]; [|done]. cbn. unfold lift. by destruct (row_to_mapping r).
Qed.
End exact.

Lemma find_snoc {A} (p : A -> bool) l a :
  find p l = None -> p a = true -> find p (l ++ [a]) = Some a.
Proof. induction l as [|x l IH]; cbn; [by intros _ ->|]. destruct (p x); [done|auto]. Qed.

(** A row is found by its id when it exists. *)
Lemma find_id i rows :
  find (fun r => bool_decide (r_id r = i)) rows = None <-> i ∉ r_id <$> rows.
Proof.
  induction rows as [|r rows IH]; cbn; [split; [intros _ ?%not_elem_of_nil|]; done|].
  rewrite not_elem_of_cons, <- IH. case_bool_decide; naive_solver.
Qed.

(** What a successful insertion established and did. *)
Record inserted `{Ipnet} `{StoreLib} (c : EdgeConfig) (m : Mapping) (w w' : World) : Prop := {
  ins_fresh : id m ∉ r_id <$> db_mappings (w_db w);
  ins_valid : mapping_valid (target_cidrs c) m;
  ins_admits : admits (w_db w) m;
  ins_row : exists row, row_of_mapping m = Ok row /\
    db_mappings (w_db w') = db_mappings (w_db w) ++ [row];
}.

Lemma insert_mapping_run `{Ipnet} `{StoreLibLaws} `{Alone} `{!Reliable} c m w :
  seq_inv c (w_db w) -> mapping_wf m ->
  (exists w', insert_mapping m w = (Ret tt, w') /\ inserted c m w w') \/
  (exists e w', insert_mapping m w = (Fail e, w') /\ w_db w' = w_db w /\
     ~ (id m ∉ r_id <$> db_mappings (w_db w) /\ mapping_valid (target_cidrs c) m /\
        admits (w_db w) m /\ exists row, row_of_mapping m = Ok row)).
Proof.
  intros Hinv Hwf. unfold insert_mapping. rewrite (bind_step _ _ _ _ _ (config_for_write_run c w Hinv)).
  destruct (validate_mapping m c) as [[]|e] eqn:Ev.
  2: { rewrite (lift_stop e) by done. right. do 2 eexists. split_and!; [done|done|].
       intros (_ & Hv & _). apply validate_mapping_Ok in Hv. congruence. }
  rewrite (lift_step tt) by done. apply validate_mapping_Ok in Ev.
  destruct (reject_duplicates_run c m (note EQuery w) Hinv) as (res & Hrun & Hres). cbn in Hres.
  destruct res as [[]|e].
  2: { rewrite (bind_stop _ _ _ _ _ Hrun). right. do 2 eexists. split_and!; [done|done|].
       intros (_ & _ & Ha & _). by apply Hres in Ha. }
  rewrite (bind_step _ _ _ _ _ Hrun). assert (Ha : admits (w_db w) m) by by apply Hres.
  destruct (row_of_mapping m) as [row|e] eqn:Er.
  2: { rewrite (lift_stop e) by done. right. do 2 eexists. split_and!; [done|done|].
       by intros (_ & _ & _ & row & [=]). }
  rewrite (lift_step row) by done. unfold mbind, io_bind. rewrite exec_run; cbn.
  destruct (decide (id m ∈ r_id <$> db_mappings (w_db w))) as [Hin|Hn].
  - destruct (insert_row _ row) as [rows|e] eqn:Eins; cbn.
    + exfalso. exact (insert_row_fresh c (w_db w) m row rows Hinv Hwf Ev Er Eins Hin).
    + right. do 2 eexists. split_and!; [done|done|]. by intros (Hn & _).
  - left. rewrite (admitted_row c (w_db w) m row) by done. cbn. eexists. split; [done|].
    constructor; [done..|]. by exists row.
Qed.

(** C24: on a reliable database used by one client, inserting a well-formed
    mapping succeeds exactly when its id is new, it is valid under the stored
    configuration, it neither clashes nor conflicts with a stored mapping and
    its times can be formatted; reading its id then gives it back, and a
    refused insertion leaves the database as it was. *)
Theorem insert_mapping_stores `{Ipnet} `{StoreLibLaws} `{Alone} `{!Reliable} c m w
    (Hinv : seq_inv c (w_db w)) (Hwf : mapping_wf m) :
  ((insert_mapping m w).1 = Ret tt <->
     id m ∉ r_id <$> db_mappings (w_db w) /\ mapping_valid (target_cidrs c) m /\
     admits (w_db w) m /\ exists row, row_of_mapping m = Ok row) /\
  ((insert_mapping m w).1 = Ret tt -> (get_mapping (id m) (insert_mapping m w).2).1 = Ret m) /\
  ((insert_mapping m w).1 <> Ret tt -> w_db (insert_mapping m w).2 = w_db w).
Proof.
  destruct (insert_mapping_run c m w Hinv Hwf) as [(w' & E & [Hn Hv Ha (row & Hrow & Hdb)])|(e & w' & E & Hdb & Hno)].
  - rewrite E. cbn [fst snd]. split_and!; [split; eauto 8| |done].
    intros _. pose proof (insert_mapping_safe c m w Hinv (wf_id _ Hwf) (valid_ports _ _ Hwf Hv)) as Hs.
    unfold wp, safe in Hs. rewrite E in Hs; cbn in Hs. rewrite (get_mapping_run c) by done.
    destruct (row_of_mapping_decodes m row (wf_id _ Hwf) (valid_ports _ _ Hwf Hv) Hrow) as (Ei & _ & Hd).
    rewrite Hdb, (find_snoc _ _ row); [by rewrite Hd|by apply find_id|by apply bool_decide_eq_true].
  - rewrite E. cbn [fst snd]. split_and!; [split; [done|tauto]|done|done].
Qed.

Section config_runs.
Context `{Ipnet} `{StoreLibLaws} `{Alone} `{!Reliable}.

Definition store_config (value : string) (db : Db) : Db :=
  mkDb (db_mappings db) (<["default" := value]> (db_config db)) (db_generations db)
    (db_generation_seq db) (db_events db) (db_event_seq db).

Lemma set_edge_config_run c value w :
  validate_edge_config c = Ok tt -> encode_config c = Ok value ->
  set_edge_config c w = (Ret tt, note (EStmt (UpsertConfig value) true) (set_db w (store_config value (w_db w)))).
Proof.
  intros Hv He. unfold set_edge_config. rewrite (lift_step tt) by done.
  rewrite (lift_step value) by (by rewrite He). unfold mbind, io_bind. by rewrite exec_run.
Qed.

Lemma edge_config_run w :
  edge_config w =
  (match db_config (w_db w) !! "default" with
   | None => Ret None
   | Some value => match decode_config value with
     | Ok c => Ret (Some c)
     | Err e => Fail (StoreError ("decode edge config: " +:+ e)) end
   end, note EQuery w).
Proof.
  unfold edge_config, mbind, io_bind. rewrite query_run. cbn.
  destruct (db_config (w_db w) !! "default") as [value|]; [|done].
  unfold lift; cbn. by destruct (decode_config value).
Qed.

Lemma edge_config_stored c value w w' :
  encode_config c = Ok value -> w_db w' = store_config value (w_db w) ->
  (edge_config w').1 = Ret (Some c).
Proof.
  intros He Hw. rewrite edge_config_run, Hw. cbn. rewrite lookup_insert_eq.
  by rewrite (decode_encode_config c value).
Qed.
End config_runs.

(** Resolving the configuration at start-up returns the configuration that
    is stored afterwards: the given one when it is authoritative or none was
    stored, the stored one, left as it was, otherwise. *)
Theorem resolve_edge_config_stored `{Ipnet} `{StoreLibLaws} `{Alone} `{!Reliable} c value w auth old
    (Hv : validate_edge_config c = Ok tt) (He : encode_config c = Ok value)
    (Hold : (edge_config w).1 = Ret old) :
  exists res w', resolve_edge_config c auth w = (Ret res, w') /\
    (edge_config w').1 = Ret (Some res) /\
    res = (if auth then c else from_option (fun o => o) c old) /\
    (auth = false -> old <> None -> w_db w' = w_db w) /\ db_mappings (w_db w') = db_mappings (w_db w).
Proof.
  destruct auth; cbn [resolve_edge_config].
  - do 2 eexists. split; [unfold mbind, io_bind; by rewrite (set_edge_config_run c value)|].
    split_and!; [by eapply edge_config_stored|done|done|done].
  - unfold ensure_edge_config, mbind, io_bind. destruct (edge_config w) as [o w1] eqn:E.
    cbn in Hold. subst o. pose proof (edge_config_run w) as Hrun. rewrite E in Hrun.
    injection Hrun as Ho ->. destruct old as [c0|].
    + do 2 eexists. split; [done|]. split_and!; [|done|done|done].
      rewrite edge_config_run in E |- *. cbn in *. congruence.
    + rewrite (set_edge_config_run c value) by done. do 2 eexists. split; [done|].
      split_and!; [by eapply edge_config_stored|done|done|done].
Qed.

(** Replacing the configuration does not look at the stored mappings, as the
    in-memory store does: when one of them is invalid under the new
    configuration the replacement succeeds, and the mappings listed afterwards
    fail the validation performed before rendering. *)
Theorem set_edge_config_is_unchecked `{Ipnet} `{StoreLibLaws} `{Alone} `{!Reliable} c c' value w r m
    (Hinv : seq_inv c (w_db w)) (Hv : validate_edge_config c' = Ok tt)
    (He : encode_config c' = Ok value) (Hr : r ∈ db_mappings (w_db w))
    (Hm : row_to_mapping r = Ok m) (Hbad : ~ mapping_valid (target_cidrs c') m) :
  exists w', set_edge_config c' w = (Ret tt, w') /\ (edge_config w').1 = Ret (Some c') /\
    exists ms, (list_mappings w').1 = Ret ms /\ validate_mappings ms c' <> Ok tt.
Proof.
  eexists. split; [by apply set_edge_config_run|]. split; [by eapply edge_config_stored|].
  destruct (seq_inv_validates c _ Hinv) as (ms & Hms & _). exists ms.
  unfold list_mappings, mbind, io_bind. rewrite query_run. cbn. unfold lift. rewrite Hms.
  split; [done|]. rewrite validate_mappings_Ok, Forall_forall. intros [HF _]. apply Hbad, HF.
  apply collect_Ok in Hms. rewrite <- (merge_sort_Permutation row_le) in Hr.
  apply list_elem_of_lookup in Hr as [i Hi].
  destruct (Forall2_lookup_l _ _ _ _ _ Hms Hi) as (m' & Hm' & E).
  assert (m' = m) as <- by congruence. by eapply list_elem_of_lookup_2.
Qed.

(** The newest of rows with distinct keys, when one key exceeds the others. *)
Lemma newest_first_snoc {A} (key : A -> Z) l a :
  Forall (fun b => key b < key a) l -> head (newest_first key (l ++ [a])) = Some a.
Proof.
  intros Hl. unfold newest_first.
  assert (Ht : Total (later key)) by (intros x y; unfold later; lia).
  assert (Htr : Transitive (later key)) by (intros x y z; unfold later; lia).
  pose proof (StronglySorted_merge_sort (later key) (l ++ [a])) as Hs.
  pose proof (merge_sort_Permutation (later key) (l ++ [a])) as Hp.
  destruct (merge_sort (later key) (l ++ [a])) as [|b k].
  { apply Permutation_nil_l in Hp. by destruct l. }
  cbn. f_equal. apply StronglySorted_inv in Hs as [_ Hb].
  assert (Hbin : b ∈ l ++ [a]) by (rewrite <- Hp; left).
  assert (Hain : a ∈ b :: k) by (rewrite Hp; apply elem_of_app; right; left).
  apply elem_of_app in Hbin as [Hbl| ->%list_elem_of_singleton]; [|done].
  apply elem_of_cons in Hain as [->|Hak]; [done|].
  rewrite Forall_forall in Hb, Hl. specialize (Hb a Hak). specialize (Hl b Hbl).
  unfold later in Hb. cbn in Hl. lia.
Qed.

Lemma generations_below db :
  db_ok db -> Forall (fun r => gr_id r < db_generation_seq db + 1) (db_generations db).
Proof.
  intros [_ (_ & Hb & _) _]. rewrite Forall_fmap in Hb. eapply Forall_impl; [exact Hb|]. cbn. lia.
Qed.

(** What a successful recording appended. *)
Lemma record_generation_run `{StoreLib} `{Alone} `{!Reliable} st cfg ap er w g w' :
  record_generation st cfg ap er w = (Ret g, w') ->
  let now := env_now (w_log w) in
  exists created applied, format_time now = Ok created /\ format_optional_time ap = Ok applied /\
    g = mkGeneration (db_generation_seq (w_db w) + 1) st cfg now ap er /\
    db_generations (w_db w') = db_generations (w_db w) ++
      [mkGenRow (db_generation_seq (w_db w) + 1) (wire st) cfg created applied er].
Proof.
  unfold record_generation. destruct (is_empty (trim cfg)); [done|].
  rewrite (bind_step now_utc _ w (env_now (w_log w)) (note EClock w)), (lift_step (wire st)) by done.
  destruct (format_time _) as [created|e] eqn:Ec;
    [rewrite (lift_step created) by done|by rewrite (lift_stop e)].
  destruct (format_optional_time ap) as [applied|e] eqn:Ea;
    [rewrite (lift_step applied) by done|by rewrite (lift_stop e)].
  unfold mbind, io_bind. rewrite exec_run. cbn.
  destruct (db_generation_seq (w_db w) <? max_rowid); [|done]. cbn. intros [= <- <-].
  exists created, applied. done.
Qed.

(** A generation that was recorded has a number above all earlier ones, is
    read back under that number as it was returned, and is the latest active
    generation when its status is active. *)
Theorem recorded_generation_reads_back `{StoreLibLaws} `{Alone} `{!Reliable}
    st cfg ap er w g w' (Hok : db_ok (w_db w))
    (Hrun : record_generation st cfg ap er w = (Ret g, w')) :
  Forall (fun r => gr_id r < g_id g) (db_generations (w_db w)) /\
  g_status g = st /\ g_config g = cfg /\ g_applied_at g = ap /\ g_error g = er /\
  (get_generation (g_id g) w').1 = Ret g /\
  (st = GenerationStatus.Active -> (latest_active_generation w').1 = Ret (Some g)).
Proof.
  pose proof (generations_below _ Hok) as Hlt.
  apply record_generation_run in Hrun as (created & applied & Ec & Ea & Hg & Hdb).
  set (row := mkGenRow _ _ _ _ _ _) in Hdb.
  assert (Hd : row_to_generation row = Ok g).
  { subst g. unfold row_to_generation; cbn. rewrite enum_from_string_wire; cbn.
    rewrite (parse_format_time _ _ Ec); cbn. by rewrite (parse_format_optional _ _ Ea). }
  assert (Hid : g_id g = gr_id row) by by subst g. rewrite Hid.
  split_and!; [done|by subst g..| |].
  - unfold get_generation, mbind, io_bind. rewrite query_run. cbn beta. rewrite Hdb.
    rewrite (find_snoc _ _ row); [by unfold lift; cbn; rewrite Hd| |by apply Z.eqb_refl].
    destruct (find _ _) as [r|] eqn:Ef; [|done]. exfalso.
    apply find_some in Ef as [Hin Heq%Z.eqb_eq]. rewrite Forall_forall in Hlt.
    apply list_elem_of_In, Hlt in Hin. cbn in Hin, Heq. lia.
  - intros ->. unfold latest_active_generation, mbind, io_bind. rewrite query_run. cbn beta.
    rewrite Hdb, filter_app, (filter_cons_True _ row), (newest_first_snoc gr_id _ row) by
      (done || (apply Forall_forall; intros r [_ Hr]%list_elem_of_filter;
                rewrite Forall_forall in Hlt; by apply Hlt)).
    cbn. unfold lift. by rewrite Hd.
Qed.

(** ** Examples of concurrency *)

(** The environment in which another client runs [s] once [n] effects of this
    client have passed. *)
Definition racing_env (n : nat) (s : Stmt) : Env := {|
  env_now h := 0;
  env_uuid _ := "0";
  env_sql_fault _ := None;
  env_others h := if (length h =? n)%nat then [s] else [];
  env_fs_fault _ _ := None;
  env_short_write _ := 0%nat;
  env_command _ _ _ := CmdDone (mkOutput (Some 0) "" "");
  env_connect _ _ _ := TcpConnected;
  env_http _ _ := HttpFailed "";
|}.

Definition public_mapping (i : MappingId) (edge target : Ipv4Addr) (en : bool) : Mapping :=
  set_state (set_oci (sample_mapping i edge target) (Some (ip4 8 8 8 8)) None edge None) en
    (if en then Pending else Disabled) 0.
Definition race_first : Mapping := public_mapping "a" (ip4 10 0 0 5) (ip4 192 168 20 1) false.
Definition race_second : Mapping := public_mapping "b" (ip4 10 0 0 6) (ip4 192 168 20 2) true.


(** ** Witnesses *)

#[local] Existing Instance ipnet_model.
#[local] Existing Instance model_lib.
#[local] Existing Instance model_lib_laws.
#[local] Existing Instance quiet_env.

Lemma sample_inv : seq_inv sample_config (w_db sample_world).
Proof. apply config_db_inv, sample_decodes. Qed.

Lemma fwd_wf i host : id_ok i -> mapping_wf (fwd i host).
Proof. intros Hi. constructor; [done|cbn; unfold u16_ok; lia..]. Qed.

Lemma id_ok_a : id_ok "a".
Proof. by split; [vm_compute|]. Qed.

Lemma mapping_round_trip_witness :
  exists r, row_of_mapping (fwd "a" 1) = Ok r /\ row_to_mapping r = Ok (fwd "a" 1).
Proof.
  eexists. split; [vm_compute; reflexivity|].
  eapply (mapping_round_trip (fwd "a" 1) sample_config).
  - apply fwd_wf, id_ok_a.
  - vm_compute. reflexivity.
  - vm_compute. reflexivity.
Defined.

Definition sample_row (m : Mapping) : MapRow :=
  match row_of_mapping m with Ok r => r | Err _ => mkRow "" "" None None "" None "" None None "" "" "" 0 "" None None None "" "" end.
Definition sample_stmts : list Stmt :=
  [InsertMapping (sample_row (fwd "a" 1)); InsertMapping (sample_row (fwd "b" 2));
   InsertMapping (sample_row (sample_mapping "c" (ip4 10 0 0 9) (ip4 192 168 20 3)))].

Lemma constraints_keep_disjoint_witness :
  length (db_mappings (run_stmts sample_stmts db_empty)) = 2%nat /\
  disjoint (fwd "a" 1) (sample_mapping "c" (ip4 10 0 0 9) (ip4 192 168 20 3)).
Proof.
  split; [vm_compute; reflexivity|].
  refine (constraints_keep_disjoint sample_stmts 0 1 (sample_row (fwd "a" 1))
    (sample_row (sample_mapping "c" (ip4 10 0 0 9) (ip4 192 168 20 3))) _ _ _ _ _ _ _ _ _ _ _ _).
  - repeat constructor; right; vm_compute; reflexivity.
  - vm_compute. reflexivity.
  - vm_compute. reflexivity.
  - lia.
  - vm_compute. reflexivity.
  - vm_compute. reflexivity.
  - reflexivity.
  - reflexivity.
  - split; [by exists 443|]. by split; [exists 80|].
  - by repeat split.
Defined.


Lemma insert_mapping_stores_witness :
  (insert_mapping (fwd "a" 1) sample_world).1 = Ret tt /\
  (get_mapping "a" (insert_mapping (fwd "a" 1) sample_world).2).1 = Ret (fwd "a" 1).
Proof.
  split; [vm_compute; reflexivity|].
  apply (insert_mapping_stores sample_config (fwd "a" 1) sample_world).
  - apply sample_inv.
  - apply fwd_wf, id_ok_a.
  - vm_compute. reflexivity.
Defined.

Definition other_config : EdgeConfig := config_new "ens3" "wt0" [mkNet (ip4 10 9 0 0) 16].

Lemma resolve_edge_config_stored_witness :
  exists res w', resolve_edge_config other_config false sample_world = (Ret res, w') /\
    (edge_config w').1 = Ret (Some res) /\ res = sample_config.
Proof.
  destruct (resolve_edge_config_stored other_config (pos_text (encode other_config)) sample_world false
    (Some sample_config)) as (res & w' & Hrun & Hst & Hres & _).
  - vm_compute. reflexivity.
  - reflexivity.
  - vm_compute. reflexivity.
  - exists res, w'. split; [exact Hrun|]. split; [exact Hst|exact Hres].
Defined.

Definition stored_world : World := (insert_mapping (fwd "a" 1) sample_world).2.

Lemma set_edge_config_is_unchecked_witness :
  exists w', set_edge_config other_config stored_world = (Ret tt, w') /\
    (edge_config w').1 = Ret (Some other_config) /\
    exists ms, (list_mappings w').1 = Ret ms /\ validate_mappings ms other_config <> Ok tt.
Proof.
  apply (set_edge_config_is_unchecked sample_config other_config (pos_text (encode other_config))
    stored_world (sample_row (fwd "a" 1)) (fwd "a" 1)).
  - apply (run_call_inv sample_config (CallInsert (fwd "a" 1)) sample_world);
      [apply fwd_wf, id_ok_a|apply sample_inv].
  - vm_compute. reflexivity.
  - reflexivity.
  - apply list_elem_of_lookup. exists 0%nat. vm_compute. reflexivity.
  - vm_compute. reflexivity.
  - intros Hv. apply (validate_mapping_Ok _ other_config) in Hv. vm_compute in Hv. discriminate.
Defined.

Definition sample_generation : Generation := mkGeneration 1 GenerationStatus.Active "table" 0 (Some 3) None.
Definition after_generation : World :=
  (record_generation GenerationStatus.Active "table" (Some 3) None sample_world).2.

Lemma after_generation_run :
  record_generation GenerationStatus.Active "table" (Some 3) None sample_world
  = (Ret sample_generation, after_generation).
Proof. apply run_pair. vm_compute. reflexivity. Qed.

Lemma recorded_generation_reads_back_witness :
  (latest_active_generation after_generation).1 = Ret (Some sample_generation).
Proof.
  apply (recorded_generation_reads_back _ _ _ _ _ _ _ (si_ok _ _ sample_inv) after_generation_run).
  reflexivity.
Defined.
