(* ===== verification/Nft.v ===== *)
(** [edge-nft]: the text of the ruleset ([render.rs]) and the process that loads
    it ([apply.rs]). *)
From Stdlib Require Import Ascii.
From S2P Require Import Prelude Str Net Core Validation Sql World.
Local Open Scope Z_scope.

(** ** apply.rs *)

Inductive NftError :=
  | NftTimeout (nanos : Z)
  | NftIo (message : string).

(** [Debug] of [std::time::Duration]: the largest unit that fits, with the
    fraction that is left, without its trailing zeros. *)
Fixpoint drop_zeros (l : list ascii) : list ascii :=
  match l with c :: l' => if Ascii.eqb c "0"%char then drop_zeros l' else l | [] => [] end.
Definition show_fraction (width n : Z) : string :=
  match rev (drop_zeros (rev (tail (chars (show_Z (10 ^ width + n)))))) with
  | [] => ""
  | digits => "." +:+ of_chars digits
  end.
Definition show_decimal (width n : Z) : string := show_Z (n / 10 ^ width) +:+ show_fraction width (n mod 10 ^ width).
Definition show_duration (nanos : Z) : string :=
  if 10 ^ 9 <=? nanos then show_decimal 9 nanos +:+ "s"
  else if 10 ^ 6 <=? nanos then show_decimal 6 nanos +:+ "ms"
  else if 10 ^ 3 <=? nanos then show_decimal 3 nanos +:+ "µs"
  else show_Z nanos +:+ "ns".

Definition show_nft_error (e : NftError) : string :=
  match e with
  | NftTimeout d => "nft command timed out after " +:+ show_duration d
  | NftIo m => "nft process failed: " +:+ m
  end.

Example show_duration_5s : show_duration 5000000000 = "5s".
Proof. reflexivity. Qed.
Example show_duration_ms : show_duration 1500000 = "1.5ms".
Proof. reflexivity. Qed.

Record NftTool := mkNft { nft_binary : string; nft_timeout : Z }.
Definition nft_default : NftTool := mkNft "nft" 5000000000.
Definition nft_new (binary : string) : NftTool := mkNft binary (nft_timeout nft_default).
Definition with_timeout (n : NftTool) (nanos : Z) : NftTool := mkNft (nft_binary n) nanos.

Definition is_success (o : CommandOutput) : bool := bool_decide (co_status o = Some 0).
Definition error_message (o : CommandOutput) : string :=
  let stderr := trim (co_stderr o) in
  if is_empty stderr then "exit status " +:+ debug_opt_Z (co_status o) else stderr.

Definition nft_run `{Env} (n : NftTool) (args : list string) (path : string) : IO NftError CommandOutput :=
  reply ← run_command (nft_binary n) (filter (fun a => is_empty a = false) args ++ [path]);
  match reply with
  | CmdTimedOut => io_fail (NftTimeout (nft_timeout n))
  | CmdIo m => io_fail (NftIo m)
  | CmdDone o => mret o
  end.

Definition check_file `{Env} (n : NftTool) (path : string) : IO NftError CommandOutput :=
  nft_run n ["-c"; "-f"] path.
Definition apply_file `{Env} (n : NftTool) (path : string) : IO NftError CommandOutput :=
  nft_run n ["-f"; ""] path.

(** ** render.rs *)

(** [Out] as a monad: pure code that may panic. *)
#[export] Instance out_ret E : MRet (Out E) := fun _ => Ret.
#[export] Instance out_bind E : MBind (Out E) := fun _ _ k m =>
  match m with Ret a => k a | Fail e => Fail e | Panicked s => Panicked s end.

Fixpoint out_collect {E A B} (f : A -> Out E B) (l : list A) : Out E (list B) :=
  match l with
  | [] => Ret []
  | a :: l => b ← f a; bs ← out_collect f l; Ret (b :: bs)
  end.

(** [Option::expect] *)
Definition expect {E A} (o : option A) (message : string) : Out E A :=
  match o with Some a => Ret a | None => Panicked message end.

Definition render_table : string := "edge_nat".

Definition nft_protocol {E} (p : Protocol) : Out E string :=
  match p with
  | Tcp => Ret "tcp"
  | Udp => Ret "udp"
  | All => Panicked "port-forward mappings cannot use protocol=all"
  end.

Definition rendered_as (md : MappingMode) (m : Mapping) : bool :=
  enabled m && bool_decide (backend m = Nft) && bool_decide (mode m = md).

Definition element_line (edge target : Ipv4Addr) : string :=
  "            " +:+ show_ip edge +:+ " : " +:+ show_ip target +:+ "," +:+ newline.

Definition forward_text (wan : string) (edge : Ipv4Addr) (protocol : string) (port : Z)
    (target : Ipv4Addr) (target_port : Z) : string :=
  concat_str ["        iifname "; dquote; wan; dquote; " ip daddr "; show_ip edge; " "; protocol;
    " dport "; show_Z port; " dnat to "; show_ip target; ":"; show_Z target_port; newline].

Definition forward_line (config : EdgeConfig) (m : Mapping) : Out EdgeCoreError string :=
  protocol ← nft_protocol (protocol m);
  port ← expect (public_port m) "validated public_port";
  target_port ← expect (target_port m) "validated target_port";
  Ret (forward_text (wan_interface config) (edge_private_ip m) protocol port (target_ip m) target_port).

Definition masquerade_text (netbird cidr : string) : string :=
  concat_str ["        oifname "; dquote; netbird; dquote; " ip daddr "; cidr; " masquerade"; newline].

Definition table_text (table : string) (elements forwards masquerades : list string)
    (any_element : bool) : string :=
  concat_str [
    "destroy table ip " +:+ table +:+ newline +:+ newline;
    "table ip " +:+ table +:+ " {" +:+ newline;
    "    map edge_to_target {" +:+ newline;
    "        type ipv4_addr : ipv4_addr;" +:+ newline;
    "        elements = {" +:+ newline;
    concat_str elements;
    "        }" +:+ newline;
    "    }" +:+ newline +:+ newline;
    "    chain prerouting {" +:+ newline;
    "        type nat hook prerouting priority dstnat; policy accept;" +:+ newline +:+ newline;
    concat_str forwards;
    (if any_element then "" else newline);
    "        dnat to ip daddr map @edge_to_target" +:+ newline;
    "    }" +:+ newline +:+ newline;
    "    chain postrouting {" +:+ newline;
    "        type nat hook postrouting priority srcnat; policy accept;" +:+ newline +:+ newline;
    concat_str masquerades;
    "    }" +:+ newline;
    "}" +:+ newline].

Section render.
Context `{Ipnet}.

Definition render_nftables (ms : list Mapping) (config : EdgeConfig) (table : string)
    : Out EdgeCoreError string :=
  match validate_mappings ms config with
  | Err e => Fail e
  | Ok _ =>
      let one_to_one := filter (fun m => rendered_as OneToOneSnat m = true) ms in
      let port_forwards := filter (fun m => rendered_as PortForwardSnat m = true) ms in
      forwards ← out_collect (forward_line config) port_forwards;
      Ret (table_text table
        ((fun m => element_line (edge_private_ip m) (target_ip m)) <$> one_to_one)
        forwards
        ((fun cidr => masquerade_text (netbird_interface config) (show_net cidr)) <$> target_cidrs config)
        (existsb (rendered_as OneToOneSnat) ms))
  end.
End render.

(** ** The ruleset the text describes *)

(** [iifname wan ip daddr d proto dport p dnat to t:q] *)
Record DnatRule := mkDnat {
  d_iif : string;
  d_daddr : Ipv4Addr;
  d_udp : bool;
  d_port : Z;
  d_target : Ipv4Addr;
  d_target_port : Z;
}.

(** The forwards in order, the elements of the map consulted after them, and the
    masqueraded destinations. *)
Record Ruleset := mkRuleset {
  rs_forwards : list DnatRule;
  rs_elements : list (Ipv4Addr * Ipv4Addr);
  rs_masquerades : list (string * Ipv4Net);
}.

Definition print_rule (r : DnatRule) : string :=
  forward_text (d_iif r) (d_daddr r) (if d_udp r then "udp" else "tcp") (d_port r) (d_target r) (d_target_port r).
Definition print_ruleset `{Ipnet} (table : string) (rs : Ruleset) : string :=
  table_text table ((fun '(e, t) => element_line e t) <$> rs_elements rs) (print_rule <$> rs_forwards rs)
    ((fun '(n, cidr) => masquerade_text n (show_net cidr)) <$> rs_masquerades rs)
    (match rs_elements rs with [] => false | _ => true end).

(** A packet: the interface it arrives on and its flow. *)
Record Packet := mkPacket { pk_iif : string; pk_flow : Flow }.

Definition rule_matches (r : DnatRule) (p : Packet) : bool :=
  bool_decide (d_iif r = pk_iif p) && bool_decide (d_daddr r = flow_dst (pk_flow p)) &&
  l4_matches (if d_udp r then Udp else Tcp) (Some (d_port r)) (flow_l4 (pk_flow p)).

(** How nftables translates the destination of a packet: the rules of the chain
    in order, then the map. *)
Class NftEval := {
  dnat : list DnatRule -> list (Ipv4Addr * Ipv4Addr) -> Packet -> option (Ipv4Addr * option Z);
}.

(** What its manual says: a rule whose matches fail is passed over, a [dnat]
    statement that is reached decides, and a map gives the value of a key. *)
Class NftEvalLaws `{NftEval} : Prop := {
  dnat_skip r rs el p : rule_matches r p = false -> dnat (r :: rs) el p = dnat rs el p;
  dnat_hit r rs el p : rule_matches r p = true ->
    dnat (r :: rs) el p = Some (d_target r, Some (d_target_port r));
  dnat_map el p t : NoDup el.*1 -> (flow_dst (pk_flow p), t) ∈ el -> dnat [] el p = Some (t, None);
  dnat_none el p : flow_dst (pk_flow p) ∉ el.*1 -> dnat [] el p = None;
}.

Fixpoint model_dnat (rs : list DnatRule) (el : list (Ipv4Addr * Ipv4Addr)) (p : Packet)
    : option (Ipv4Addr * option Z) :=
  match rs with
  | [] => (fun e => (e.2, None)) <$> find (fun e => bool_decide (e.1 = flow_dst (pk_flow p))) el
  | r :: rs =>
      if rule_matches r p then Some (d_target r, Some (d_target_port r)) else model_dnat rs el p
  end.
Definition nft_model : NftEval := {| dnat := model_dnat |}.

Lemma nft_model_laws : @NftEvalLaws nft_model.
Proof.
  constructor; cbn.
  - intros r rs el p Hm. by rewrite Hm.
  - intros r rs el p Hm. by rewrite Hm.
  - intros el p t. induction el as [|[k v] el IH]; cbn; [by intros _ ?%not_elem_of_nil|].
    intros [Hk Hn]%NoDup_cons [[= -> ->]|Hin]%elem_of_cons; [by rewrite bool_decide_eq_true_2|].
    rewrite bool_decide_eq_false_2; [by apply IH|]. intros ->. apply Hk.
    by apply (list_elem_of_fmap_2 fst) in Hin.
  - intros el p Hn. induction el as [|[k v] el IH]; cbn in *; [done|].
    apply not_elem_of_cons in Hn as [Hne Hn]. rewrite bool_decide_eq_false_2 by congruence. auto.
Qed.

(** ** What the rendered ruleset does *)

(** The forward of a mapping, with the ports and the protocol that validation
    has established. *)
Definition forward_rule (config : EdgeConfig) (m : Mapping) : option DnatRule :=
  match protocol m, public_port m, target_port m with
  | Tcp, Some p, Some q => Some (mkDnat (wan_interface config) (edge_private_ip m) false p (target_ip m) q)
  | Udp, Some p, Some q => Some (mkDnat (wan_interface config) (edge_private_ip m) true p (target_ip m) q)
  | _, _, _ => None
  end.

Definition ruleset (ms : list Mapping) (config : EdgeConfig) : Ruleset :=
  mkRuleset
    (omap (forward_rule config) (filter (fun m => rendered_as PortForwardSnat m = true) ms))
    ((fun m => (edge_private_ip m, target_ip m)) <$> filter (fun m => rendered_as OneToOneSnat m = true) ms)
    ((fun cidr => (netbird_interface config, cidr)) <$> target_cidrs config).

(** Whether the mapping, rendered by nftables, is to receive the packet; port
    forwards take only what arrives on the wan interface. *)
Definition receives (config : EdgeConfig) (p : Packet) (m : Mapping) : bool :=
  bool_decide (backend m = Nft) && captures m (pk_flow p) &&
  match mode m with
  | OneToOneSnat => true
  | PortForwardSnat => bool_decide (wan_interface config = pk_iif p)
  end.

(** Where the mapping sends it. *)
Definition destination (m : Mapping) : Ipv4Addr * option Z :=
  (target_ip m, match mode m with OneToOneSnat => None | PortForwardSnat => target_port m end).

Lemma forward_rule_Some config m :
  mode_valid m -> mode m = PortForwardSnat -> exists r, forward_rule config m = Some r /\
    forward_line config m = Ret (print_rule r) /\
    (d_target r, Some (d_target_port r)) = destination m /\
    forall p, rule_matches r p = bool_decide (wan_interface config = pk_iif p)
      && bool_decide (edge_private_ip m = flow_dst (pk_flow p))
      && l4_matches (protocol m) (public_port m) (flow_l4 (pk_flow p)).
Proof.
  unfold mode_valid, forward_rule, forward_line, destination. intros Hv Hm. rewrite Hm in *.
  destruct Hv as ((p & -> & _) & (q & -> & _) & Hpr).
  destruct (protocol m); [done|..]; eexists; (split; [done|]); by repeat split.
Qed.

(** The text is that of the ruleset. *)
Lemma forwards_printed config ms :
  Forall (fun m => mode_valid m /\ mode m = PortForwardSnat) ms ->
  out_collect (forward_line config) ms = Ret (print_rule <$> omap (forward_rule config) ms).
Proof.
  induction 1 as [|m ms [Hv Hm] _ IH]; [done|].
  destruct (forward_rule_Some config m Hv Hm) as (r & Hr & Hl & _). cbn. rewrite Hl, Hr, IH. done.
Qed.

Lemma rendered_modes md ms : Forall mode_valid ms ->
  Forall (fun m => mode_valid m /\ mode m = md) (filter (fun m => rendered_as md m = true) ms).
Proof.
  rewrite !Forall_forall. intros Hv m [Hr Hm]%list_elem_of_filter. split; [by apply Hv|].
  unfold rendered_as in Hr. rewrite !andb_true_iff, !bool_decide_eq_true in Hr. tauto.
Qed.

Lemma existsb_filter {A} (f : A -> bool) l :
  existsb f l = match filter (fun a => f a = true) l with [] => false | _ => true end.
Proof.
  induction l as [|a l IH]; [done|]. cbn [existsb]. rewrite filter_cons. case_decide as E; [by rewrite E|].
  by rewrite (not_true_is_false _ E), IH.
Qed.

Lemma render_prints `{Ipnet} ms config table :
  validate_mappings ms config = Ok tt ->
  render_nftables ms config table = Ret (print_ruleset table (ruleset ms config)).
Proof.
  intros Hv. unfold render_nftables. rewrite Hv. apply validate_mappings_Ok in Hv as [Hv _].
  assert (Hm : Forall mode_valid ms) by (eapply Forall_impl; [exact Hv|]; by intros m []).
  rewrite (forwards_printed config) by (by apply rendered_modes). cbn [mbind out_bind].
  unfold print_ruleset, ruleset; cbn [rs_forwards rs_elements rs_masquerades].
  rewrite <- !list_fmap_compose, existsb_filter. f_equal. f_equal.
  by destruct (filter (fun m => rendered_as OneToOneSnat m = true) ms).
Qed.

Section semantics.
Context `{NftEvalLaws} (config : EdgeConfig) (ms : list Mapping).
Context (Hmodes : Forall mode_valid ms) (Hcompat : pairwise compatible ms).

Lemma dnat_no_match rs el p :
  Forall (fun r => rule_matches r p = false) rs -> dnat rs el p = dnat [] el p.
Proof. induction 1 as [|r rs Hr _ IH]; [done|]. by rewrite dnat_skip. Qed.

Lemma dnat_first rs el p d :
  (exists r, r ∈ rs /\ rule_matches r p = true) ->
  (forall r, r ∈ rs -> rule_matches r p = true -> (d_target r, Some (d_target_port r)) = d) ->
  dnat rs el p = Some d.
Proof.
  intros (r & Hr & Hm) Hd. induction rs as [|s rs IH]; [by apply not_elem_of_nil in Hr|].
  destruct (rule_matches s p) eqn:Es; [rewrite dnat_hit by done; f_equal; apply Hd; [left|done]|].
  rewrite dnat_skip by done. apply IH; [|intros; apply Hd; [by right|done]].
  apply elem_of_cons in Hr as [->|Hr]; [congruence|done].
Qed.

(** At most one mapping receives a packet. *)
Lemma receives_unique p a b :
  a ∈ ms -> b ∈ ms -> receives config p a = true -> receives config p b = true -> a = b.
Proof.
  intros Ha Hb Ra Rb. destruct (pairwise_elem_of compatible ms a b Hcompat Ha Hb) as [|[Hc _]]; [done|].
  unfold receives in Ra, Rb. rewrite !andb_true_iff in Ra, Rb.
  destruct Ra as [[_ Ca] _], Rb as [[_ Cb] _].
  by rewrite (captures_both_conflict a b _ Ca Cb) in Hc.
Qed.

(** The rules of the chain are those of the port forwards. *)
Lemma rule_origin r p :
  r ∈ rs_forwards (ruleset ms config) -> rule_matches r p = true ->
  exists m, m ∈ ms /\ mode m = PortForwardSnat /\ receives config p m = true /\
    (d_target r, Some (d_target_port r)) = destination m.
Proof.
  intros (m & Hm & Hr)%list_elem_of_omap Hp. apply list_elem_of_filter in Hm as [Hren Hm].
  unfold rendered_as in Hren. rewrite !andb_true_iff, !bool_decide_eq_true in Hren.
  destruct Hren as [[He Hb] Hmd]. rewrite Forall_forall in Hmodes.
  destruct (forward_rule_Some config m (Hmodes m Hm) Hmd) as (r' & Hr' & _ & Hd & Hmatch).
  assert (r' = r) as -> by congruence. rewrite Hmatch, !andb_true_iff in Hp. destruct Hp as [[Hi Hdst] Hl].
  exists m. split_and!; [done|done| |done]. unfold receives, captures.
  by rewrite Hb, He, Hmd, Hi, Hdst, Hl.
Qed.

Lemma forward_present m p :
  m ∈ ms -> mode m = PortForwardSnat -> receives config p m = true ->
  exists r, r ∈ rs_forwards (ruleset ms config) /\ rule_matches r p = true.
Proof.
  intros Hm Hmd Hr. rewrite Forall_forall in Hmodes.
  destruct (forward_rule_Some config m (Hmodes m Hm) Hmd) as (r & Hrule & _ & _ & Hmatch).
  unfold receives, captures in Hr. rewrite Hmd, !andb_true_iff, bool_decide_eq_true in Hr.
  destruct Hr as [[Hb [[He Hdst] Hl]] Hi]. exists r. split.
  - apply list_elem_of_omap. exists m. split; [|done]. apply list_elem_of_filter. split; [|done].
    unfold rendered_as. by rewrite He, Hb, Hmd.
  - by rewrite Hmatch, Hi, Hdst, Hl.
Qed.

Lemma element_origin e t :
  (e, t) ∈ rs_elements (ruleset ms config) <->
  exists m, m ∈ ms /\ rendered_as OneToOneSnat m = true /\ e = edge_private_ip m /\ t = target_ip m.
Proof.
  unfold ruleset; cbn. rewrite list_elem_of_fmap. setoid_rewrite list_elem_of_filter. naive_solver.
Qed.

Lemma elements_NoDup : NoDup (rs_elements (ruleset ms config)).*1.
Proof.
  unfold ruleset; cbn. rewrite <- list_fmap_compose.
  change (NoDup (edge_private_ip <$> filter (fun m => rendered_as OneToOneSnat m = true) ms)).
  clear Hmodes. induction Hcompat as [|m l Hm Hl IH]; [constructor|].
  rewrite filter_cons. case_decide as E; [|by apply IH]. rewrite fmap_cons. apply NoDup_cons.
  split; [|by apply IH]. intros (n & Hedge & [En Hn]%list_elem_of_filter)%list_elem_of_fmap.
  rewrite Forall_forall in Hm. destruct (Hm n Hn) as [Hc _].
  unfold rendered_as in E, En. rewrite !andb_true_iff, !bool_decide_eq_true in E, En.
  destruct E as [[E1 _] E2], En as [[E3 _] E4].
  unfold conflicts in Hc. rewrite E1, E2, E3, E4 in Hc; cbn in Hc.
  by rewrite bool_decide_eq_true_2 in Hc.
Qed.

Lemma receives_one m p :
  mode m = OneToOneSnat ->
  receives config p m = true <->
  rendered_as OneToOneSnat m = true /\ edge_private_ip m = flow_dst (pk_flow p).
Proof.
  intros Hm. unfold receives, captures, rendered_as. rewrite Hm, !andb_true_iff, !bool_decide_eq_true.
  naive_solver.
Qed.

(** The ruleset sends a packet where the one mapping receiving it says. *)
Lemma ruleset_forwards p :
  dnat (rs_forwards (ruleset ms config)) (rs_elements (ruleset ms config)) p
  = destination <$> find (receives config p) ms.
Proof.
  destruct (find (receives config p) ms) as [m|] eqn:Ef; cbn [fmap option_fmap option_map].
  - apply find_some in Ef as [Hm%list_elem_of_In Hr]. destruct (mode m) eqn:Hmd.
    + rewrite dnat_no_match.
      * apply receives_one in Hr as [Hren Hdst]; [|done]. unfold destination. rewrite Hmd.
        apply dnat_map; [apply elements_NoDup|]. apply element_origin. eauto.
      * apply Forall_forall. intros r Hin. apply not_true_is_false. intros Hp.
        destruct (rule_origin r p Hin Hp) as (m' & Hm' & Hmd' & Hr' & _).
        rewrite (receives_unique p m' m Hm' Hm Hr' Hr) in Hmd'. congruence.
    + apply dnat_first; [by apply (forward_present m)|]. intros r Hin Hp.
      destruct (rule_origin r p Hin Hp) as (m' & Hm' & _ & Hr' & Hd).
      by rewrite (receives_unique p m' m Hm' Hm Hr' Hr) in Hd.
  - assert (Hno : forall m, m ∈ ms -> receives config p m = false).
    { intros m Hm%list_elem_of_In. by apply (find_none _ _ Ef). }
    rewrite dnat_no_match.
    + apply dnat_none. intros ([e t] & He & Hin)%list_elem_of_fmap. cbn in He.
      apply element_origin in Hin as (m & Hm & Hren & -> & _).
      assert (Hmd : mode m = OneToOneSnat).
      { unfold rendered_as in Hren. rewrite !andb_true_iff, !bool_decide_eq_true in Hren. tauto. }
      specialize (Hno m Hm). rewrite (proj2 (receives_one m p Hmd)) in Hno; [done|by split].
    + apply Forall_forall. intros r Hin. apply not_true_is_false. intros Hp.
      destruct (rule_origin r p Hin Hp) as (m' & Hm' & _ & Hr' & _). by rewrite Hno in Hr'.
Qed.
End semantics.

(** ** Properties *)


(** Rendering never panics: it returns a text exactly when the mappings pass
    validation and otherwise returns the error of the validation; the [expect]s
    and the [unreachable!] of the code are never reached. *)
Theorem render_never_panics `{Ipnet} ms config table :
  match render_nftables ms config table with
  | Ret _ => validate_mappings ms config = Ok tt
  | Fail e => validate_mappings ms config = Err e
  | Panicked _ => False
  end.
Proof.
  destruct (validate_mappings ms config) as [[]|e] eqn:E.
  - by rewrite (render_prints ms config table E).
  - unfold render_nftables. by rewrite E.
Qed.

(** An interface name that closes the quotation and comments out the rest of
    the rule. *)
Definition quoting_name : string := "e" +:+ dquote +:+ " accept #".
Definition quoting_config : EdgeConfig := config_new quoting_name "wt0" [sample_net].

(** Interface names may contain quotes and spaces: a configuration that
    passes validation renders a port forward as a rule with another meaning, the
    rest of the line being a comment. *)
Theorem interface_name_escapes_rule :
  validate_edge_config (H := ipnet_model) quoting_config = Ok tt /\
  exists text, render_nftables (H := ipnet_model)
      [sample_forward "a" (ip4 10 0 0 5) (ip4 192 168 20 1) 443] quoting_config render_table = Ret text /\
    contains ("        iifname " +:+ dquote +:+ "e" +:+ dquote +:+ " accept #" +:+ dquote
      +:+ " ip daddr 10.0.0.5 tcp dport 443 dnat to 192.168.20.1:80" +:+ newline) text = true.
Proof.
  split; [vm_compute; reflexivity|]. eexists. split; vm_compute; reflexivity.
Qed.

(** ** Witnesses *)

#[local] Existing Instance ipnet_model.
#[local] Existing Instance nft_model.
#[local] Existing Instance nft_model_laws.

Definition sample_mappings : list Mapping :=
  [sample_forward "a" (ip4 10 0 0 5) (ip4 192 168 20 1) 443;
   sample_mapping "b" (ip4 10 0 0 6) (ip4 192 168 20 2)].

