(* ===== verification/Xdp.v ===== *)
(** [edge-xdp/src/lib.rs]: the plan of the XDP forwarding map and the bytes of
    its keys and values. *)
From Stdlib Require Import Strings.Byte.
From S2P Require Import Prelude Str Net Core Validation.
Local Open Scope Z_scope.

Inductive XdpError :=
  | XdpDisabled (names : string)
  | XdpConfigError (message : string)
  | XdpMapping (id message : string).

Definition show_xdp_error (e : XdpError) : string :=
  match e with
  | XdpDisabled n => "XDP mappings are present but XDP is disabled: " +:+ n
  | XdpConfigError m => "XDP config is invalid: " +:+ m
  | XdpMapping i m => "XDP mapping " +:+ i +:+ " is invalid: " +:+ m
  end.

Inductive XdpAttachMode := Skb | Native.

Record XdpConfig := mkXdpConfig {
  xdp_enabled : bool;
  xdp_interface : string;
  xdp_pin_path : string;
  xdp_attach_mode : XdpAttachMode;
}.

Definition xdp_config_disabled (interface : string) : XdpConfig :=
  mkXdpConfig false interface "/sys/fs/bpf/edgeroute" Skb.
Definition xdp_config_enabled (interface pin_path : string) : XdpConfig :=
  mkXdpConfig true interface pin_path Skb.

Record XdpMapKey := mkKey { k_edge : Ipv4Addr; k_protocol : Protocol; k_port : Z }.
Record XdpMapValue := mkValue { v_target : Ipv4Addr; v_port : Z; v_flags : Z }.
Record XdpForwardEntry := mkEntry {
  x_mapping_id : string;
  x_name : string;
  x_key : XdpMapKey;
  x_value : XdpMapValue;
}.
Record XdpPlan := mkPlan {
  plan_interface : string;
  plan_pin_path : string;
  plan_attach_mode : XdpAttachMode;
  plan_entries : list XdpForwardEntry;
}.

Definition plan_is_empty (p : XdpPlan) : bool := match plan_entries p with [] => true | _ => false end.

Definition protocol_number (p : Protocol) : byte :=
  match p with Tcp => zo 6 | Udp => zo 17 | All => zo 0 end.

(** [u16::to_be_bytes] *)
Definition to_be_bytes (z : Z) : list byte := [zo (Z.shiftr z 8); zo (Z.land z 255)].

Definition key_bytes (k : XdpMapKey) : list byte :=
  octets (k_edge k) ++ to_be_bytes (k_port k) ++ [protocol_number (k_protocol k); zo 0].
Definition value_bytes (v : XdpMapValue) : list byte :=
  octets (v_target v) ++ to_be_bytes (v_port v) ++ to_be_bytes (v_flags v).

(** [Path::is_absolute] on Unix *)
Definition is_absolute (path : string) : bool := starts_with "/" path.

Definition validate_config (c : XdpConfig) : Result XdpError unit :=
  if negb (xdp_enabled c) then Ok tt
  else if is_empty (trim (xdp_interface c)) then Err (XdpConfigError "interface cannot be empty")
  else if is_empty (xdp_pin_path c) then Err (XdpConfigError "pin_path cannot be empty")
  else if negb (is_absolute (xdp_pin_path c)) then Err (XdpConfigError "pin_path must be absolute")
  else Ok tt.

Section plan.
Context `{Ipnet}.

Definition plan_entry (config : EdgeConfig) (m : Mapping) : Result XdpError XdpForwardEntry :=
  if bool_decide (mode m <> PortForwardSnat) then
    Err (XdpMapping (id m) "only port-forward mappings can use XDP")
  else if bool_decide (protocol m = All) then
    Err (XdpMapping (id m) "XDP mappings must be tcp or udp")
  else
    public_port ← ok_or (public_port m) (XdpMapping (id m) "XDP mappings require public_port");
    target_port ← ok_or (target_port m) (XdpMapping (id m) "XDP mappings require target_port");
    if negb (contains_target config (target_ip m)) then
      Err (XdpMapping (id m) ("target IP is outside configured target CIDRs: " +:+ show_ip (target_ip m)))
    else
      Ok (mkEntry (id m) (name m) (mkKey (edge_private_ip m) (protocol m) public_port)
            (mkValue (target_ip m) target_port 0)).

Definition is_xdp (m : Mapping) : bool := enabled m && bool_decide (backend m = Xdp).

Definition plan (c : XdpConfig) (ms : list Mapping) (config : EdgeConfig) : Result XdpError XdpPlan :=
  validate_config c ;;
  let xdp := filter (fun m => is_xdp m = true) ms in
  if negb (xdp_enabled c) && match xdp with [] => false | _ => true end then
    Err (XdpDisabled (join "," (name <$> xdp)))
  else
    entries ← collect (plan_entry config) xdp;
    Ok (mkPlan (xdp_interface c) (xdp_pin_path c) (xdp_attach_mode c) entries).
End plan.

(** ** Bytes *)

Definition key_ok (k : XdpMapKey) : Prop := u16_ok (k_port k).

Lemma zo_inj a b : 0 <= a < 256 -> 0 <= b < 256 -> zo a = zo b -> a = b.
Proof. intros Ha Hb E%(f_equal oz). rewrite !oz_zo, !Z.mod_small in E by done. done. Qed.

Lemma to_be_bytes_inj a b : u16_ok a -> u16_ok b -> to_be_bytes a = to_be_bytes b -> a = b.
Proof.
  unfold to_be_bytes, u16_ok. intros Ha Hb [= E1 E2].
  change 255 with (Z.ones 8) in E2. rewrite !Z.land_ones in E2 by lia.
  rewrite !Z.shiftr_div_pow2 in E1 by lia. change (2 ^ 8) with 256 in *.
  apply zo_inj in E1; [|split; [apply Z.div_pos|apply Z.div_lt_upper_bound]; lia..].
  apply zo_inj in E2; [|apply Z.mod_pos_bound; lia..].
  rewrite (Z.div_mod a 256), (Z.div_mod b 256) by lia. congruence.
Qed.

Lemma octets_inj a b : octets a = octets b -> a = b.
Proof. destruct a as [a0 a1 a2 a3], b as [b0 b1 b2 b3]. cbn. by intros [= -> -> -> ->]. Qed.

Lemma protocol_number_inj p q : protocol_number p = protocol_number q -> p = q.
Proof. destruct p, q; vm_compute; congruence. Qed.

Lemma key_bytes_inj k l : key_ok k -> key_ok l -> key_bytes k = key_bytes l -> k = l.
Proof.
  destruct k as [e p q], l as [e' p' q']. unfold key_bytes, key_ok. cbn [k_edge k_port k_protocol].
  intros Hk Hl [He E]%app_inj_1; [|done]. apply app_inj_1 in E as [Hport E]; [|done].
  apply to_be_bytes_inj in Hport; [|done..]. injection E as E. apply octets_inj in He.
  apply protocol_number_inj in E. by subst.
Qed.

(** ** Entries *)

(** The entry of a mapping that validation has accepted. *)
Definition entry_of (m : Mapping) : XdpForwardEntry :=
  mkEntry (id m) (name m) (mkKey (edge_private_ip m) (protocol m) (default 0 (public_port m)))
    (mkValue (target_ip m) (default 0 (target_port m)) 0).

Lemma entry_key_ok m : mapping_wf m -> key_ok (x_key (entry_of m)).
Proof.
  intros [_ Hp _]. unfold key_ok, entry_of, u16_ok in *; cbn. destruct (public_port m); cbn in *; lia.
Qed.

Lemma plan_entry_valid `{Ipnet} config m :
  mapping_valid (target_cidrs config) m -> backend m = Xdp -> plan_entry config m = Ok (entry_of m).
Proof.
  intros [_ _ _ (pre & cidr & post & E & _ & Hc & _) _ Hb Hm] Hx. unfold backend_valid in Hb. rewrite Hx in Hb.
  unfold mode_valid in Hm. rewrite Hb in Hm. destruct Hm as ((p & Hp & _) & (q & Hq & _) & Hpr).
  unfold plan_entry, entry_of. rewrite Hb, Hp, Hq, bool_decide_eq_false_2 by (by intros []).
  rewrite bool_decide_eq_false_2 by done. cbn.
  assert (Hct : contains_target config (target_ip m) = true).
  { unfold contains_target. rewrite E, existsb_app. cbn. by rewrite Hc, orb_true_r. }
  by rewrite Hct.
Qed.

Lemma plan_entries_valid `{Ipnet} config ms :
  Forall (mapping_valid (target_cidrs config)) ms ->
  collect (plan_entry config) (filter (fun m => is_xdp m = true) ms)
  = Ok (entry_of <$> filter (fun m => is_xdp m = true) ms).
Proof.
  induction 1 as [|m ms Hm _ IH]; [done|]. rewrite filter_cons. case_decide as E; [|done].
  unfold is_xdp in E. apply andb_true_iff in E as [_ Hb%bool_decide_eq_true].
  cbn. by rewrite (plan_entry_valid config m Hm Hb), IH.
Qed.

(** Two mappings with the same key redirect the same packets. *)
Lemma same_key_conflict m n :
  mode_valid m -> mode_valid n -> backend_valid m -> backend_valid n ->
  is_xdp m = true -> is_xdp n = true -> x_key (entry_of m) = x_key (entry_of n) -> conflicts m n = true.
Proof.
  unfold is_xdp, backend_valid. rewrite !andb_true_iff, !bool_decide_eq_true.
  intros Vm Vn Bm Bn [Em Xm] [En Xn] [= Ee Ep Eport]. rewrite Xm in Bm. rewrite Xn in Bn.
  unfold mode_valid in Vm, Vn. rewrite Bm in Vm. rewrite Bn in Vn.
  destruct Vm as [(p & Hp & _) _], Vn as [(q & Hq & _) _]. rewrite Hp, Hq in Eport. cbn in Eport.
  unfold conflicts. rewrite Em, En, Bm, Bn, Ee, Ep, Hp, Hq, Eport; cbn.
  by rewrite !bool_decide_eq_true_2.
Qed.

(** ** Properties *)

(** Keys with [u16] ports are eight bytes that determine them: the address,
    the port in network order, the protocol number and a zero byte. *)
Theorem key_bytes_injective k l (Hk : key_ok k) (Hl : key_ok l) :
  length (key_bytes k) = 8%nat /\ (key_bytes k = key_bytes l -> k = l).
Proof.
  split; [done|by apply key_bytes_inj].
Qed.

(** C34: for mappings that pass validation and a valid XDP configuration the plan
    never fails on a mapping: it is refused, with the names of the mappings, just when XDP is
    disabled and an enabled mapping asks for it; otherwise it holds one entry per enabled XDP mapping, in
    order, with its endpoints, and the bytes of the keys are pairwise different. *)
Theorem plan_of_valid_mappings `{Ipnet} c config ms (Hc : validate_config c = Ok tt)
    (Hv : validate_mappings ms config = Ok tt) (Hp : Forall mapping_wf ms) :
  let xdp := filter (fun m => is_xdp m = true) ms in
  plan c ms config =
    (if negb (xdp_enabled c) && match xdp with [] => false | _ => true end
     then Err (XdpDisabled (join "," (name <$> xdp)))
     else Ok (mkPlan (xdp_interface c) (xdp_pin_path c) (xdp_attach_mode c) (entry_of <$> xdp))) /\
  NoDup ((fun e => key_bytes (x_key e)) <$> (entry_of <$> xdp)).
Proof.
  cbn zeta. apply validate_mappings_Ok in Hv as [Hv Hcmp]. split.
  - unfold plan. rewrite Hc. cbn [mbind result_bind]. by rewrite (plan_entries_valid config).
  - rewrite <- list_fmap_compose. induction Hcmp as [|m l Hm Hl IH]; [constructor|].
    rewrite Forall_cons in Hv, Hp. destruct Hv as [Vm Vl], Hp as [Pm Pl].
    rewrite filter_cons. case_decide as E; [|by apply IH]. rewrite fmap_cons. apply NoDup_cons.
    split; [|by apply IH]. intros (n & Hk & [En Hn]%list_elem_of_filter)%list_elem_of_fmap.
    rewrite Forall_forall in Hm, Vl, Pl. destruct (Hm n Hn) as [Hcf _].
    apply key_bytes_inj in Hk; [|by apply entry_key_ok|apply entry_key_ok; by apply Pl].
    rewrite (same_key_conflict m n) in Hcf; [done|apply Vm|by apply Vl|apply Vm|by apply Vl|done..].
Qed.

(** ** Witnesses *)

#[local] Existing Instance ipnet_model.

Definition xdp_mapping (i : MappingId) (host port : Z) : Mapping :=
  set_endpoints (sample_forward i (ip4 10 0 0 5) (ip4 192 168 20 host) port) (Some port) (Some 80)
    PortForwardSnat Udp Xdp.
Definition xdp_sample : list Mapping := [xdp_mapping "a" 1 443; xdp_mapping "b" 2 8443].

Lemma key_bytes_injective_witness :
  length (key_bytes (mkKey (ip4 10 0 0 5) Udp 443)) = 8%nat /\
  (key_bytes (mkKey (ip4 10 0 0 5) Udp 443) = key_bytes (mkKey (ip4 10 0 0 5) Udp 443) ->
   mkKey (ip4 10 0 0 5) Udp 443 = mkKey (ip4 10 0 0 5) Udp 443).
Proof. apply key_bytes_injective; unfold key_ok, u16_ok; cbn; lia. Defined.

Lemma plan_of_valid_mappings_witness :
  plan (xdp_config_enabled "ens3" "/sys/fs/bpf/edge") xdp_sample sample_config
    = Ok (mkPlan "ens3" "/sys/fs/bpf/edge" Skb (entry_of <$> xdp_sample)) /\
  NoDup ((fun e => key_bytes (x_key e)) <$> (entry_of <$> xdp_sample)).
Proof.
  apply (plan_of_valid_mappings (xdp_config_enabled "ens3" "/sys/fs/bpf/edge") sample_config xdp_sample).
  - vm_compute. reflexivity.
  - vm_compute. reflexivity.
  - repeat constructor; try (vm_compute; congruence); cbn; unfold u16_ok; lia.
Defined.
