(* ===== verification/Linux.v ===== *)
(** [edge-linux/src/lib.rs]: the addresses of an interface, read and changed with
    the [ip] tool. *)
From Stdlib Require Import Ascii.
From S2P Require Import Prelude Str Net Core Sql World Nft.
Local Open Scope Z_scope.

Inductive LinuxError :=
  | LinuxTimeout (nanos : Z)
  | LinuxCommand (message : string)
  | LinuxIo (message : string).

Definition show_linux_error (e : LinuxError) : string :=
  match e with
  | LinuxTimeout d => "linux command timed out after " +:+ show_duration d
  | LinuxCommand m => "linux command failed: " +:+ m
  | LinuxIo m => "linux process failed: " +:+ m
  end.

Record Linux := mkLinux { ip_tool : string; linux_timeout : Z }.
Definition linux_default : Linux := mkLinux "ip" 5000000000.
Definition linux_new (ip : string) : Linux := mkLinux ip (linux_timeout linux_default).
Definition linux_with_timeout (l : Linux) (nanos : Z) : Linux := mkLinux (ip_tool l) nanos.

(** The address of one line of [ip addr show]. *)
Definition line_address (line : string) : option Ipv4Addr :=
  rest ← strip_prefix "inet " (trim line);
  cidr ← head (split_whitespace rest);
  parse_ip match split_once "/"%char cidr with Some (ip, _) => ip | None => cidr end.

Definition parse_ipv4_addresses (output : string) : list Ipv4Addr := omap line_address (lines output).

Section linux.
Context `{Env} (l : Linux).

(** The success test and the message are those of [edge-nft]'s output type. *)
Definition run_owned (args : list string) : IO LinuxError CommandOutput :=
  reply ← run_command (ip_tool l) args;
  match reply with
  | CmdTimedOut => io_fail (LinuxTimeout (linux_timeout l))
  | CmdIo m => io_fail (LinuxIo m)
  | CmdDone o => if is_success o then mret o else io_fail (LinuxCommand (error_message o))
  end.

Definition interface_addresses (interface : string) : IO LinuxError (list Ipv4Addr) :=
  output ← run_owned ["-4"; "addr"; "show"; "dev"; interface];
  mret (parse_ipv4_addresses (co_stdout output)).

Definition ensure_addr (interface : string) (addr : Ipv4Addr) : IO LinuxError bool :=
  existing ← interface_addresses interface;
  if bool_decide (addr ∈ existing) then mret false
  else
    run_owned ["addr"; "add"; show_ip addr +:+ "/32"; "dev"; interface] ;;
    mret true.

Definition delete_addr_if_present (interface : string) (addr : Ipv4Addr) : IO LinuxError bool :=
  existing ← interface_addresses interface;
  if negb (bool_decide (addr ∈ existing)) then mret false
  else
    run_owned ["addr"; "del"; show_ip addr +:+ "/32"; "dev"; interface] ;;
    mret true.
End linux.

(** ** Reading a listing *)

(** The lines of a listing: those of an address, [inet a.b.c.d/prefix ..] after
    some indentation, and the others. *)
Inductive ShownLine :=
  | AddressLine (indent : nat) (ip : Ipv4Addr) (tail : string)
  | OtherLine (text : string).

Definition line_text (l : ShownLine) : string :=
  match l with
  | AddressLine n ip tail => of_chars (replicate n " "%char) +:+ "inet " +:+ show_ip ip +:+ "/" +:+ tail
  | OtherLine text => text
  end.
Definition line_ip (l : ShownLine) : option Ipv4Addr :=
  match l with AddressLine _ ip _ => Some ip | OtherLine _ => None end.
Definition shown_ok (l : ShownLine) : Prop :=
  line_ok (line_text l) /\
  match l with AddressLine _ _ _ => True | OtherLine text => strip_prefix "inet " (trim text) = None end.
Definition listing (ls : list ShownLine) : string :=
  concat_str ((fun l => l +:+ newline) <$> (line_text <$> ls)).

Lemma split_once_app c l k : c ∉ l -> split_once_l c (l ++ c :: k) = Some (l, k).
Proof.
  induction l as [|x l IH]; cbn; intros Hx; [by rewrite Ascii.eqb_refl|].
  rewrite not_elem_of_cons in Hx. destruct Hx as [Hne Hl].
  destruct (Ascii.eqb_spec x c) as [->|]; [done|]. by rewrite IH.
Qed.

Definition ip_char (c : ascii) : bool := is_ascii_digit c || Ascii.eqb c "."%char.

Lemma show_ip_chars ip : forallb ip_char (chars (show_ip ip)) = true.
Proof.
  assert (Ho : forall b, forallb ip_char (chars (show_octet b)) = true) by (intros b; by destruct b).
  unfold show_ip. rewrite !chars_app, !forallb_app, !Ho. done.
Qed.

Lemma ip_chars_spec l : forallb ip_char l = true -> forallb plain l = true /\ "/"%char ∉ l.
Proof.
  intros Hl. rewrite forallb_forall in Hl. split.
  - apply forallb_forall. intros c Hc%Hl. destruct c as [[] [] [] [] [] [] [] []]; vm_compute in Hc |- *; done.
  - intros Hin%list_elem_of_In%Hl. done.
Qed.

Lemma line_address_shown n ip tail : line_address (line_text (AddressLine n ip tail)) = Some ip.
Proof.
  pose proof (ip_chars_spec _ (show_ip_chars ip)) as [Hpl Hsl].
  unfold line_address, trim, line_text. rewrite !chars_app, chars_of_chars.
  change (chars "inet ") with ("i"%char :: chars "net "). cbn [List.app].
  rewrite trim_start_spaces by done.
  change (chars "/" ++ chars tail) with ("/"%char :: chars tail).
  destruct (trim_end_plain (("i"%char :: chars "net ") ++ chars (show_ip ip)) "/"%char (chars tail))
    as [b Hb]; [done|].
  cbn [List.app] in Hb. rewrite <- List.app_assoc in Hb. rewrite Hb.
  unfold strip_prefix. rewrite chars_of_chars.
  rewrite <- List.app_assoc.
  change ("i"%char :: chars "net " ++ chars (show_ip ip) ++ "/"%char :: b)
    with (chars "inet " ++ chars (show_ip ip) ++ ["/"%char] ++ b).
  rewrite strip_list_app. cbn [fmap option_fmap option_map mbind option_bind].
  rewrite List.app_assoc.
  destruct (first_word (chars (show_ip ip) ++ ["/"%char]) b) as (t & rest & ->).
  - by destruct (chars (show_ip ip)).
  - by rewrite forallb_app, Hpl.
  - cbn [head mbind option_bind]. rewrite <- List.app_assoc. cbn [List.app].
    unfold split_once. rewrite chars_of_chars, split_once_app by done.
    by rewrite of_chars_chars, parse_show_ip.
Qed.

Lemma parse_listing ls :
  Forall shown_ok ls -> parse_ipv4_addresses (listing ls) = omap line_ip ls.
Proof.
  intros Hls. unfold parse_ipv4_addresses, listing. rewrite lines_concat.
  - induction Hls as [|l ls [_ Hl] _ IH]; [done|]. rewrite fmap_cons. cbn [omap list_omap].
    rewrite IH. destruct l as [n ip tail|text]; [by rewrite line_address_shown|].
    cbn [line_text]. unfold line_address. by rewrite Hl.
  - rewrite Forall_fmap. eapply Forall_impl; [exact Hls|]. by intros l [].
Qed.

(** ** The addresses of the interface *)

Definition succeeded (r : CmdReply) : bool :=
  match r with CmdDone o => is_success o | _ => false end.

(** [a.b.c.d/prefix] *)
Definition cidr_of (text : string) : option (Ipv4Addr * string) :=
  '(ip, prefix) ← split_once "/"%char text;
  ip ← parse_ip ip;
  Some (ip, prefix).

(** The kernel's view of one interface: the addresses with their prefixes, as the
    commands that succeeded change them. *)
Definition kernel_step (tool interface : string) (s : list (Ipv4Addr * string)) (e : Effect)
    : list (Ipv4Addr * string) :=
  match e with
  | ECommand prog args r =>
      if succeeded r && bool_decide (prog = tool) then
        match args with
        | ["addr"; op; c; "dev"; i] =>
            if bool_decide (i = interface) then
              match cidr_of c with
              | Some x =>
                  if bool_decide (op = "add") then x :: s
                  else if bool_decide (op = "del") then filter (fun y => y <> x) s
                  else s
              | None => s
              end
            else s
        | _ => s
        end
      else s
  | _ => s
  end.
Definition kernel_after (tool interface : string) (init : list (Ipv4Addr * string)) (h : History)
    : list (Ipv4Addr * string) := foldl (kernel_step tool interface) init h.

(** What the [ip] manual says of the listing: a successful one names the
    addresses of the interface. *)
Class IpTool `{Env} (tool interface : string) (init : list (Ipv4Addr * string)) : Prop := {
  show_lists h o ip :
    env_command h tool ["-4"; "addr"; "show"; "dev"; interface] = CmdDone o -> is_success o = true ->
    ip ∈ parse_ipv4_addresses (co_stdout o) <-> exists prefix, (ip, prefix) ∈ kernel_after tool interface init h;
}.

Lemma kernel_after_snoc tool i init h e :
  kernel_after tool i init (h ++ [e]) = kernel_step tool i (kernel_after tool i init h) e.
Proof. apply foldl_snoc. Qed.

Lemma cidr_of_host ip : cidr_of (show_ip ip +:+ "/32") = Some (ip, "32").
Proof.
  unfold cidr_of, split_once. rewrite chars_app. change (chars "/32") with ("/"%char :: chars "32").
  rewrite split_once_app by apply ip_chars_spec, show_ip_chars.
  cbn. rewrite of_chars_chars, parse_show_ip. reflexivity.
Qed.

Lemma logs_run_owned `{Env} P l args :
  (forall r, P (ECommand (ip_tool l) args r)) -> preserves (logs P) (run_owned l args).
Proof.
  intros HP. apply preserves_bind; [apply _|by apply logs_command|].
  intros [|m|o]; auto with io; try apply preserves_fail; try apply _. case_match; auto with io.
Qed.

Lemma run_owned_done `{Env} l args w o w' :
  run_owned l args w = (Ret o, w') ->
  w' = note (ECommand (ip_tool l) args (CmdDone o)) w /\ is_success o = true.
Proof.
  unfold run_owned, mbind, io_bind, run_command. destruct (env_command _ _ _) as [|m|o'] eqn:E; cbn; [done|done|].
  destruct (is_success o') eqn:Es; [|done]. unfold mret, io_ret. by intros [= -> <-].
Qed.

(** The failed command leaves a history in which it failed. *)
Lemma run_owned_fail `{Env} l args w e w' :
  run_owned l args w = (Fail e, w') ->
  exists r, w' = note (ECommand (ip_tool l) args r) w /\ succeeded r = false.
Proof.
  unfold run_owned, mbind, io_bind, run_command. cbn.
  destruct (env_command _ _ _) as [|m|o'] eqn:E.
  - unfold io_fail. intros [= _ <-]. by exists CmdTimedOut.
  - unfold io_fail. intros [= _ <-]. by exists (CmdIo m).
  - destruct (is_success o') eqn:Es; [done|]. unfold io_fail. intros [= _ <-]. by exists (CmdDone o').
Qed.

Section kernel.
Context `{IpTool} (l : Linux) (Htool : tool = ip_tool l).

Abbreviation kernel w := (kernel_after tool interface init (w_log w)).

Lemma kernel_note_show w args r :
  args !! 0%nat = Some "-4" -> kernel (note (ECommand (ip_tool l) args r) w) = kernel w.
Proof.
  intros Ha. cbn [note w_log]. rewrite kernel_after_snoc. destruct args as [|a rest]; [done|].
  cbn in Ha. injection Ha as ->. cbn. by destruct (succeeded r && _).
Qed.

Lemma kernel_note_change w op addr r :
  kernel (note (ECommand (ip_tool l) ["addr"; op; show_ip addr +:+ "/32"; "dev"; interface] r) w)
  = if succeeded r then
      if bool_decide (op = "add") then (addr, "32") :: kernel w
      else if bool_decide (op = "del") then filter (fun y => y <> (addr, "32")) (kernel w)
      else kernel w
    else kernel w.
Proof.
  cbn [note w_log]. rewrite kernel_after_snoc. unfold kernel_step.
  rewrite !bool_decide_eq_true_2 by done. rewrite cidr_of_host, andb_true_r. by destruct (succeeded r).
Qed.

Lemma interface_addresses_run w addrs w1 :
  interface_addresses l interface w = (Ret addrs, w1) ->
  kernel w1 = kernel w /\ forall ip, ip ∈ addrs <-> exists prefix, (ip, prefix) ∈ kernel w.
Proof.
  unfold interface_addresses. intros (o & w2 & Hrun & Hret)%bind_Ret. injection Hret as <- <-.
  pose proof Hrun as Hrun'. apply run_owned_done in Hrun as [-> Hs]. split; [by apply kernel_note_show|].
  intros ip. apply show_lists; [|done]. rewrite Htool.
  unfold run_owned, mbind, io_bind, run_command in Hrun'.
  destruct (env_command _ _ _) as [|m|o'] eqn:E; cbn in Hrun'; [done|done|].
  destruct (is_success o'); [|done]. injection Hrun' as ->. done.
Qed.

(** How [ensure_addr] and [delete_addr_if_present] leave the interface. *)
Lemma ensure_addr_run w addr b w' :
  ensure_addr l interface addr w = (Ret b, w') ->
  (b = false /\ kernel w' = kernel w /\ exists prefix, (addr, prefix) ∈ kernel w) \/
  (b = true /\ kernel w' = (addr, "32") :: kernel w /\ forall prefix, (addr, prefix) ∉ kernel w).
Proof.
  unfold ensure_addr. intros (addrs & w1 & Hshow & Hk)%bind_Ret.
  apply interface_addresses_run in Hshow as [Hkw Hin]. case_bool_decide as Ha.
  - injection Hk as <- <-. left. rewrite Hkw. split_and!; [done|done|by apply Hin].
  - apply bind_Ret in Hk as (o & w2 & Hrun & Hret). injection Hret as <- <-.
    apply run_owned_done in Hrun as [-> Hs]. right. rewrite kernel_note_change; cbn [succeeded].
    rewrite Hs, bool_decide_eq_true_2, Hkw by done. split_and!; [done|done|].
    intros prefix Hp. apply Ha, Hin. eauto.
Qed.

Lemma delete_addr_run w addr b w' :
  delete_addr_if_present l interface addr w = (Ret b, w') ->
  (b = false /\ kernel w' = kernel w /\ forall prefix, (addr, prefix) ∉ kernel w) \/
  (b = true /\ kernel w' = filter (fun y => y <> (addr, "32")) (kernel w) /\
   exists prefix, (addr, prefix) ∈ kernel w).
Proof.
  unfold delete_addr_if_present. intros (addrs & w1 & Hshow & Hk)%bind_Ret.
  apply interface_addresses_run in Hshow as [Hkw Hin]. case_bool_decide as Ha; cbn [negb] in Hk.
  - apply bind_Ret in Hk as (o & w2 & Hrun & Hret). injection Hret as <- <-.
    apply run_owned_done in Hrun as [-> Hs]. right. rewrite kernel_note_change; cbn [succeeded].
    rewrite Hs, Hkw. rewrite (bool_decide_eq_false_2 ("del" = "add")) by done.
    rewrite bool_decide_eq_true_2 by done. split_and!; [done|done|by apply Hin].
  - injection Hk as <- <-. left. rewrite Hkw. split_and!; [done|done|].
    intros prefix Hp. apply Ha, Hin. eauto.
Qed.
End kernel.

Section failures.
Context `{Env} (tool interface : string) (init : list (Ipv4Addr * string)) (l : Linux).

Abbreviation kernel w := (kernel_after tool interface init (w_log w)).

Lemma kernel_note_failed w args r :
  succeeded r = false -> kernel (note (ECommand (ip_tool l) args r) w) = kernel w.
Proof.
  intros Hr. cbn [note w_log]. rewrite kernel_after_snoc. unfold kernel_step. by rewrite Hr.
Qed.

Lemma interface_addresses_keeps w o w' :
  interface_addresses l interface w = (o, w') -> kernel w' = kernel w /\ forall s, o <> Panicked s.
Proof.
  unfold interface_addresses, run_owned, mbind, io_bind, run_command. cbn.
  destruct (env_command _ _ _) as [|m|out]; cbn; unfold io_fail; [intros [= <- <-]..|];
    [split; [by apply kernel_note_failed|done]..|].
  destruct (is_success out); intros [= <- <-];
    (split; [cbn [note w_log]; rewrite kernel_after_snoc; cbn; by destruct (_ && _)|done]).
Qed.

(** A change that did not succeed leaves the interface as it was. *)
Lemma change_fails w op addr e w' :
  (run_owned l ["addr"; op; show_ip addr +:+ "/32"; "dev"; interface] ;; mret true) w = (Fail e, w') ->
  kernel w' = kernel w.
Proof.
  intros [(o & w1 & _ & Hr)|[(e' & Hr & _)|(s & _ & Hr)]]%bind_run; [done| |done].
  apply run_owned_fail in Hr as (r & -> & Hr). by apply kernel_note_failed.
Qed.
End failures.

Lemma change_no_panic `{Env} l args w s w' :
  (run_owned l args ;; mret true) w = (Panicked s, w') -> False.
Proof.
  intros [(o & w2 & _ & [=])|[(e & _ & [=])|(s' & Hr & _)]]%bind_run.
  unfold run_owned, mbind, io_bind, run_command in Hr.
  destruct (env_command _ _ _) as [| |o]; cbn in Hr; [done|done|]. by destruct (is_success o).
Qed.

(** ** Properties *)

(** When the listing of the [ip] tool is accurate, [ensure_addr] leaves the
    address on the interface: it returns false and changes nothing when the
    address was there under any prefix, returns true after adding it as a host
    address when it was not, and changes nothing when it fails. *)
Theorem ensure_addr_adds_missing `{IpTool} l addr w (Htool : tool = ip_tool l) :
  let before := kernel_after tool interface init (w_log w) in
  let after := kernel_after tool interface init (w_log (ensure_addr l interface addr w).2) in
  match (ensure_addr l interface addr w).1 with
  | Ret true => (forall prefix, (addr, prefix) ∉ before) /\ after = (addr, "32") :: before
  | Ret false => (exists prefix, (addr, prefix) ∈ before) /\ after = before
  | Fail _ => after = before
  | Panicked _ => False
  end.
Proof.
  cbn zeta. destruct (ensure_addr l interface addr w) as [[b|e|s] w'] eqn:E; cbn [fst snd].
  - apply (ensure_addr_run l Htool) in E as [(-> & Hk & Hp)|(-> & Hk & Hp)]; by split.
  - unfold ensure_addr in E.
    apply bind_run in E as [(a & w1 & Hs & Hk)|[(e' & Hs & _)|(s & _ & Hs)]]; [| |done].
    + apply (interface_addresses_keeps tool interface init) in Hs as [<- _].
      case_bool_decide; [done|]. exact (change_fails tool interface init l w1 _ addr e w' Hk).
    + by apply (interface_addresses_keeps tool interface init) in Hs as [-> _].
  - unfold ensure_addr in E.
    apply bind_run in E as [(a & w1 & Hs & Hk)|[(e' & _ & Hs)|(s' & Hs & _)]]; [|done|].
    + case_bool_decide; [done|]. by apply change_no_panic in Hk.
    + by apply (interface_addresses_keeps tool interface init) in Hs as [_ Hno]; destruct (Hno s').
Qed.

(** Under the same assumption [delete_addr_if_present] leaves the interface
    without the host address: it returns false and changes nothing when the
    address was not there, returns true after deleting it, keeping every other
    address, when it was, and changes nothing when it fails. *)
Theorem delete_addr_removes_present `{IpTool} l addr w (Htool : tool = ip_tool l) :
  let before := kernel_after tool interface init (w_log w) in
  let after := kernel_after tool interface init (w_log (delete_addr_if_present l interface addr w).2) in
  match (delete_addr_if_present l interface addr w).1 with
  | Ret true => (exists prefix, (addr, prefix) ∈ before) /\ (addr, "32") ∉ after /\
      forall x, x <> (addr, "32") -> x ∈ after <-> x ∈ before
  | Ret false => (forall prefix, (addr, prefix) ∉ before) /\ after = before
  | Fail _ => after = before
  | Panicked _ => False
  end.
Proof.
  cbn zeta. destruct (delete_addr_if_present l interface addr w) as [[b|e|s] w'] eqn:E; cbn [fst snd].
  - apply (delete_addr_run l Htool) in E as [(-> & Hk & Hp)|(-> & Hk & Hp)]; [by split|].
    rewrite Hk. split_and!; [done| |].
    + by intros [Hne _]%list_elem_of_filter.
    + intros x Hx. rewrite list_elem_of_filter. tauto.
  - unfold delete_addr_if_present in E.
    apply bind_run in E as [(a & w1 & Hs & Hk)|[(e' & Hs & _)|(s & _ & Hs)]]; [| |done].
    + apply (interface_addresses_keeps tool interface init) in Hs as [<- _].
      destruct (negb _); [done|]. exact (change_fails tool interface init l w1 _ addr e w' Hk).
    + by apply (interface_addresses_keeps tool interface init) in Hs as [-> _].
  - unfold delete_addr_if_present in E.
    apply bind_run in E as [(a & w1 & Hs & Hk)|[(e' & _ & Hs)|(s' & Hs & _)]]; [|done|].
    + destruct (negb _); [done|]. by apply change_no_panic in Hk.
    + by apply (interface_addresses_keeps tool interface init) in Hs as [_ Hno]; destruct (Hno s').
Qed.

(** Reading a listing whose address lines are indented, name an address and a
    prefix and continue with any text, and whose other lines do not start with
    [inet ], gives the addresses of the address lines in order. *)
Theorem parse_ipv4_addresses_listing ls (Hls : Forall shown_ok ls) :
  parse_ipv4_addresses (listing ls) = omap line_ip ls.
Proof. by apply parse_listing. Qed.

(** ** Witnesses *)

Definition shown_address (x : Ipv4Addr * string) : ShownLine := AddressLine 4 x.1 "32 scope global".

Lemma shown_address_ok x : shown_ok (shown_address x).
Proof.
  split; [|done]. unfold line_ok, line_text, shown_address. rewrite !chars_app, chars_of_chars.
  pose proof (show_ip_chars x.1) as Hip. rewrite forallb_forall in Hip.
  split; rewrite !not_elem_of_app; split_and!;
    try (intros Hin%list_elem_of_In; vm_compute in Hin; naive_solver);
    by intros Hin%list_elem_of_In%Hip.
Qed.

(** A tool whose listing shows what its commands have done. *)
Definition tool_env (tool interface : string) (init : list (Ipv4Addr * string)) : Env := {|
  env_now h := Z.of_nat (length h);
  env_uuid _ := "0";
  env_sql_fault _ := None;
  env_others _ := [];
  env_fs_fault _ _ := None;
  env_short_write _ := 0%nat;
  env_command h prog args :=
    if decide (args = ["-4"; "addr"; "show"; "dev"; interface]) then
      CmdDone (mkOutput (Some 0) (listing (shown_address <$> kernel_after tool interface init h)) "")
    else CmdDone (mkOutput (Some 0) "" "");
  env_connect _ _ _ := TcpConnected;
  env_http _ _ := HttpFailed "";
|}.

Lemma tool_env_lists tool interface init : @IpTool (tool_env tool interface init) tool interface init.
Proof.
  constructor. intros h o ip. cbn. rewrite decide_True by done. intros [= <-] _. cbn [co_stdout].
  rewrite parse_listing by (apply Forall_fmap, Forall_forall; intros; apply shown_address_ok).
  rewrite list_elem_of_omap. setoid_rewrite list_elem_of_fmap. split.
  - intros (? & ([ip' prefix] & -> & Hx) & [= <-]). by exists prefix.
  - intros (prefix & Hx). exists (shown_address (ip, prefix)). split; [by exists (ip, prefix)|done].
Qed.

Definition sample_kernel : list (Ipv4Addr * string) := [(ip4 10 0 0 4, "24")].
Definition kernel_world : World := mkWorld db_empty ∅ [].

Lemma ensure_addr_adds_missing_witness :
  let E := tool_env "ip" "ens3" sample_kernel in
  (@ensure_addr E linux_default "ens3" (ip4 10 0 0 5) kernel_world).1 = Ret true /\
  kernel_after "ip" "ens3" sample_kernel
    (w_log (@ensure_addr E linux_default "ens3" (ip4 10 0 0 5) kernel_world).2)
  = (ip4 10 0 0 5, "32") :: sample_kernel.
Proof.
  cbn zeta. pose proof (@ensure_addr_adds_missing (tool_env "ip" "ens3" sample_kernel) "ip" "ens3"
    sample_kernel (tool_env_lists _ _ _) linux_default (ip4 10 0 0 5) kernel_world eq_refl) as Hadd.
  cbn zeta in Hadd.
  assert (E : (@ensure_addr (tool_env "ip" "ens3" sample_kernel) linux_default "ens3" (ip4 10 0 0 5)
    kernel_world).1 = Ret true) by (vm_compute; reflexivity).
  rewrite E in Hadd. split; [exact E|exact (proj2 Hadd)].
Defined.

Lemma delete_addr_removes_present_witness :
  let E := tool_env "ip" "ens3" [(ip4 10 0 0 5, "32")] in
  (@delete_addr_if_present E linux_default "ens3" (ip4 10 0 0 5) kernel_world).1 = Ret true /\
  (ip4 10 0 0 5, "32") ∉ kernel_after "ip" "ens3" [(ip4 10 0 0 5, "32")]
    (w_log (@delete_addr_if_present E linux_default "ens3" (ip4 10 0 0 5) kernel_world).2).
Proof.
  cbn zeta. pose proof (@delete_addr_removes_present (tool_env "ip" "ens3" [(ip4 10 0 0 5, "32")]) "ip" "ens3"
    [(ip4 10 0 0 5, "32")] (tool_env_lists _ _ _) linux_default (ip4 10 0 0 5) kernel_world eq_refl) as Hdel.
  cbn zeta in Hdel.
  assert (E : (@delete_addr_if_present (tool_env "ip" "ens3" [(ip4 10 0 0 5, "32")]) linux_default "ens3"
    (ip4 10 0 0 5) kernel_world).1 = Ret true) by (vm_compute; reflexivity).
  rewrite E in Hdel. split; [exact E|exact (proj1 (proj2 Hdel))].
Defined.

Lemma parse_ipv4_addresses_listing_witness :
  parse_ipv4_addresses (listing [shown_address (ip4 10 0 0 5, "32"); shown_address (ip4 10 0 0 4, "24")])
  = [ip4 10 0 0 5; ip4 10 0 0 4].
Proof.
  apply parse_ipv4_addresses_listing. repeat constructor; apply shown_address_ok.
Defined.
