(* ===== verification/Reconcile.v ===== *)
(** [edge-reconcile/src/lib.rs]: bringing nftables and the interface addresses in
    line with the stored mappings, and rolling back to an earlier ruleset. *)
From Stdlib Require Import Ascii.
From S2P Require Import Prelude Str Net Net6 BTree Core Validation State Sql World Store Nft Linux Xdp.
Local Open Scope Z_scope.

Inductive ReconcileError :=
  | RCore (e : EdgeCoreError)
  | RLinux (e : LinuxError)
  | RNft (e : NftError)
  | RIo (message : string)
  | RNftValidation (message : string)
  | RNftApply (message : string)
  | RHealth (message : string)
  | RXdp (e : XdpError)
  | RXdpApplyUnsupported.

Definition show_reconcile_error (e : ReconcileError) : string :=
  match e with
  | RCore e => show_core_error e
  | RLinux e => "linux operation failed: " +:+ show_linux_error e
  | RNft e => "nft operation failed: " +:+ show_nft_error e
  | RIo m => "io failed: " +:+ m
  | RNftValidation m => "nft validation failed: " +:+ m
  | RNftApply m => "nft apply failed: " +:+ m
  | RHealth m => "health check failed: " +:+ m
  | RXdp e => "xdp operation failed: " +:+ show_xdp_error e
  | RXdpApplyUnsupported => "xdp apply is not implemented; run dry-run to inspect the XDP plan"
  end.

Record ReconcileOptions := mkOptions {
  nft_output : string;
  dry_run : bool;
  apply_nft : bool;
  apply_linux : bool;
  xdp : XdpConfig;
}.
Definition default_options : ReconcileOptions :=
  mkOptions "/run/edge-router/generated.nft" false true true (xdp_config_disabled "").

Record ReconcileReport := mkReport {
  nftables_config : string;
  generation_id : option Z;
  added_addresses : list string;
  removed_addresses : list string;
  xdp_plan_entries : nat;
}.

Record Reconciler := mkReconciler { rc_linux : Linux; rc_nft : NftTool }.

(** ** Paths *)

Definition slash : ascii := "/"%char.

Fixpoint drop_slashes (l : list ascii) : list ascii :=
  match l with
  | c :: l' => if Ascii.eqb c slash then drop_slashes l' else l
  | [] => []
  end.

(** The text after the last occurrence of [c] of a reversed list, and what comes
    before it, both still reversed; [None] without one. *)
Definition split_last (c : ascii) (l : list ascii) : option (list ascii * list ascii) :=
  match split_once_l c (rev l) with Some (after, before) => Some (rev before, rev after) | None => None end.

(** [Path::parent] and [Path::file_name] for paths without [.] components:
    trailing slashes do not count. *)
Definition path_body (p : string) : list ascii := rev (drop_slashes (rev (chars p))).
Definition path_parent (p : string) : option string :=
  let l := path_body p in
  match l with
  | [] => None
  | _ =>
      match split_last slash l with
      | None => Some ""
      | Some (before, _) =>
          Some match rev (drop_slashes (rev before)) with [] => "/" | b => of_chars b end
      end
  end.
Definition file_parts (p : string) : option (list ascii * list ascii) :=
  match path_body p with
  | [] => None
  | l =>
      let '(dir, name) := match split_last slash l with
        | None => ([], l)
        | Some (before, name) => (before ++ [slash], name)
        end in
      if bool_decide (name = chars "..") then None else Some (dir, name)
  end.
(** [Path::file_stem]: up to the last dot, unless it comes first. *)
Definition file_stem (name : list ascii) : list ascii :=
  match split_last "."%char name with
  | Some ([], _) | None => name
  | Some (stem, _) => stem
  end.
Definition with_extension (p ext : string) : string :=
  match file_parts p with
  | None => p
  | Some (dir, name) => of_chars (dir ++ file_stem name) +:+ "." +:+ ext
  end.

(** ** Files and health *)

Section reconcile.
Context `{Ipnet} `{StoreLib} `{Env}.

Definition atomic_write (path bytes : string) : IO string unit :=
  match path_parent path with Some parent => fs_do (MakeDirs parent) | None => mret tt end ;;
  unique ← fresh_uuid;
  let tmp := with_extension path ("tmp-" +:+ unique) in
  fs_do (OpenTruncate tmp) ;;
  fs_do (WriteAll tmp bytes) ;;
  fs_do (SyncAll tmp) ;;
  fs_do (Rename tmp path) ;;
  match path_parent path with
  | Some parent => io_try (fs_do (SyncAll parent)) ;; mret tt
  | None => mret tt
  end.

Definition socket_addr (ip : Ipv4Addr) (port : Z) : string := show_ip ip +:+ ":" +:+ show_Z port.

(** The error carries the text of [ReconcileError::Health]. *)
Definition health_check (ip : Ipv4Addr) (port : option Z) (p : Protocol) : IO string string :=
  if bool_decide (p = Udp) then mret "udp_unchecked"
  else match port with
  | None => mret "ok"
  | Some port =>
      reply ← tcp_connect (V4 ip) port;
      match reply with
      | TcpTimedOut => io_fail ("health check failed: timed out: " +:+ socket_addr ip port)
      | TcpRefused m => io_fail ("health check failed: " +:+ socket_addr ip port +:+ ": " +:+ m)
      | TcpConnected => mret "tcp_ok"
      end
  end.

(** ** Reconciliation *)

Definition core {A} (m : IO EdgeCoreError A) : IO ReconcileError A := io_map_err RCore m.

Definition record_failure (rendered event message : string) : IO ReconcileError unit :=
  core (record_generation GenerationStatus.Failed rendered None (Some message)) ;;
  core (record_event EventLevel.Error event (Some message)) ;;
  mret tt.

(** The loop over the mappings that adds and removes addresses. *)
Fixpoint apply_addresses (l : Linux) (wan : string) (ms : list Mapping)
    (added removed : list string) : IO ReconcileError (list string * list string) :=
  match ms with
  | [] => mret (added, removed)
  | m :: rest =>
      if enabled m && bool_decide (backend m = Nft) then
        b ← io_map_err RLinux (ensure_addr l wan (edge_private_ip m));
        apply_addresses l wan rest (if (b : bool) then added ++ [show_ip (edge_private_ip m)] else added) removed
      else if bool_decide (backend m = Nft) then
        b ← io_map_err RLinux (delete_addr_if_present l wan (edge_private_ip m));
        apply_addresses l wan rest added (if (b : bool) then removed ++ [show_ip (edge_private_ip m)] else removed)
      else apply_addresses l wan rest added removed
  end.

Definition update_health (m : Mapping) : IO ReconcileError unit :=
  res ← io_try (health_check (target_ip m) (target_port m) (protocol m));
  match res with
  | Ok status => core (set_mapping_health (id m) Active (Some status) None) ;; mret tt
  | Err message =>
      core (set_mapping_health (id m) Degraded (Some "degraded") (Some message)) ;;
      core (record_event EventLevel.Warn "mapping health degraded" (Some message)) ;;
      mret tt
  end.

Definition show_bool (b : bool) : string := if b then "true" else "false".

(** What is recorded once the ruleset is loaded and the addresses are set. *)
Definition conclude (opts : ReconcileOptions) (ms : list Mapping) (rendered : string) (rendered_id : Z)
    : IO ReconcileError Z :=
  if apply_nft opts && apply_linux opts then
    now ← now_utc;
    active ← core (record_generation GenerationStatus.Active rendered (Some now) None);
    io_for_each update_health (filter (fun m => enabled m && bool_decide (backend m = Nft) = true) ms) ;;
    core (record_event EventLevel.Info "reconcile applied" (Some ("generation=" +:+ show_Z (g_id active)))) ;;
    mret (g_id active)
  else
    core (record_event EventLevel.Info "reconcile validated without full apply"
      (Some ("apply_nft=" +:+ show_bool (apply_nft opts) +:+ ",apply_linux=" +:+ show_bool (apply_linux opts)))) ;;
    mret rendered_id.

(** Writing, checking and loading the ruleset. *)
Definition install (r : Reconciler) (opts : ReconcileOptions) (rendered : string) : IO ReconcileError Z :=
  gen ← core (record_generation GenerationStatus.Rendered rendered None None);
  written ← io_try (atomic_write (nft_output opts) rendered);
  match written with
  | Err message =>
      record_failure rendered "failed to write nftables config" message ;; io_fail (RIo message)
  | Ok _ =>
      check ← io_map_err RNft (check_file (rc_nft r) (nft_output opts));
      if negb (is_success check) then
        record_failure rendered "nft validation failed" (error_message check) ;;
        io_fail (RNftValidation (error_message check))
      else
        core (record_generation GenerationStatus.Validated rendered None None) ;;
        if apply_nft opts then
          applied ← io_map_err RNft (apply_file (rc_nft r) (nft_output opts));
          if negb (is_success applied) then
            record_failure rendered "nft apply failed" (error_message applied) ;;
            io_fail (RNftApply (error_message applied))
          else mret (g_id gen)
        else mret (g_id gen)
  end.

Definition reconcile (r : Reconciler) (config : EdgeConfig) (opts : ReconcileOptions)
    : IO ReconcileError ReconcileReport :=
  ms ← core list_mappings;
  rendered ← io_map_err RCore (from_out (render_nftables ms config render_table));
  xdp_plan ← lift (map_err RXdp (plan (xdp opts) ms config));
  if dry_run opts then
    mret (mkReport rendered None [] [] (length (plan_entries xdp_plan)))
  else if negb (plan_is_empty xdp_plan) then io_fail RXdpApplyUnsupported
  else
    rendered_id ← install r opts rendered;
    '(added, removed) ← (if apply_linux opts then apply_addresses (rc_linux r) (wan_interface config) ms [] []
                         else mret ([], []));
    generation ← conclude opts ms rendered rendered_id;
    mret (mkReport rendered (Some generation) added removed (length (plan_entries xdp_plan))).

Definition rollback (r : Reconciler) (i : Z) (path : string) : IO ReconcileError unit :=
  generation ← core (get_generation i);
  io_map_err RIo (atomic_write path (g_config generation)) ;;
  check ← io_map_err RNft (check_file (rc_nft r) path);
  if negb (is_success check) then
    core (record_event EventLevel.Error "rollback nft validation failed" (Some (error_message check))) ;;
    io_fail (RNftValidation (error_message check))
  else
    applied ← io_map_err RNft (apply_file (rc_nft r) path);
    if negb (is_success applied) then
      core (record_event EventLevel.Error "rollback nft apply failed" (Some (error_message applied))) ;;
      io_fail (RNftApply (error_message applied))
    else
      core (record_event EventLevel.Warn "rollback applied" (Some ("generation=" +:+ show_Z i))) ;;
      mret tt.
End reconcile.

(** ** What every step respects *)

Section through.
Context `{Ipnet} `{StoreLib} `{Env} (R : World -> World -> Prop) `{!PreOrder R}.
Context (Hq : forall A (q : Db -> A), preserves R (sql_query q)).
Context (Hc : forall E, preserves R (now_utc : IO E Time)).
Context (Hu : forall i st h e c u, preserves R (sql_exec (UpdateHealth i st h e c u))).
Context (He : forall lv msg data c, preserves R (sql_exec (InsertEvent lv msg data c))).
Context (Hg : forall st cfg c a e,
  st <> wire GenerationStatus.Active -> preserves R (sql_exec (InsertGeneration st cfg c a e))).

Ltac io_step :=
  first
    [ apply through_set_mapping_health; [by auto..|] | apply through_record_event; [by auto..|]
    | apply through_list_mappings; by auto | apply through_get_generation; by auto
    | by auto with io
    | apply preserves_bind; [apply _| |intros ?] | apply preserves_map_err | apply preserves_try
    | apply preserves_lift; apply _ | apply preserves_from_out; apply _
    | apply preserves_ret; apply _ | apply preserves_fail; apply _
    | case_match ].
Ltac io_steps := repeat io_step.

Lemma through_generation st cfg ap er :
  st <> GenerationStatus.Active -> preserves R (record_generation st cfg ap er).
Proof.
  intros Hne. apply through_record_generation; [done..|]. intros c a. apply Hg.
  by destruct st.
Qed.

Lemma through_atomic_write path bytes :
  (forall E, preserves R (fresh_uuid : IO E string)) -> (forall op, preserves R (fs_do op)) ->
  preserves R (atomic_write path bytes).
Proof. intros Hf Hfs. unfold atomic_write. io_steps. Qed.

Lemma through_failure {A} rendered event message (e : ReconcileError) :
  preserves R (record_failure rendered event message ;; io_fail e : IO _ A).
Proof. unfold record_failure, core. io_steps. by apply through_generation. Qed.

Lemma through_update_health m :
  (forall E ip port, preserves R (tcp_connect ip port : IO E TcpReply)) -> preserves R (update_health m).
Proof. intros Ht. unfold update_health, core, health_check. io_steps. Qed.

(** The loop over the addresses runs the [ip] tool only. *)
Lemma through_apply_addresses l wan ms added removed :
  (forall E args, head args ∈ [Some "-4"; Some "addr"] ->
    preserves R (run_command (ip_tool l) args : IO E CmdReply)) ->
  preserves R (apply_addresses l wan ms added removed).
Proof.
  intros Hip. revert added removed. induction ms as [|m ms IH]; intros added removed; cbn [apply_addresses].
  { apply preserves_ret, _. }
  assert (Hrun : forall args, head args ∈ [Some "-4"; Some "addr"] -> preserves R (run_owned l args)).
  { intros args Ha. unfold run_owned. apply preserves_bind; [apply _|by apply Hip|]. intros reply. io_steps. }
  unfold ensure_addr, delete_addr_if_present, interface_addresses.
  repeat first [by apply Hrun; set_solver | io_step].
Qed.
End through.

(** ** The check before the load *)

Definition touches (op : FsOp) (path : string) : bool :=
  match op with
  | MakeDirs _ | SyncAll _ | ReadFile _ | Stat _ | BindTcp _ => false
  | OpenTruncate p | WriteAll p _ | RemoveFile p | BindUnix p => bool_decide (p = path)
  | Rename a b => bool_decide (a = path) || bool_decide (b = path)
  end.
(** Accepts the load of [path] only when the last check of [path] succeeded and
    no operation touched the file since. *)
Definition guard (nft path : string) (checked : bool) (e : Effect) : option bool :=
  match e with
  | EFs op _ => Some (if touches op path then false else checked)
  | ECommand prog args r =>
      if bool_decide (prog = nft) then
        if bool_decide (args = ["-c"; "-f"; path]) then Some (succeeded r)
        else if bool_decide (args = ["-f"; path]) then if checked then Some true else None
        else Some checked
      else Some checked
  | _ => Some checked
  end.

(** The outcome of [nft] says how its process ended. *)
Definition ended (o : Out NftError CommandOutput) (rep : CmdReply) : Prop :=
  match o with
  | Ret out => rep = CmdDone out
  | Fail _ => succeeded rep = false
  | Panicked _ => False
  end.

Section nft_steps.
Context `{Env} {S : Type} (delta : S -> Effect -> option S) (nft : NftTool) (path : string).

Lemma nft_run_tracked s args (Q : Out NftError CommandOutput -> S -> Prop) :
  (forall rep, exists s', delta s (ECommand (nft_binary nft) (filter (fun a => is_empty a = false) args ++ [path]) rep) = Some s' /\
    forall o, ended o rep -> Q o s') ->
  tracks delta s (nft_run nft args path) Q.
Proof.
  intros Hd w. unfold nft_run, mbind, io_bind, run_command.
  set (rep := env_command _ _ _). destruct (Hd rep) as (s' & Hs & HQ).
  exists [ECommand (nft_binary nft) (filter (fun a => is_empty a = false) args ++ [path]) rep], s'.
  split; [by destruct rep|]. split; [cbn; by rewrite Hs|].
  apply HQ. by destruct rep.
Qed.
End nft_steps.

Section guard.
Context `{Ipnet} `{StoreLib} `{Env} (r : Reconciler) (path : string).

Abbreviation g := (guard (nft_binary (rc_nft r)) path).

Lemma check_tracked s :
  tracks g s (check_file (rc_nft r) path)
    (fun o s' => match o with Ret out => s' = is_success out | _ => True end).
Proof.
  apply nft_run_tracked. intros rep. exists (succeeded rep). split.
  - cbn. by rewrite !bool_decide_eq_true_2.
  - intros [out|e|x]; cbn; [by intros ->|done..].
Qed.

Lemma apply_tracked : tracks g true (apply_file (rc_nft r) path) (fun _ _ => True).
Proof.
  apply nft_run_tracked. intros rep. exists true. split; [|done]. cbn.
  rewrite bool_decide_eq_true_2 by done. by rewrite bool_decide_eq_false_2, bool_decide_eq_true_2.
Qed.

(** The steps that the guard never refuses. *)
Lemma harmless_step e : (forall prog args rep, e <> ECommand prog args rep) -> harmless g e.
Proof. intros Hne s. destruct e; try (by eexists). by destruct (Hne program args reply). Qed.
Lemma harmless_stmt s b : harmless g (EStmt s b).
Proof. by apply harmless_step. Qed.
Lemma harmless_fs op b : harmless g (EFs op b).
Proof. by apply harmless_step. Qed.
Lemma harmless_query : harmless g EQuery.
Proof. by apply harmless_step. Qed.
Lemma harmless_clock : harmless g EClock.
Proof. by apply harmless_step. Qed.
Lemma harmless_fresh : harmless g EFresh.
Proof. by apply harmless_step. Qed.
Lemma harmless_connect ip p rep : harmless g (EConnect ip p rep).
Proof. by apply harmless_step. Qed.
(** The commands of the address loop name neither the check nor the load. *)
Lemma harmless_other prog args rep : head args ∈ [Some "-4"; Some "addr"] -> harmless g (ECommand prog args rep).
Proof.
  intros Ha s. unfold guard. repeat case_bool_decide; try done; subst args; by set_unfold in Ha; naive_solver.
Qed.
#[local] Hint Resolve harmless_stmt harmless_fs harmless_query harmless_clock harmless_fresh harmless_connect harmless_other : io.
#[local] Hint Extern 2 (_ <> GenerationStatus.Active) => discriminate : io.
#[local] Hint Extern 2 (idle _ _ _) => reflexivity : io.


(** A step that is never refused, then anything that is tracked from every state. *)
Lemma tracks_then {E A B} s (m : IO E A) (k : A -> IO E B) :
  preserves (logs (harmless g)) m -> (forall a s, tracks g s (k a) (fun _ _ => True)) ->
  tracks g s (m ≫= k) (fun _ _ => True).
Proof.
  intros Hm Hk. apply tracks_bind. eapply tracks_mono; [by apply tracks_harmless|].
  intros [a|e|x] s' _; [apply Hk|done..].
Qed.

(** Checking, then loading only after success. *)
Lemma checked_load {B} s (k1 : CommandOutput -> IO ReconcileError B) (k2 : CommandOutput -> IO ReconcileError B) :
  (forall o s, tracks g s (k1 o) (fun _ _ => True)) ->
  (forall o, tracks g true (k2 o) (fun _ _ => True)) ->
  tracks g s (check ← io_map_err RNft (check_file (rc_nft r) path);
              if negb (is_success check) then k1 check else k2 check) (fun _ _ => True).
Proof.
  intros Hk1 Hk2. apply tracks_bind, tracks_map_err. eapply tracks_mono; [apply check_tracked|].
  intros [o|e|x] s'; [|done..]. intros ->. destruct (is_success o) eqn:E; cbn [negb]; rewrite ?E; [apply Hk2|apply Hk1].
Qed.

Lemma load_then {B} (k : CommandOutput -> IO ReconcileError B) :
  (forall o s, tracks g s (k o) (fun _ _ => True)) ->
  tracks g true (applied ← io_map_err RNft (apply_file (rc_nft r) path); k applied) (fun _ _ => True).
Proof.
  intros Hk. apply tracks_bind, tracks_map_err. eapply tracks_mono; [apply apply_tracked|].
  intros [o|e|x] s' _; [apply Hk|done..].
Qed.

Lemma generation_harmless st cfg ap er : preserves (logs (harmless g)) (core (record_generation st cfg ap er)).
Proof. apply preserves_map_err, through_record_generation; auto 8 with io. Qed.
Lemma event_harmless lv msg data : preserves (logs (harmless g)) (core (record_event lv msg data)).
Proof. apply preserves_map_err, through_record_event; auto 8 with io. Qed.
Lemma write_harmless bytes : preserves (logs (harmless g)) (atomic_write path bytes).
Proof. apply through_atomic_write; auto 8 with io. Qed.
Lemma failure_tracked {A} s rendered event message e :
  tracks g s (record_failure rendered event message ;; io_fail e : IO ReconcileError A) (fun _ _ => True).
Proof. apply tracks_harmless, through_failure; auto 8 with io. Qed.

Lemma install_tracked s opts rendered :
  nft_output opts = path -> tracks g s (install r opts rendered) (fun _ _ => True).
Proof.
  intros Hp. unfold install. rewrite Hp. apply tracks_then; [apply generation_harmless|]. intros gen s1.
  apply tracks_then; [apply preserves_try, write_harmless|].
  intros [u|message] s2; [|apply failure_tracked]. apply checked_load.
  { intros o s3. apply failure_tracked. }
  intros o. apply tracks_bind. eapply tracks_mono.
  { apply tracks_idle, preserves_map_err, through_record_generation; auto 8 with io. }
  intros [a|e|x] s3; [|done..]. intros ->. destruct (apply_nft opts); [|by apply tracks_ret].
  apply load_then. intros o' s4. destruct (negb _); [apply failure_tracked|by apply tracks_ret].
Qed.

Lemma conclude_harmless opts ms rendered i : preserves (logs (harmless g)) (conclude opts ms rendered i).
Proof.
  unfold conclude. case_match.
  - apply preserves_bind; [apply _|auto with io|]. intros now.
    apply preserves_bind; [apply _|apply generation_harmless|]. intros active.
    apply preserves_bind; [apply _| |intros _].
    { apply preserves_for_each; [apply _|]. intros m _. apply through_update_health; auto 8 with io. }
    apply preserves_bind; [apply _|apply event_harmless|auto with io].
  - apply preserves_bind; [apply _|apply event_harmless|auto with io].
Qed.

Lemma reconcile_tracked s config opts :
  nft_output opts = path -> tracks g s (reconcile r config opts) (fun _ _ => True).
Proof.
  intros Hp. unfold reconcile.
  apply tracks_then; [apply preserves_map_err, through_list_mappings; auto 8 with io|]. intros ms s1.
  apply tracks_then; [apply preserves_map_err, preserves_from_out; apply _|]. intros rendered s2.
  apply tracks_then; [apply preserves_lift; apply _|]. intros xp s3.
  destruct (dry_run opts); [by apply tracks_ret|]. destruct (negb _); [by apply tracks_fail|].
  apply tracks_bind. eapply tracks_mono; [by apply install_tracked|]. intros [i|e|x] s4 _; [|done..].
  apply tracks_then.
  { case_match; [apply through_apply_addresses; auto 8 with io|apply preserves_ret, _]. }
  intros [added removed] s5. apply tracks_then; [apply conclude_harmless|]. intros; by apply tracks_ret.
Qed.

Lemma rollback_tracked s i : tracks g s (rollback r i path) (fun _ _ => True).
Proof.
  unfold rollback. apply tracks_then; [apply preserves_map_err, through_get_generation; auto 8 with io|].
  intros gen s1. apply tracks_then; [apply preserves_map_err, write_harmless|]. intros u s2.
  apply checked_load.
  { intros o s3. apply tracks_then; [apply event_harmless|]. intros _ s4. by apply tracks_fail. }
  intros o. apply load_then. intros o' s3. destruct (negb _);
    (apply tracks_then; [apply event_harmless|]); intros _ s4; [by apply tracks_fail|by apply tracks_ret].
Qed.
End guard.

(** What acceptance says of each load. *)
Definition checked_before (nft path : string) (before : History) : Prop :=
  exists a rep b, before = a ++ ECommand nft ["-c"; "-f"; path] rep :: b /\ succeeded rep = true /\
    forall op ok, EFs op ok ∈ b -> touches op path = false.

Lemma guard_checked nft path pre : mon_run (guard nft path) false pre = Some true -> checked_before nft path pre.
Proof.
  induction pre as [|e pre IH] using rev_ind; [done|].
  rewrite mon_run_app. destruct (mon_run _ _ pre) as [s|]; [|done]. cbn.
  assert (Hkeep : (forall op ok, e = EFs op ok -> touches op path = false) -> s = true ->
    checked_before nft path (pre ++ [e])).
  { intros He ->. destruct IH as (a & rep & b & -> & Hs & Hb); [done|].
    exists a, rep, (b ++ [e]). rewrite <- (assoc_L (++)). split_and!; [done..|].
    intros op ok [Hin|Hin%list_elem_of_singleton]%elem_of_app; [by eapply Hb|by eapply He]. }
  destruct e; cbn; try (intros [= ->]; by apply Hkeep).
  - destruct (touches op path) eqn:Et; [done|]. intros [= ->]. apply Hkeep; [|done]. by intros ? ? [= <- <-].
  - repeat case_bool_decide; subst; try (intros [= ->]; by apply Hkeep).
    + intros [= Hr]. exists pre, reply, []. split_and!; [done|done|]. by intros ? ? ?%elem_of_nil.
    + destruct s; [|done]. intros _. by apply Hkeep.
Qed.

Lemma guard_load nft path effs s :
  mon_run (guard nft path) false effs = Some s -> forall pre rep post,
  effs = pre ++ ECommand nft ["-f"; path] rep :: post -> checked_before nft path pre.
Proof.
  intros Hrun pre rep post ->. rewrite mon_run_app in Hrun.
  destruct (mon_run _ _ pre) as [[]|] eqn:Hpre; cbn in Hrun; [by apply guard_checked| |done].
  by rewrite bool_decide_eq_true_2, bool_decide_eq_false_2, bool_decide_eq_true_2 in Hrun by done.
Qed.

(** ** The load before the record *)

(** Accepts the record of an active generation, and the deletion of a mapping,
    only when the last load of [path] succeeded. *)
Definition load_guard (nft path : string) (loaded : bool) (e : Effect) : option bool :=
  match e with
  | ECommand prog args r =>
      if bool_decide (prog = nft /\ args = ["-f"; path]) then Some (succeeded r) else Some loaded
  | EStmt (InsertGeneration st _ _ _ _) _ =>
      if bool_decide (st = wire GenerationStatus.Active) then if loaded then Some true else None
      else Some loaded
  | EStmt (DeleteMapping _) _ => if loaded then Some true else None
  | _ => Some loaded
  end.

Section load_guard.
Context `{Ipnet} `{StoreLib} `{Env} (r : Reconciler) (path : string).

Abbreviation g := (load_guard (nft_binary (rc_nft r)) path).

Lemma idle_other s prog args rep : head args ∈ [Some "-4"; Some "addr"] -> idle g s (ECommand prog args rep).
Proof.
  intros Ha. unfold idle, load_guard. rewrite bool_decide_eq_false_2; [done|].
  intros [_ ->]. set_unfold in Ha. naive_solver.
Qed.
Lemma idle_generation s st cfg c a e b :
  st <> wire GenerationStatus.Active \/ s = true -> idle g s (EStmt (InsertGeneration st cfg c a e) b).
Proof.
  intros Hst. unfold idle; cbn. case_bool_decide; [|done]. destruct Hst as [? | ->]; done.
Qed.
#[local] Hint Resolve idle_other idle_generation : io.
#[local] Hint Extern 2 (_ <> GenerationStatus.Active) => discriminate : io.
#[local] Hint Extern 5 (idle _ _ _) => reflexivity : io.

(** A step that leaves the state, then what is tracked from it. *)
Lemma tracks_past {E A B} s (m : IO E A) (k : A -> IO E B) (Q : Out E B -> bool -> Prop) :
  preserves (logs (idle g s)) m -> (forall a, tracks g s (k a) Q) -> (forall e, Q (Fail e) s) ->
  (forall x, Q (Panicked x) s) -> tracks g s (m ≫= k) Q.
Proof.
  intros Hm Hk Hf Hx. apply tracks_bind. eapply tracks_mono; [by apply tracks_idle|].
  intros [a|e|x] s' ?; subst s'; [apply Hk|apply Hf|apply Hx].
Qed.

Lemma check_idle s : tracks g s (check_file (rc_nft r) path) (fun _ s' => s' = s).
Proof. apply nft_run_tracked. intros rep. exists s. split; [|done]. cbn. by rewrite bool_decide_eq_false_2 by naive_solver. Qed.

Lemma load_loads s :
  tracks g s (apply_file (rc_nft r) path)
    (fun o s' => match o with Ret out => s' = is_success out | _ => True end).
Proof.
  apply nft_run_tracked. intros rep. exists (succeeded rep). split.
  - cbn. by rewrite bool_decide_eq_true_2.
  - intros [out|e|x]; cbn; [by intros ->|done..].
Qed.

Lemma failure_idle {A} s rendered event message e (Q : Out ReconcileError A -> bool -> Prop) :
  (forall o s, (forall a, o <> Ret a) -> Q o s) ->
  tracks g s (record_failure rendered event message ;; io_fail e) Q.
Proof.
  intros HQ. unfold record_failure. apply tracks_bind. eapply tracks_mono.
  { apply tracks_idle. apply preserves_bind; [apply _| |intros _; apply preserves_bind; [apply _| |auto with io]];
      apply preserves_map_err; [apply through_generation|apply through_record_event]; auto 8 with io. }
  intros [a|e'|x] s' _; [apply tracks_fail|..]; by apply HQ.
Qed.

(** The installation ends with the ruleset loaded, when it has to load it. *)
Lemma install_loads s opts rendered :
  nft_output opts = path ->
  tracks g s (install r opts rendered) (fun o s' => match o with Ret _ => apply_nft opts = true -> s' = true | _ => True end).
Proof.
  intros Hp. unfold install. rewrite Hp. apply tracks_past; [|intros gen|done..].
  { apply preserves_map_err, through_generation; auto 8 with io. }
  apply tracks_past; [|intros [u|message]|done..].
  { apply preserves_try, through_atomic_write; auto 8 with io. }
  2: { apply failure_idle. intros [a|e|x] s' Ho; [by destruct (Ho a)|done..]. }
  apply tracks_bind, tracks_map_err. eapply tracks_mono; [apply check_idle|]. intros [o|e|x] s' ?; subst s'; [|done..].
  destruct (negb _). { apply failure_idle. intros [a|e|x] s' Ho; [by destruct (Ho a)|done..]. }
  apply tracks_past; [|intros gen'|done..].
  { apply preserves_map_err, through_generation; auto 8 with io. }
  destruct (apply_nft opts); [|by apply tracks_ret].
  apply tracks_bind, tracks_map_err. eapply tracks_mono; [apply load_loads|]. intros [o'|e|x] s'; [|done..].
  intros ->. destruct (is_success o') eqn:E; cbn [negb]; rewrite ?E; [by apply tracks_ret|].
  apply failure_idle. intros [a|e|x] s' Ho; [by destruct (Ho a)|done..].
Qed.

Lemma conclude_idle s opts ms rendered i :
  (apply_nft opts = true -> s = true) -> preserves (logs (idle g s)) (conclude opts ms rendered i).
Proof.
  intros Hs. unfold conclude. destruct (apply_nft opts && _) eqn:Ha.
  - apply andb_prop in Ha as [Ha _]. specialize (Hs Ha).
    apply preserves_bind; [apply _|auto with io|]. intros now.
    apply preserves_bind; [apply _|apply preserves_map_err, through_record_generation; auto 8 with io|]. intros active.
    apply preserves_bind; [apply _| |intros _].
    { apply preserves_for_each; [apply _|]. intros m _. apply through_update_health; auto 8 with io. }
    apply preserves_bind; [apply _|apply preserves_map_err, through_record_event|]; auto 8 with io.
  - apply preserves_bind; [apply _|apply preserves_map_err, through_record_event|]; auto 8 with io.
Qed.

Lemma reconcile_loads s config opts :
  nft_output opts = path ->
  tracks g s (reconcile r config opts) (fun o s' => match o with
    | Ret _ => dry_run opts = false -> apply_nft opts = true -> s' = true
    | _ => True
    end).
Proof.
  intros Hp. unfold reconcile.
  apply tracks_past; [apply preserves_map_err, through_list_mappings; auto 8 with io|intros ms|done..].
  apply tracks_past; [apply preserves_map_err, preserves_from_out; apply _|intros rendered|done..].
  apply tracks_past; [apply preserves_lift; apply _|intros xp|done..].
  destruct (dry_run opts); [by apply tracks_ret|]. destruct (negb _); [by apply tracks_fail|].
  apply tracks_bind. eapply tracks_mono; [by apply install_loads|]. intros [i|e|x] s4 Hs; [|done..].
  apply tracks_past; [|intros [added removed]|done..].
  { case_match; [apply through_apply_addresses; auto 8 with io|apply preserves_ret, _]. }
  apply tracks_past; [by apply conclude_idle|intros id|done..]. by apply tracks_ret.
Qed.
End load_guard.

Definition loaded_before (nft path : string) (before : History) : Prop :=
  exists a rep b, before = a ++ ECommand nft ["-f"; path] rep :: b /\ succeeded rep = true.

Lemma load_guard_loaded nft path pre : mon_run (load_guard nft path) false pre = Some true -> loaded_before nft path pre.
Proof.
  induction pre as [|e pre IH] using rev_ind; [done|].
  rewrite mon_run_app. destruct (mon_run _ _ pre) as [s|]; [|done]. cbn.
  assert (Hkeep : s = true -> loaded_before nft path (pre ++ [e])).
  { intros ->. destruct IH as (a & rep & b & -> & Hs); [done|]. exists a, rep, (b ++ [e]). by rewrite <- (assoc_L (++)). }
  destruct e as [|[] ?|?|? ? rep|?|?| |?|? ?]; cbn; try (intros [= ->]; by apply Hkeep).
  - destruct s; [|done]. intros _. by apply Hkeep.
  - case_bool_decide; [|intros [= ->]; by apply Hkeep]. destruct s; [|done]. intros _. by apply Hkeep.
  - case_bool_decide as Hb; [|intros [= ->]; by apply Hkeep]. destruct Hb as [-> ->]. intros [= Hr].
    by exists pre, rep, [].
Qed.

(** The effects that the guard does not look at. *)
Lemma load_idle nft path s e :
  (forall prog args rep, e <> ECommand prog args rep) ->
  (forall st cfg c a er b, e <> EStmt (InsertGeneration st cfg c a er) b) ->
  (forall i b, e <> EStmt (DeleteMapping i) b) -> idle (load_guard nft path) s e.
Proof.
  intros Hc Hg Hd. destruct e as [|[] ?|?|prog args rep|?|?| |?|? ?]; try done.
  - by destruct (Hd i ok).
  - by destruct (Hg st config created applied err ok).
  - by destruct (Hc prog args rep).
Qed.

Create HintDb loads.
#[export] Hint Resolve load_idle : loads.
#[export] Hint Extern 1 (_ <> ECommand _ _ _) => discriminate : loads.
#[export] Hint Extern 1 (_ <> EStmt _ _) => discriminate : loads.

Lemma load_guard_delete nft path effs s :
  mon_run (load_guard nft path) false effs = Some s -> forall pre i ok post,
  effs = pre ++ EStmt (DeleteMapping i) ok :: post -> loaded_before nft path pre.
Proof.
  intros Hrun pre i ok post ->. rewrite mon_run_app in Hrun.
  destruct (mon_run _ _ pre) as [[]|] eqn:Hpre; [by apply load_guard_loaded|done..].
Qed.

(** ** The file at every moment *)

Section files.
Context `{Env}.

(** What an effect does to the files. *)
Definition file_step (h : History) (fs : gmap string string) (e : Effect) : gmap string string :=
  match e with
  | EFs op true => fs_apply op fs
  | EFs op false => fs_failed (env_short_write h) op fs
  | _ => fs
  end.

Fixpoint replay (h : History) (fs : gmap string string) (effs : History) : gmap string string :=
  match effs with
  | [] => fs
  | e :: effs => replay (h ++ [e]) (file_step h fs e) effs
  end.

Lemma replay_app h fs e1 e2 : replay h fs (e1 ++ e2) = replay (h ++ e1) (replay h fs e1) e2.
Proof.
  revert h fs. induction e1 as [|e e1 IH]; intros h fs; cbn; [by rewrite List.app_nil_r|].
  rewrite IH. by rewrite <- (assoc_L (++)).
Qed.

(** [P] holds of the files at every moment of the computation. *)
Definition walks {E A} (P : gmap string string -> Prop) (m : IO E A) (w : World)
    (Φ : Out E A -> World -> Prop) : Prop :=
  exists effs, w_log (m w).2 = w_log w ++ effs /\ replay (w_log w) (w_fs w) effs = w_fs (m w).2 /\
    (forall n, P (replay (w_log w) (w_fs w) (take n effs))) /\ Φ (m w).1 (m w).2.

Context (P : gmap string string -> Prop).

Lemma walks_ret {E A} (a : A) w (Φ : Out E A -> World -> Prop) :
  P (w_fs w) -> Φ (Ret a) w -> walks P (mret a) w Φ.
Proof.
  intros HP HΦ. exists []. rewrite List.app_nil_r. split_and!; [done..| |done].
  intros n. by rewrite take_nil.
Qed.

Lemma walks_bind {E A B} (m : IO E A) (k : A -> IO E B) w (Φ : Out E B -> World -> Prop) :
  walks P m w (fun o w' => match o with
    | Ret a => walks P (k a) w' Φ
    | Fail e => Φ (Fail e) w'
    | Panicked x => Φ (Panicked x) w'
    end) -> walks P (m ≫= k) w Φ.
Proof.
  intros (e1 & Hl & Hr & Hp & HΦ). unfold walks, mbind, io_bind in *.
  destruct (m w) as [[a|e|x] w1]; cbn [fst snd] in *; [|by exists e1..].
  destruct HΦ as (e2 & Hl2 & Hr2 & Hp2 & HΦ). exists (e1 ++ e2).
  rewrite replay_app, <- Hl, Hr. split_and!; [by rewrite Hl2, Hl, (assoc_L (++))|done| |done].
  intros n. rewrite take_app. destruct (decide (n <= length e1)%nat).
  - replace (n - length e1)%nat with 0%nat by lia. rewrite take_0, List.app_nil_r. apply Hp.
  - rewrite take_ge, replay_app, <- Hl, Hr by lia. apply Hp2.
Qed.

Lemma walks_one {E A} (m : IO E A) w e (Φ : Out E A -> World -> Prop) :
  w_log (m w).2 = w_log w ++ [e] -> file_step (w_log w) (w_fs w) e = w_fs (m w).2 ->
  P (w_fs w) -> P (w_fs (m w).2) -> Φ (m w).1 (m w).2 -> walks P m w Φ.
Proof.
  intros Hl Hf HP HP' HΦ. exists [e]. split_and!; [done..| |done].
  intros [|n]; [done|]. cbn. rewrite take_nil. cbn. by rewrite Hf.
Qed.

Lemma walks_try {E F A} (m : IO E A) w (Φ : Out F (Result E A) -> World -> Prop) :
  walks P m w (fun o w' => Φ match o with
    | Ret a => Ret (Ok a) | Fail e => Ret (Err e) | Panicked x => Panicked x end w') ->
  walks P (io_try m) w Φ.
Proof. intros (e & ? & ? & ? & HΦ). exists e. unfold io_try. by destruct (m w) as [[] w1]. Qed.

Lemma walks_fs op w (Φ : Out string unit -> World -> Prop) :
  P (w_fs w) ->
  (forall w', w_fs w' = fs_apply op (w_fs w) -> P (w_fs w') /\ Φ (Ret tt) w') ->
  (forall w' m n, w_fs w' = fs_failed n op (w_fs w) -> P (w_fs w') /\ Φ (Fail m) w') ->
  walks P (fs_do op) w Φ.
Proof.
  intros HP Hr Hf. unfold fs_do. destruct (env_fs_fault (w_log w) op) as [m|] eqn:E.
  - destruct (Hf (mkWorld (w_db w) (fs_failed (env_short_write (w_log w)) op (w_fs w)) (w_log w ++ [EFs op false]))
      m (env_short_write (w_log w)) eq_refl).
    apply (walks_one _ w (EFs op false)); by rewrite ?E.
  - destruct (Hr (mkWorld (w_db w) (fs_apply op (w_fs w)) (w_log w ++ [EFs op true])) eq_refl).
    apply (walks_one _ w (EFs op true)); by rewrite ?E.
Qed.

(** An operation that does not touch [path] leaves what it holds. *)
Lemma untouched op n (fs : gmap string string) path :
  touches op path = false ->
  fs_apply op fs !! path = fs !! path /\ fs_failed n op fs !! path = fs !! path.
Proof.
  destruct op as [p|p|p c|p|a b|p|p|p|p|p]; cbn; intros Ht; try done.
  - apply bool_decide_eq_false in Ht. by rewrite lookup_insert_ne.
  - apply bool_decide_eq_false in Ht. by rewrite !lookup_insert_ne.
  - apply orb_false_elim in Ht as [Ha%bool_decide_eq_false Hb%bool_decide_eq_false].
    split; [|done]. destruct (fs !! a); [|done]. by rewrite lookup_insert_ne, lookup_delete_ne.
  - apply bool_decide_eq_false in Ht. by rewrite lookup_delete_ne.
  - apply bool_decide_eq_false in Ht. by rewrite lookup_insert_ne.
Qed.

End files.

(** A step before the renaming. *)
Lemma walks_before `{Env} op w path bytes (Φ : Out string unit -> World -> Prop) :
  let P := fun fs : gmap string string => fs !! path = w_fs w !! path \/ fs !! path = Some bytes in
  forall w1, w_fs w1 !! path = w_fs w !! path -> touches op path = false ->
  (forall w2, w_fs w2 !! path = w_fs w !! path -> w_fs w2 = fs_apply op (w_fs w1) -> Φ (Ret tt) w2) ->
  (forall w2 m, w_fs w2 !! path = w_fs w !! path -> Φ (Fail m) w2) ->
  walks P (fs_do op) w1 Φ.
Proof.
  intros P w1 H1 Ht Hr Hf. apply walks_fs; [by left|..].
  - intros w' Hw. destruct (untouched op 0 (w_fs w1) path Ht) as [Hu _].
    assert (w_fs w' !! path = w_fs w !! path) by by rewrite Hw, Hu.
    split; [by left|]. by apply Hr.
  - intros w' m n Hw. destruct (untouched op n (w_fs w1) path Ht) as [_ Hu].
    assert (w_fs w' !! path = w_fs w !! path) by by rewrite Hw, Hu.
    split; [by left|]. by apply Hf.
Qed.

Lemma walks_written `{Env} path bytes w
    (Htmp : forall h, with_extension path ("tmp-" +:+ env_uuid h) <> path) :
  walks (fun fs => fs !! path = w_fs w !! path \/ fs !! path = Some bytes) (atomic_write path bytes) w
    (fun o w' => w_fs w' !! path = match o with Ret _ => Some bytes | _ => w_fs w !! path end).
Proof.
  unfold atomic_write.
  assert (Hpar : walks (fun fs => fs !! path = w_fs w !! path \/ fs !! path = Some bytes)
    (match path_parent path with Some parent => fs_do (MakeDirs parent) | None => mret tt end) w
    (fun _ w1 => w_fs w1 !! path = w_fs w !! path)).
  { destruct (path_parent path); [by apply walks_before|]. apply walks_ret; [by left|done]. }
  apply walks_bind. destruct Hpar as (e & ? & ? & ? & HΦ). exists e. split_and!; [done..|].
  destruct (_ w) as [[[]|m|x] w1]; cbn [fst snd] in *; [|done..].
  apply walks_bind, (walks_one _ _ _ EFresh); [done|done|by left|by left|]. cbn [fst snd fresh_uuid].
  set (tmp := with_extension path _). assert (Hne : tmp <> path) by apply Htmp.
  set (w2 := note EFresh w1). change (w_fs w1) with (w_fs w2) in HΦ.
  apply walks_bind, walks_before; [done|by apply bool_decide_eq_false_2| |done]. intros w3 H3 _.
  apply walks_bind, walks_before; [done|by apply bool_decide_eq_false_2| |done]. intros w4 H4 Hc.
  apply walks_bind, walks_before; [done|done| |done]. intros w5 H5 Hc5.
  assert (Htmp5 : w_fs w5 !! tmp = Some bytes) by (rewrite Hc5, Hc; cbn; apply lookup_insert_eq).
  apply walks_bind, walks_fs; [by left|intros w6 Hw6|intros w6 m n Hw6].
  - assert (H6 : w_fs w6 !! path = Some bytes) by (rewrite Hw6; cbn; by rewrite Htmp5, lookup_insert_eq).
    split; [by right|]. destruct (path_parent path) as [parent|]; [|apply walks_ret; [by right|done]].
    apply walks_bind, walks_try, walks_fs; [by right|intros w7 Hw7|intros w7 m n Hw7];
      (split; [right|apply walks_ret; [right|]]); by rewrite Hw7.
  - split; [left|]; by rewrite Hw6.
Qed.

(** ** Properties *)

(** C10: at every moment of [atomic_write] the target holds what it held before or
    the whole new content, provided that the temporary name differs from it: the
    new content when it returns, the old when it fails. *)
Theorem atomic_write_old_or_new `{Env} path bytes w
    (Htmp : forall h, with_extension path ("tmp-" +:+ env_uuid h) <> path) :
  walks (fun fs => fs !! path = w_fs w !! path \/ fs !! path = Some bytes) (atomic_write path bytes) w
    (fun o w' => w_fs w' !! path = match o with Ret _ => Some bytes | _ => w_fs w !! path end).
Proof. by apply walks_written. Qed.

(** C5: [reconcile] loads the ruleset file only after a check of that file
    succeeded, with no operation on the file in between, and records an active
    generation only after a load of it succeeded, whatever the tools, the file
    system and the other clients of the database answer. *)
Theorem reconcile_loads_checked `{Ipnet} `{StoreLib} `{Env} r config opts w :
  let nft := nft_binary (rc_nft r) in
  let path := nft_output opts in
  exists effs, w_log (reconcile r config opts w).2 = w_log w ++ effs /\
    (forall pre rep post, effs = pre ++ ECommand nft ["-f"; path] rep :: post -> checked_before nft path pre) /\
    (forall pre cfg c a e ok post,
      effs = pre ++ EStmt (InsertGeneration (wire GenerationStatus.Active) cfg c a e) ok :: post ->
      loaded_before nft path pre).
Proof.
  cbn zeta. destruct (reconcile_tracked r _ false config opts eq_refl w) as (effs & s & Hl & Hg & _).
  destruct (reconcile_loads r _ false config opts eq_refl w) as (effs' & s' & Hl' & Hg' & _).
  rewrite Hl in Hl'. apply app_inv_head in Hl' as <-. exists effs. split_and!; [done|by eapply guard_load|].
  intros pre cfg c a e ok post ->. rewrite mon_run_app in Hg'.
  destruct (mon_run _ _ pre) as [[]|] eqn:Hpre; cbn in Hg'; [by apply load_guard_loaded| |done].
  by rewrite bool_decide_eq_true_2 in Hg'.
Qed.

(** C33: [rollback] too loads the file only after a check of it succeeded, with
    no operation on the file in between. *)
Theorem rollback_loads_checked `{Ipnet} `{StoreLib} `{Env} r i path w :
  let nft := nft_binary (rc_nft r) in
  exists effs, w_log (rollback r i path w).2 = w_log w ++ effs /\
    forall pre rep post, effs = pre ++ ECommand nft ["-f"; path] rep :: post -> checked_before nft path pre.
Proof.
  cbn zeta. destruct (rollback_tracked r path false i w) as (effs & s & Hl & Hg & _).
  exists effs. split; [done|]. by eapply guard_load.
Qed.

(** A dry run writes no file, runs no command and changes nothing in the
    database: all it does is a query. *)
Theorem dry_run_queries_only `{Ipnet} `{StoreLib} `{Env} r config opts w (Hdry : dry_run opts = true) :
  let w' := (reconcile r config opts w).2 in
  w_fs w' = w_fs w /\ w_log w' = w_log w ++ [EQuery].
Proof.
  cbn zeta. unfold reconcile. rewrite Hdry.
  unfold core, list_mappings, sql, sql_query, mbind, io_bind, io_map_err. cbn zeta.
  destruct (env_sql_fault _) as [m|]; cbn; [done|].
  unfold lift. destruct (collect _ _) as [ms|e]; cbn; [|done].
  unfold from_out. destruct (render_nftables _ _ _); cbn; [|done..]. by destruct (plan _ _ _).
Qed.

Lemma written `{Env} path bytes w w' u :
  (forall h, with_extension path ("tmp-" +:+ env_uuid h) <> path) ->
  atomic_write path bytes w = (Ret u, w') -> w_fs w' !! path = Some bytes.
Proof.
  intros Htmp Hrun. destruct (walks_written path bytes w Htmp) as (e & _ & _ & _ & HΦ).
  by rewrite Hrun in HΦ.
Qed.

Section success.
Context `{Ipnet} `{StoreLib} `{Env}.

Lemma same_fs_conclude opts ms rendered i : preserves same_fs (conclude opts ms rendered i).
Proof.
  unfold conclude. case_match.
  - apply preserves_bind; [apply _|auto with io|]. intros now.
    apply preserves_bind; [apply _|apply preserves_map_err, through_record_generation; auto with io|]. intros active.
    apply preserves_bind; [apply _| |intros _].
    { apply preserves_for_each; [apply _|]. intros m _. apply through_update_health; auto with io. }
    apply preserves_bind; [apply _|apply preserves_map_err, through_record_event|]; auto with io.
  - apply preserves_bind; [apply _|apply preserves_map_err, through_record_event|]; auto with io.
Qed.

Lemma same_fs_nft t args path : preserves same_fs (nft_run t args path).
Proof. unfold nft_run. apply preserves_bind; [apply _|auto with io|]. intros rep. destruct rep; auto with io. Qed.

(** A returning installation leaves the ruleset in the file. *)
Lemma install_written r opts rendered w i w' :
  (forall h, with_extension (nft_output opts) ("tmp-" +:+ env_uuid h) <> nft_output opts) ->
  install r opts rendered w = (Ret i, w') -> w_fs w' !! nft_output opts = Some rendered.
Proof.
  intros Htmp. unfold install. intros (gen & w1 & _ & (written & w2 & Hw & Hk)%bind_Ret)%bind_Ret.
  assert (Hstop : forall event message e w i' w', (record_failure rendered event message ;; io_fail e : IO ReconcileError Z) w = (Ret i', w') -> False).
  { intros event message e w0 i' w3 (? & ? & _ & [=])%bind_Ret. }
  destruct written as [u|m]; [|by apply Hstop in Hk].
  assert (Hf : w_fs w2 !! nft_output opts = Some rendered).
  { unfold io_try in Hw. destruct (atomic_write _ _ w1) as [[u'|e|x] w1'] eqn:E; [|done..].
    injection Hw as _ <-. by eapply written. }
  apply bind_Ret in Hk as (check & w3 & Hc & Hk).
  assert (H3 : same_fs w2 w3) by (by eapply ran, preserves_map_err, same_fs_nft).
  destruct (negb _); [by apply Hstop in Hk|]. apply bind_Ret in Hk as (gen' & w4 & Hg & Hk).
  assert (H4 : same_fs w3 w4).
  { eapply ran; [exact Hg|]. apply preserves_map_err, through_record_generation; auto with io. }
  unfold same_fs in *. destruct (apply_nft opts); [|injection Hk as _ <-; by rewrite H4, H3].
  apply bind_Ret in Hk as (applied & w5 & Ha & Hk). destruct (negb _); [by apply Hstop in Hk|].
  injection Hk as _ <-.
  assert (H5 : same_fs w4 w5) by (by eapply ran, preserves_map_err, same_fs_nft).
  by rewrite H5, H4, H3.
Qed.

(** The steps of a reconciliation that returns, other than a dry run. *)
Record reconciled (r : Reconciler) (config : EdgeConfig) (opts : ReconcileOptions) (w : World) (report : ReconcileReport)
    (w' : World) (ms : list Mapping) : Prop := {
  rd_listed : (list_mappings w).1 = Ret ms;
  rd_rendered : render_nftables ms config render_table = Ret (nftables_config report);
  rd_steps : exists i w1 al w2 g, install r opts (nftables_config report) (list_mappings w).2 = (Ret i, w1) /\
    (if apply_linux opts then apply_addresses (rc_linux r) (wan_interface config) ms [] [] else mret ([], [])) w1
      = (Ret al, w2) /\
    conclude opts ms (nftables_config report) i w2 = (Ret g, w');
  rd_xdp : xdp_plan_entries report = 0%nat;
  rd_generation : is_Some (generation_id report);
}.
Lemma reconcile_steps r config opts w report w' : dry_run opts = false ->
  reconcile r config opts w = (Ret report, w') -> exists ms, reconciled r config opts w report w' ms.
Proof.
  intros Hdry Hrun. unfold reconcile in Hrun. rewrite Hdry in Hrun.
  apply bind_Ret in Hrun as (ms & w1 & Hl & (rendered & w2 & Hr & (xp & w3 & Hx & Hk)%bind_Ret)%bind_Ret).
  exists ms. unfold core, io_map_err in Hl. destruct (list_mappings w) as [[]] eqn:El; [|done..]. injection Hl as -> ->.
  unfold io_map_err, from_out in Hr. destruct (render_nftables _ _ _) as [t|e|x] eqn:E; [|done..].
  injection Hr as -> <-. unfold lift in Hx. destruct (map_err _ _); [|done]. injection Hx as -> <-.
  destruct (plan_is_empty xp) eqn:Ep; cbn [negb] in Hk; [|done].
  apply bind_Ret in Hk as (i & w4 & Hi & ((added & removed) & w5 & Ha & (gen & w6 & Hc & Hret)%bind_Ret)%bind_Ret).
  injection Hret as <- <-. constructor; cbn; [by rewrite El|done| | |done].
  - rewrite El. by exists i, w4, (added, removed), w5, gen.
  - unfold plan_is_empty in Ep. by destruct (plan_entries xp).
Qed.
End success.

(** A reconciliation that returns, other than a dry run, leaves in the output
    file the ruleset rendered from the mappings it listed, which passed
    validation; its report holds that ruleset, and no mapping is left to XDP. *)
Theorem reconcile_installs `{Ipnet} `{StoreLib} `{Env} r config opts w report w'
    (Htmp : forall h, with_extension (nft_output opts) ("tmp-" +:+ env_uuid h) <> nft_output opts)
    (Hdry : dry_run opts = false) (Hrun : reconcile r config opts w = (Ret report, w')) :
  exists ms, (list_mappings w).1 = Ret ms /\ validate_mappings ms config = Ok tt /\
    render_nftables ms config render_table = Ret (nftables_config report) /\
    w_fs w' !! nft_output opts = Some (nftables_config report) /\
    xdp_plan_entries report = 0%nat /\ is_Some (generation_id report).
Proof.
  destruct (reconcile_steps r config opts w report w' Hdry Hrun) as (ms & [Hl Hr (i & w1 & al & w2 & g & Hi & Ha & Hc) Hx Hg]).
  exists ms. apply install_written in Hi; [|done].
  assert (H5 : same_fs w1 w2).
  { eapply ran; [exact Ha|]. case_match; [apply through_apply_addresses; auto with io|apply preserves_ret, _]. }
  assert (H6 : same_fs w2 w') by (by eapply ran, same_fs_conclude).
  unfold same_fs in *. split_and!; [done| |done| |done..].
  - unfold render_nftables in Hr. by destruct (validate_mappings ms config) as [[]|].
  - by rewrite H6, H5.
Qed.

(** What the list last says of an address: wanted by an enabled mapping, refused
    by a disabled one, not mentioned. *)
Definition wanted (ms : list Mapping) (ip : Ipv4Addr) : option bool :=
  last (enabled <$> filter (fun m => backend m = Nft /\ edge_private_ip m = ip) ms).

Lemma wanted_cons m ms ip :
  wanted (m :: ms) ip = match wanted ms ip with
    | Some b => Some b
    | None => if decide (backend m = Nft /\ edge_private_ip m = ip) then Some (enabled m) else None
    end.
Proof.
  unfold wanted. rewrite filter_cons. case_decide; [|by destruct (last _)].
  rewrite fmap_cons, last_cons. by destruct (last _).
Qed.

Section addresses.
Context `{IpTool} (l : Linux) (Htool : tool = ip_tool l).

Abbreviation kernel w := (kernel_after tool interface init (w_log w)).

(** One change of the addresses, whatever it was. *)
Definition address_set (b : bool) (addr : Ipv4Addr) (before after : list (Ipv4Addr * string)) : Prop :=
  (if b then exists prefix, (addr, prefix) ∈ after else (addr, "32") ∉ after) /\
  forall x, x.1 <> addr -> x ∈ after <-> x ∈ before.

Lemma ensure_sets w addr b w' :
  ensure_addr l interface addr w = (Ret b, w') -> address_set true addr (kernel w) (kernel w').
Proof.
  intros [(_ & -> & Hp)|(_ & -> & _)]%(ensure_addr_run l Htool); [by split|].
  split; [exists "32"; by left|]. intros x Hx. rewrite elem_of_cons. split; [|by right].
  intros [->|?]; [done|done].
Qed.
Lemma delete_sets w addr b w' :
  delete_addr_if_present l interface addr w = (Ret b, w') -> address_set false addr (kernel w) (kernel w').
Proof.
  intros [(_ & -> & Hp)|(_ & -> & _)]%(delete_addr_run l Htool); [by split|].
  split; [by intros [Hne _]%list_elem_of_filter|]. intros x Hx. rewrite list_elem_of_filter.
  split; [by intros [_ ?]|]. split; [by intros ->|done].
Qed.

Lemma map_err_Ret {E F A} (f : E -> F) (m : IO E A) w a w' :
  io_map_err f m w = (Ret a, w') -> m w = (Ret a, w').
Proof. unfold io_map_err. destruct (m w) as [[]]; by intros [= -> ->]. Qed.

Lemma apply_addresses_sets ms : forall added removed w o w',
  apply_addresses l interface ms added removed w = (Ret o, w') -> forall ip,
  match wanted ms ip with
  | Some b => exists before, address_set b ip before (kernel w')
  | None => forall x, x.1 = ip -> x ∈ kernel w' <-> x ∈ kernel w
  end.
Proof.
  induction ms as [|m ms IH]; intros added removed w o w' Hrun ip; cbn [apply_addresses] in Hrun.
  { injection Hrun as _ <-. done. }
  rewrite wanted_cons. destruct (bool_decide (backend m = Nft)) eqn:Hb.
  2: { rewrite andb_false_r in Hrun. apply bool_decide_eq_false in Hb. specialize (IH _ _ _ _ _ Hrun ip).
       destruct (wanted ms ip); [done|]. by rewrite decide_False by tauto. }
  apply bool_decide_eq_true in Hb. rewrite andb_true_r in Hrun.
  assert (Hone : exists w1 added' removed', address_set (enabled m) (edge_private_ip m) (kernel w) (kernel w1) /\
    apply_addresses l interface ms added' removed' w1 = (Ret o, w')).
  { destruct (enabled m); apply bind_Ret in Hrun as (b & w1 & Hs%map_err_Ret & Hk); exists w1.
    - do 2 eexists. split; [by eapply ensure_sets|exact Hk].
    - do 2 eexists. split; [by eapply delete_sets|exact Hk]. }
  destruct Hone as (w1 & added' & removed' & Hset & Hk). specialize (IH _ _ _ _ _ Hk ip).
  destruct (wanted ms ip) as [b|] eqn:Ew; [done|]. destruct Hset as [Hin Hout]. case_decide as Hd.
  - destruct Hd as [_ <-]. exists (kernel w'). split; [|done]. destruct (enabled m).
    + destruct Hin as [prefix Hin]. exists prefix. by apply IH.
    + intros Hx. by apply Hin, IH.
  - intros x Hx. rewrite (IH x Hx). apply Hout. rewrite Hx. naive_solver.
Qed.
End addresses.


(** ** Examples *)

Definition kept : Mapping := fwd "a" 1.
Definition unused : Mapping :=
  set_state (sample_forward "b" (ip4 10 0 0 5) (ip4 192 168 20 2) 8443) false Disabled 0.
Definition edge_kernel : list (Ipv4Addr * string) := [(ip4 10 0 0 5, "32")].
Definition sample_reconciler : Reconciler := mkReconciler linux_default nft_default.

#[local] Existing Instance ipnet_model.
#[local] Existing Instance model_lib.
#[local] Instance shared_env : Env := tool_env "ip" "ens3" edge_kernel.

Definition shared_world : World :=
  (insert_mapping unused (insert_mapping kept sample_world).2).2.
Definition shared_run : Out ReconcileError ReconcileReport * World :=
  reconcile sample_reconciler sample_config default_options shared_world.


(** ** Witnesses *)

Lemma sample_tmp h : with_extension (nft_output default_options) ("tmp-" +:+ env_uuid h) <> nft_output default_options.
Proof. vm_compute. discriminate. Qed.

Lemma atomic_write_old_or_new_witness :
  walks (fun fs => fs !! nft_output default_options = None \/ fs !! nft_output default_options = Some "table")
    (atomic_write (nft_output default_options) "table") kernel_world
    (fun o w' => w_fs w' !! nft_output default_options = match o with Ret _ => Some "table" | _ => None end).
Proof. apply (atomic_write_old_or_new _ _ kernel_world). exact sample_tmp. Defined.

Definition dry_options : ReconcileOptions :=
  mkOptions (nft_output default_options) true true true (xdp default_options).

Lemma dry_run_queries_only_witness :
  match (reconcile sample_reconciler sample_config dry_options shared_world).1 with Ret _ => True | _ => False end /\
  w_log (reconcile sample_reconciler sample_config dry_options shared_world).2 = w_log shared_world ++ [EQuery].
Proof.
  split; [vm_compute; exact I|].
  apply (dry_run_queries_only sample_reconciler sample_config dry_options shared_world eq_refl).
Defined.

Definition shared_report : ReconcileReport :=
  match shared_run.1 with Ret report => report | _ => mkReport "" None [] [] 0 end.

Lemma shared_report_run :
  reconcile sample_reconciler sample_config default_options shared_world = (Ret shared_report, shared_run.2).
Proof. apply run_pair. vm_compute. reflexivity. Qed.

Lemma reconcile_installs_witness :
  nftables_config shared_report <> "" /\
  w_fs shared_run.2 !! nft_output default_options = Some (nftables_config shared_report).
Proof.
  split; [vm_compute; discriminate|].
  destruct (reconcile_installs sample_reconciler sample_config default_options shared_world
    shared_report shared_run.2 sample_tmp eq_refl shared_report_run) as (ms & _ & _ & _ & Hf & _).
  exact Hf.
Defined.

