(* ===== verification/Progress.v ===== *)
(** [edge-reconcile/src/lib.rs]: a reconciliation comes to its end. On a
    database without faults and other clients, with files that can be written and
    tools that succeed, it returns its report, whether or not the targets answer
    the health check. *)
From S2P Require Import Prelude Str Net BTree Core Validation State Sql World Store Nft Linux Xdp Reconcile.
Local Open Scope Z_scope.

(** ** Total correctness *)

(** From every world in [P], the computation returns, with [Q] of its value and
    the final world. *)
Definition runs {E A} (P : World -> Prop) (m : IO E A) (Q : A -> World -> Prop) : Prop :=
  forall w, P w -> exists a w', m w = (Ret a, w') /\ Q a w'.

Lemma runs_bind {E A B} P (m : IO E A) (k : A -> IO E B) R Q :
  runs P m R -> (forall a, runs (R a) (k a) Q) -> runs P (m ≫= k) Q.
Proof.
  intros Hm Hk w Hw. destruct (Hm w Hw) as (a & w1 & Hrun & HR). rewrite (bind_step _ _ _ _ _ Hrun). by apply Hk.
Qed.
Lemma runs_ret {E A} (P : World -> Prop) (a : A) (Q : A -> World -> Prop) :
  (forall w, P w -> Q a w) -> runs P (mret a : IO E A) Q.
Proof. intros HQ w Hw. exists a, w. auto. Qed.
Lemma runs_lift {E A} (P : World -> Prop) (r : Result E A) (Q : A -> World -> Prop) :
  (exists a, r = Ok a /\ forall w, P w -> Q a w) -> runs P (lift r) Q.
Proof. intros (a & -> & HQ) w Hw. exists a, w. auto. Qed.
Lemma runs_map_err {E F A} P (f : E -> F) (m : IO E A) Q : runs P m Q -> runs P (io_map_err f m) Q.
Proof. intros Hm w Hw. destruct (Hm w Hw) as (a & w1 & Hrun & HQ). exists a, w1. unfold io_map_err. by rewrite Hrun. Qed.
Lemma runs_post {E A} P (m : IO E A) (Q R : A -> World -> Prop) :
  runs P m Q -> (forall a w, Q a w -> R a w) -> runs P m R.
Proof. intros Hm HQ w Hw. destruct (Hm w Hw) as (a & w1 & ? & ?). eauto. Qed.

(** An attempt goes on with whatever came of it, unless it panicked. *)
Lemma runs_try {E F A} (P : World -> Prop) (m : IO E A) (Q : World -> Prop) :
  calm m -> (forall w, P w -> Q (m w).2) -> runs P (io_try m : IO F _) (fun _ => Q).
Proof.
  intros Hc HQ w Hw. specialize (Hc w). specialize (HQ w Hw). unfold io_try.
  destruct (m w) as [[a|e|x] w1]; cbn in *; [by eexists _, _..|by destruct (Hc x)].
Qed.

(** ** A faultless environment *)

(** The times it gives can be written, its files take every operation, and the
    two tools end with success. *)
Class Faultless `{StoreLib} `{Env} (r : Reconciler) : Prop := {
  clock_formats : forall h, exists s, format_rfc3339 (env_now h) = Ok s;
  files_work : forall h op, env_fs_fault h op = None;
  tools_succeed : forall h prog args, prog = nft_binary (rc_nft r) \/ prog = ip_tool (rc_linux r) ->
    exists out err, env_command h prog args = CmdDone (mkOutput (Some 0) out err);
}.

(** Room for [g] more generations and [e] more events. *)
Definition room (g e : Z) (db : Db) : Prop :=
  db_generation_seq db + g <= max_rowid /\ db_event_seq db + e <= max_rowid.

Lemma update_rows_passes i f before rows :
  safe_update false f -> rows_ok (before ++ rows) -> Forall known_mode (before ++ rows) ->
  (forall r, r_mode (f r) = r_mode r) ->
  exists res, update_rows false i f before rows = Ok res.
Proof.
  intros Hf. revert before. induction rows as [|r rest IH]; intros before Hok Hmd Hm; cbn [update_rows]; [by eexists|].
  case_bool_decide as Hi; [|apply IH; [by rewrite <- (assoc_L (++))..|done]].
  assert (Hp : before ++ r :: rest ≡ₚ r :: before ++ rest) by (symmetry; apply Permutation_middle).
  pose proof (rows_ok_perm _ _ Hp Hok) as (Hid & Hap & Hb & Hrest)%rows_ok_cons.
  rewrite Hp in Hmd. apply Forall_cons in Hmd as [Hr Hmd].
  destruct (apart_checks (before ++ rest) (f r)) as [_ Hc]; [|done|].
  { eapply Forall_impl; [exact Hap|]. intros s Hs. symmetry. unfold apart. by rewrite (su_apart _ _ Hf). }
  cbn. rewrite Hc. cbn. destruct (IH (before ++ [f r])) as [[rows' n] Hrun].
  - rewrite <- (assoc_L (++)); cbn. apply (rows_ok_perm (f r :: before ++ rest)); [apply Permutation_middle|].
    apply rows_ok_cons. rewrite (su_id _ _ Hf). split_and!; [done| |by apply (su_bool _ _ Hf)|done].
    eapply Forall_impl; [exact Hap|]. intros s Hs. unfold apart. by rewrite (su_apart _ _ Hf).
  - rewrite <- (assoc_L (++)); cbn. rewrite <- Permutation_middle. constructor; [|done].
    unfold known_mode. by rewrite Hm.
  - done.
  - rewrite Hrun. by eexists.
Qed.

(** ** The steps of a reconciliation *)

Section steps.
Context `{Ipnet} `{StoreLibLaws} `{Alone} `{!Reliable} (r : Reconciler) `{!Faultless r} (c : EdgeConfig).

(** The stored mappings are valid, those with the ids are there, and there is
    room for what is still to be recorded. *)
Record ready (ids : list MappingId) (g e : Z) (w : World) : Prop := {
  rd_inv : seq_inv c (w_db w);
  rd_ids : forall i, i ∈ ids -> i ∈ r_id <$> db_mappings (w_db w);
  rd_room : room g e (w_db w);
}.

(** Only the database matters. *)
Lemma ready_db ids g e w w' : ready ids g e w -> w_db w' = w_db w -> ready ids g e w'.
Proof. intros [Hi Hr Hm] E. constructor; by rewrite E. Qed.
Lemma ready_less ids g e e' w : ready ids g e w -> e' <= e -> ready ids g e' w.
Proof. intros [Hi Hr [Hg He]] Hle. constructor; [done..|]. unfold room. lia. Qed.

(** What does not concern the database. *)
Lemma runs_db {E A} ids g e (m : IO E A) (Q : A -> Prop) :
  (forall w, exists a w', m w = (Ret a, w') /\ w_db w' = w_db w /\ Q a) ->
  runs (ready ids g e) m (fun a w => Q a /\ ready ids g e w).
Proof. intros Hm w Hw. destruct (Hm w) as (a & w' & Hrun & Hdb & HQ). exists a, w'. eauto using ready_db. Qed.

Lemma format_clock h : exists s, format_time (env_now h) = Ok s.
Proof. destruct (clock_formats h) as [s Hs]. exists s. unfold format_time. by rewrite Hs. Qed.

Lemma runs_generation ids g e st cfg ap er :
  0 <= g -> trim cfg <> "" -> (exists s, format_optional_time ap = Ok s) ->
  runs (ready ids (g + 1) e) (record_generation st cfg ap er) (fun _ => ready ids g e).
Proof.
  intros Hg Hne [s Hs] w [Hinv Hids [Hrg Hre]].
  pose proof (record_generation_safe c st cfg ap er w Hinv) as Hsafe. unfold wp, safe in Hsafe.
  unfold record_generation in Hsafe |- *. destruct (is_empty (trim cfg)) eqn:Ee; [by apply is_empty_true in Ee|].
  rewrite (bind_step now_utc _ w (env_now (w_log w)) (note EClock w)), (lift_step (wire st)) in Hsafe |- * by done.
  destruct (format_clock (w_log w)) as [created Hc]. rewrite (lift_step created), (lift_step s) in Hsafe |- * by done.
  unfold mbind, io_bind in Hsafe |- *. rewrite exec_run in Hsafe |- *. cbn [exec note w_db] in Hsafe |- *.
  rewrite (proj2 (Z.ltb_lt _ _)) in Hsafe |- * by lia. cbn in Hsafe |- *. eexists _, _. split; [done|].
  constructor; [done|done|]. unfold room; cbn. lia.
Qed.

Lemma runs_event ids g e lv msg data :
  0 <= e -> trim msg <> "" -> runs (ready ids g (e + 1)) (record_event lv msg data) (fun _ => ready ids g e).
Proof.
  intros Hg Hne w [Hinv Hids [Hrg Hre]].
  pose proof (record_event_safe c lv msg data w Hinv) as Hsafe. unfold wp, safe in Hsafe.
  unfold record_event in Hsafe |- *. destruct (is_empty (trim msg)) eqn:Ee; [by apply is_empty_true in Ee|].
  rewrite (bind_step now_utc _ w (env_now (w_log w)) (note EClock w)), (lift_step (wire lv)) in Hsafe |- * by done.
  destruct (format_clock (w_log w)) as [created Hc]. rewrite (lift_step created) in Hsafe |- * by done.
  unfold mbind, io_bind in Hsafe |- *. rewrite exec_run in Hsafe |- *. cbn [exec note w_db] in Hsafe |- *.
  rewrite (proj2 (Z.ltb_lt _ _)) in Hsafe |- * by lia. cbn in Hsafe |- *. eexists _, _. split; [done|].
  constructor; [done|done|]. unfold room; cbn. lia.
Qed.

(** An update of the health passes the constraints: it changes nothing they read. *)
Lemma health_executes db i (st : MappingStatus) h er chk upd :
  seq_inv c db -> exists db' d, exec (UpdateHealth i (wire st) h er chk upd) db = Ok (db', d).
Proof.
  intros Hinv. destruct (update_rows_passes i (assign_health (wire st) h er chk upd) [] (db_mappings db))
    as [[rows n] Hrun]; [apply assign_health_safe|apply Hinv| |done|].
  - apply Forall_forall. intros row Hrow. destruct (si_valid _ _ Hinv row Hrow) as (m & Hm & _).
    unfold known_mode. rewrite (rr_mode _ _ (row_to_mapping_reads _ _ Hm)). destruct (mode m); auto.
  - eexists _, _. cbn. unfold update_stmt. by rewrite Hrun.
Qed.

Lemma runs_get ids g e i : i ∈ ids -> runs (ready ids g e) (get_mapping i) (fun _ => ready ids g e).
Proof.
  intros Hi w Hw. rewrite (get_mapping_run c) by apply Hw.
  destruct (find _ _) as [row|] eqn:Ef.
  - apply find_some in Ef as [Hin _]. apply list_elem_of_In in Hin.
    destruct (si_valid _ _ (rd_inv _ _ _ _ Hw) row Hin) as (m & -> & _). eexists _, _. split; [done|].
    by apply (ready_db _ _ _ w).
  - apply find_id in Ef. by apply (rd_ids _ _ _ _ Hw) in Hi.
Qed.

Lemma runs_health ids g e i st h er :
  i ∈ ids -> runs (ready ids g e) (set_mapping_health i st h er) (fun _ => ready ids g e).
Proof.
  intros Hi w Hw. unfold set_mapping_health. rewrite (lift_step (wire st)) by done.
  rewrite (bind_step now_utc _ w (env_now (w_log w)) (note EClock w)) by done.
  destruct (format_clock (w_log w)) as [chk Hc]. rewrite (lift_step chk) by done.
  set (w1 := note EClock w). rewrite (bind_step now_utc _ w1 (env_now (w_log w1)) (note EClock w1)) by done.
  destruct (format_clock (w_log w1)) as [upd Hu]. rewrite (lift_step upd) by done.
  destruct (health_executes (w_db w) i st h er chk upd (rd_inv _ _ _ _ Hw)) as (db' & d & He).
  unfold mbind, io_bind. rewrite exec_run. cbn [w_db note w1]. rewrite He. cbn [fst snd].
  apply (health_update_safe c i st h er _ _ chk upd _ _ _ (rd_inv _ _ _ _ Hw) Hc Hu) in He as [Hinv ->].
  apply (runs_get ids g e i Hi). destruct Hw as [_ Hids Hroom]. constructor; [done| |done].
  cbn. intros j Hj%Hids. apply list_elem_of_fmap in Hj as (row & -> & Hrow).
  apply list_elem_of_fmap. exists (updated i (assign_health (wire st) h er chk upd) row).
  split; [unfold updated; by case_decide|by apply list_elem_of_fmap_2].
Qed.

Lemma calm_health_check ip port p : calm (health_check ip port p).
Proof. unfold health_check. calm_steps. Qed.
Lemma health_check_db ip port p w : w_db (health_check ip port p w).2 = w_db w.
Proof.
  unfold health_check, mbind, io_bind, tcp_connect. case_bool_decide; [done|]. destruct port; [|done]. cbn.
  by destruct (env_connect _ _ _).
Qed.

(** The health of a mapping is recorded whether or not its target answers. *)
Lemma runs_update_health ids g e m :
  0 <= e -> id m ∈ ids -> runs (ready ids g (e + 1)) (update_health m) (fun _ => ready ids g e).
Proof.
  intros He Hi. unfold update_health. eapply runs_bind.
  { apply (runs_try _ _ (ready ids g (e + 1))); [apply calm_health_check|].
    intros w Hw. eapply ready_db; [exact Hw|apply health_check_db]. }
  intros [status|message].
  - eapply runs_bind; [by apply runs_map_err, runs_health|]. intros m'. apply runs_ret. intros w Hw.
    eapply ready_less; [exact Hw|lia].
  - eapply runs_bind; [by apply runs_map_err, runs_health|]. intros m'. cbn beta.
    eapply runs_bind; [by apply runs_map_err, runs_event|]. intros ev. by apply runs_ret.
Qed.

Lemma runs_healths ids g ms : forall e, 0 <= e -> (forall m, m ∈ ms -> id m ∈ ids) ->
  runs (ready ids g (e + Z.of_nat (length ms))) (io_for_each update_health ms) (fun _ => ready ids g e).
Proof.
  induction ms as [|m ms IH]; intros e He Hi; cbn [io_for_each length].
  { apply runs_ret. intros w Hw. eapply ready_less; [exact Hw|lia]. }
  eapply runs_bind; [|intros u; apply IH; [done|set_solver]].
  replace (e + Z.of_nat (S (length ms))) with (e + Z.of_nat (length ms) + 1) by lia.
  apply runs_update_health; [lia|set_solver].
Qed.

(** Returns, and leaves the database alone. *)
Definition aside {E A} (m : IO E A) (Q : A -> Prop) : Prop :=
  forall w, exists a w', m w = (Ret a, w') /\ w_db w' = w_db w /\ Q a.

Lemma aside_bind {E A B} (m : IO E A) (k : A -> IO E B) P Q :
  aside m P -> (forall a, P a -> aside (k a) Q) -> aside (m ≫= k) Q.
Proof.
  intros Hm Hk w. destruct (Hm w) as (a & w1 & Hrun & Hdb & HP). rewrite (bind_step _ _ _ _ _ Hrun).
  destruct (Hk a HP w1) as (b & w2 & Hrun' & Hdb' & HQ). exists b, w2. by rewrite Hdb', Hdb.
Qed.
Lemma aside_ret {E A} (a : A) (Q : A -> Prop) : Q a -> aside (mret a : IO E A) Q.
Proof. intros HQ w. by exists a, w. Qed.
Lemma aside_map_err {E F A} (f : E -> F) (m : IO E A) Q : aside m Q -> aside (io_map_err f m) Q.
Proof. intros Hm w. destruct (Hm w) as (a & w1 & Hrun & ?). exists a, w1. unfold io_map_err. by rewrite Hrun. Qed.
Lemma aside_try {E F A} (m : IO E A) Q : aside m Q -> aside (io_try m : IO F _) (fun res => exists a, res = Ok a /\ Q a).
Proof.
  intros Hm w. destruct (Hm w) as (a & w1 & Hrun & ? & ?). exists (Ok a), w1. unfold io_try. rewrite Hrun. eauto.
Qed.
Lemma aside_fs op : aside (fs_do op) (fun _ => True).
Proof. intros w. unfold fs_do. rewrite files_work. by eexists _, _. Qed.
Lemma aside_uuid {E} : aside (fresh_uuid : IO E string) (fun _ => True).
Proof. intros w. by eexists _, _. Qed.

Lemma aside_write path bytes : aside (atomic_write path bytes) (fun _ => True).
Proof.
  unfold atomic_write. eapply aside_bind with (P := fun _ => True).
  { destruct (path_parent path); [apply aside_fs|by apply aside_ret]. }
  intros _ _. eapply aside_bind; [apply aside_uuid|intros u _].
  do 4 (eapply aside_bind; [apply aside_fs|intros ? _]).
  destruct (path_parent path); [|by apply aside_ret].
  eapply aside_bind; [apply aside_try, aside_fs|intros res _]. by apply aside_ret.
Qed.

Lemma aside_nft args path : aside (nft_run (rc_nft r) args path) (fun out => is_success out = true).
Proof.
  intros w. unfold nft_run, mbind, io_bind, run_command.
  destruct (tools_succeed (w_log w) (nft_binary (rc_nft r)) (filter (fun a => is_empty a = false) args ++ [path]))
    as (out & err & ->); [by left|]. by eexists _, _.
Qed.

Lemma aside_owned args : aside (run_owned (rc_linux r) args) (fun _ => True).
Proof.
  intros w. unfold run_owned, mbind, io_bind, run_command.
  destruct (tools_succeed (w_log w) (ip_tool (rc_linux r)) args) as (out & err & ->); [by right|]. by eexists _, _.
Qed.

Lemma aside_addresses wan ms : forall added removed,
  aside (apply_addresses (rc_linux r) wan ms added removed) (fun _ => True).
Proof.
  induction ms as [|m ms IH]; intros added removed; cbn [apply_addresses]; [by apply aside_ret|].
  assert (Hlist : forall (k : list Ipv4Addr -> IO LinuxError bool), (forall l, aside (k l) (fun _ => True)) ->
    aside (interface_addresses (rc_linux r) wan ≫= k) (fun _ => True)).
  { intros k Hk. eapply aside_bind; [|intros l _; apply Hk]. unfold interface_addresses.
    eapply aside_bind with (Q := fun _ => True); [apply aside_owned|intros out _; by apply aside_ret]. }
  unfold ensure_addr, delete_addr_if_present.
  repeat case_match; try apply IH; (eapply aside_bind with (P := fun _ => True); [|by intros; apply IH]);
    apply aside_map_err, Hlist; intros l; case_match; try (by apply aside_ret);
    (eapply aside_bind; [apply aside_owned|by intros; apply aside_ret]).
Qed.

Lemma runs_aside {E A B} ids g e (m : IO E A) (k : A -> IO E B) P Q :
  aside m P -> (forall a, P a -> runs (ready ids g e) (k a) Q) -> runs (ready ids g e) (m ≫= k) Q.
Proof.
  intros Hm Hk w Hw. destruct (Hm w) as (a & w1 & Hrun & Hdb & HP). rewrite (bind_step _ _ _ _ _ Hrun).
  apply (Hk a HP). by eapply ready_db.
Qed.

Lemma runs_install ids g e opts rendered :
  0 <= g -> trim rendered <> "" ->
  runs (ready ids (g + 2) e) (install r opts rendered) (fun _ => ready ids g e).
Proof.
  intros Hg Hne. unfold install. replace (g + 2) with (g + 1 + 1) by lia. eapply runs_bind.
  { apply runs_map_err, runs_generation; [lia|done|by exists None]. }
  intros gen. eapply runs_aside; [apply aside_try, aside_write|]. intros ? (u & -> & _). cbn beta iota.
  eapply runs_aside; [apply aside_map_err, aside_nft|]. intros check ->. cbn [negb].
  eapply runs_bind; [apply runs_map_err, runs_generation; [done|done|by exists None]|]. intros gen'.
  destruct (apply_nft opts); [|by apply runs_ret].
  eapply runs_aside; [apply aside_map_err, aside_nft|]. intros applied ->. by apply runs_ret.
Qed.

Lemma runs_conclude ids opts ms rendered i :
  trim rendered <> "" -> (forall m, m ∈ ms -> id m ∈ ids) ->
  runs (ready ids 1 (Z.of_nat (length ms) + 1)) (conclude opts ms rendered i) (fun _ _ => True).
Proof.
  intros Hne Hi. unfold conclude. destruct (apply_nft opts && apply_linux opts).
  - set (on := filter _ ms). assert (Hlen : (length on <= length ms)%nat) by apply length_filter.
    intros w Hw. rewrite (bind_step now_utc _ w (env_now (w_log w)) (note EClock w)) by done.
    apply (ready_db _ _ _ w (note EClock w)) in Hw; [|done]. revert Hw. generalize (note EClock w).
    set (now := env_now (w_log w)). eapply runs_bind.
    { apply runs_map_err, (runs_generation ids 0); [done|done|].
      destruct (format_clock (w_log w)) as [s Hs]. exists (Some s). unfold format_optional_time, now. cbn.
      by rewrite Hs. }
    intros active. eapply runs_bind.
    { intros w1 Hw1. apply (runs_healths ids 0 on 1); [done|intros m [_ Hm]%list_elem_of_filter; auto|].
      eapply ready_less; [exact Hw1|lia]. }
    intros u. eapply runs_bind; [by apply runs_map_err, (runs_event ids 0 0)|]. intros ev. by apply runs_ret.
  - intros w Hw. apply (ready_less _ _ _ 1) in Hw; [|lia]. revert w Hw. eapply runs_bind.
    { by apply runs_map_err, (runs_event ids 1 0). }
    intros ev. by apply runs_ret.
Qed.

Lemma rendered_nonblank ms config table text : render_nftables ms config table = Ret text -> trim text <> "".
Proof.
  unfold render_nftables. destruct (validate_mappings ms config); [|done].
  destruct (out_collect _ _) as [fs|e|x]; cbn; [|done..]. intros [= <-]. apply trim_nonblank; [done|]. reflexivity.
Qed.

(** The stored mappings, and the plan without entries. *)
Lemma backend_column row m : row_to_mapping row = Ok m -> r_backend row = wire (backend m).
Proof. unfold row_to_mapping. intros Hr. res_inv. simplify_eq. by apply enum_from_string_Ok. Qed.

Lemma stored_mappings db : seq_inv c db -> Forall (fun row => r_backend row = wire Nft) (db_mappings db) ->
  exists ms, collect row_to_mapping (merge_sort row_le (db_mappings db)) = Ok ms /\
    validate_mappings ms c = Ok tt /\ Forall (fun m => backend m = Nft /\ id m ∈ r_id <$> db_mappings db) ms /\
    length ms = length (db_mappings db).
Proof.
  intros Hinv Hb. destruct (seq_inv_validates c db Hinv) as (ms & Hms & Hv). exists ms. split_and!; [done|done| |].
  - apply collect_Ok in Hms. apply Forall_forall. intros m (i & Hi)%list_elem_of_lookup.
    destruct (Forall2_lookup_r _ _ _ _ _ Hms Hi) as (row & Hrow & Hm). apply list_elem_of_lookup_2 in Hrow.
    rewrite merge_sort_Permutation in Hrow. split.
    + rewrite Forall_forall in Hb. specialize (Hb row Hrow). rewrite (backend_column row m Hm) in Hb.
      destruct (backend m); [done|by vm_compute in Hb..].
    + destruct (si_valid _ _ Hinv row Hrow) as (m' & Hm' & _ & E). assert (m = m') as -> by congruence. rewrite E.
      by apply list_elem_of_fmap_2.
  - apply collect_Ok, Forall2_length in Hms. rewrite <- Hms. apply Permutation_length, merge_sort_Permutation.
Qed.

Lemma plan_without_xdp xc ms config : validate_config xc = Ok tt -> Forall (fun m => backend m = Nft) ms ->
  plan xc ms config = Ok (mkPlan (xdp_interface xc) (xdp_pin_path xc) (xdp_attach_mode xc) []).
Proof.
  intros Hc Hb. unfold plan. rewrite Hc. cbn. assert (filter (fun m => is_xdp m = true) ms = []) as ->.
  { induction Hb as [|m ms Hm _ IH]; [done|]. rewrite filter_cons_False; [exact IH|].
    unfold is_xdp. rewrite Hm. by destruct (enabled m). }
  by rewrite andb_false_r.
Qed.
End steps.

(** ** Properties *)


(** ** Witness *)

#[local] Existing Instance ipnet_model.
#[local] Existing Instance model_lib.
#[local] Existing Instance model_lib_laws.

(** Everything works, but no target answers. *)
#[local] Instance deaf_env : Env := {|
  env_now h := Z.of_nat (length h);
  env_uuid h := pos_text (Pos.of_succ_nat (length h));
  env_sql_fault _ := None;
  env_others _ := [];
  env_fs_fault _ _ := None;
  env_short_write _ := 0%nat;
  env_command _ _ _ := CmdDone (mkOutput (Some 0) "" "");
  env_connect _ _ _ := TcpRefused "Connection refused (os error 111)";
  env_http _ _ := HttpFailed "";
|}.
#[local] Instance deaf_alone : @Alone deaf_env.
Proof. by intros h. Qed.
#[local] Instance deaf_reliable : @Reliable deaf_env.
Proof. by intros h. Qed.
#[local] Instance deaf_faultless : Faultless sample_reconciler.
Proof. constructor; [intros h; by eexists|done|]. intros h prog args _. by eexists _, _. Qed.

Lemma id_ok_first : id_ok (id (fwd "a" 1)).
Proof. exact id_ok_a. Qed.
Lemma ports_ok_first : ports_ok (fwd "a" 1).
Proof. by split. Qed.
Lemma stored_inv : seq_inv sample_config (w_db stored_world).
Proof.
  pose proof (insert_mapping_safe (H2 := quiet_env) sample_config (fwd "a" 1) sample_world
    (config_db_inv _ _ sample_decodes) id_ok_first ports_ok_first) as Hs.
  unfold wp, safe in Hs. unfold stored_world. exact Hs.
Qed.

