(* ===== verification/Deployed.v ===== *)
(** What a reconciliation leaves on the machine: the table that [nft] last loaded, as
    the log of effects says, forwards packets as the stored mappings say. This joins
    [Store], [Reconcile], [Nft] and [Linux]. *)
From S2P Require Import Prelude Str Net BTree Core Validation State Sql World Store Nft Linux Xdp Reconcile.
Local Open Scope Z_scope.

(** ** The table of the kernel *)

Section table.
Context `{Env} (nft : string).

(** The file from which a command that succeeded has loaded the table. *)
Definition loads (e : Effect) : option string :=
  match e with
  | ECommand program ["-f"; path] r => if String.eqb program nft && succeeded r then Some path else None
  | _ => None
  end.
(** The text of the table after some effects; [h] and [fs] are the history and the
    files before them. *)
Fixpoint table_after (h : History) (fs : gmap string string) (t : option string) (effs : History) : option string :=
  match effs with
  | [] => t
  | e :: effs =>
      table_after (h ++ [e]) (file_step h fs e) (match loads e with Some path => fs !! path | None => t end) effs
  end.

Lemma table_after_app h fs t e1 e2 :
  table_after h fs t (e1 ++ e2) = table_after (h ++ e1) (replay h fs e1) (table_after h fs t e1) e2.
Proof.
  revert h fs t. induction e1 as [|e e1 IH]; intros h fs t; cbn; [by rewrite List.app_nil_r|].
  rewrite IH. by rewrite <- (assoc_L (++)).
Qed.

(** A run that takes the table from [t] to [t']. *)
Definition tables (t t' : option string) (w w' : World) : Prop :=
  exists effs, w_log w' = w_log w ++ effs /\ replay (w_log w) (w_fs w) effs = w_fs w' /\
    table_after (w_log w) (w_fs w) t effs = t'.

Lemma tables_trans t1 t2 t3 w1 w2 w3 : tables t1 t2 w1 w2 -> tables t2 t3 w2 w3 -> tables t1 t3 w1 w3.
Proof.
  intros (e1 & L1 & R1 & T1) (e2 & L2 & R2 & T2). exists (e1 ++ e2).
  rewrite replay_app, table_after_app, R1, T1, <- L1. split_and!; [by rewrite L2, L1, (assoc_L (++))|done|done].
Qed.
Lemma tables_one t w w' e : w_log w' = w_log w ++ [e] -> file_step (w_log w) (w_fs w) e = w_fs w' ->
  tables t (match loads e with Some path => w_fs w !! path | None => t end) w w'.
Proof. intros Hl Hf. by exists [e]. Qed.

(** The table stays, whatever it is. *)
Definition quiet (w w' : World) : Prop := forall t, tables t t w w'.
#[export] Instance quiet_preorder : PreOrder quiet.
Proof.
  split; [intros w t; exists []; by rewrite List.app_nil_r|].
  intros w1 w2 w3 H1 H2 t. by eapply tables_trans.
Qed.
Lemma quiet_one w w' e :
  w_log w' = w_log w ++ [e] -> file_step (w_log w) (w_fs w) e = w_fs w' -> loads e = None -> quiet w w'.
Proof. intros Hl Hf He t. pose proof (tables_one t w w' e Hl Hf) as Ht. by rewrite He in Ht. Qed.

Lemma quiet_query {A} (q : Db -> A) : preserves quiet (sql_query q).
Proof. intros w. unfold sql_query. cbn zeta. case_match; by eapply quiet_one. Qed.
Lemma quiet_exec s : preserves quiet (sql_exec s).
Proof.
  intros w. unfold sql_exec. cbn zeta. case_match; [by eapply quiet_one|].
  destruct (exec _ _) as [[]|]; by eapply quiet_one.
Qed.
Lemma quiet_now {E} : preserves quiet (now_utc : IO E _).
Proof. intros w. by eapply quiet_one. Qed.
Lemma quiet_uuid {E} : preserves quiet (fresh_uuid : IO E _).
Proof. intros w. by eapply quiet_one. Qed.
Lemma quiet_connect {E} ip port : preserves quiet (tcp_connect ip port : IO E _).
Proof. intros w. by eapply quiet_one. Qed.
Lemma quiet_fs op : preserves quiet (fs_do op).
Proof. intros w. unfold fs_do. case_match; by eapply quiet_one. Qed.
Lemma quiet_command {E} program args : head args <> Some "-f" -> preserves quiet (run_command program args : IO E _).
Proof.
  intros Hargs w. eapply quiet_one; [done..|]. destruct args as [|a [|b [|c l]]]; cbn in *; try done.
  all: by repeat case_match; subst.
Qed.
End table.
#[export] Hint Resolve quiet_query quiet_exec quiet_now quiet_uuid quiet_connect quiet_fs : io.

(** ** The reconciliation *)

Section reconciliation.
Context `{Ipnet} `{StoreLib} `{Env} (nft : string).

Lemma quiet_generation st cfg ap er : preserves (quiet nft) (record_generation st cfg ap er).
Proof. apply through_record_generation; auto with io. Qed.

Lemma quiet_conclude opts ms rendered i : preserves (quiet nft) (conclude opts ms rendered i).
Proof.
  unfold conclude. case_match.
  - apply preserves_bind; [apply _|auto with io|]. intros now.
    apply preserves_bind; [apply _|apply preserves_map_err, quiet_generation|]. intros active.
    apply preserves_bind; [apply _| |intros _].
    { apply preserves_for_each; [apply _|]. intros m _. apply through_update_health; auto with io. }
    apply preserves_bind; [apply _|apply preserves_map_err, through_record_event|]; auto with io.
  - apply preserves_bind; [apply _|apply preserves_map_err, through_record_event|]; auto with io.
Qed.

Lemma quiet_addresses l wan ms added removed : preserves (quiet nft) (apply_addresses l wan ms added removed).
Proof.
  apply through_apply_addresses; auto with io. intros E args Ha. apply quiet_command. set_solver.
Qed.

Lemma quiet_check t path : preserves (quiet nft) (check_file t path).
Proof.
  unfold check_file, nft_run. apply preserves_bind; [apply _|by apply quiet_command|].
  intros [|m|o]; auto with io.
Qed.

(** A load that succeeds makes the file the table. *)
Lemma loaded tool path w o w' t : nft = nft_binary tool -> apply_file tool path w = (Ret o, w') -> is_success o = true ->
  tables nft t (w_fs w !! path) w w'.
Proof.
  intros -> Hrun Ho. unfold apply_file, nft_run in Hrun. apply bind_Ret in Hrun as (reply & w1 & Hr & Hk).
  destruct reply as [|m|o']; [done|done|]. injection Hk as -> <-. injection Hr as Hr <-.
  pose proof (tables_one (nft_binary tool) t w (note (ECommand (nft_binary tool) ["-f"; path] (CmdDone o)) w) _ eq_refl eq_refl) as Ht.
  cbn [loads succeeded] in Ht. rewrite String.eqb_refl, Ho in Ht. cbn [andb] in Ht. by rewrite Hr.
Qed.

(** An installation that returns leaves the ruleset in the table. *)
Lemma install_tables r opts rendered w i w' t :
  nft = nft_binary (rc_nft r) -> apply_nft opts = true ->
  (forall h, with_extension (nft_output opts) ("tmp-" +:+ env_uuid h) <> nft_output opts) ->
  install r opts rendered w = (Ret i, w') -> tables nft t (Some rendered) w w'.
Proof.
  intros Hbin Hnft Htmp. unfold install, core. intros (gen & w1 & Hg%map_err_Ret & (res & w2 & Hw & Hk)%bind_Ret)%bind_Ret.
  pose proof (ran _ _ _ _ _ Hg (quiet_generation _ _ _ _)) as Q1.
  destruct res as [u|m]; [|by apply bind_Ret in Hk as (? & ? & _ & [=])].
  assert (Q2 : quiet nft w1 w2).
  { eapply ran; [exact Hw|]. apply preserves_try, through_atomic_write; auto with io. }
  assert (Hf : w_fs w2 !! nft_output opts = Some rendered).
  { unfold io_try in Hw. destruct (atomic_write _ _ w1) as [[u'|e|x] w1'] eqn:E; [|done..].
    injection Hw as _ <-. by eapply written. }
  apply bind_Ret in Hk as (check & w3 & Hc%map_err_Ret & Hk).
  pose proof (ran _ _ _ _ _ Hc (quiet_check _ _)) as Q3. pose proof (ran _ _ _ _ _ Hc (same_fs_nft _ _ _)) as F3.
  destruct (negb _); [by apply bind_Ret in Hk as (? & ? & _ & [=])|].
  apply bind_Ret in Hk as (gen' & w4 & Hg'%map_err_Ret & Hk).
  pose proof (ran _ _ _ _ _ Hg' (quiet_generation _ _ _ _)) as Q4.
  assert (F4 : same_fs w3 w4) by (eapply ran; [exact Hg'|apply through_record_generation; auto with io]).
  rewrite Hnft in Hk. apply bind_Ret in Hk as (applied & w5 & Ha%map_err_Ret & Hk).
  destruct (is_success applied) eqn:Es; [|by apply bind_Ret in Hk as (? & ? & _ & [=])]. injection Hk as _ <-.
  pose proof (loaded _ _ _ _ _ t Hbin Ha Es) as Q5. unfold same_fs in *. rewrite F4, F3, Hf in Q5.
  eapply tables_trans; [apply Q1|]. eapply tables_trans; [apply Q2|]. eapply tables_trans; [apply Q3|].
  eapply tables_trans; [apply Q4|exact Q5].
Qed.

Lemma reconcile_tables r config opts w report w' t :
  nft = nft_binary (rc_nft r) -> dry_run opts = false -> apply_nft opts = true ->
  (forall h, with_extension (nft_output opts) ("tmp-" +:+ env_uuid h) <> nft_output opts) ->
  reconcile r config opts w = (Ret report, w') -> tables nft t (Some (nftables_config report)) w w'.
Proof.
  intros Hbin Hdry Hnft Htmp Hrun.
  destruct (reconcile_steps r config opts w report w' Hdry Hrun) as (ms & [_ _ (i & w1 & al & w2 & g & Hi & Ha & Hc) _ _]).
  assert (Q1 : quiet nft w (list_mappings w).2) by (by apply through_list_mappings; auto with io).
  pose proof (install_tables _ _ _ _ _ _ t Hbin Hnft Htmp Hi) as Q2.
  assert (Q3 : quiet nft w1 w2) by (eapply ran; [exact Ha|case_match; [apply quiet_addresses|apply preserves_ret, _]]).
  pose proof (ran _ _ _ _ _ Hc (quiet_conclude _ _ _ _)) as Q4.
  eapply tables_trans; [apply Q1|]. eapply tables_trans; [exact Q2|]. eapply tables_trans; [apply Q3|apply Q4].
Qed.
End reconciliation.

(** ** The addresses of the interface *)

(** The addresses that the mappings last want are there, those they refuse are not. *)
Definition addresses_follow (ms : list Mapping) (on : list (Ipv4Addr * string)) : Prop := forall ip,
  match wanted ms ip with
  | Some true => exists prefix, (ip, prefix) ∈ on
  | Some false => (ip, "32") ∉ on
  | None => True
  end.

Section addresses.
Context `{IpTool} `{Ipnet} `{StoreLib}.

Definition same_kernel (w w' : World) : Prop :=
  kernel_after tool interface init (w_log w') = kernel_after tool interface init (w_log w).
#[export] Instance same_kernel_preorder : PreOrder same_kernel.
Proof. split; [done|]. intros w1 w2 w3 R12 R23. unfold same_kernel in *. congruence. Qed.

Lemma same_kernel_one w w' e :
  w_log w' = w_log w ++ [e] -> (forall s, kernel_step tool interface s e = s) -> same_kernel w w'.
Proof. intros Hl He. unfold same_kernel. by rewrite Hl, kernel_after_snoc, He. Qed.

Lemma same_kernel_exec s : preserves same_kernel (sql_exec s).
Proof.
  intros w. unfold sql_exec. cbn zeta. case_match; [by eapply same_kernel_one|].
  destruct (exec _ _) as [[]|]; by eapply same_kernel_one.
Qed.
Lemma same_kernel_query {A} (q : Db -> A) : preserves same_kernel (sql_query q).
Proof. intros w. unfold sql_query. cbn zeta. case_match; by eapply same_kernel_one. Qed.
Lemma same_kernel_now {E} : preserves same_kernel (now_utc : IO E _).
Proof. intros w. by eapply same_kernel_one. Qed.
Lemma same_kernel_connect {E} ip port : preserves same_kernel (tcp_connect ip port : IO E _).
Proof. intros w. by eapply same_kernel_one. Qed.
#[local] Hint Resolve same_kernel_query same_kernel_exec same_kernel_now same_kernel_connect : io.

Lemma same_kernel_conclude opts ms rendered i : preserves same_kernel (conclude opts ms rendered i).
Proof.
  unfold conclude. case_match.
  - apply preserves_bind; [apply _|auto with io|]. intros now.
    apply preserves_bind; [apply _|apply preserves_map_err, through_record_generation; auto with io|]. intros active.
    apply preserves_bind; [apply _| |intros _].
    { apply preserves_for_each; [apply _|]. intros m _. apply through_update_health; auto with io. }
    apply preserves_bind; [apply _|apply preserves_map_err, through_record_event|]; auto with io.
  - apply preserves_bind; [apply _|apply preserves_map_err, through_record_event|]; auto with io.
Qed.

Lemma reconcile_addresses r config opts w report w' ms :
  tool = ip_tool (rc_linux r) -> interface = wan_interface config -> apply_linux opts = true ->
  reconciled r config opts w report w' ms -> addresses_follow ms (kernel_after tool interface init (w_log w')).
Proof.
  intros Ht Hi Hl [_ _ (i & w1 & al & w2 & g & _ & Ha & Hc) _ _] ip. rewrite Hl, <- Hi in Ha.
  pose proof (apply_addresses_sets (rc_linux r) Ht ms _ _ _ _ _ Ha ip) as Hset.
  pose proof (ran _ _ _ _ _ Hc (same_kernel_conclude _ _ _ _)) as Hk. unfold same_kernel in Hk. rewrite Hk.
  destruct (wanted ms ip) as [[]|]; [|by destruct Hset as (? & ? & _)|done]. by destruct Hset as (? & ? & _).
Qed.
End addresses.

(** ** Properties *)

(** The table holds the text of a ruleset that sends every packet where [send] says. *)
Definition table_sends `{Ipnet} `{NftEval} (t : option string) (send : Packet -> option (Ipv4Addr * option Z)) : Prop :=
  exists rs, t = Some (print_ruleset render_table rs) /\ forall p, dnat (rs_forwards rs) (rs_elements rs) p = send p.

Lemma rendered_sends `{Ipnet} `{NftEvalLaws} ms config text :
  render_nftables ms config render_table = Ret text ->
  validate_mappings ms config = Ok tt /\ table_sends (Some text) (fun p => destination <$> find (receives config p) ms).
Proof.
  intros Hr. assert (Hv : validate_mappings ms config = Ok tt).
  { unfold render_nftables in Hr. by destruct (validate_mappings ms config) as [[]|]. }
  split; [done|]. rewrite (render_prints _ _ _ Hv) in Hr. injection Hr as <-. exists (ruleset ms config). split; [done|].
  apply validate_mappings_Ok in Hv as [Hv Hc]. intros p. apply ruleset_forwards; [|done].
  eapply Forall_impl; [exact Hv|]. by intros m [].
Qed.


(** *** One client *)

Section one_client.
Context `{Ipnet} `{StoreLibLaws} `{Alone}.

(** What is listed is what the rows hold, and passes the validation. *)
Lemma listed_rows c w ms : seq_inv c (w_db w) -> (list_mappings w).1 = Ret ms ->
  Forall2 (fun r m => row_to_mapping r = Ok m) (merge_sort row_le (db_mappings (w_db w))) ms /\
  validate_mappings ms c = Ok tt.
Proof.
  intros Hinv Hl. pose proof (list_mappings_run c w Hinv) as Hrun. unfold wp in Hrun.
  destruct (list_mappings w) as [o w1]. cbn in Hl. subst o. destruct Hrun as (_ & Hc%collect_Ok & Hv). done.
Qed.
Lemma stored_listed c w ms m row : seq_inv c (w_db w) -> (list_mappings w).1 = Ret ms ->
  row ∈ db_mappings (w_db w) -> row_to_mapping row = Ok m -> m ∈ ms.
Proof.
  intros Hinv Hl Hrow Hm. destruct (listed_rows c w ms Hinv Hl) as [Hall _].
  rewrite <- (merge_sort_Permutation row_le) in Hrow. apply list_elem_of_lookup in Hrow as (k & Hk).
  destruct (Forall2_lookup_l _ _ _ _ _ Hall Hk) as (m' & Hm' & Hd). rewrite Hm in Hd. injection Hd as ->.
  by eapply list_elem_of_lookup_2.
Qed.
Lemma listed_stored c w ms m : seq_inv c (w_db w) -> (list_mappings w).1 = Ret ms -> m ∈ ms ->
  exists row, row ∈ db_mappings (w_db w) /\ row_to_mapping row = Ok m /\ r_id row = id m.
Proof.
  intros Hinv Hl (k & Hk)%list_elem_of_lookup. destruct (listed_rows c w ms Hinv Hl) as [Hall _].
  destruct (Forall2_lookup_r _ _ _ _ _ Hall Hk) as (row & Hrow & Hd).
  assert (Hin : row ∈ db_mappings (w_db w)) by (rewrite <- (merge_sort_Permutation row_le); by eapply list_elem_of_lookup_2).
  exists row. split_and!; [done|done|]. destruct (si_valid _ _ Hinv row Hin) as (m' & Hm' & _ & Hid). congruence.
Qed.

(** Of valid mappings, the one that takes a packet is the one found. *)
Lemma found_receiver c ms m p : validate_mappings ms c = Ok tt -> m ∈ ms -> receives c p m = true ->
  find (receives c p) ms = Some m.
Proof.
  intros [_ Hc]%validate_mappings_Ok Hm Hp. destruct (find (receives c p) ms) as [m'|] eqn:Ef.
  - apply find_some in Ef as [Hm' Hp']. apply list_elem_of_In in Hm'. f_equal. by apply (receives_unique c ms Hc p).
  - apply list_elem_of_In in Hm. by rewrite (find_none _ _ Ef m Hm) in Hp.
Qed.

Lemma deleted_rows i w m w1 : delete_mapping i w = (Ret m, w1) ->
  (exists row, row ∈ db_mappings (w_db w) /\ r_id row = i /\ row_to_mapping row = Ok m) /\
  db_mappings (w_db w1) = filter (fun r => r_id r <> i) (db_mappings (w_db w)).
Proof.
  unfold delete_mapping. intros (m' & w2 & Hg & (d & w3 & Hd & [= -> <-])%bind_Ret)%bind_Ret.
  apply bind_Ret in Hg as (orow & w4 & Hq%map_err_Ret & Hg). unfold sql_query in Hq.
  rewrite interfere_alone in Hq. destruct (env_sql_fault _); [done|]. injection Hq as <- <-.
  apply bind_Ret in Hg as (row & w5 & Hrow & Hm). unfold lift in Hrow, Hm.
  destruct (find _ _) as [row'|] eqn:Ef; [|done]. injection Hrow as <- <-.
  destruct (row_to_mapping row') as [m''|] eqn:Er; [|done]. injection Hm as -> <-.
  apply find_some in Ef as [Hin Hid%bool_decide_eq_true]. apply list_elem_of_In in Hin.
  split; [by exists row'|]. apply map_err_Ret in Hd. unfold sql_exec in Hd. rewrite interfere_alone in Hd.
  destruct (env_sql_fault _); [done|]. cbn in Hd. by injection Hd as _ <-.
Qed.
End one_client.

(** A reconciliation that applies the ruleset and returns. *)
Record applies `{Ipnet} `{StoreLib} `{Env} (r : Reconciler) (config : EdgeConfig) (opts : ReconcileOptions) (w : World)
    (report : ReconcileReport) (w' : World) : Prop := {
  ap_dry : dry_run opts = false;
  ap_nft : apply_nft opts = true;
  ap_tmp : forall h, with_extension (nft_output opts) ("tmp-" +:+ env_uuid h) <> nft_output opts;
  ap_run : reconcile r config opts w = (Ret report, w');
}.
Lemma applied_table `{Ipnet} `{StoreLib} `{Env} `{NftEval, !NftEvalLaws} r config opts w report w' :
  applies r config opts w report w' ->
  exists ms effs, (list_mappings w).1 = Ret ms /\ w_log w' = w_log w ++ effs /\
    forall t, table_sends (table_after (nft_binary (rc_nft r)) (w_log w) (w_fs w) t effs)
      (fun p => destination <$> find (receives config p) ms).
Proof.
  intros [Hdry Hnft Htmp Hrun].
  destruct (reconcile_steps r config opts w report w' Hdry Hrun) as (ms & Hrd).
  destruct (reconcile_tables _ r config opts w report w' None eq_refl Hdry Hnft Htmp Hrun) as (effs & Hl & _ & _).
  exists ms, effs. split_and!; [apply Hrd|exact Hl|].
  intros t. destruct (reconcile_tables _ r config opts w report w' t eq_refl Hdry Hnft Htmp Hrun) as (effs' & Hl' & _ & Htab).
  rewrite Hl in Hl'. apply app_inv_head in Hl' as <-. rewrite Htab. eapply rendered_sends, Hrd.
Qed.



(** *** Rolling back *)

(** C14: a rollback that returns puts back the ruleset of the generation it names:
    nft has loaded the text that is stored for it, whatever it had loaded before. *)
Theorem rollback_restores_generation `{Ipnet} `{StoreLib} `{Env} r i path w w'
    (Htmp : forall h, with_extension path ("tmp-" +:+ env_uuid h) <> path) (Hrun : rollback r i path w = (Ret tt, w')) :
  exists g effs, (get_generation i w).1 = Ret g /\ w_log w' = w_log w ++ effs /\
    forall t, table_after (nft_binary (rc_nft r)) (w_log w) (w_fs w) t effs = Some (g_config g).
Proof.
  unfold rollback, core in Hrun. apply bind_Ret in Hrun as (g & w1 & Hg%map_err_Ret & (u & w2 & Hw%map_err_Ret & Hk)%bind_Ret).
  apply bind_Ret in Hk as (check & w3 & Hc%map_err_Ret & Hk).
  set (nft := nft_binary (rc_nft r)).
  assert (Q1 : quiet nft w w1) by (eapply ran; [exact Hg|apply through_get_generation; auto with io]).
  assert (Q2 : quiet nft w1 w2) by (eapply ran; [exact Hw|apply through_atomic_write; auto with io]).
  pose proof (written _ _ _ _ _ Htmp Hw) as Hf.
  pose proof (ran _ _ _ _ _ Hc (quiet_check nft _ _)) as Q3. pose proof (ran _ _ _ _ _ Hc (same_fs_nft _ _ _)) as F3.
  destruct (negb _); [by apply bind_Ret in Hk as (? & ? & _ & [=])|].
  apply bind_Ret in Hk as (applied & w4 & Ha%map_err_Ret & Hk).
  destruct (is_success applied) eqn:Es; [cbn [negb] in Hk|by apply bind_Ret in Hk as (? & ? & _ & [=])].
  apply bind_Ret in Hk as (ev & w5 & He%map_err_Ret & [= <-]).
  assert (Q5 : quiet nft w4 w5) by (eapply ran; [exact He|apply through_record_event; auto with io]).
  assert (Hall : forall t, tables nft t (Some (g_config g)) w w5).
  { intros t. pose proof (loaded nft _ _ _ _ _ t eq_refl Ha Es) as Q4. unfold same_fs in F3. rewrite F3, Hf in Q4.
    eapply tables_trans; [apply Q1|]. eapply tables_trans; [apply Q2|]. eapply tables_trans; [apply Q3|].
    eapply tables_trans; [exact Q4|apply Q5]. }
  destruct (Hall None) as (effs & Hl & _ & _). exists g, effs. split_and!; [by rewrite Hg|exact Hl|].
  intros t. destruct (Hall t) as (effs' & Hl' & _ & Ht). rewrite Hl in Hl'. by apply app_inv_head in Hl' as <-.
Qed.

(** ** Witnesses *)

#[local] Existing Instance ipnet_model.
#[local] Existing Instance model_lib.
#[local] Existing Instance model_lib_laws.
#[local] Existing Instance nft_model.
#[local] Existing Instance nft_model_laws.

Definition machine : Env := tool_env "ip" "ens3" [].
#[local] Existing Instance machine.
#[local] Instance machine_tool : IpTool "ip" "ens3" [] := tool_env_lists "ip" "ens3" [].
#[local] Instance machine_alone : @Alone machine.
Proof. by intros h. Qed.
#[local] Instance machine_reliable : @Reliable machine.
Proof. by intros h. Qed.

(** A forward of port 443 is created and applied; or created, deleted, and the rest applied. *)
Definition web : Mapping := fwd "a" 1.
Definition web_packet : Packet := mkPacket "ens3" (mkFlow (ip4 10 0 0 5) (L4Tcp 443)).
Definition created : World := (insert_mapping web sample_world).2.
Definition apply_to (w : World) : Out ReconcileError ReconcileReport * World :=
  reconcile sample_reconciler sample_config default_options w.
Definition report_of (w : World) : ReconcileReport :=
  match (apply_to w).1 with Ret report => report | _ => mkReport "" None [] [] 0 end.
Definition deleted : World := (delete_mapping "a" created).2.

Lemma created_run : insert_mapping web sample_world = (Ret tt, created).
Proof. apply (run_pair (insert_mapping web) sample_world (Ret tt)). vm_compute. reflexivity. Qed.
Lemma created_applied : reconcile sample_reconciler sample_config default_options created =
  (Ret (report_of created), (apply_to created).2).
Proof.
  apply (run_pair (reconcile sample_reconciler sample_config default_options) created (Ret (report_of created))).
  vm_compute. reflexivity.
Qed.
Lemma deleted_run : delete_mapping "a" created = (Ret web, deleted).
Proof. apply (run_pair (delete_mapping "a") created (Ret web)). vm_compute. reflexivity. Qed.
Lemma deleted_applied : reconcile sample_reconciler sample_config default_options deleted =
  (Ret (report_of deleted), (apply_to deleted).2).
Proof.
  apply (run_pair (reconcile sample_reconciler sample_config default_options) deleted (Ret (report_of deleted))).
  vm_compute. reflexivity.
Qed.
Lemma machine_tmp h : with_extension (nft_output default_options) ("tmp-" +:+ env_uuid h) <> nft_output default_options.
Proof. vm_compute. discriminate. Qed.

Lemma web_wf : mapping_wf web.
Proof. apply fwd_wf, id_ok_a. Qed.
Lemma created_inv : seq_inv sample_config (w_db created).
Proof.
  pose proof (insert_mapping_safe sample_config web sample_world (config_db_inv _ _ sample_decodes) id_ok_a
    ltac:(by split)) as Hs.
  unfold wp, safe in Hs. exact Hs.
Qed.




(** The generation that the first reconciliation rendered. *)
Definition back_to (w : World) : Out ReconcileError unit * World :=
  rollback sample_reconciler 1 (nft_output default_options) w.
Lemma back_run : rollback sample_reconciler 1 (nft_output default_options) (apply_to created).2 =
  (Ret tt, (back_to (apply_to created).2).2).
Proof.
  apply (run_pair (rollback sample_reconciler 1 (nft_output default_options)) (apply_to created).2 (Ret tt)).
  vm_compute. reflexivity.
Qed.

Lemma rollback_restores_generation_witness :
  exists g effs, w_log (back_to (apply_to created).2).2 = w_log (apply_to created).2 ++ effs /\
    (get_generation 1 (apply_to created).2).1 = Ret g /\
    table_after "nft" (w_log (apply_to created).2) (w_fs (apply_to created).2) None effs = Some (g_config g).
Proof.
  destruct (rollback_restores_generation sample_reconciler 1 (nft_output default_options) (apply_to created).2
    (back_to (apply_to created).2).2 machine_tmp back_run) as (g & effs & Hg & Hl & Ht).
  exists g, effs. split; [exact Hl|]. split; [exact Hg|]. apply Ht.
Defined.
