(* ===== verification/Migrate.v ===== *)
(** [SqliteStore::connect] of [edge-store/src/lib.rs]: opening the database, and
    the migration of older ones to the tables and constraints that the statements
    of [Store] rely on. Unlike there, the tables are generic here: columns by name,
    rows as maps of values, indexes and triggers by name. No other client runs
    during a migration. *)
From Stdlib Require Import Ascii.
From S2P Require Import Prelude Str Net BTree Core Validation State Sql World Store Nft Linux Xdp Reconcile.
Local Open Scope Z_scope.

(** ** Tables *)

Inductive Value := VNull | VInt (z : Z) | VText (s : string).
#[export] Instance Value_eq_dec : EqDecision Value.
Proof. solve_decision. Defined.

Abbreviation Row := (gmap string Value).
Definition cell (column : string) (r : Row) : Value := default VNull (r !! column).

(** [col_text] is what the column's definition says after its name. *)
Record Column := mkColumn {
  col_name : string;
  col_text : string;
  col_not_null : bool;
  col_default : Value;
}.
(** [tb_sql] is the text in [sqlite_master]. *)
Record Table := mkTable { tb_sql : string; tb_columns : list Column; tb_rows : list Row }.

(** A unique index; the origin is [pk], [u] or, of a statement, [c]. *)
Record Index := mkIdx {
  di_name : string;
  di_table : string;
  di_origin : string;
  di_columns : list string;
  di_where : Row -> bool;
}.
(** Triggers by name, with their tables. *)
Record Schema := mkSchema {
  sc_tables : gmap string Table;
  sc_indexes : list Index;
  sc_triggers : gmap string string;
}.

Definition column_names (t : Table) : list string := col_name <$> tb_columns t.
Definition has_column (t : Table) (column : string) : bool := bool_decide (column ∈ column_names t).

(** Two NULLs differ. *)
Definition same_cell (a b : Value) : bool := bool_decide (a = b) && negb (bool_decide (a = VNull)).
Definition index_clash (ix : Index) (r s : Row) : bool :=
  di_where ix r && di_where ix s && forallb (fun c => same_cell (cell c r) (cell c s)) (di_columns ix).
Fixpoint index_holds (ix : Index) (rows : list Row) : bool :=
  match rows with
  | [] => true
  | r :: rest => negb (existsb (index_clash ix r) rest) && index_holds ix rest
  end.
Definition null_violated (t : Table) (r : Row) : bool :=
  existsb (fun c => col_not_null c && bool_decide (cell (col_name c) r = VNull)) (tb_columns t).

(** ** Statements *)

Inductive DdlFailure :=
  | NoTable (name : string)
  | NameTaken (name : string)
  | NoColumn (name : string)
  | DuplicateColumn (name : string)
  | NullNotAllowed
  | NotUnique.

Inductive Ddl :=
  | CreateTable (name : string) (t : Table) (keys : list Index)
  | RenameTable (from to : string)
  | CopyMappings
  | DropTable (name : string)
  | AddColumn (table : string) (c : Column)
  | CreateIndex (ix : Index)
  | CreateTrigger (name table : string).

(** The columns that the copy selects from the old table. *)
Definition carried : list string :=
  ["id"; "name"; "public_ip"; "oci_public_ip_ocid"; "edge_private_ip"; "oci_private_ip_ocid"; "target_ip";
   "target_port"; "protocol"; "mode"; "enabled"; "status"; "last_error"; "health_status"; "last_checked_at";
   "created_at"; "updated_at"].
Definition upgrade (r : Row) : Row :=
  <["public_port" := VNull]> (<["backend" := VText "nft"]> (list_to_map ((fun c => (c, cell c r)) <$> carried))).
Definition old_table : string := "mappings_old_unique".

(** The text with the column before the closing parenthesis. *)
Definition sql_with_column (sql : string) (c : Column) : string :=
  of_chars (removelast (chars sql)) +:+ "," +:+ (" " +:+ col_name c +:+ " " +:+ col_text c +:+ ")").
Definition add_column (c : Column) (t : Table) : Table :=
  mkTable (sql_with_column (tb_sql t) c) (tb_columns t ++ [c]) (insert (col_name c) (col_default c) <$> tb_rows t).

Definition set_table (name : string) (t : Table) (s : Schema) : Schema :=
  mkSchema (<[name := t]> (sc_tables s)) (sc_indexes s) (sc_triggers s).
Definition rename_to (from to name : string) : string := if bool_decide (name = from) then to else name.

Definition exec_ddl (d : Ddl) (s : Schema) : Result DdlFailure Schema :=
  match d with
  | CreateTable name t keys =>
      match sc_tables s !! name with
      | Some _ => Ok s
      | None => Ok (mkSchema (<[name := t]> (sc_tables s)) (sc_indexes s ++ keys) (sc_triggers s))
      end
  | RenameTable from to =>
      t ← ok_or (sc_tables s !! from) (NoTable from);
      match sc_tables s !! to with
      | Some _ => Err (NameTaken to)
      | None => Ok (mkSchema (<[to := t]> (delete from (sc_tables s)))
          ((fun ix => mkIdx (di_name ix) (rename_to from to (di_table ix)) (di_origin ix) (di_columns ix) (di_where ix))
             <$> sc_indexes s)
          (rename_to from to <$> sc_triggers s))
      end
  | CopyMappings =>
      old ← ok_or (sc_tables s !! old_table) (NoTable old_table);
      new ← ok_or (sc_tables s !! "mappings") (NoTable "mappings");
      match find (fun c => negb (has_column old c)) carried with
      | Some c => Err (NoColumn c)
      | None =>
          let rows := tb_rows new ++ (upgrade <$> tb_rows old) in
          if existsb (null_violated new) rows then Err NullNotAllowed
          else if forallb (fun ix => negb (bool_decide (di_table ix = "mappings")) || index_holds ix rows) (sc_indexes s)
          then Ok (set_table "mappings" (mkTable (tb_sql new) (tb_columns new) rows) s)
          else Err NotUnique
      end
  | DropTable name =>
      ok_or (sc_tables s !! name) (NoTable name) ;;
      Ok (mkSchema (delete name (sc_tables s)) (filter (fun ix => di_table ix <> name) (sc_indexes s))
            (filter (fun p => p.2 <> name) (sc_triggers s)))
  | AddColumn table c =>
      t ← ok_or (sc_tables s !! table) (NoTable table);
      if has_column t (col_name c) then Err (DuplicateColumn (col_name c))
      else if col_not_null c && bool_decide (col_default c = VNull) then Err NullNotAllowed
      else Ok (set_table table (add_column c t) s)
  | CreateIndex ix =>
      if existsb (fun i => bool_decide (di_name i = di_name ix)) (sc_indexes s) then Ok s
      else
        t ← ok_or (sc_tables s !! di_table ix) (NoTable (di_table ix));
        match find (fun c => negb (has_column t c)) (di_columns ix) with
        | Some c => Err (NoColumn c)
        | None => if index_holds ix (tb_rows t) then Ok (mkSchema (sc_tables s) (sc_indexes s ++ [ix]) (sc_triggers s))
                  else Err NotUnique
        end
  | CreateTrigger name table =>
      match sc_triggers s !! name with
      | Some _ => Ok s
      | None => ok_or (sc_tables s !! table) (NoTable table) ;;
          Ok (mkSchema (sc_tables s) (sc_indexes s) (<[name := table]> (sc_triggers s)))
      end
  end.

(** ** The schema *)

Definition text_column (n : string) : Column := mkColumn n "TEXT" false VNull.
Definition required_text (n : string) : Column := mkColumn n "TEXT NOT NULL" true VNull.
Definition text_with_default (n d : string) : Column :=
  mkColumn n ("TEXT NOT NULL DEFAULT '" +:+ d +:+ "'") true (VText d).

Definition mapping_columns : list Column :=
  [mkColumn "id" "TEXT PRIMARY KEY" false VNull; required_text "name"; text_column "public_ip";
   text_column "oci_public_ip_ocid"; required_text "edge_private_ip"; text_column "oci_private_ip_ocid";
   required_text "target_ip"; mkColumn "public_port" "INTEGER" false VNull; mkColumn "target_port" "INTEGER" false VNull;
   text_with_default "protocol" "all"; text_with_default "mode" "one_to_one_snat"; text_with_default "backend" "nft";
   mkColumn "enabled" "INTEGER NOT NULL DEFAULT 1" true (VInt 1); text_with_default "status" "pending";
   text_column "last_error"; text_column "health_status"; text_column "last_checked_at";
   required_text "created_at"; required_text "updated_at"].
Definition config_columns : list Column := [mkColumn "key" "TEXT PRIMARY KEY" false VNull; required_text "value"].
Definition row_key : Column := mkColumn "id" "INTEGER PRIMARY KEY AUTOINCREMENT" false VNull.
Definition generation_columns : list Column :=
  [row_key; required_text "status"; required_text "nftables_config"; required_text "created_at";
   text_column "applied_at"; text_column "error"].
Definition event_columns : list Column :=
  [row_key; required_text "level"; required_text "message"; text_column "data"; required_text "created_at"].

(** The statement as [sqlite_master] keeps it, and the new table. *)
Definition create_sql (name : string) (columns : list Column) : string :=
  concat_str ["CREATE TABLE "; name; " ("; newline;
    join ("," +:+ newline) ((fun c => "    " +:+ col_name c +:+ " " +:+ col_text c) <$> columns); newline; ")"].
Definition new_table (name : string) (columns : list Column) : Table := mkTable (create_sql name columns) columns [].
Definition primary_key (table column : string) : Index :=
  mkIdx ("sqlite_autoindex_" +:+ table +:+ "_1") table "pk" [column] (fun _ => true).

Definition SQLITE_SCHEMA : list Ddl := [
  CreateTable "mappings" (new_table "mappings" mapping_columns) [primary_key "mappings" "id"];
  CreateTable "edge_config" (new_table "edge_config" config_columns) [primary_key "edge_config" "key"];
  CreateTable "generations" (new_table "generations" generation_columns) [];
  CreateTable "events" (new_table "events" event_columns) []
].

(** [enabled = 1 AND mode = md] *)
Definition enabled_in (md : string) (r : Row) : bool :=
  bool_decide (cell "enabled" r = VInt 1) && bool_decide (cell "mode" r = VText md).
Definition MAPPING_INDEXES : list Index := [
  mkIdx "mappings_one_to_one_edge_private_ip_enabled_idx" "mappings" "c" ["edge_private_ip"]
    (enabled_in one_to_one_name);
  mkIdx "mappings_one_to_one_public_ip_enabled_idx" "mappings" "c" ["public_ip"]
    (fun r => enabled_in one_to_one_name r && negb (bool_decide (cell "public_ip" r = VNull)));
  mkIdx "mappings_one_to_one_target_ip_enabled_idx" "mappings" "c" ["target_ip"] (enabled_in one_to_one_name);
  mkIdx "mappings_port_forward_tuple_enabled_idx" "mappings" "c" ["edge_private_ip"; "protocol"; "public_port"]
    (enabled_in port_forward_name)
].
Definition MAPPING_TRIGGERS : list string :=
  ["mappings_reject_conflict_insert"; "mappings_reject_conflict_update"].
Definition MAPPING_CONSTRAINTS : list Ddl :=
  (CreateIndex <$> MAPPING_INDEXES) ++ ((fun n => CreateTrigger n "mappings") <$> MAPPING_TRIGGERS).

(** [to_ascii_uppercase] *)
Definition ascii_upper (c : ascii) : ascii :=
  let n := N_of_ascii c in
  if (97 <=? n)%N && (n <=? 122)%N then ascii_of_N (n - 32) else c.
Definition to_ascii_uppercase (s : string) : string := of_chars (map ascii_upper (chars s)).

(** ** Migration *)

(** A connection: the number of statements so far, and the database. *)
Record Conn := mkConn { cn_count : nat; cn_schema : Schema }.
Definition Mig (A : Type) : Type := Conn -> Result EdgeCoreError A * Conn.

#[export] Instance mig_ret : MRet Mig := fun _ a c => (Ok a, c).
#[export] Instance mig_bind : MBind Mig := fun _ _ k m c =>
  match m c with (Ok a, c) => k a c | (Err e, c) => (Err e, c) end.
Fixpoint mig_for_each {A} (f : A -> Mig unit) (l : list A) : Mig unit :=
  match l with [] => mret tt | a :: l => f a ;; mig_for_each f l end.

Section migrate.
(** [fault n] is the engine's failure at the [n]th statement; [refused] are its texts. *)
Context `{StoreLib} (fault : nat -> option string) (refused : DdlFailure -> string).

Definition statement {A} (run : Schema -> Result EdgeCoreError (A * Schema)) : Mig A := fun c =>
  match fault (cn_count c) with
  | Some m => (Err (sql_error (SqlFault m)), mkConn (S (cn_count c)) (cn_schema c))
  | None =>
      match run (cn_schema c) with
      | Ok (a, s) => (Ok a, mkConn (S (cn_count c)) s)
      | Err e => (Err e, mkConn (S (cn_count c)) (cn_schema c))
      end
  end.
Definition execute (d : Ddl) : Mig unit :=
  statement (fun s => s ← map_err (fun f => StoreError (refused f)) (exec_ddl d s); Ok (tt, s)).
Definition fetch {A} (q : Schema -> A) : Mig A := statement (fun s => Ok (q s, s)).

(** [begin] .. [commit]; a transaction that is dropped is rolled back. *)
Definition transaction (m : Mig unit) : Mig unit := fun c =>
  match (fetch (fun _ => tt) ;; m ;; fetch (fun _ => tt)) c with
  | (Ok _, c') => (Ok tt, c')
  | (Err e, c') => (Err e, mkConn (cn_count c') (cn_schema c))
  end.

Definition single_legacy_column (columns : list string) : bool :=
  bool_decide (columns = ["public_ip"]) || bool_decide (columns = ["edge_private_ip"]).
Fixpoint any_legacy (l : list Index) : Mig bool :=
  match l with
  | [] => mret false
  | ix :: l =>
      if bool_decide (di_origin ix = "c") then any_legacy l
      else
        columns ← fetch (fun _ => di_columns ix);
        if single_legacy_column columns then mret true else any_legacy l
  end.
Definition index_list (table : string) (s : Schema) : list Index :=
  filter (fun ix => di_table ix = table) (sc_indexes s).
Definition has_legacy_mapping_unique_constraints : Mig bool :=
  sql ← fetch (fun s => tb_sql <$> sc_tables s !! "mappings");
  match sql with
  | None => mret false
  | Some sql =>
      if contains "UNIQUE" (to_ascii_uppercase sql) then mret true
      else l ← fetch (index_list "mappings"); any_legacy l
  end.

Definition ensure_port_forward_schema : Mig unit :=
  legacy ← has_legacy_mapping_unique_constraints;
  if negb legacy then mret tt
  else
    transaction (
      execute (RenameTable "mappings" old_table) ;;
      mig_for_each execute SQLITE_SCHEMA ;;
      execute CopyMappings ;;
      execute (DropTable old_table)).

Definition ensure_column (table : string) (c : Column) : Mig unit :=
  present ← fetch (fun s => match sc_tables s !! table with Some t => has_column t (col_name c) | None => false end);
  if negb present then execute (AddColumn table c) else mret tt.

Definition ensured_columns : list Column :=
  [mkColumn "public_port" "INTEGER" false VNull; text_with_default "backend" "nft"; text_column "health_status";
   text_column "last_checked_at"].
Definition ensure_mapping_constraints : Mig unit := mig_for_each execute MAPPING_CONSTRAINTS.

Definition migrate : Mig unit :=
  mig_for_each execute SQLITE_SCHEMA ;;
  ensure_port_forward_schema ;;
  mig_for_each (ensure_column "mappings") ensured_columns ;;
  ensure_mapping_constraints.

(** [mkdir] is [create_dir_all]; opening the file is a statement of its own. *)
Definition connect (mkdir : string -> option string) (path : string) : Mig unit :=
  match path_parent path ≫= mkdir with
  | Some e => fun c => (Err (StoreError ("failed to create database directory: " +:+ e)), c)
  | None => fetch (fun _ => tt) ;; migrate
  end.
End migrate.

(** ** Examples: a new file, and the old table of the tests *)

Definition no_fault (n : nat) : option string := None.
Definition empty_schema : Schema := mkSchema ∅ [] ∅.
Definition legacy_columns : list Column :=
  [mkColumn "id" "TEXT PRIMARY KEY" false VNull; required_text "name"; mkColumn "public_ip" "TEXT UNIQUE" false VNull;
   text_column "oci_public_ip_ocid"; mkColumn "edge_private_ip" "TEXT NOT NULL UNIQUE" true VNull;
   text_column "oci_private_ip_ocid"; required_text "target_ip"; mkColumn "target_port" "INTEGER" false VNull;
   text_with_default "protocol" "all"; text_with_default "mode" "one_to_one_snat";
   mkColumn "enabled" "INTEGER NOT NULL DEFAULT 1" true (VInt 1); text_with_default "status" "pending";
   text_column "last_error"; text_column "health_status"; text_column "last_checked_at";
   required_text "created_at"; required_text "updated_at"].
Definition legacy_row (i edge target : string) : Row := list_to_map
  [("id", VText i); ("name", VText "web"); ("edge_private_ip", VText edge); ("target_ip", VText target);
   ("protocol", VText "all"); ("mode", VText one_to_one_name); ("enabled", VInt 1); ("status", VText "pending");
   ("created_at", VText "2024-01-01T00:00:00Z"); ("updated_at", VText "2024-01-01T00:00:00Z")].
Definition unique_key (n : nat) (column : string) : Index :=
  mkIdx ("sqlite_autoindex_mappings_" +:+ show_Z (Z.of_nat n)) "mappings" "u" [column] (fun _ => true).
Definition legacy_table (rows : list Row) : Table := mkTable (create_sql "mappings" legacy_columns) legacy_columns rows.
Definition legacy_schema (rows : list Row) : Schema :=
  mkSchema {["mappings" := legacy_table rows]}
    [primary_key "mappings" "id"; unique_key 2 "public_ip"; unique_key 3 "edge_private_ip"] ∅.

(** ** Runs *)

(** Whether the code takes the table for a legacy one. *)
Definition looks_legacy (t : Table) (l : list Index) : bool :=
  contains "UNIQUE" (to_ascii_uppercase (tb_sql t)) ||
  existsb (fun ix => negb (bool_decide (di_origin ix = "c")) && single_legacy_column (di_columns ix)) l.
Definition legacy (s : Schema) : bool :=
  match sc_tables s !! "mappings" with
  | None => false
  | Some t => looks_legacy t (index_list "mappings" s)
  end.

Section runs.
Context `{StoreLib} (fault : nat -> option string) (refused : DdlFailure -> string).

(** [Q] holds of the value and the database when the run returns, [E] of the
    database when it fails. *)
Definition holds {A} (m : Mig A) (c : Conn) (Q : A -> Schema -> Prop) (E : Schema -> Prop) : Prop :=
  match m c with
  | (Ok a, c') => Q a (cn_schema c')
  | (Err _, c') => E (cn_schema c')
  end.

Lemma holds_ret {A} (a : A) c (Q : A -> Schema -> Prop) E : Q a (cn_schema c) -> holds (mret a) c Q E.
Proof. done. Qed.
Lemma holds_bind {A B} (m : Mig A) (k : A -> Mig B) c (Q : B -> Schema -> Prop) E (R : A -> Schema -> Prop) :
  holds m c R E -> (forall a c', R a (cn_schema c') -> holds (k a) c' Q E) -> holds (m ≫= k) c Q E.
Proof. unfold holds, mbind, mig_bind. intros Hm Hk. destruct (m c) as [[a|e] c']; [by apply Hk|done]. Qed.
Lemma holds_mono {A} (m : Mig A) c (Q R : A -> Schema -> Prop) E F :
  holds m c Q E -> (forall a s, Q a s -> R a s) -> (forall s, E s -> F s) -> holds m c R F.
Proof. unfold holds. intros Hm HQ HE. destruct (m c) as [[a|e] c']; auto. Qed.

Lemma holds_execute d c (Q : unit -> Schema -> Prop) (E : Schema -> Prop) :
  (forall s, exec_ddl d (cn_schema c) = Ok s -> Q tt s) -> E (cn_schema c) -> holds (execute fault refused d) c Q E.
Proof.
  intros HQ HE. unfold holds, execute, statement. destruct (fault _); [done|].
  destruct (exec_ddl d (cn_schema c)) as [s|f]; cbn; auto.
Qed.
(** Queries fail only when the engine does. *)
Definition faultless_or (E : Prop) : Prop := (forall n, fault n = None) \/ E.
Lemma holds_fetch {A} (q : Schema -> A) c (Q : A -> Schema -> Prop) (E : Schema -> Prop) :
  Q (q (cn_schema c)) (cn_schema c) -> faultless_or (E (cn_schema c)) -> holds (fetch fault q) c Q E.
Proof.
  intros HQ HE. unfold holds, fetch, statement. destruct (fault _) eqn:Ef; [|done].
  destruct HE as [Hfree|HE]; [by rewrite Hfree in Ef|done].
Qed.

(** A transaction that fails has changed nothing. *)
Lemma holds_transaction m c (Q : unit -> Schema -> Prop) (E : Schema -> Prop) :
  (forall c', cn_schema c' = cn_schema c -> holds m c' Q (fun _ => True)) -> E (cn_schema c) ->
  holds (transaction fault m) c Q E.
Proof.
  intros Hm HE. unfold transaction. set (body := _ ≫= _).
  assert (Hb : holds body c Q (fun _ => True)).
  { unfold body. eapply (holds_bind _ _ _ _ _ (fun _ s => s = cn_schema c)).
    - apply holds_fetch; [done|by right].
    - intros _ c1 E1. eapply holds_bind; [by apply Hm|]. intros [] c2 HQ. apply holds_fetch; [done|by right]. }
  unfold holds in Hb |- *. by destruct (body c) as [[[]|e] c'].
Qed.

Lemma holds_each {A} (f : A -> Mig unit) l c (I : Schema -> Prop) :
  (forall a c', a ∈ l -> I (cn_schema c') -> holds (f a) c' (fun _ => I) I) -> I (cn_schema c) ->
  holds (mig_for_each f l) c (fun _ => I) I.
Proof.
  revert c. induction l as [|a l IH]; intros c Hf HI; cbn [mig_for_each]; [done|].
  eapply holds_bind; [apply Hf; [left|done]|]. intros [] c' HI'. apply IH; [|done].
  intros b c1 Hb. apply Hf. by right.
Qed.

Lemma holds_any_legacy l : forall c (Q : bool -> Schema -> Prop) (E : Schema -> Prop),
  Q (existsb (fun ix => negb (bool_decide (di_origin ix = "c")) && single_legacy_column (di_columns ix)) l)
    (cn_schema c) -> faultless_or (E (cn_schema c)) -> holds (any_legacy fault l) c Q E.
Proof.
  induction l as [|ix l IH]; intros c Q E HQ HE; cbn [any_legacy]; [done|]. cbn in HQ.
  destruct (bool_decide (di_origin ix = "c")); [by apply IH|]. cbn in HQ.
  eapply (holds_bind _ _ _ _ _ (fun cols s => cols = di_columns ix /\ s = cn_schema c)); [by apply holds_fetch|].
  intros cols c' [-> Ec]. destruct (single_legacy_column (di_columns ix)); cbn in HQ.
  - apply holds_ret. by rewrite Ec.
  - apply IH; by rewrite Ec.
Qed.

Lemma holds_legacy c (Q : bool -> Schema -> Prop) (E : Schema -> Prop) :
  Q (legacy (cn_schema c)) (cn_schema c) -> faultless_or (E (cn_schema c)) ->
  holds (has_legacy_mapping_unique_constraints fault) c Q E.
Proof.
  intros HQ HE. unfold has_legacy_mapping_unique_constraints. unfold legacy, looks_legacy in HQ.
  eapply (holds_bind _ _ _ _ _ (fun sql s => sql = tb_sql <$> sc_tables (cn_schema c) !! "mappings" /\ s = cn_schema c)).
  { by apply holds_fetch. }
  intros sql c' [-> Ec]. destruct (sc_tables (cn_schema c) !! "mappings") as [t|]; cbn [fmap option_fmap option_map].
  2: { apply holds_ret. by rewrite Ec. }
  destruct (contains _ _); [apply holds_ret; by rewrite Ec|].
  eapply (holds_bind _ _ _ _ _ (fun l s => l = index_list "mappings" (cn_schema c) /\ s = cn_schema c)).
  { apply holds_fetch; by rewrite Ec. }
  intros l c2 [-> Ec2]. apply holds_any_legacy; by rewrite Ec2.
Qed.
End runs.

(** ** No mapping is lost *)

(** The rows of [t], in order, with what the columns of [t0] say of each. *)
Definition carries (t0 t : Table) : Prop :=
  Forall2 (fun r r' => forall col, col ∈ carried -> has_column t0 col = true -> cell col r' = cell col r)
    (tb_rows t0) (tb_rows t) /\
  forall col, col ∈ carried -> has_column t0 col = true -> has_column t col = true.
Definition kept (t0 : Table) (s : Schema) : Prop := exists t, sc_tables s !! "mappings" = Some t /\ carries t0 t.

Lemma carries_refl t : carries t t.
Proof. split; [|done]. apply Forall_Forall2_diag, Forall_forall. done. Qed.

Lemma carries_add t0 t c : carries t0 t -> has_column t (col_name c) = false -> carries t0 (add_column c t).
Proof.
  intros [Hr Hc] Hn. unfold add_column. split; cbn [tb_rows].
  - apply Forall2_fmap_r. eapply Forall2_impl; [exact Hr|]. intros r r' Hcell col Hin Hcol. unfold cell.
    rewrite lookup_insert_ne; [by apply Hcell|]. intros <-. specialize (Hc _ Hin Hcol). congruence.
  - intros col Hin Hcol. specialize (Hc _ Hin Hcol). unfold has_column, column_names in *. cbn.
    apply bool_decide_eq_true in Hc. apply bool_decide_eq_true. rewrite fmap_app. set_solver.
Qed.

Lemma upgrade_cell r col : col ∈ carried -> cell col (upgrade r) = cell col r.
Proof.
  intros Hin. unfold upgrade, cell at 1.
  repeat (apply elem_of_cons in Hin as [-> |Hin]; [vm_compute; reflexivity|]). by apply not_elem_of_nil in Hin.
Qed.

(** The new table with the rows of the old one. *)
Definition upgraded (t : Table) : Table :=
  mkTable (create_sql "mappings" mapping_columns) mapping_columns (upgrade <$> tb_rows t).

Lemma carries_upgraded t0 t : carries t0 t -> carries t0 (upgraded t).
Proof.
  intros [Hr _]. split; cbn.
  - apply Forall2_fmap_r. eapply Forall2_impl; [exact Hr|]. intros r r' Hcell col Hin Hcol.
    rewrite upgrade_cell by done. by apply Hcell.
  - intros col Hin _. unfold has_column. revert col Hin.
    assert (Hall : forallb (fun col => bool_decide (col ∈ column_names (upgraded t))) carried = true) by (vm_compute; reflexivity).
    rewrite forallb_forall in Hall. intros col Hin. by apply Hall, list_elem_of_In.
Qed.

(** What each statement does to the table of mappings. *)
Section steps.
Context (d : Ddl) (s s' : Schema) (He : exec_ddl d s = Ok s').

Lemma add_keeps c t : d = AddColumn "mappings" c -> sc_tables s !! "mappings" = Some t ->
  has_column t (col_name c) = false /\ s' = set_table "mappings" (add_column c t) s.
Proof.
  intros -> Ht. cbn in He. rewrite Ht in He. cbn in He. destruct (has_column t _); [done|].
  destruct (_ && _); [done|]. split; [done|]. by injection He as <-.
Qed.
Lemma index_keeps ix : d = CreateIndex ix -> sc_tables s' = sc_tables s.
Proof.
  intros ->. cbn in He. destruct (existsb _ _); [by simplify_eq|]. apply bind_Ok in He as (t & _ & He).
  destruct (find _ _); [done|]. destruct (index_holds _ _); by simplify_eq/=.
Qed.
Lemma trigger_keeps n table : d = CreateTrigger n table -> sc_tables s' = sc_tables s.
Proof. intros ->. cbn in He. destruct (sc_triggers s !! n); res_inv; by simplify_eq/=. Qed.
End steps.

Lemma kept_tables t0 s s' : kept t0 s -> sc_tables s' !! "mappings" = sc_tables s !! "mappings" -> kept t0 s'.
Proof. intros (t & Ht & Hc) E. exists t. by rewrite E. Qed.

(** Inside the transaction the old table is beside the new one. *)
Definition moved (t0 : Table) (s : Schema) : Prop :=
  (sc_tables s !! "mappings" = None \/ sc_tables s !! "mappings" = Some (new_table "mappings" mapping_columns)) /\
  exists t, sc_tables s !! old_table = Some t /\ carries t0 t.

(** The statements of the schema create [mappings] when it is missing, and leave
    every table that exists. *)
Lemma schema_tables d s s' : d ∈ SQLITE_SCHEMA -> exec_ddl d s = Ok s' ->
  (forall n t, sc_tables s !! n = Some t -> sc_tables s' !! n = Some t) /\
  (sc_tables s !! "mappings" = None -> sc_tables s' !! "mappings" = None \/
    sc_tables s' !! "mappings" = Some (new_table "mappings" mapping_columns)).
Proof.
  intros Hd He. assert (exists name t keys, d = CreateTable name t keys /\
    (name = "mappings" -> t = new_table "mappings" mapping_columns)) as (name & t & keys & -> & Ht).
  { unfold SQLITE_SCHEMA in Hd. repeat (apply elem_of_cons in Hd as [-> |Hd]; [by do 3 eexists|]).
    by apply not_elem_of_nil in Hd. }
  cbn in He. destruct (sc_tables s !! name) as [old|] eqn:En; injection He as <-; [by eauto|]. cbn. split.
  - intros n t' Hn. rewrite lookup_insert_ne; [done|]. intros ->. congruence.
  - intros Hm. destruct (decide (name = "mappings")) as [-> |Hne].
    + right. rewrite lookup_insert_eq. by rewrite Ht.
    + left. by rewrite lookup_insert_ne.
Qed.

Lemma schema_keeps_moved t0 d s s' : d ∈ SQLITE_SCHEMA -> exec_ddl d s = Ok s' -> moved t0 s -> moved t0 s'.
Proof.
  intros Hd He [Hm (t & Ho & Hc)]. destruct (schema_tables _ _ _ Hd He) as [Hkeep Hnew]. split; [|eauto].
  destruct Hm as [Hm|Hm]; [by apply Hnew|right; by apply Hkeep].
Qed.

Lemma schema_keeps_kept t0 d s s' : d ∈ SQLITE_SCHEMA -> exec_ddl d s = Ok s' -> kept t0 s -> kept t0 s'.
Proof. intros Hd He (t & Ht & Hc). destruct (schema_tables _ _ _ Hd He) as [Hkeep _]. exists t. auto. Qed.

Section never_lost.
Context `{StoreLib} (fault : nat -> option string) (refused : DdlFailure -> string) (t0 : Table).

Lemma holds_schema c (I : Schema -> Prop) :
  (forall d s s', d ∈ SQLITE_SCHEMA -> exec_ddl d s = Ok s' -> I s -> I s') -> I (cn_schema c) ->
  holds (mig_for_each (execute fault refused) SQLITE_SCHEMA) c (fun _ => I) I.
Proof. intros Hd HI. apply holds_each; [|done]. intros d c' Hin HI'. apply holds_execute; eauto. Qed.

Lemma upgrade_keeps c : kept t0 (cn_schema c) ->
  holds (ensure_port_forward_schema fault refused) c (fun _ => kept t0) (kept t0).
Proof.
  intros Hk. unfold ensure_port_forward_schema.
  eapply (holds_bind _ _ _ _ _ (fun _ s => s = cn_schema c)); [apply holds_legacy; [done|by right]|].
  intros b c1 Ec1. destruct (negb b); [apply holds_ret; by rewrite Ec1|]. rewrite <- Ec1 in Hk. clear Ec1.
  apply holds_transaction; [|done]. intros c2 Ec2. rewrite <- Ec2 in Hk. clear Ec2.
  eapply (holds_bind _ _ _ _ _ (fun _ => moved t0)).
  { apply holds_execute; [|done]. intros s He. destruct Hk as (t & Ht & Hc). cbn in He. rewrite Ht in He. cbn in He.
    destruct (sc_tables _ !! old_table); [done|]. injection He as <-. split; cbn.
    - left. rewrite lookup_insert_ne by done. by rewrite lookup_delete_eq.
    - exists t. by rewrite lookup_insert_eq. }
  intros _ c3 Hm. eapply (holds_bind _ _ _ _ _ (fun _ => moved t0)).
  { eapply holds_mono; [apply (holds_schema c3 (moved t0)); [exact (schema_keeps_moved t0)|done]|done|done]. }
  intros _ c4 [Hnew (t & Ho & Hc)].
  eapply (holds_bind _ _ _ _ _ (fun _ => kept t0)).
  { apply holds_execute; [|done]. intros s He. cbn -[find] in He. rewrite Ho in He. cbn -[find] in He.
    destruct Hnew as [Hnew|Hnew]; rewrite Hnew in He; cbn -[find] in He; [done|].
    destruct (find _ _); [done|]. destruct (existsb _ _); [done|]. destruct (forallb _ _); [|done].
    injection He as <-. exists (upgraded t). split; [apply lookup_insert_eq|by apply carries_upgraded]. }
  intros _ c5 Hk5. apply holds_execute; [|done]. intros s He. cbn in He. apply bind_Ok in He as (? & _ & [= <-]).
  eapply kept_tables; [exact Hk5|]. cbn. by rewrite lookup_delete_ne.
Qed.

Lemma column_keeps c col : kept t0 (cn_schema c) ->
  holds (ensure_column fault refused "mappings" col) c (fun _ => kept t0) (kept t0).
Proof.
  intros Hk. unfold ensure_column. eapply (holds_bind _ _ _ _ _ (fun _ s => s = cn_schema c)); [apply holds_fetch; [done|by right]|].
  intros b c1 Ec1. rewrite <- Ec1 in Hk. clear Ec1. destruct b; [by apply holds_ret|].
  apply holds_execute; [|done]. intros s He. destruct Hk as (t & Ht & Hc).
  destruct (add_keeps _ _ _ He col t eq_refl Ht) as [Hn ->]. exists (add_column col t).
  split; [apply lookup_insert_eq|by apply carries_add].
Qed.

Lemma constraint_keeps d c : d ∈ MAPPING_CONSTRAINTS -> kept t0 (cn_schema c) ->
  holds (execute fault refused d) c (fun _ => kept t0) (kept t0).
Proof.
  intros Hd Hk. apply holds_execute; [|done]. intros s He. eapply kept_tables; [exact Hk|].
  apply elem_of_app in Hd as [(ix & -> & _)%list_elem_of_fmap|(n & -> & _)%list_elem_of_fmap].
  - by rewrite (index_keeps _ _ _ He ix eq_refl).
  - by rewrite (trigger_keeps _ _ _ He n "mappings" eq_refl).
Qed.

Lemma migrate_keeps c : kept t0 (cn_schema c) -> holds (migrate fault refused) c (fun _ => kept t0) (kept t0).
Proof.
  intros Hk. unfold migrate. eapply (holds_bind _ _ _ _ _ (fun _ => kept t0)).
  { by apply holds_schema; [exact (schema_keeps_kept t0)|]. }
  intros _ c1 Hk1. eapply (holds_bind _ _ _ _ _ (fun _ => kept t0)); [by apply upgrade_keeps|].
  intros _ c2 Hk2. eapply (holds_bind _ _ _ _ _ (fun _ => kept t0)).
  { by apply holds_each; [intros; by apply column_keeps|]. }
  intros _ c3 Hk3. apply holds_each; [|done]. intros d c' Hd. by apply constraint_keeps.
Qed.
End never_lost.

(** ** What a migration makes of a database *)

(** Adding a column does not make a table look like a legacy one. *)
Lemma strip_list_junction p a c b : c ∉ p -> p <> [] -> strip_list p a = None -> strip_list p (a ++ c :: b) = None.
Proof.
  revert a. induction p as [|x p IH]; intros a Hc Hne Hs; [done|]. apply not_elem_of_cons in Hc as [Hx Hp].
  destruct a as [|y a]; cbn in *.
  - by rewrite (proj2 (Ascii.eqb_neq x c)) by congruence.
  - destruct (Ascii.eqb x y); [|done]. destruct p as [|z p]; [by destruct a|]. by apply IH.
Qed.
Lemma contains_l_junction p a c b : c ∉ p -> p <> [] ->
  contains_l p a = false -> contains_l p b = false -> contains_l p (a ++ c :: b) = false.
Proof.
  intros Hc Hne. induction a as [|x a IH]; cbn; intros Ha Hb.
  - destruct p as [|y p]; [done|]. pose proof (strip_list_junction (y :: p) [] c b Hc Hne eq_refl) as Hs.
    change ([] ++ c :: b) with (c :: b) in Hs. by rewrite Hs.
  - destruct (strip_list p (x :: a)) eqn:E; [done|]. pose proof (strip_list_junction p (x :: a) c b Hc Hne E) as Hs.
    change ((x :: a) ++ c :: b) with (x :: a ++ c :: b) in Hs. rewrite Hs. by apply IH.
Qed.
Lemma contains_l_prefix p a b : contains_l p (a ++ b) = false -> contains_l p a = false.
Proof.
  induction a as [|x a IH]; cbn.
  - destruct p as [|y p]; [|done]. by destruct b.
  - destruct (strip_list p (x :: a)) as [r|] eqn:E.
    + apply strip_list_Some in E. change (x :: a ++ b) with ((x :: a) ++ b). rewrite E, <- (assoc_L (++)).
      by rewrite strip_list_app.
    + destruct (strip_list p (x :: a ++ b)); [done|]. exact IH.
Qed.

Lemma upper_removelast l : map ascii_upper (removelast l) = removelast (map ascii_upper l).
Proof. induction l as [|x [|y l] IH]; [done..|]. cbn in *. by f_equal. Qed.

Lemma column_not_unique sql c :
  contains "UNIQUE" (to_ascii_uppercase sql) = false ->
  contains "UNIQUE" (to_ascii_uppercase (" " +:+ col_name c +:+ " " +:+ col_text c +:+ ")")) = false ->
  contains "UNIQUE" (to_ascii_uppercase (sql_with_column sql c)) = false.
Proof.
  unfold contains, to_ascii_uppercase, sql_with_column. rewrite !chars_of_chars, (chars_app _ ("," +:+ _)), (chars_app ","),
    chars_of_chars, !map_app, upper_removelast.
  intros Hs Hc. change (map ascii_upper (chars ",")) with [","%char]. apply contains_l_junction; [|done| |exact Hc].
  - vm_compute. set_solver.
  - destruct (decide (map ascii_upper (chars sql) = [])) as [E|Hne]; [by rewrite E|].
    rewrite (app_removelast_last "000"%char Hne) in Hs. by apply contains_l_prefix in Hs.
Qed.

(** The columns that are still missing, with their defaults. *)
Definition fill (t : Table) (columns : list Column) : Table :=
  foldl (fun t c => if has_column t (col_name c) then t else add_column c t) t columns.

(** The table of mappings at the end. *)
Definition final_table (s : Schema) : Table :=
  fill match sc_tables s !! "mappings" with
       | None => new_table "mappings" mapping_columns
       | Some t => if legacy s then upgraded t else t
       end ensured_columns.

(** What a database must hold for its migration: a legacy table has the columns
    that are copied and none of its rows lacks what the new table requires, another
    has the columns of the constraints, and the rows satisfy the unique indexes. *)
Record migratable (s : Schema) : Prop := {
  mg_old : sc_tables s !! old_table = None;
  mg_stray : sc_tables s !! "mappings" = None -> index_list "mappings" s = [];
  mg_copied : forall t, sc_tables s !! "mappings" = Some t -> legacy s = true ->
    Forall (fun c => has_column t c = true) carried /\
    Forall (fun r => null_violated (upgraded t) r = false) (tb_rows (upgraded t)) /\
    index_holds (primary_key "mappings" "id") (tb_rows (upgraded t)) = true;
  mg_columns : forall ix c, ix ∈ MAPPING_INDEXES -> c ∈ di_columns ix -> has_column (final_table s) c = true;
  mg_indexes : Forall (fun ix => index_holds ix (tb_rows (final_table s)) = true) MAPPING_INDEXES;
}.

(** A database in the present form. *)
Record current (s : Schema) : Prop := {
  cu_tables : Forall (fun n => is_Some (sc_tables s !! n)) ["mappings"; "edge_config"; "generations"; "events"];
  cu_columns : forall t, sc_tables s !! "mappings" = Some t ->
    Forall (fun c => has_column t (col_name c) = true) ensured_columns;
  cu_legacy : legacy s = false;
  cu_indexes : Forall (fun ix => existsb (fun i => bool_decide (di_name i = di_name ix)) (sc_indexes s) = true) MAPPING_INDEXES;
  cu_triggers : Forall (fun n => is_Some (sc_triggers s !! n)) MAPPING_TRIGGERS;
}.

Section success.
Context `{StoreLib} (fault : nat -> option string) (refused : DdlFailure -> string).
Context (Hfree : forall n, fault n = None).

(** The computation returns, with [Q]. *)
Abbreviation returns m c Q := (holds m c Q (fun _ => False)).

Lemma returns_execute d c s (Q : unit -> Schema -> Prop) :
  exec_ddl d (cn_schema c) = Ok s -> Q tt s -> returns (execute fault refused d) c Q.
Proof. intros He HQ. unfold holds, execute, statement. rewrite Hfree, He. done. Qed.
Lemma returns_fetch {A} (q : Schema -> A) c (Q : A -> Schema -> Prop) :
  Q (q (cn_schema c)) (cn_schema c) -> returns (fetch fault q) c Q.
Proof. intros HQ. apply holds_fetch; [done|by left]. Qed.
Lemma returns_legacy c (Q : bool -> Schema -> Prop) :
  Q (legacy (cn_schema c)) (cn_schema c) -> returns (has_legacy_mapping_unique_constraints fault) c Q.
Proof. intros HQ. apply holds_legacy; [done|by left]. Qed.

Lemma returns_transaction m c (Q : unit -> Schema -> Prop) :
  (forall c', cn_schema c' = cn_schema c -> returns m c' Q) -> returns (transaction fault m) c Q.
Proof.
  intros Hm. unfold transaction. set (body := _ ≫= _).
  assert (Hb : returns body c Q).
  { unfold body. eapply (holds_bind _ _ _ _ _ (fun _ s => s = cn_schema c)); [by apply returns_fetch|].
    intros _ c1 E1. eapply holds_bind; [by apply Hm|]. intros [] c2 HQ. by apply returns_fetch. }
  unfold holds in Hb |- *. by destruct (body c) as [[[]|e] c'].
Qed.

(** The table of mappings with its indexes, the old table if there is one, and the
    other tables. *)
Record stands (t : Table) (l : list Index) (old : option Table) (rest : list string) (s : Schema) : Prop := {
  sd_table : sc_tables s !! "mappings" = Some t;
  sd_list : index_list "mappings" s = l;
  sd_old : sc_tables s !! old_table = old;
  sd_rest : Forall (fun n => is_Some (sc_tables s !! n)) rest;
}.

Lemma create_runs t l old rest name table n c :
  name <> "mappings" -> name <> old_table ->
  stands t l old rest (cn_schema c) ->
  returns (execute fault refused (CreateTable name table match n with Some k => [primary_key name k] | None => [] end)) c
    (fun _ => stands t l old (name :: rest)).
Proof.
  intros Hne Hno [Ht Hl Ho Hr]. destruct (sc_tables (cn_schema c) !! name) as [x|] eqn:E.
  - eapply returns_execute; [by cbn; rewrite E|]. constructor; [done..|]. constructor; [by eexists|done].
  - eapply returns_execute; [by cbn; rewrite E|]. constructor; cbn.
    + by rewrite lookup_insert_ne.
    + unfold index_list in *; cbn [sc_indexes]. rewrite filter_app, Hl. rewrite <- (List.app_nil_r l) at 2. f_equal.
      destruct n; [by rewrite filter_cons_False|done].
    + by rewrite lookup_insert_ne.
    + constructor; [rewrite lookup_insert_eq; by eexists|]. eapply Forall_impl; [exact Hr|].
      intros m [y Hm]. destruct (decide (name = m)) as [->|]; [rewrite lookup_insert_eq; by eexists|].
      rewrite lookup_insert_ne by done. by eexists.
Qed.

(** The statements of the schema, on a database with or without the table. *)
Lemma schema_runs t l old c :
  (sc_tables (cn_schema c) !! "mappings" = Some t /\ index_list "mappings" (cn_schema c) = l) \/
  (sc_tables (cn_schema c) !! "mappings" = None /\ index_list "mappings" (cn_schema c) = [] /\
   t = new_table "mappings" mapping_columns /\ l = [primary_key "mappings" "id"]) ->
  sc_tables (cn_schema c) !! old_table = old ->
  returns (mig_for_each (execute fault refused) SQLITE_SCHEMA) c
    (fun _ => stands t l old ["events"; "generations"; "edge_config"]).
Proof.
  intros Hm Ho. unfold SQLITE_SCHEMA. cbn [mig_for_each].
  eapply (holds_bind _ _ _ _ _ (fun _ => stands t l old [])).
  { destruct Hm as [[Ht Hl]|(Ht & Hl & -> & ->)].
    - eapply returns_execute; [by cbn; rewrite Ht|]. by constructor.
    - eapply returns_execute; [by cbn; rewrite Ht|]. constructor; cbn; [by rewrite lookup_insert_eq| | |done].
      + unfold index_list in *; cbn. by rewrite filter_app, Hl, filter_cons_True.
      + by rewrite lookup_insert_ne. }
  intros _ c1 H1. eapply (holds_bind _ _ _ _ _ (fun _ => stands t l old ["edge_config"])).
  { by apply (create_runs t l old [] "edge_config" _ (Some "key")). }
  intros _ c2 H2. eapply (holds_bind _ _ _ _ _ (fun _ => stands t l old ["generations"; "edge_config"])).
  { by apply (create_runs t l old ["edge_config"] "generations" _ None). }
  intros _ c3 H3. eapply (holds_bind _ _ _ _ _ (fun _ => stands t l old ["events"; "generations"; "edge_config"])).
  { by apply (create_runs t l old ["generations"; "edge_config"] "events" _ None). }
  intros _ c4 H4. by apply holds_ret.
Qed.

Lemma stands_legacy t l old rest s : stands t l old rest s -> legacy s = looks_legacy t l.
Proof. intros [Ht Hl _ _]. unfold legacy. by rewrite Ht, Hl. Qed.

Lemma upgraded_not_legacy t : looks_legacy (upgraded t) [primary_key "mappings" "id"] = false.
Proof. vm_compute. reflexivity. Qed.

Abbreviation rest_tables := ["events"; "generations"; "edge_config"].

Lemma upgrade_runs t l c :
  stands t l None rest_tables (cn_schema c) ->
  (looks_legacy t l = true -> Forall (fun c => has_column t c = true) carried /\
    Forall (fun r => null_violated (upgraded t) r = false) (tb_rows (upgraded t)) /\
    index_holds (primary_key "mappings" "id") (tb_rows (upgraded t)) = true) ->
  returns (ensure_port_forward_schema fault refused) c (fun _ =>
    stands (if looks_legacy t l then upgraded t else t)
      (if looks_legacy t l then [primary_key "mappings" "id"] else l) None rest_tables).
Proof.
  intros Hs Hcopy. unfold ensure_port_forward_schema.
  eapply (holds_bind _ _ _ _ _ (fun b s => b = looks_legacy t l /\ s = cn_schema c)).
  { apply returns_legacy. split; [by eapply stands_legacy|done]. }
  intros b c1 [-> Ec1]. destruct (looks_legacy t l) eqn:El; cbn [negb]; [|apply holds_ret; by rewrite Ec1].
  rewrite <- Ec1 in Hs. clear Ec1. destruct (Hcopy eq_refl) as (Hcols & Hnull & Hpk).
  apply returns_transaction. intros c2 Ec2. rewrite <- Ec2 in Hs. clear Ec2 c1. destruct Hs as [Ht Hl Ho Hr].
  eapply (holds_bind _ _ _ _ _ (fun _ s => sc_tables s !! "mappings" = None /\ index_list "mappings" s = [] /\
    sc_tables s !! old_table = Some t)).
  { eapply returns_execute; [cbn; rewrite Ht; cbn; by rewrite Ho|]. cbn. split_and!.
    - rewrite lookup_insert_ne by done. by rewrite lookup_delete_eq.
    - unfold index_list. cbn [sc_indexes]. induction (sc_indexes (cn_schema c2)) as [|ix il IH]; [done|].
      rewrite fmap_cons, filter_cons_False; [exact IH|]. cbn. unfold rename_to. by case_bool_decide.
    - by rewrite lookup_insert_eq. }
  intros _ c3 (Hm3 & Hl3 & Ho3).
  eapply (holds_bind _ _ _ _ _ (fun _ => stands (new_table "mappings" mapping_columns) [primary_key "mappings" "id"]
    (Some t) rest_tables)); [by apply schema_runs; [right|]|].
  intros _ c4 [Ht4 Hl4 Ho4 Hr4].
  eapply (holds_bind _ _ _ _ _ (fun _ => stands (upgraded t) [primary_key "mappings" "id"] (Some t) rest_tables)).
  { eapply returns_execute.
    - cbn -[find forallb existsb]. rewrite Ho4, Ht4. cbn -[find forallb existsb].
      assert (find (fun c => negb (has_column t c)) carried = None) as ->.
      { destruct (find _ _) as [x|] eqn:Ef; [|done]. apply find_some in Ef as [Hin Hx].
        rewrite Forall_forall in Hcols. apply list_elem_of_In, Hcols in Hin. by rewrite Hin in Hx. }
      cbn zeta. assert (existsb (null_violated (new_table "mappings" mapping_columns)) (upgrade <$> tb_rows t) = false) as ->
        by (by apply existsb_false).
      assert (forallb (fun ix => negb (bool_decide (di_table ix = "mappings")) || index_holds ix (upgrade <$> tb_rows t))
        (sc_indexes (cn_schema c4)) = true) as ->; [|reflexivity].
      apply forallb_forall. intros ix Hin%list_elem_of_In. case_bool_decide as Htab; [|done]. cbn.
      assert (ix ∈ index_list "mappings" (cn_schema c4)) as Hix by (by apply list_elem_of_filter).
      rewrite Hl4 in Hix. by apply list_elem_of_singleton in Hix as ->.
    - constructor; [apply lookup_insert_eq|exact Hl4|by cbn; rewrite lookup_insert_ne|].
      eapply Forall_impl; [exact Hr4|]. intros n [x Hx]. cbn.
      destruct (decide ("mappings" = n)) as [<-|]; [rewrite lookup_insert_eq; by eexists|].
      rewrite lookup_insert_ne by done. by eexists. }
  intros _ c5 [Ht5 Hl5 Ho5 Hr5]. eapply returns_execute; [by cbn; rewrite Ho5|]. constructor; cbn.
  - by rewrite lookup_delete_ne.
  - unfold index_list in *; cbn. rewrite list_filter_filter. rewrite <- Hl5. apply list_filter_iff.
    intros ix. split; [tauto|]. intros ->. done.
  - by rewrite lookup_delete_eq.
  - repeat constructor; rewrite lookup_delete_ne by done; rewrite Forall_forall in Hr5; apply Hr5; set_solver.
Qed.

Lemma column_runs col t l c :
  (col_not_null col && bool_decide (col_default col = VNull) = false) ->
  stands t l None rest_tables (cn_schema c) ->
  returns (ensure_column fault refused "mappings" col) c
    (fun _ => stands (if has_column t (col_name col) then t else add_column col t) l None rest_tables).
Proof.
  intros Hd Hs. pose proof Hs as [Ht Hl Ho Hr]. unfold ensure_column.
  eapply (holds_bind _ _ _ _ _ (fun b s => b = has_column t (col_name col) /\ s = cn_schema c)).
  { apply returns_fetch. by rewrite Ht. }
  intros b c1 [-> Ec1]. rewrite <- Ec1 in *. clear Ec1 c.
  destruct (has_column t (col_name col)) eqn:Eh; cbn [negb]; [by apply holds_ret|].
  eapply returns_execute; [cbn; rewrite Ht; cbn; by rewrite Eh, Hd|].
  constructor; [apply lookup_insert_eq|exact Hl|by cbn; rewrite lookup_insert_ne|].
  eapply Forall_impl; [exact Hr|]. intros n [x Hx]. cbn. destruct (decide ("mappings" = n)) as [<-|].
  - rewrite lookup_insert_eq. by eexists.
  - rewrite lookup_insert_ne by done. by eexists.
Qed.

Lemma columns_run cols : forall t l c,
  Forall (fun col => col_not_null col && bool_decide (col_default col = VNull) = false) cols ->
  stands t l None rest_tables (cn_schema c) ->
  returns (mig_for_each (ensure_column fault refused "mappings") cols) c
    (fun _ => stands (fill t cols) l None rest_tables).
Proof.
  induction cols as [|col cols IH]; intros t l c Hd Hs; cbn [mig_for_each]; [done|].
  apply Forall_cons in Hd as [Hcol Hd]. eapply holds_bind; [by apply column_runs|].
  intros [] c1 Hs1. by apply IH.
Qed.

Lemma each_app {A} (f : A -> Mig unit) l k c :
  mig_for_each f (l ++ k) c = (mig_for_each f l ;; mig_for_each f k) c.
Proof.
  revert c. induction l as [|a l IH]; intros c; [done|]. cbn. unfold mbind, mig_bind in *.
  destruct (f a c) as [[[]|e] c1]; [apply IH|done].
Qed.

Definition has_index (s : Schema) (ix : Index) : bool :=
  existsb (fun i => bool_decide (di_name i = di_name ix)) (sc_indexes s).

Lemma indexes_run t ixs : forall l c before,
  stands t l None rest_tables (cn_schema c) ->
  Forall (fun ix => di_table ix = "mappings" /\ di_origin ix = "c" /\
    Forall (fun col => has_column t col = true) (di_columns ix) /\ index_holds ix (tb_rows t) = true) ixs ->
  Forall (fun ix => has_index (cn_schema c) ix = true) before ->
  returns (mig_for_each (execute fault refused) (CreateIndex <$> ixs)) c (fun _ s => exists extra,
    stands t (l ++ extra) None rest_tables s /\ Forall (fun ix => di_origin ix = "c") extra /\
    Forall (fun ix => has_index s ix = true) (before ++ ixs)).
Proof.
  induction ixs as [|ix ixs IH]; intros l c before Hs Hall Hb.
  { exists []. by rewrite !List.app_nil_r. }
  rewrite fmap_cons. cbn [mig_for_each]. apply Forall_cons in Hall as [(Htab & Ho & Hcols & Hok) Hall].
  eapply (holds_bind _ _ _ _ _ (fun _ s => exists extra, stands t (l ++ extra) None rest_tables s /\
    Forall (fun ix => di_origin ix = "c") extra /\ Forall (fun ix => has_index s ix = true) (before ++ [ix]))).
  - pose proof Hs as [Ht Hl Hold Hr]. destruct (has_index (cn_schema c) ix) eqn:Eh.
    + eapply returns_execute; [cbn; unfold has_index in Eh; by rewrite Eh|]. exists [].
      rewrite List.app_nil_r. split_and!; [done|done|]. apply Forall_app. by split; [|apply Forall_singleton].
    + eapply returns_execute.
      { cbn -[find]. unfold has_index in Eh. rewrite Eh, Htab, Ht. cbn -[find].
        assert (find (fun c => negb (has_column t c)) (di_columns ix) = None) as ->; [|by rewrite Hok].
        destruct (find _ _) as [x|] eqn:Ef; [|done]. apply find_some in Ef as [Hin Hx].
        rewrite Forall_forall in Hcols. apply list_elem_of_In, Hcols in Hin. by rewrite Hin in Hx. }
      exists [ix]. split_and!; [|by apply Forall_singleton|].
      * constructor; [done| |done..]. unfold index_list in *. cbn [sc_indexes].
        by rewrite filter_app, Hl, filter_cons_True.
      * unfold has_index; cbn [sc_indexes]. apply Forall_app. split; [|apply Forall_singleton].
        -- eapply Forall_impl; [exact Hb|]. intros i Hi. unfold has_index in Hi. by rewrite existsb_app, Hi.
        -- rewrite existsb_app. cbn. rewrite bool_decide_eq_true_2 by done. by rewrite orb_true_r.
  - intros [] c1 (extra & Hs1 & Hx & Hb1). eapply holds_mono; [by apply (IH _ _ _ Hs1 Hall Hb1)| |done].
    intros [] s (extra' & Hs2 & Hx2 & Hb2). exists (extra ++ extra').
    rewrite <- (assoc_L (++)) in Hs2, Hb2. split_and!; [done|by apply Forall_app|done].
Qed.

Lemma triggers_run t l ns : forall c before,
  stands t l None rest_tables (cn_schema c) ->
  Forall (fun n => is_Some (sc_triggers (cn_schema c) !! n)) before ->
  returns (mig_for_each (execute fault refused) ((fun n => CreateTrigger n "mappings") <$> ns)) c (fun _ s =>
    stands t l None rest_tables s /\ sc_indexes s = sc_indexes (cn_schema c) /\
    Forall (fun n => is_Some (sc_triggers s !! n)) (before ++ ns)).
Proof.
  induction ns as [|n ns IH]; intros c before Hs Hb; [by rewrite List.app_nil_r|].
  rewrite fmap_cons. cbn [mig_for_each].
  eapply (holds_bind _ _ _ _ _ (fun _ s => stands t l None rest_tables s /\ sc_indexes s = sc_indexes (cn_schema c) /\
    Forall (fun n => is_Some (sc_triggers s !! n)) (before ++ [n]))).
  - destruct (sc_triggers (cn_schema c) !! n) as [x|] eqn:E.
    + eapply returns_execute; [by cbn; rewrite E|]. split_and!; [done..|]. apply Forall_app.
      by split; [|apply Forall_singleton; eexists].
    + eapply returns_execute; [cbn; rewrite E, (sd_table _ _ _ _ _ Hs); reflexivity|].
      split_and!; [by destruct Hs|done|]. cbn. apply Forall_app. split.
      * eapply Forall_impl; [exact Hb|]. intros m [y Hy]. destruct (decide (n = m)) as [->|]; [congruence|].
        rewrite lookup_insert_ne by done. by eexists.
      * apply Forall_singleton. rewrite lookup_insert_eq. by eexists.
  - intros [] c1 (Hs1 & Ei & Hb1). eapply holds_mono; [by apply (IH _ _ Hs1 Hb1)| |done].
    intros [] s (Hs2 & Ei2 & Hb2). rewrite <- (assoc_L (++)) in Hb2. split_and!; [done|congruence|done].
Qed.
End success.

(** ** Filled tables *)

Lemma has_column_fill t cols col : has_column t col = true -> has_column (fill t cols) col = true.
Proof.
  unfold fill. revert t. induction cols as [|c cols IH]; intros t Ht; cbn [foldl]; [done|].
  apply IH. case_match; [done|]. unfold has_column, column_names, add_column in *. cbn [tb_columns].
  apply bool_decide_eq_true in Ht. apply bool_decide_eq_true. rewrite fmap_app. set_solver.
Qed.
Lemma fill_has_columns t cols : Forall (fun c => has_column (fill t cols) (col_name c) = true) cols.
Proof.
  revert t. induction cols as [|c cols IH]; intros t; constructor.
  - apply (has_column_fill _ cols). case_match; [done|]. unfold has_column, column_names, add_column. cbn [tb_columns].
    apply bool_decide_eq_true. rewrite fmap_app. set_solver.
  - apply (IH (if has_column t (col_name c) then t else add_column c t)).
Qed.

Definition plain_column (c : Column) : Prop :=
  contains "UNIQUE" (to_ascii_uppercase (" " +:+ col_name c +:+ " " +:+ col_text c +:+ ")")) = false.
Lemma fill_not_legacy l cols : forall t, Forall plain_column cols ->
  looks_legacy t l = false -> looks_legacy (fill t cols) l = false.
Proof.
  induction cols as [|c cols IH]; intros t Hp Ht; [done|]. apply Forall_cons in Hp as [Hc Hp]. cbn [fill foldl].
  apply IH; [done|]. destruct (has_column t (col_name c)); [done|]. unfold looks_legacy in *.
  apply orb_false_iff in Ht as [Hs Hl]. rewrite Hl, orb_false_r. by apply column_not_unique.
Qed.

Lemma looks_legacy_created t l extra : Forall (fun ix => di_origin ix = "c") extra ->
  looks_legacy t (l ++ extra) = looks_legacy t l.
Proof.
  intros Hx. unfold looks_legacy. rewrite existsb_app. rewrite (proj2 (existsb_false _ extra)), orb_false_r; [done|].
  eapply Forall_impl; [exact Hx|]. by intros ix ->.
Qed.

(** The table that stands when the schema has been executed. *)
Lemma final_table_from s t l :
  (sc_tables s !! "mappings" = Some t /\ index_list "mappings" s = l) \/
  (sc_tables s !! "mappings" = None /\ index_list "mappings" s = [] /\
   t = new_table "mappings" mapping_columns /\ l = [primary_key "mappings" "id"]) ->
  final_table s = fill (if looks_legacy t l then upgraded t else t) ensured_columns.
Proof.
  unfold final_table, legacy. intros [[-> ->]|(-> & _ & -> & ->)]; [done|].
  assert (looks_legacy (new_table "mappings" mapping_columns) [primary_key "mappings" "id"] = false) as ->; [|done].
  vm_compute. reflexivity.
Qed.

(** ** Properties *)

(** C20: however the engine fails during a migration, and whether or not the
    migration returns, every mapping that was stored is still there, in its place
    and with the value of each column that the legacy table has. *)
Theorem migration_keeps_mappings `{StoreLib} fault refused c t0
    (Ht : sc_tables (cn_schema c) !! "mappings" = Some t0) :
  exists t, sc_tables (cn_schema (migrate fault refused c).2) !! "mappings" = Some t /\
    Forall2 (fun r r' => forall col, col ∈ carried -> has_column t0 col = true -> cell col r' = cell col r)
      (tb_rows t0) (tb_rows t).
Proof.
  assert (Hk : kept t0 (cn_schema c)) by (exists t0; split; [done|apply carries_refl]).
  pose proof (migrate_keeps fault refused t0 c Hk) as Hm. unfold holds in Hm.
  destruct (migrate fault refused c) as [[u|e] c'] eqn:E; destruct Hm as (t & Htab & Hr & _); by exists t.
Qed.

Section completes.
Context `{StoreLib} (fault : nat -> option string) (refused : DdlFailure -> string).
Context (Hfree : forall n, fault n = None).

Lemma migrate_runs c : migratable (cn_schema c) ->
  holds (migrate fault refused) c
    (fun _ s => sc_tables s !! "mappings" = Some (final_table (cn_schema c)) /\ current s) (fun _ => False).
Proof.
  intros [Hold Hstray Hcopied Hcols Hix].
  assert (exists t l, (sc_tables (cn_schema c) !! "mappings" = Some t /\ index_list "mappings" (cn_schema c) = l) \/
    (sc_tables (cn_schema c) !! "mappings" = None /\ index_list "mappings" (cn_schema c) = [] /\
     t = new_table "mappings" mapping_columns /\ l = [primary_key "mappings" "id"])) as (t & l & Hstart).
  { destruct (sc_tables (cn_schema c) !! "mappings") as [t|] eqn:E; [exists t, (index_list "mappings" (cn_schema c)); by left|].
    eexists _, _. right. auto. }
  pose proof (final_table_from _ _ _ Hstart) as Hfin. rewrite Hfin in *. unfold migrate.
  eapply holds_bind; [by apply schema_runs|]. intros [] c1 Hs1. eapply holds_bind.
  { apply upgrade_runs; [done|exact Hs1|]. intros Hleg. apply Hcopied; destruct Hstart as [[Ht Hl]|(_ & _ & -> & ->)];
      try done. unfold legacy. by rewrite Ht, Hl. }
  intros [] c2 Hs2. eapply holds_bind; [apply columns_run; [done| |exact Hs2]; repeat constructor|].
  intros [] c3 Hs3. unfold ensure_mapping_constraints, MAPPING_CONSTRAINTS.
  set (tm := if looks_legacy t l then upgraded t else t) in *.
  set (lf := if looks_legacy t l then [primary_key "mappings" "id"] else l) in *.
  set (tf := fill tm ensured_columns) in *.
  assert (Hleg : looks_legacy tf lf = false).
  { apply fill_not_legacy; [repeat constructor; vm_compute; reflexivity|]. unfold tm, lf.
    destruct (looks_legacy t l) eqn:El; [apply upgraded_not_legacy|done]. }
  unfold holds. rewrite each_app.
  change (holds (mig_for_each (execute fault refused) (CreateIndex <$> MAPPING_INDEXES) ;;
    mig_for_each (execute fault refused) ((fun n => CreateTrigger n "mappings") <$> MAPPING_TRIGGERS)) c3
    (fun _ s => sc_tables s !! "mappings" = Some tf /\ current s) (fun _ => False)).
  eapply holds_bind.
  { apply (indexes_run fault refused Hfree tf MAPPING_INDEXES lf c3 []); [done| |done].
    apply Forall_forall. intros ix Hin. rewrite Forall_forall in Hix. split_and!.
    - unfold MAPPING_INDEXES in Hin. repeat (apply elem_of_cons in Hin as [-> |Hin]; [done|]). by apply not_elem_of_nil in Hin.
    - unfold MAPPING_INDEXES in Hin. repeat (apply elem_of_cons in Hin as [-> |Hin]; [done|]). by apply not_elem_of_nil in Hin.
    - apply Forall_forall. intros col Hcol. by apply (Hcols ix).
    - by apply Hix. }
  intros [] c4 (extra & Hs4 & Hx & Hb).
  eapply holds_mono; [by apply (triggers_run fault refused Hfree tf (lf ++ extra) MAPPING_TRIGGERS c4 [])| |done].
  intros [] s ([Ht5 Hl5 Ho5 Hr5] & Ei & Htr). split; [done|]. constructor.
  - rewrite !Forall_cons in Hr5. destruct Hr5 as (? & ? & ? & _). rewrite !Forall_cons. by split_and!; [eexists|..].
  - intros t' Ht'. rewrite Ht5 in Ht'. injection Ht' as <-. apply fill_has_columns.
  - unfold legacy. by rewrite Ht5, Hl5, looks_legacy_created.
  - eapply Forall_impl; [exact Hb|]. intros ix Hi. by rewrite Ei.
  - exact Htr.
Qed.

(** A current database is left as it is. *)
Lemma current_runs c : current (cn_schema c) ->
  holds (migrate fault refused) c (fun _ s => s = cn_schema c) (fun _ => False).
Proof.
  intros [Htabs Hcols Hleg Hidx Htrg]. set (s := cn_schema c) in *.
  assert (Heach : forall A (f : A -> Mig unit) l c', cn_schema c' = s ->
    (forall a c', a ∈ l -> cn_schema c' = s -> holds (f a) c' (fun _ s' => s' = s) (fun _ => False)) ->
    holds (mig_for_each f l) c' (fun _ s' => s' = s) (fun _ => False)).
  { intros A f l. induction l as [|a l IH]; intros c' Hc Hf; cbn [mig_for_each]; [done|].
    eapply holds_bind; [apply Hf; [left|done]|]. intros [] c1 Hc1. apply IH; [done|]. intros b c2 Hb. apply Hf. by right. }
  unfold migrate. eapply (holds_bind _ _ _ _ _ (fun _ s' => s' = s)).
  { apply Heach; [done|]. intros d c1 Hd Hc1. eapply returns_execute; [done| |exact Hc1].
    rewrite Hc1. rewrite Forall_forall in Htabs. unfold SQLITE_SCHEMA in Hd.
    repeat (apply elem_of_cons in Hd as [-> |Hd];
      [cbn; match goal with |- context [sc_tables s !! ?n] => destruct (Htabs n) as [x ->]; [set_solver|reflexivity] end|]).
    by apply not_elem_of_nil in Hd. }
  intros _ c1 Hc1. eapply (holds_bind _ _ _ _ _ (fun _ s' => s' = s)).
  { unfold ensure_port_forward_schema. eapply (holds_bind _ _ _ _ _ (fun b s' => b = false /\ s' = s)).
    - apply returns_legacy; [done|]. by rewrite Hc1.
    - intros b c2 [-> Hc2]. by apply holds_ret. }
  intros _ c2 Hc2. eapply (holds_bind _ _ _ _ _ (fun _ s' => s' = s)).
  { apply Heach; [done|]. intros col c3 Hcol Hc3. unfold ensure_column.
    eapply (holds_bind _ _ _ _ _ (fun b s' => b = true /\ s' = s)).
    - apply returns_fetch; [done|]. rewrite Hc3. split; [|done]. apply Forall_cons in Htabs as [[t Ht] _].
      rewrite Ht. specialize (Hcols t Ht). rewrite Forall_forall in Hcols. by apply Hcols.
    - intros b c4 [-> Hc4]. by apply holds_ret. }
  intros _ c3 Hc3. apply Heach; [done|]. intros d c4 Hd Hc4. eapply returns_execute; [done| |exact Hc4].
  rewrite Hc4. apply elem_of_app in Hd as [(ix & -> & Hin)%list_elem_of_fmap|(n & -> & Hin)%list_elem_of_fmap]; cbn.
  - rewrite Forall_forall in Hidx. by rewrite (Hidx ix Hin).
  - rewrite Forall_forall in Htrg. destruct (Htrg n Hin) as [x ->]. done.
Qed.
End completes.


(** ** Witnesses *)

#[local] Existing Instance model_lib.

Definition sample_legacy : Schema :=
  legacy_schema [legacy_row "a" "10.0.0.5" "192.168.20.1"; legacy_row "b" "10.0.0.6" "192.168.20.2"].

(** The disk fails in the middle of the upgrade. *)
Definition broken_disk (n : nat) : option string := if (n =? 9)%nat then Some "disk I/O error" else None.

Lemma migration_keeps_mappings_witness :
  is_ok (migrate broken_disk (fun _ => "") (mkConn 0 sample_legacy)).1 = false /\
  exists t, sc_tables (cn_schema (migrate broken_disk (fun _ => "") (mkConn 0 sample_legacy)).2) !! "mappings" = Some t /\
    length (tb_rows t) = 2%nat.
Proof.
  split; [vm_compute; reflexivity|].
  destruct (migration_keeps_mappings broken_disk (fun _ => "") (mkConn 0 sample_legacy)
    (legacy_table [legacy_row "a" "10.0.0.5" "192.168.20.1"; legacy_row "b" "10.0.0.6" "192.168.20.2"]))
    as (t & Ht & Hrows); [reflexivity|].
  exists t. split; [exact Ht|]. by apply Forall2_length in Hrows.
Defined.

Lemma sample_migratable : migratable sample_legacy.
Proof.
  constructor.
  - reflexivity.
  - intros [=].
  - intros t [= <-] _. split; [|split].
    + apply Forall_forall. intros c Hc. assert (Hall : forallb (has_column (legacy_table [])) carried = true) by (vm_compute; reflexivity).
      rewrite forallb_forall in Hall. by apply (Hall c), list_elem_of_In.
    + repeat constructor.
    + vm_compute. reflexivity.
  - assert (Hall : forallb (fun ix => forallb (has_column (final_table sample_legacy)) (di_columns ix)) MAPPING_INDEXES = true)
      by (vm_compute; reflexivity).
    intros ix c Hix Hc. rewrite forallb_forall in Hall. apply list_elem_of_In, Hall in Hix.
    rewrite forallb_forall in Hix. by apply Hix, list_elem_of_In.
  - assert (Hall : forallb (fun ix => index_holds ix (tb_rows (final_table sample_legacy))) MAPPING_INDEXES = true)
      by (vm_compute; reflexivity).
    apply Forall_forall. intros ix Hix. rewrite forallb_forall in Hall. by apply Hall, list_elem_of_In.
Qed.

