(* ===== verification/Opened.v ===== *)
(** The database that [SqliteStore::connect] opens, as the store reads it: the rows of
    named columns that [Migrate] leaves are the rows of [Sql], its indexes hold of the
    ones exactly when they hold of the others, and a database of the first schema ends
    as one that the invariant of [Store] holds of. *)
From Stdlib Require Import Btauto.
From S2P Require Import Prelude Str Net Core Validation State Sql World Store Reconcile Migrate.
Local Open Scope Z_scope.

(** ** Rows by name and rows of the store *)

Definition text_cell (v : Value) : option string := match v with VText s => Some s | _ => None end.
Definition int_cell (v : Value) : option Z := match v with VInt z => Some z | _ => None end.
Definition nullable {A} (get : Value -> option A) (v : Value) : option (option A) :=
  match v with VNull => Some None | v => Some <$> get v end.

(** A row whose cells have the types of their columns, with the port and the backend
    from elsewhere: the first schema has neither. *)
Definition read_row (r : Row) (public_port : option (option Z)) (backend : option string) : option MapRow :=
  id ← text_cell (cell "id" r);
  name ← text_cell (cell "name" r);
  public_ip ← nullable text_cell (cell "public_ip" r);
  oci_public ← nullable text_cell (cell "oci_public_ip_ocid" r);
  edge ← text_cell (cell "edge_private_ip" r);
  oci_private ← nullable text_cell (cell "oci_private_ip_ocid" r);
  target ← text_cell (cell "target_ip" r);
  public_port ← public_port;
  target_port ← nullable int_cell (cell "target_port" r);
  protocol ← text_cell (cell "protocol" r);
  mode ← text_cell (cell "mode" r);
  backend ← backend;
  enabled ← int_cell (cell "enabled" r);
  status ← text_cell (cell "status" r);
  error ← nullable text_cell (cell "last_error" r);
  health ← nullable text_cell (cell "health_status" r);
  checked ← nullable text_cell (cell "last_checked_at" r);
  created ← text_cell (cell "created_at" r);
  updated ← text_cell (cell "updated_at" r);
  Some (mkRow id name public_ip oci_public edge oci_private target public_port target_port protocol mode backend
    enabled status error health checked created updated).
Definition row_view (r : Row) : option MapRow :=
  read_row r (nullable int_cell (cell "public_port" r)) (text_cell (cell "backend" r)).
Definition legacy_view (r : Row) : option MapRow := read_row r (Some None) (Some "nft").

(** The mappings of a database, as the statements of the store find them. *)
Definition opened_rows (s : Schema) : option (list MapRow) := t ← sc_tables s !! "mappings"; mapM row_view (tb_rows t).

Lemma upgrade_view r : row_view (upgrade r) = legacy_view r.
Proof.
  unfold row_view, legacy_view, read_row.
  rewrite !upgrade_cell by (apply (bool_decide_unpack _); vm_compute; exact I).
  change (cell "public_port" (upgrade r)) with VNull.
  replace (cell "backend" (upgrade r)) with (VText "nft") by (vm_compute; reflexivity). done.
Qed.

(** *** The indexes *)

Lemma text_same a b x y : text_cell a = Some x -> text_cell b = Some y -> same_cell a b = bool_decide (x = y).
Proof.
  destruct a as [| |a], b as [| |b]; try done. intros [= ->] [= ->]. unfold same_cell. rewrite andb_true_r.
  apply bool_decide_ext. split; [by intros [= ->]|by intros ->].
Qed.
Lemma null_text_same a b x y : nullable text_cell a = Some x -> nullable text_cell b = Some y ->
  same_cell a b = same_value x y.
Proof.
  destruct a as [| |a], b as [| |b]; try done; cbn; intros [= <-] [= <-]; try done.
  by apply (text_same (VText a) (VText b)).
Qed.
Lemma null_int_same a b x y : nullable int_cell a = Some x -> nullable int_cell b = Some y ->
  same_cell a b = same_value x y.
Proof.
  destruct a as [|a|], b as [|b|]; try done; cbn; intros [= <-] [= <-]; try done. unfold same_cell.
  rewrite andb_true_r. cbn. apply bool_decide_ext. split; [by intros [= ->]|by intros ->].
Qed.

(** What a row that reads has in the columns of the constraints. *)
Record cells_of (r : Row) (x : MapRow) : Prop := {
  ce_id : text_cell (cell "id" r) = Some (r_id x);
  ce_public_ip : nullable text_cell (cell "public_ip" r) = Some (r_public_ip x);
  ce_edge : text_cell (cell "edge_private_ip" r) = Some (r_edge_private_ip x);
  ce_target : text_cell (cell "target_ip" r) = Some (r_target_ip x);
  ce_protocol : text_cell (cell "protocol" r) = Some (r_protocol x);
  ce_mode : text_cell (cell "mode" r) = Some (r_mode x);
  ce_enabled : int_cell (cell "enabled" r) = Some (r_enabled x);
}.
Lemma read_row_cells r p b x : read_row r p b = Some x -> cells_of r x /\ p = Some (r_public_port x) /\ b = Some (r_backend x).
Proof.
  unfold read_row. intros Hr. repeat match type of Hr with _ ≫= _ = Some _ => apply bind_Some in Hr as (? & ? & Hr) end.
  injection Hr as <-. by repeat split.
Qed.

Lemma enabled_view md r x : cells_of r x -> enabled_in md r = on_with md x.
Proof.
  intros [_ _ _ _ _ Hm He]. unfold enabled_in, on_with. destruct (cell "enabled" r) as [|e|]; try done. injection He as ->.
  destruct (cell "mode" r) as [| |m]; try done. injection Hm as ->. f_equal.
  - destruct (Z.eqb_spec (r_enabled x) 1) as [->|Hn]; [done|]. apply bool_decide_eq_false. by intros [= ?].
  - apply bool_decide_ext. split; [by intros [= ->]|by intros ->].
Qed.

(** An index by columns and the index of the store that stands for it. *)
Definition same_index (ix : Index) (ux : UniqueIndex) : Prop :=
  di_name ix = ix_name ux /\ forall r s x y, row_view r = Some x -> row_view s = Some y ->
    index_clash ix r s = on_with (ix_mode ux) x && on_with (ix_mode ux) y && ix_same ux x y.

Lemma indexes_agree : Forall2 same_index MAPPING_INDEXES mapping_indexes.
Proof.
  unfold MAPPING_INDEXES, mapping_indexes.
  repeat (constructor; [split; [done|]; intros r s x y (Hr & Hp & _)%read_row_cells (Hs & Hq & _)%read_row_cells|]);
    [..|constructor]; unfold index_clash; cbn [di_where di_columns forallb ix_mode ix_same];
    rewrite !(enabled_view _ _ _ Hr), !(enabled_view _ _ _ Hs); rewrite ?andb_true_r.
  - by rewrite (text_same _ _ _ _ (ce_edge _ _ Hr) (ce_edge _ _ Hs)).
  - rewrite (null_text_same _ _ _ _ (ce_public_ip _ _ Hr) (ce_public_ip _ _ Hs)). unfold same_public.
    pose proof (ce_public_ip _ _ Hr) as Hx. pose proof (ce_public_ip _ _ Hs) as Hy.
    destruct (cell "public_ip" r) as [| |a], (cell "public_ip" s) as [| |b]; try done; cbn in Hx, Hy;
      injection Hx as <-; injection Hy as <-; cbn; by rewrite ?andb_true_r, ?andb_false_r.
  - by rewrite (text_same _ _ _ _ (ce_target _ _ Hr) (ce_target _ _ Hs)).
  - rewrite (text_same _ _ _ _ (ce_edge _ _ Hr) (ce_edge _ _ Hs)),
      (text_same _ _ _ _ (ce_protocol _ _ Hr) (ce_protocol _ _ Hs)), (null_int_same _ _ _ _ Hp Hq).
    unfold same_tuple, same_edge. by rewrite !andb_assoc.
Qed.

(** *** Rows that satisfy an index *)

Lemma index_holds_pairwise ix rows :
  index_holds ix rows = true <-> pairwise (fun r s => index_clash ix r s = false) rows.
Proof.
  induction rows as [|r rows IH]; cbn; [split; [intros; apply pairwise_nil|done]|].
  by rewrite pairwise_cons, andb_true_iff, negb_true_iff, existsb_false, IH.
Qed.

(** Rows that read, and a relation on them that holds of their views. *)
Lemma pairwise_view (view : Row -> option MapRow) (R : Row -> Row -> Prop) (S : MapRow -> MapRow -> Prop) rows xs :
  mapM view rows = Some xs ->
  (forall r s x y, view r = Some x -> view s = Some y -> R r s <-> S x y) -> pairwise R rows <-> pairwise S xs.
Proof.
  intros Hv%mapM_Some HRS. induction Hv as [|r x rows xs Hr Hv IH]; [split; intros; apply pairwise_nil|].
  rewrite !pairwise_cons, IH, !Forall_forall. apply and_iff_compat_r. split.
  - intros Hall y (i & Hy)%list_elem_of_lookup. destruct (Forall2_lookup_r _ _ _ _ _ Hv Hy) as (s & Hs & Hsy).
    apply (HRS r s); [done..|]. eapply Hall, list_elem_of_lookup_2, Hs.
  - intros Hall s (i & Hs)%list_elem_of_lookup. destruct (Forall2_lookup_l _ _ _ _ _ Hv Hs) as (y & Hy & Hsy).
    apply (HRS r s x y); [done..|]. eapply Hall, list_elem_of_lookup_2, Hy.
Qed.

Lemma pairwise_and {A} (R S : A -> A -> Prop) l : pairwise R l -> pairwise S l -> pairwise (fun a b => R a b /\ S a b) l.
Proof.
  induction l as [|a l IH]; [intros; apply pairwise_nil|]. rewrite !pairwise_cons.
  intros [Ha Hl] [Hb Hk]. split; [by apply Forall_and|by apply IH].
Qed.

Lemma NoDup_pairwise {A B} `{EqDecision B} (f : A -> B) l :
  NoDup (f <$> l) <-> pairwise (fun a b => bool_decide (f a = f b) = false) l.
Proof.
  induction l as [|a l IH]; [split; [intros; apply pairwise_nil|constructor]|].
  rewrite fmap_cons, NoDup_cons, pairwise_cons, IH, list_elem_of_fmap. apply and_iff_compat_r. rewrite Forall_forall. split.
  - intros Hno b Hb. apply bool_decide_eq_false. intros E. apply Hno. by exists b.
  - intros Hall (b & E & Hb). specialize (Hall b Hb). by apply bool_decide_eq_false in Hall.
Qed.

(** ** The first schema *)

(** The unique columns of the first schema, and the constraint that it lacks. *)
Definition legacy_key (column : string) : Index := mkIdx "" "mappings" "u" [column] (fun _ => true).
Definition target_index : Index :=
  mkIdx "mappings_one_to_one_target_ip_enabled_idx" "mappings" "c" ["target_ip"] (enabled_in one_to_one_name).
Definition legacy_distinct (x y : MapRow) : Prop :=
  (bool_decide (r_id x = r_id y) = false /\ same_edge x y = false /\ same_public x y = false) /\
  on_with one_to_one_name x && on_with one_to_one_name y && same_target_text x y = false.

Lemma legacy_keys_distinct (rows : list Row) xs :
  mapM legacy_view rows = Some xs ->
  Forall (fun column => index_holds (legacy_key column) rows = true) ["id"; "public_ip"; "edge_private_ip"] ->
  index_holds target_index rows = true -> pairwise legacy_distinct xs.
Proof.
  intros Hv Hk Ht. rewrite !Forall_cons in Hk. destruct Hk as (Hid & Hpub & Hedge & _).
  rewrite index_holds_pairwise in *.
  pose proof (pairwise_and _ _ _ (pairwise_and _ _ _ Hid (pairwise_and _ _ _ Hedge Hpub)) Ht) as Hall.
  revert Hall. eapply pairwise_view; [exact Hv|].
  intros r s x y (Hr & _)%read_row_cells (Hs & _)%read_row_cells. unfold legacy_distinct, index_clash. cbn [di_where di_columns
    legacy_key target_index forallb andb].
  rewrite !andb_true_r, (text_same _ _ _ _ (ce_id _ _ Hr) (ce_id _ _ Hs)),
    (text_same _ _ _ _ (ce_edge _ _ Hr) (ce_edge _ _ Hs)),
    (null_text_same _ _ _ _ (ce_public_ip _ _ Hr) (ce_public_ip _ _ Hs)),
    (text_same _ _ _ _ (ce_target _ _ Hr) (ce_target _ _ Hs)),
    (enabled_view _ _ _ Hr), (enabled_view _ _ _ Hs). done.
Qed.

Lemma distinct_apart x y : legacy_distinct x y -> apart x y.
Proof.
  intros ((_ & He & Hp) & Ht). unfold apart, row_clash, same_tuple, on_with in *. cbn zeta. rewrite He, Hp in *.
  destruct (r_enabled x =? 1), (r_enabled y =? 1), (bool_decide (r_mode x = one_to_one_name)),
    (bool_decide (r_mode y = one_to_one_name)); cbn in *; rewrite ?Ht; btauto.
Qed.

Lemma distinct_indexes x y ux : ux ∈ mapping_indexes -> legacy_distinct x y ->
  on_with (ix_mode ux) x && on_with (ix_mode ux) y && ix_same ux x y = false.
Proof.
  intros Hin ((_ & He & Hp) & Ht). unfold mapping_indexes in Hin.
  repeat (apply elem_of_cons in Hin as [->|Hin]; [cbn [ix_mode ix_same]; unfold same_tuple; by rewrite ?He, ?Hp, ?andb_false_r, ?Ht|]).
  by apply not_elem_of_nil in Hin.
Qed.

(** The views give the new table what it requires. *)
Lemma view_not_null t r x : row_view r = Some x -> null_violated (upgraded t) r = false.
Proof.
  intros Hv. unfold row_view, read_row in Hv.
  repeat match type of Hv with _ ≫= _ = Some _ => apply bind_Some in Hv as (? & ? & Hv) end.
  unfold null_violated. cbn [tb_columns upgraded existsb mapping_columns col_not_null col_name required_text text_column
    text_with_default andb orb].
  repeat match goal with
  | H : text_cell (cell ?c r) = Some _ |- context [cell ?c r] => destruct (cell c r); [done|done|clear H]
  | H : int_cell (cell ?c r) = Some _ |- context [cell ?c r] => destruct (cell c r); [done|clear H|done]
  end.
  vm_compute. reflexivity.
Qed.

Lemma upgraded_views t rows : mapM legacy_view (tb_rows t) = Some rows -> mapM row_view (tb_rows (upgraded t)) = Some rows.
Proof.
  intros Hv%mapM_Some. apply mapM_Some. cbn. apply Forall2_fmap_l. eapply Forall2_impl; [exact Hv|].
  intros r x Hr. cbn. by rewrite upgrade_view.
Qed.

Lemma upgraded_complete t : fill (upgraded t) ensured_columns = upgraded t.
Proof. reflexivity. Qed.

(** What SQLite keeps true of a database of the first schema, with rows that the
    store has written, and the one condition that this schema does not state. *)
Record first_schema (s : Schema) (t : Table) (rows : list MapRow) : Prop := {
  fs_old : sc_tables s !! old_table = None;
  fs_table : sc_tables s !! "mappings" = Some t;
  fs_legacy : looks_legacy t (index_list "mappings" s) = true;
  fs_columns : Forall (fun c => has_column t c = true) carried;
  fs_rows : mapM legacy_view (tb_rows t) = Some rows;
  fs_bools : Forall bool_column rows;
  fs_keys : Forall (fun column => index_holds (legacy_key column) (tb_rows t) = true) ["id"; "public_ip"; "edge_private_ip"];
  fs_targets : index_holds target_index (tb_rows t) = true;
}.

Section opens.
Context (s : Schema) (t : Table) (rows : list MapRow) (Hs : first_schema s t rows).

Lemma first_distinct : pairwise legacy_distinct rows.
Proof. eapply legacy_keys_distinct; [apply (fs_rows _ _ _ Hs)|apply (fs_keys _ _ _ Hs)|apply (fs_targets _ _ _ Hs)]. Qed.

Lemma first_rows_ok : rows_ok rows.
Proof.
  constructor; [|eapply pairwise_impl, first_distinct; apply distinct_apart|apply (fs_bools _ _ _ Hs)].
  apply NoDup_pairwise. eapply pairwise_impl, first_distinct. by intros x y ((? & _) & _).
Qed.

Lemma first_final : final_table s = upgraded t.
Proof.
  unfold final_table, legacy. by rewrite (fs_table _ _ _ Hs), (fs_legacy _ _ _ Hs), upgraded_complete.
Qed.

Lemma first_migratable : migratable s.
Proof.
  pose proof (upgraded_views _ _ (fs_rows _ _ _ Hs)) as Hv. constructor.
  - apply (fs_old _ _ _ Hs).
  - rewrite (fs_table _ _ _ Hs). discriminate.
  - intros t' Ht' _. rewrite (fs_table _ _ _ Hs) in Ht'. injection Ht' as <-. split_and!; [apply (fs_columns _ _ _ Hs)| |].
    + apply mapM_Some in Hv. apply Forall_forall. intros r (i & Hr)%list_elem_of_lookup.
      destruct (Forall2_lookup_l _ _ _ _ _ Hv Hr) as (x & _ & Hx). by apply (view_not_null _ _ x).
    + apply index_holds_pairwise. eapply (pairwise_view row_view _ (fun x y => bool_decide (r_id x = r_id y) = false)); [exact Hv| |].
      * intros r r' x y (Hr & _)%read_row_cells (Hr' & _)%read_row_cells. unfold index_clash. cbn [di_where di_columns primary_key
          forallb andb]. by rewrite andb_true_r, (text_same _ _ _ _ (ce_id _ _ Hr) (ce_id _ _ Hr')).
      * by apply NoDup_pairwise, first_rows_ok.
  - rewrite first_final. assert (Hall : forallb (fun ix => forallb (has_column (upgraded t)) (di_columns ix)) MAPPING_INDEXES = true)
      by (vm_compute; reflexivity).
    intros ix c Hix Hc. rewrite forallb_forall in Hall. apply list_elem_of_In, Hall in Hix.
    rewrite forallb_forall in Hix. by apply Hix, list_elem_of_In.
  - rewrite first_final. apply Forall_forall. intros ix (i & Hix)%list_elem_of_lookup.
    destruct (Forall2_lookup_l _ _ _ _ _ indexes_agree Hix) as (ux & Hux & _ & Hsame).
    apply index_holds_pairwise.
    eapply (pairwise_view row_view _ (fun x y => on_with (ix_mode ux) x && on_with (ix_mode ux) y && ix_same ux x y = false));
      [exact Hv| |].
    + intros r r' x y Hr Hr'. by rewrite (Hsame _ _ _ _ Hr Hr').
    + eapply pairwise_impl, first_distinct. intros x y. apply distinct_indexes. by apply list_elem_of_lookup_2 in Hux.
Qed.
End opens.

Lemma connect_migrates `{StoreLib} fault refused mkdir path n s :
  (forall n, fault n = None) -> (path_parent path ≫= mkdir) = None ->
  connect fault refused mkdir path (mkConn n s) = migrate fault refused (mkConn (S n) s).
Proof.
  intros Hfree Hdir. unfold connect. rewrite Hdir. cbv [mbind mig_bind fetch statement]. cbn [cn_count cn_schema].
  by rewrite Hfree.
Qed.

(** A database of the present schema opens as it is. *)
Lemma current_database_opens `{StoreLib} fault refused mkdir path c :
  (forall n, fault n = None) -> (path_parent path ≫= mkdir) = None -> current (cn_schema c) ->
  exists n, connect fault refused mkdir path c = (Ok tt, mkConn n (cn_schema c)).
Proof.
  intros Hfree Hdir Hc. destruct c as [n s]. rewrite connect_migrates by done. cbn [cn_schema] in *.
  pose proof (current_runs fault refused Hfree (mkConn (S n) s) Hc) as Hrun. unfold holds in Hrun.
  destruct (migrate fault refused (mkConn (S n) s)) as [[[]|e] [k s']]; [|done]. cbn in Hrun. subst. by exists k.
Qed.

(** C22: a database of the first schema whose enabled one-to-one mappings have
    distinct targets opens, and what the store then reads are its mappings, in their
    order, with no public port and the nftables backend; no two of them break a
    constraint, so the invariant that the store's operations keep holds from there. *)
Theorem legacy_database_opens `{StoreLib} fault refused mkdir path c t rows
    (Hfree : forall n, fault n = None) (Hdir : (path_parent path ≫= mkdir) = None)
    (Hs : first_schema (cn_schema c) t rows) :
  exists c', connect fault refused mkdir path c = (Ok tt, c') /\
    opened_rows (cn_schema c') = Some rows /\ rows_ok rows /\
    Forall (fun x => r_public_port x = None /\ r_backend x = "nft") rows.
Proof.
  destruct c as [n s]. cbn [cn_schema] in Hs.
  rewrite connect_migrates by done.
  pose proof (migrate_runs fault refused Hfree (mkConn (S n) s) (first_migratable s t rows Hs)) as Hrun. unfold holds in Hrun.
  destruct (migrate fault refused (mkConn (S n) s)) as [[[]|e] c'] eqn:E; [|done]. destruct Hrun as [Ht _].
  exists c'. split; [done|]. cbn [cn_schema] in Ht. split_and!; [|by eapply first_rows_ok|].
  - unfold opened_rows. rewrite Ht, (first_final s t rows Hs). cbn. apply (upgraded_views t rows), (fs_rows _ _ _ Hs).
  - pose proof (fs_rows _ _ _ Hs) as Hv%mapM_Some. apply Forall_forall. intros x (i & Hx)%list_elem_of_lookup.
    destruct (Forall2_lookup_r _ _ _ _ _ Hv Hx) as (r & _ & Hr). apply read_row_cells in Hr as (_ & [= <-] & [= <-]). done.
Qed.

(** ** The condition that the first schema does not state *)

(** Two enabled mappings from different addresses to the same target, which the
    first schema allows. *)
Definition shared_target : Schema :=
  legacy_schema [legacy_row "a" "10.0.0.5" "192.168.20.1"; legacy_row "b" "10.0.0.6" "192.168.20.1"].
Definition ddl_text (f : DdlFailure) : string :=
  match f with NotUnique => "UNIQUE constraint failed" | _ => "SQL logic error" end.

#[local] Existing Instance model_lib.

(** Such a database satisfies every constraint of its own schema, but it does
    not open, now or later: its upgrade commits, and the index over the targets
    cannot be created. *)
Theorem shared_target_does_not_open :
  forallb (fun ix => index_holds ix (match sc_tables shared_target !! "mappings" with Some t => tb_rows t | None => [] end))
    (sc_indexes shared_target) = true /\
  let first := migrate no_fault ddl_text (mkConn 0 shared_target) in
  first.1 = Err (StoreError "UNIQUE constraint failed") /\ legacy (cn_schema first.2) = false /\
  let again := migrate no_fault ddl_text first.2 in
  again.1 = Err (StoreError "UNIQUE constraint failed") /\ length (sc_indexes (cn_schema again.2)) = length (sc_indexes (cn_schema first.2)).
Proof. vm_compute. repeat split. Qed.

(** ** An upgrade that comes late

    The test for a legacy table and the upgrade are two steps: another process may have
    upgraded the database in between, and used it. *)

Definition upgrade_tables `{StoreLib} fault refused : Mig unit :=
  transaction fault (
    execute fault refused (RenameTable "mappings" old_table) ;;
    mig_for_each (execute fault refused) SQLITE_SCHEMA ;;
    execute fault refused CopyMappings ;;
    execute fault refused (DropTable old_table)).

Lemma upgrade_steps `{StoreLib} fault refused :
  ensure_port_forward_schema fault refused =
  (legacy ← has_legacy_mapping_unique_constraints fault;
   if negb legacy then mret tt else upgrade_tables fault refused).
Proof. reflexivity. Qed.

(** A port forward that the store of the other process inserts. *)
Definition forward_row : Row := list_to_map
  [("id", VText "p"); ("name", VText "https"); ("edge_private_ip", VText "10.0.0.7"); ("target_ip", VText "192.168.20.7");
   ("public_port", VInt 443); ("target_port", VInt 8443); ("protocol", VText "tcp"); ("mode", VText port_forward_name);
   ("backend", VText "nft"); ("enabled", VInt 1); ("status", VText "pending");
   ("created_at", VText "2026-01-01T00:00:00Z"); ("updated_at", VText "2026-01-01T00:00:00Z")].
Definition insert_forward (s : Schema) : Schema :=
  match sc_tables s !! "mappings" with
  | Some t => set_table "mappings" (mkTable (tb_sql t) (tb_columns t) (tb_rows t ++ [forward_row])) s
  | None => s
  end.
Definition stored_ports (s : Schema) : option (list (option Z)) := map r_public_port <$> opened_rows s.

(** One process finds the table to be a legacy one; the other upgrades it and stores a
    port forward; the upgrade of the first succeeds, and the forward has no port. *)
Theorem late_upgrade_drops_ports :
  let one := has_legacy_mapping_unique_constraints no_fault (mkConn 0 sample_legacy) in
  let other := migrate no_fault ddl_text (mkConn 0 sample_legacy) in
  let between := insert_forward (cn_schema other.2) in
  let late := upgrade_tables no_fault ddl_text (mkConn (cn_count one.2) between) in
  one.1 = Ok true /\ other.1 = Ok tt /\ stored_ports between = Some [None; None; Some 443] /\
  late.1 = Ok tt /\ stored_ports (cn_schema late.2) = Some [None; None; None].
Proof. vm_compute. repeat split. Qed.

(** ** Witnesses *)

Definition sample_table : Table :=
  legacy_table [legacy_row "a" "10.0.0.5" "192.168.20.1"; legacy_row "b" "10.0.0.6" "192.168.20.2"].
Definition sample_rows : list MapRow := default [] (mapM legacy_view (tb_rows sample_table)).

Lemma sample_first : first_schema sample_legacy sample_table sample_rows.
Proof.
  constructor; [reflexivity|reflexivity|vm_compute; reflexivity| |vm_compute; reflexivity| | |vm_compute; reflexivity].
  - apply Forall_forall. intros c Hc.
    assert (Hall : forallb (has_column (legacy_table [])) carried = true) by (vm_compute; reflexivity).
    rewrite forallb_forall in Hall. by apply (Hall c), list_elem_of_In.
  - repeat constructor; right; vm_compute; reflexivity.
  - repeat constructor; vm_compute; reflexivity.
Qed.

Lemma legacy_database_opens_witness :
  length sample_rows = 2%nat /\
  exists c', connect no_fault ddl_text (fun _ => None) "/var/lib/edge/edge.db" (mkConn 0 sample_legacy) = (Ok tt, c') /\
    opened_rows (cn_schema c') = Some sample_rows.
Proof.
  split; [vm_compute; reflexivity|].
  destruct (legacy_database_opens no_fault ddl_text (fun _ => None) "/var/lib/edge/edge.db" (mkConn 0 sample_legacy) sample_table sample_rows)
    as (c' & Hrun & Hrows & _).
  - reflexivity.
  - vm_compute. reflexivity.
  - exact sample_first.
  - exists c'. split; [exact Hrun|exact Hrows].
Defined.
