(* ===== verification/Json.v ===== *)
(** JSON values, and what [#[derive(Serialize, Deserialize)]] does with them: the
    names of fields, omitted and defaulted fields. The text of a value is left
    to [serde_json], which is a parameter. *)
From S2P Require Import Prelude Str BTree Net Core.
Local Open Scope Z_scope.

Inductive Json :=
  | JNull
  | JBool (b : bool)
  | JNum (n : Z)
  | JOther (number : string)
  | JStr (s : string)
  | JArr (l : list Json)
  | JObj (fields : list (string * Json)).

(** [serde_json]: writing a value, reading one, and the message it gives for a
    text that does not hold the expected data. *)
Class JsonLib := {
  json_write : Json -> Result string string;
  json_read : string -> Result string Json;
  json_data_error : string -> string;
}.

(** ** Serialize *)

Definition opt_json {A} (f : A -> Json) (o : option A) : Json :=
  match o with Some a => f a | None => JNull end.
(** [skip_serializing_if = "Option::is_none"] *)
Definition opt_field {A} (name : string) (f : A -> Json) (o : option A) : list (string * Json) :=
  match o with Some a => [(name, f a)] | None => [] end.
Definition strings_json (l : list string) : Json := JArr (JStr <$> l).

(** The object that [json!] builds, a map ordered by the names. *)
Definition json_object (fields : list (string * Json)) : Json :=
  JObj (foldl (fun m f => bt_insert f.1 f.2 m) [] fields).

(** ** Deserialize *)

(** The fields of a struct: from an object, where a known name occurs at most
    once and unknown names are ignored, or from an array in the order of
    declaration, at least [least] of them. *)
Definition struct_fields (names : list string) (least : nat) (v : Json) : option (string -> option Json) :=
  match v with
  | JObj fs =>
      if bool_decide (NoDup (filter (fun n => n ∈ names) (fst <$> fs)))
      then Some (fun n => snd <$> find (fun f => String.eqb f.1 n) fs)
      else None
  | JArr l =>
      if bool_decide (least <= length l <= length names)%nat
      then Some (fun n => snd <$> find (fun f => String.eqb f.1 n) (zip names l))
      else None
  | _ => None
  end.

Definition as_string (v : Json) : option string := match v with JStr s => Some s | _ => None end.
Definition as_bool (v : Json) : option bool := match v with JBool b => Some b | _ => None end.
(** [usize] *)
Definition as_usize (v : Json) : option Z :=
  match v with JNum n => if bool_decide (0 <= n < 2 ^ 64) then Some n else None | _ => None end.
Definition as_list {A} (d : Json -> option A) (v : Json) : option (list A) :=
  match v with JArr l => mapM d l | _ => None end.
Definition as_option {A} (d : Json -> option A) (v : Json) : option (option A) :=
  match v with JNull => Some None | v => Some <$> d v end.

(** A field that must be present, one of an [Option] type, one with a default. *)
Definition required {A} (d : Json -> option A) (o : option Json) : option A := v ← o; d v.
Definition optional {A} (d : Json -> option A) (o : option Json) : option (option A) :=
  match o with Some v => as_option d v | None => Some None end.
Definition defaulted {A} (a : A) (d : Json -> option A) (o : option Json) : option A :=
  match o with Some v => d v | None => Some a end.

(** [serde_json::from_str] *)
Definition from_str {A} `{JsonLib} (d : Json -> option A) (text : string) : Result string A :=
  v ← json_read text;
  ok_or (d v) (json_data_error text).

(** Other readings: [i64], [u16], a path, an enum with the names of its variants,
    which may also be written as an object. *)
Definition as_i64 (v : Json) : option Z :=
  match v with JNum n => if bool_decide (- 2 ^ 63 <= n < 2 ^ 63) then Some n else None | _ => None end.
Definition as_u16 (v : Json) : option Z :=
  match v with JNum n => if bool_decide (u16_ok n) then Some n else None | _ => None end.
Definition as_wire {T} `{WireEnum T} (v : Json) : option T :=
  match v with
  | JStr s | JObj [(s, JNull)] => from_wire s
  | _ => None
  end.
Definition as_ip (v : Json) : option Ipv4Addr := s ← as_string v; parse_ip s.

(** ** Lemmas *)

Lemma optional_json {A} (enc : A -> Json) (dec : Json -> option A) o :
  (forall a, enc a <> JNull) -> (forall a, dec (enc a) = Some a) ->
  optional dec (Some (opt_json enc o)) = Some o.
Proof.
  intros Hn Hd. destruct o as [a|]; [|done]. cbn [opt_json optional]. specialize (Hn a). specialize (Hd a).
  unfold as_option. by destruct (enc a); rewrite ?Hd.
Qed.
Lemma optional_string o : optional as_string (Some (opt_json JStr o)) = Some o.
Proof. by apply optional_json. Qed.
Lemma optional_bool o : optional as_bool (Some (opt_json JBool o)) = Some o.
Proof. by apply optional_json. Qed.
Lemma list_json {A} (enc : A -> Json) (dec : Json -> option A) l :
  Forall (fun a => dec (enc a) = Some a) l -> as_list dec (JArr (enc <$> l)) = Some l.
Proof. cbn [as_list]. induction 1 as [|a l Ha _ IH]; [done|]. cbn. by rewrite Ha, IH. Qed.
Lemma strings_read l : as_list as_string (strings_json l) = Some l.
Proof. apply list_json. by apply Forall_forall. Qed.
Definition usize_ok (z : Z) : Prop := 0 <= z < 2 ^ 64.
Lemma usize_read z : usize_ok z -> defaulted 0 as_usize (Some (JNum z)) = Some z.
Proof. intros Hz. unfold defaulted, as_usize. by rewrite bool_decide_eq_true_2. Qed.
Lemma defaulted_Some {A} (a : A) d v : defaulted a d (Some v) = d v.
Proof. done. Qed.

Lemma opt_json_read {A} (enc : A -> Json) (dec : Json -> option A) (P : A -> Prop) o :
  (forall a, enc a <> JNull) -> (forall a, P a -> dec (enc a) = Some a) -> opt_all P o ->
  optional dec (Some (opt_json enc o)) = Some o.
Proof.
  intros Hn Hd Ho. destruct o as [a|]; [|done]. specialize (Hn a). specialize (Hd a Ho).
  cbn [opt_json optional]. unfold as_option. by destruct (enc a); rewrite ?Hd.
Qed.
Lemma u16_read o : opt_all u16_ok o -> optional as_u16 (Some (opt_json JNum o)) = Some o.
Proof. intros Ho. apply opt_json_read with u16_ok; [done| |done]. intros p Hp. cbn. by rewrite bool_decide_eq_true_2. Qed.
Lemma ip_read ip : as_ip (JStr (show_ip ip)) = Some ip.
Proof. apply parse_show_ip. Qed.
Lemma opt_ip_read o : optional as_ip (Some (opt_json (JStr ∘ show_ip) o)) = Some o.
Proof. apply optional_json; [done|]. intros ip. apply ip_read. Qed.
Lemma wire_read {T} `{WireEnum T} (t : T) : as_wire (JStr (wire t)) = Some t.
Proof. apply from_wire_wire. Qed.

(** ** A library that satisfies the law *)

(** A value written reads back. *)
Class JsonLaws `{JsonLib} : Prop :=
  json_read_write : forall v s, json_write v = Ok s -> json_read s = Ok v.

Section induction.
Context (P : Json -> Prop) (Hnull : P JNull) (Hbool : forall b, P (JBool b)) (Hnum : forall n, P (JNum n))
  (Hother : forall s, P (JOther s)) (Hstr : forall s, P (JStr s)) (Harr : forall l, Forall P l -> P (JArr l))
  (Hobj : forall fs, Forall (fun f => P f.2) fs -> P (JObj fs)).

Fixpoint Json_rect' (v : Json) : P v :=
  match v with
  | JNull => Hnull
  | JBool b => Hbool b
  | JNum n => Hnum n
  | JOther s => Hother s
  | JStr s => Hstr s
  | JArr l => Harr l ((fix all l := match l as l' return Forall P l' with
      | [] => Forall_nil_2 _
      | v :: l => Forall_cons_2 _ v l (Json_rect' v) (all l)
      end) l)
  | JObj fs => Hobj fs ((fix all fs := match fs as fs' return Forall (fun f => P f.2) fs' with
      | [] => Forall_nil_2 _
      | f :: fs => Forall_cons_2 _ f fs (Json_rect' f.2) (all fs)
      end) fs)
  end.
End induction.

(** Values as trees, whose leaves are words. *)
Fixpoint to_tree (v : Json) : gen_tree (bool + Z + string) :=
  match v with
  | JNull => GenNode 0 []
  | JBool b => GenLeaf (inl (inl b))
  | JNum n => GenLeaf (inl (inr n))
  | JOther s => GenNode 1 [GenLeaf (inr s)]
  | JStr s => GenLeaf (inr s)
  | JArr l => GenNode 2 (to_tree <$> l)
  | JObj fs => GenNode 3 ((fun f => GenNode 4 [GenLeaf (inr f.1); to_tree f.2]) <$> fs)
  end.
Fixpoint of_tree (t : gen_tree (bool + Z + string)) : Json :=
  match t with
  | GenLeaf (inl (inl b)) => JBool b
  | GenLeaf (inl (inr n)) => JNum n
  | GenLeaf (inr s) => JStr s
  | GenNode 1 [GenLeaf (inr s)] => JOther s
  | GenNode 2 l => JArr (of_tree <$> l)
  | GenNode 3 l => JObj (omap (fun t => match t with
      | GenNode 4 [GenLeaf (inr s); t] => Some (s, of_tree t)
      | _ => None
      end) l)
  | _ => JNull
  end.

Lemma of_to_tree v : of_tree (to_tree v) = v.
Proof.
  induction v as [| | | | |l IH|fs IH] using Json_rect'; try done; cbn [to_tree of_tree]; f_equal;
    induction IH as [|x l Hx _ IH]; [done| |done|]; cbn in *.
  - by rewrite Hx, IH.
  - rewrite Hx, IH. by destruct x.
Qed.

Definition json_model : JsonLib := {|
  json_write v := Ok (pos_text (encode (to_tree v)));
  json_read s := ok_or (of_tree <$> (text_pos s ≫= decode)) "expected value";
  json_data_error _ := "invalid type";
|}.
Lemma json_model_laws : @JsonLaws json_model.
Proof.
  intros v s [= <-]. cbn [json_read json_model]. rewrite text_pos_text. cbn [mbind option_bind].
  rewrite decode_encode. cbn. by rewrite of_to_tree.
Qed.
