(* ===== verification/Testing.v ===== *)
(** What the tests of the crates run on: the test monad, in which an assertion or an
    [unwrap] that does not hold panics, and concrete values for the libraries that the
    definitions are parametric in, so that the tests can be evaluated. *)
From Stdlib Require Import Ascii.
From S2P Require Import Prelude Str Net Core Sql World Store Migrate Json.
Local Open Scope Z_scope.

(** ** Tests *)

(** The body of a test returns no error. *)
Abbreviation Test := (IO Empty_set).

Definition panic {A} (message : string) : Test A := from_out (Panicked message).
Definition assert (b : bool) : Test unit := if b then mret tt else panic "assertion failed".
Definition assert_eq {A} `{EqDecision A} (left right : A) : Test unit :=
  if bool_decide (left = right) then mret tt else panic "assertion `left == right` failed".
Definition unwrap {E A} (m : IO E A) : Test A := fun w =>
  match m w with
  | (Ret a, w) => (Ret a, w)
  | (Fail _, w) => (Panicked "called `Result::unwrap()` on an `Err` value", w)
  | (Panicked s, w) => (Panicked s, w)
  end.
Definition unwrap_err {E A} (m : IO E A) : Test E := fun w =>
  match m w with
  | (Ret _, w) => (Panicked "called `Result::unwrap_err()` on an `Ok` value", w)
  | (Fail e, w) => (Ret e, w)
  | (Panicked s, w) => (Panicked s, w)
  end.
(** The same of a value, and of an operation on a [&mut] receiver. *)
Definition ok {E A} (r : Result E A) : Test A := unwrap (lift r).
Definition err {E A} (r : Result E A) : Test E := unwrap_err (lift r).
Definition ok_mut {E A S} (r : Result E A * S) : Test (A * S) := a ← ok r.1; mret (a, r.2).
Definition err_mut {E A S} (r : Result E A * S) : Test (E * S) := e ← err r.1; mret (e, r.2).
Definition some {A} (o : option A) : Test A := ok (ok_or o "called `Option::unwrap()` on a `None` value").
Definition index {A} (l : list A) (i : nat) : Test A := some (l !! i).

Definition passes_in (w : World) (t : Test unit) : bool := match (t w).1 with Ret _ => true | _ => false end.
Definition passes : Test unit -> bool := passes_in (mkWorld db_empty ∅ []).

(** [MappingId::new] and [Mapping::new] with the identifier and the clock of the world. *)
Definition new_id `{Env} : Test MappingId := uuid ← fresh_uuid; mret (mapping_id_new uuid).
Definition new_mapping `{Env} (nm : string) (public : option Ipv4Addr) (edge target : Ipv4Addr) : Test Mapping :=
  i ← new_id; now ← now_utc; mret (mapping_new i now nm public edge target).

Definition set_addresses (m : Mapping) (public : option Ipv4Addr) (edge target : Ipv4Addr) : Mapping :=
  mkMapping (id m) (name m) public (oci_public_ip_ocid m) edge (oci_private_ip_ocid m) target (public_port m)
    (target_port m) (protocol m) (mode m) (backend m) (enabled m) (status m) (last_error m) (health_status m)
    (last_checked_at m) (created_at m) (updated_at m).
Definition set_target (m : Mapping) (target : Ipv4Addr) : Mapping :=
  set_addresses m (public_ip m) (edge_private_ip m) target.
Definition set_backend (m : Mapping) (b : MappingBackend) : Mapping :=
  set_endpoints m (public_port m) (target_port m) (mode m) (protocol m) b.
(** [mode = PortForwardSnat; protocol = p; public_port = Some(port); target_port = Some(to)] *)
Definition forwarding (m : Mapping) (p : Protocol) (port to : Z) : Mapping :=
  set_endpoints m (Some port) (Some to) PortForwardSnat p (backend m).

Definition net24 (a b c : Z) : Ipv4Net := mkNet (ip4 a b c 0) 24.

(** ** Texts of JSON *)

(** The compact text of a value. *)
Definition escaped (c : ascii) : list ascii :=
  if Ascii.eqb c "034"%char || Ascii.eqb c "\"%char then ["\"%char; c]
  else if byte_of c =? 10 then ["\"; "n"]%char
  else if byte_of c =? 13 then ["\"; "r"]%char
  else if byte_of c =? 9 then ["\"; "t"]%char
  else [c].
Definition quoted (s : string) : string := dquote +:+ of_chars (mjoin (escaped <$> chars s)) +:+ dquote.
Fixpoint json_text (v : Json) : string :=
  match v with
  | JNull => "null"
  | JBool b => if b then "true" else "false"
  | JNum n => show_Z n
  | JOther s => s
  | JStr s => quoted s
  | JArr l => "[" +:+ join "," (map json_text l) +:+ "]"
  | JObj fs => "{" +:+ join "," (map (fun f => quoted f.1 +:+ ":" +:+ json_text f.2) fs) +:+ "}"
  end.

(** Reading: the escapes of one character, whole numbers, and values with fuel. *)
Definition json_space (c : ascii) : bool := existsb (Ascii.eqb c) [" "; "009"; "010"; "013"]%char.
Fixpoint skip_spaces (l : list ascii) : list ascii :=
  match l with c :: r => if json_space c then skip_spaces r else l | [] => [] end.
Definition unescaped (c : ascii) : option ascii :=
  snd <$> find (fun p => Ascii.eqb p.1 c)
    [("034", "034"); ("\", "\"); ("/", "/"); ("n", "010"); ("r", "013"); ("t", "009"); ("b", "008"); ("f", "012")]%char.
Fixpoint read_string (l : list ascii) : option (list ascii * list ascii) :=
  match l with
  | [] => None
  | "034"%char :: r => Some ([], r)
  | "\"%char :: c :: r => c ← unescaped c; '(s, r) ← read_string r; Some (c :: s, r)
  | c :: r => if byte_of c <? 32 then None else '(s, r) ← read_string r; Some (c :: s, r)
  end.
Fixpoint read_digits (acc : Z) (l : list ascii) : Z * list ascii :=
  match l with
  | c :: r => if is_ascii_digit c then read_digits (10 * acc + (byte_of c - 48)) r else (acc, l)
  | [] => (acc, [])
  end.
Definition read_number (l : list ascii) : option (Json * list ascii) :=
  match l with
  | "-"%char :: c :: r => if is_ascii_digit c then let '(n, r) := read_digits 0 (c :: r) in Some (JNum (- n), r) else None
  | c :: r => if is_ascii_digit c then let '(n, r) := read_digits 0 (c :: r) in Some (JNum n, r) else None
  | [] => None
  end.
Definition read_word (l : list ascii) : option (Json * list ascii) :=
  match strip_list (chars "null") l, strip_list (chars "true") l, strip_list (chars "false") l with
  | Some r, _, _ => Some (JNull, r)
  | _, Some r, _ => Some (JBool true, r)
  | _, _, Some r => Some (JBool false, r)
  | _, _, _ => None
  end.
Fixpoint read_value (n : nat) (l : list ascii) {struct n} : option (Json * list ascii) :=
  match n, skip_spaces l with
  | S n, "034"%char :: r => '(s, r) ← read_string r; Some (JStr (of_chars s), r)
  | S n, "["%char :: r =>
      match skip_spaces r with
      | "]"%char :: r => Some (JArr [], r)
      | r => '(vs, r) ← read_items n r; Some (JArr vs, r)
      end
  | S n, "{"%char :: r =>
      match skip_spaces r with
      | "}"%char :: r => Some (JObj [], r)
      | r => '(fs, r) ← read_members n r; Some (JObj fs, r)
      end
  | S n, l => match read_word l with Some x => Some x | None => read_number l end
  | O, _ => None
  end
with read_items (n : nat) (l : list ascii) {struct n} : option (list Json * list ascii) :=
  match n with
  | O => None
  | S n =>
      '(v, r) ← read_value n l;
      match skip_spaces r with
      | "]"%char :: r => Some ([v], r)
      | ","%char :: r => '(vs, r) ← read_items n r; Some (v :: vs, r)
      | _ => None
      end
  end
with read_members (n : nat) (l : list ascii) {struct n} : option (list (string * Json) * list ascii) :=
  match n, skip_spaces l with
  | S n, "034"%char :: r =>
      '(k, r) ← read_string r;
      match skip_spaces r with
      | ":"%char :: r =>
          '(v, r) ← read_value n r;
          match skip_spaces r with
          | "}"%char :: r => Some ([(of_chars k, v)], r)
          | ","%char :: r => '(fs, r) ← read_members n r; Some ((of_chars k, v) :: fs, r)
          | _ => None
          end
      | _ => None
      end
  | _, _ => None
  end.
(** A level takes two steps and the bytes of its two brackets, a further element one step and a comma. *)
Definition read_json (s : string) : option Json :=
  '(v, r) ← read_value (S (length (chars s))) (chars s);
  if is_empty (of_chars (skip_spaces r)) then Some v else None.
Definition text_json : JsonLib := {|
  json_write v := Ok (json_text v);
  json_read s := ok_or (read_json s) "expected value";
  json_data_error _ := "invalid type";
|}.

(** The fixtures are written here with apostrophes for quotation marks. *)
Definition fixture (s : string) : string :=
  of_chars ((fun c => if Ascii.eqb c "'"%char then "034"%char else c) <$> chars s).

Example json_text_reads :
  read_json (json_text (JObj [("a", JArr [JNum 1; JNull; JStr "x"]); ("b", JObj []); ("c", JNum (-20))])) =
  Some (JObj [("a", JArr [JNum 1; JNull; JStr "x"]); ("b", JObj []); ("c", JNum (-20))]).
Proof. vm_compute. reflexivity. Qed.

(** ** Times in RFC 3339 *)

(** The civil date of a number of days since 1970, and back. *)
Definition civil_of_days (days : Z) : Z * Z * Z :=
  let z := days + 719468 in
  let era := z / 146097 in
  let doe := z mod 146097 in
  let yoe := (doe - doe / 1460 + doe / 36524 - doe / 146096) / 365 in
  let doy := doe - (365 * yoe + yoe / 4 - yoe / 100) in
  let mp := (5 * doy + 2) / 153 in
  let month := if mp <? 10 then mp + 3 else mp - 9 in
  ((yoe + era * 400) + (if month <=? 2 then 1 else 0), month, doy - (153 * mp + 2) / 5 + 1).
Definition days_of_civil (year month day : Z) : Z :=
  let y := if month <=? 2 then year - 1 else year in
  let yoe := y mod 400 in
  let doy := (153 * (if 2 <? month then month - 3 else month + 9) + 2) / 5 + day - 1 in
  y / 400 * 146097 + (yoe * 365 + yoe / 4 - yoe / 100 + doy) - 719468.

Fixpoint pad_digits (n : nat) (z : Z) : list ascii :=
  match n with O => [] | S n => pad_digits n (z / 10) ++ [ascii_of_N (Z.to_N (48 + z mod 10))] end.
Definition padded (n : nat) (z : Z) : string := of_chars (pad_digits n z).
(** Nine digits of nanoseconds, when there are any. *)
Definition rfc3339 (t : Time) : string :=
  let secs := t / 10 ^ 9 in
  let '(year, month, day) := civil_of_days (secs / 86400) in
  let s := secs mod 86400 in
  concat_str [padded 4 year; "-"; padded 2 month; "-"; padded 2 day; "T"; padded 2 (s / 3600); ":";
    padded 2 (s / 60 mod 60); ":"; padded 2 (s mod 60);
    if t mod 10 ^ 9 =? 0 then "" else "." +:+ padded 9 (t mod 10 ^ 9); "Z"].
Definition digits (l : list ascii) : option Z :=
  if forallb is_ascii_digit l && negb (bool_decide (l = [])) then Some (read_digits 0 l).1 else None.
Definition read_rfc3339 (s : string) : option Time :=
  let l := chars s in
  let field from n := digits (take n (drop from l)) in
  year ← field 0%nat 4%nat; month ← field 5%nat 2%nat; day ← field 8%nat 2%nat;
  hour ← field 11%nat 2%nat; minute ← field 14%nat 2%nat; second ← field 17%nat 2%nat;
  nanos ← (if bool_decide (l !! 19%nat = Some "."%char) then field 20%nat 9%nat else Some 0);
  if bool_decide (last l = Some "Z"%char) then
    Some ((days_of_civil year month day * 86400 + hour * 3600 + minute * 60 + second) * 10 ^ 9 + nanos)
  else None.

Example times_read :
  rfc3339 1767225600000000000 = "2026-01-01T00:00:00Z" /\ read_rfc3339 "2026-01-01T00:00:00Z" = Some 1767225600000000000 /\
  read_rfc3339 (rfc3339 951827696000000042) = Some 951827696000000042.
Proof. vm_compute. repeat split. Qed.

(** ** The libraries *)

(** SQLite names the columns of the index that refuses a row. *)
Definition failed_columns (ix : string) : string :=
  match find (fun i => String.eqb (di_name i) ix) MAPPING_INDEXES with
  | Some i => join ", " ((fun c => "mappings." +:+ c) <$> di_columns i)
  | None => ix
  end.
Definition test_lib : StoreLib := {|
  format_rfc3339 t := Ok (rfc3339 t);
  parse_rfc3339 s := ok_or (read_rfc3339 s) "the 'year' component could not be parsed";
  encode_config := encode_config (StoreLib := model_lib);
  decode_config := decode_config (StoreLib := model_lib);
  unknown_variant := unknown_variant (StoreLib := model_lib);
  sql_failure_text f := "error returned from database: " +:+
    match f with
    | PrimaryKeyTaken => "(code: 1555) UNIQUE constraint failed: mappings.id"
    | IndexTaken ix => "(code: 2067) UNIQUE constraint failed: " +:+ failed_columns ix
    | Raised m => "(code: 1811) " +:+ m
    | SqlFault m => m
    | RowidsExhausted => "(code: 13) database or disk is full"
    end;
|}.
