(* ===== verification/Oci.v ===== *)
(** [edge-oci/src/lib.rs]: the requests to the Oracle cloud, as HTTP requests and
    as commands of its [oci] tool, and the provisioning of a forwarding address. *)
From S2P Require Import Prelude Str Net Core Sql World Nft Json.
Local Open Scope Z_scope.

Inductive OciError :=
  | OciCommand (message : string)
  | OciJson (message : string)
  | OciIo (message : string)
  | OciTimeout (seconds : Z)
  | OciConfig (message : string).
Definition show_oci_error (e : OciError) : string :=
  match e with
  | OciCommand m => "OCI CLI failed: " +:+ m
  | OciJson m => "OCI CLI JSON parse failed: " +:+ m
  | OciIo m => "OCI CLI process failed: " +:+ m
  | OciTimeout s => "OCI CLI timed out after " +:+ show_Z s +:+ "s"
  | OciConfig m => "OCI API config failed: " +:+ m
  end.

(** ** Requests *)

Inductive OciAuthConfig :=
  | AuthInstancePrincipal (region : string)
  | AuthApiKey (region tenancy_id user_id fingerprint private_key_path : string).

Definition auth_region (a : OciAuthConfig) : string :=
  match a with AuthInstancePrincipal region | AuthApiKey region _ _ _ _ => region end.

(** [vars] is [std::env::var]. *)
Definition required_env (vars : string -> option string) (name : string) : Result OciError string :=
  ok_or (vars name) (OciConfig ("missing " +:+ name)).
Definition api_key_from_env (vars : string -> option string) (region : string)
    : Result OciError OciAuthConfig :=
  tenancy_id ← required_env vars "OCI_TENANCY_ID";
  user_id ← required_env vars "OCI_USER_ID";
  fingerprint ← required_env vars "OCI_FINGERPRINT";
  private_key_path ← required_env vars "OCI_PRIVATE_KEY_PATH";
  Ok (AuthApiKey region tenancy_id user_id fingerprint private_key_path).

Inductive OciHttpMethod := MGet | MPost | MPut.
Record OciApiRequest := mkRequest {
  rq_method : OciHttpMethod;
  rq_endpoint : string;
  rq_path : string;
  rq_body : option string;
}.

Record PortRange := mkPortRange { pr_min : Z; pr_max : Z }.
(** [PortOptions] has the single field [destination_port_range]. *)
Record PortOptions := mkPortOptions { destination_port_range : PortRange }.
Record IngressSecurityRule := mkRule {
  ir_protocol : string;
  ir_source : string;
  ir_tcp_options : option PortOptions;
  ir_udp_options : option PortOptions;
  ir_description : option string;
}.

Definition port_range_json (r : PortRange) : Json :=
  JObj [("min", JNum (pr_min r)); ("max", JNum (pr_max r))].
Definition port_options_json (o : PortOptions) : Json :=
  JObj [("destinationPortRange", port_range_json (destination_port_range o))].
Definition rule_json (r : IngressSecurityRule) : Json :=
  JObj ([("protocol", JStr (ir_protocol r)); ("source", JStr (ir_source r))] ++
        opt_field "tcpOptions" port_options_json (ir_tcp_options r) ++
        opt_field "udpOptions" port_options_json (ir_udp_options r) ++
        opt_field "description" JStr (ir_description r)).

Definition create_private_ip_json (vnic_id : string) (display_name : option string) : Json :=
  JObj (("vnicId", JStr vnic_id) :: opt_field "displayName" JStr display_name).
Definition create_public_ip_json (compartment_id lifetime : string) (private_ip_id display_name : option string)
    : Json :=
  JObj ([("compartmentId", JStr compartment_id); ("lifetime", JStr lifetime)] ++
        opt_field "privateIpId" JStr private_ip_id ++ opt_field "displayName" JStr display_name).
Definition update_public_ip_json (private_ip_id : option string) : Json :=
  JObj [("privateIpId", opt_json JStr private_ip_id)].
Definition add_rules_json (rules : list IngressSecurityRule) : Json :=
  JObj [("securityRules", JArr (rule_json <$> rules))].
Definition remove_rules_json (rule_ids : list string) : Json :=
  JObj [("securityRuleIds", strings_json rule_ids)].

Section client.
Context `{JsonLib} (auth : OciAuthConfig).

Definition endpoint_of (service : string) : string :=
  "https://" +:+ service +:+ "." +:+ auth_region auth +:+ ".oraclecloud.com".

Definition rq_get (endpoint path : string) : OciApiRequest := mkRequest MGet endpoint path None.
Definition rq_with_body (method : OciHttpMethod) (endpoint path : string) (body : Json)
    : Result OciError OciApiRequest :=
  body ← map_err OciJson (json_write body);
  Ok (mkRequest method endpoint path (Some body)).
Definition rq_post := rq_with_body MPost.
Definition rq_put := rq_with_body MPut.

Definition api_list_public_ips (compartment_id : string) : OciApiRequest :=
  rq_get (endpoint_of "iaas") ("/20160918/publicIps?compartmentId=" +:+ compartment_id +:+ "&scope=REGION").
Definition api_assign_public_ip (public_ip_id private_ip_id : string) : Result OciError OciApiRequest :=
  rq_put (endpoint_of "iaas") ("/20160918/publicIps/" +:+ public_ip_id)
    (update_public_ip_json (Some private_ip_id)).
Definition api_unassign_public_ip (public_ip_id : string) : Result OciError OciApiRequest :=
  rq_put (endpoint_of "iaas") ("/20160918/publicIps/" +:+ public_ip_id) (update_public_ip_json None).
Definition api_create_private_ip (vnic_id : string) (display_name : option string) : Result OciError OciApiRequest :=
  rq_post (endpoint_of "iaas") "/20160918/privateIps" (create_private_ip_json vnic_id display_name).
Definition api_create_public_ip (compartment_id private_ip_id : string) (display_name : option string)
    : Result OciError OciApiRequest :=
  rq_post (endpoint_of "iaas") "/20160918/publicIps"
    (create_public_ip_json compartment_id "RESERVED" (Some private_ip_id) display_name).
Definition api_add_rules (nsg_id : string) (rules : list IngressSecurityRule) : Result OciError OciApiRequest :=
  rq_post (endpoint_of "iaas") ("/20160918/networkSecurityGroups/" +:+ nsg_id +:+ "/actions/addSecurityRules")
    (add_rules_json rules).
Definition api_remove_rules (nsg_id : string) (rule_ids : list string) : Result OciError OciApiRequest :=
  rq_post (endpoint_of "iaas") ("/20160918/networkSecurityGroups/" +:+ nsg_id +:+ "/actions/removeSecurityRules")
    (remove_rules_json rule_ids).
End client.

(** ** The data the tool answers *)

Record PublicIp := mkPublicIp {
  pub_id : string;
  pub_ip_address : Ipv4Addr;
  pub_private_ip_id : option string;
  pub_lifetime : option string;
  pub_scope : option string;
  pub_lifecycle_state : option string;
  pub_display_name : option string;
}.
Record PrivateIp := mkPrivateIp {
  priv_id : string;
  priv_ip_address : Ipv4Addr;
  priv_vnic_id : option string;
  priv_display_name : option string;
}.
Record Vnic := mkVnic {
  vnic_id : string;
  vnic_display_name : option string;
  skip_source_dest_check : option bool;
}.
Record Allocation := mkAllocation { al_private_ip : PrivateIp; al_public_ip : PublicIp }.

Definition decode_public_ip (v : Json) : option PublicIp :=
  f ← struct_fields ["id"; "ip-address"; "private-ip-id"; "lifetime"; "scope"; "lifecycle-state"; "display-name"] 7 v;
  id ← required as_string (f "id");
  ip_address ← required as_ip (f "ip-address");
  private_ip_id ← optional as_string (f "private-ip-id");
  lifetime ← optional as_string (f "lifetime");
  scope ← optional as_string (f "scope");
  lifecycle_state ← optional as_string (f "lifecycle-state");
  display_name ← optional as_string (f "display-name");
  Some (mkPublicIp id ip_address private_ip_id lifetime scope lifecycle_state display_name).
Definition decode_private_ip (v : Json) : option PrivateIp :=
  f ← struct_fields ["id"; "ip-address"; "vnic-id"; "display-name"] 4 v;
  id ← required as_string (f "id");
  ip_address ← required as_ip (f "ip-address");
  vnic_id ← optional as_string (f "vnic-id");
  display_name ← optional as_string (f "display-name");
  Some (mkPrivateIp id ip_address vnic_id display_name).
Definition decode_vnic (v : Json) : option Vnic :=
  f ← struct_fields ["id"; "display-name"; "skip-source-dest-check"] 3 v;
  id ← required as_string (f "id");
  display_name ← optional as_string (f "display-name");
  skip ← optional as_bool (f "skip-source-dest-check");
  Some (mkVnic id display_name skip).
(** [ListResponse] and [ItemResponse] have the single field [data]. *)
Definition decode_data {A} (d : Json -> option A) (v : Json) : option A :=
  f ← struct_fields ["data"] 1 v; required d (f "data").

Definition public_ip_json (p : PublicIp) : Json :=
  JObj [("id", JStr (pub_id p)); ("ip-address", JStr (show_ip (pub_ip_address p)));
        ("private-ip-id", opt_json JStr (pub_private_ip_id p)); ("lifetime", opt_json JStr (pub_lifetime p));
        ("scope", opt_json JStr (pub_scope p)); ("lifecycle-state", opt_json JStr (pub_lifecycle_state p));
        ("display-name", opt_json JStr (pub_display_name p))].

Definition parse_list `{JsonLib} {A} (d : Json -> option A) (json : string) : Result OciError (list A) :=
  map_err OciJson (from_str (decode_data (as_list d)) json).
Definition parse_item `{JsonLib} {A} (d : Json -> option A) (json : string) : Result OciError A :=
  map_err OciJson (from_str (decode_data d) json).

Definition validate_vnic_forwarding (v : Vnic) : Result OciError unit :=
  if bool_decide (skip_source_dest_check v = Some true) then Ok tt
  else Err (OciCommand ("VNIC " +:+ vnic_id v +:+
    " has source/destination checks enabled; disable skip-source-dest-check before forwarding")).

(** ** The tool *)

(** [NsgRuleCli::ingress], as it is serialized. *)
Definition nsg_rule_json (r : IngressSecurityRule) : Json :=
  JObj ([("direction", JStr "INGRESS"); ("protocol", JStr (ir_protocol r)); ("source", JStr (ir_source r));
         ("sourceType", JStr "CIDR_BLOCK"); ("isStateless", JBool false)] ++
        opt_field "tcpOptions" port_options_json (ir_tcp_options r) ++
        opt_field "udpOptions" port_options_json (ir_udp_options r) ++
        opt_field "description" JStr (ir_description r)).

Record OciCli := mkOciCli { oci_binary : string }.
Definition oci_default : OciCli := mkOciCli "oci".

Definition display_name_args (display_name : option string) : list string :=
  match display_name with Some n => ["--display-name"; n] | None => [] end.
Definition create_private_args (vnic_id : string) (display_name : option string) : list string :=
  ["network"; "private-ip"; "create"; "--vnic-id"; vnic_id] ++ display_name_args display_name.
Definition create_public_args (compartment_id private_ip_id : string) (display_name : option string)
    : list string :=
  ["network"; "public-ip"; "create"; "--compartment-id"; compartment_id; "--lifetime"; "RESERVED";
   "--private-ip-id"; private_ip_id] ++ display_name_args display_name.
Definition delete_public_args (public_ip_id : string) : list string :=
  ["network"; "public-ip"; "delete"; "--public-ip-id"; public_ip_id; "--force"].
Definition delete_private_args (private_ip_id : string) : list string :=
  ["network"; "private-ip"; "delete"; "--private-ip-id"; private_ip_id; "--force"].

Section cli.
Context `{JsonLib} `{Env} (cli : OciCli).

Definition oci_run (args : list string) : IO OciError CommandOutput :=
  reply ← run_command (oci_binary cli) args;
  match reply with
  | CmdTimedOut => io_fail (OciTimeout 12)
  | CmdIo m => io_fail (OciIo m)
  | CmdDone o => if is_success o then mret o else io_fail (OciCommand (error_message o))
  end.

Definition list_public_ips (compartment_id : string) : IO OciError (list PublicIp) :=
  output ← oci_run ["network"; "public-ip"; "list"; "--scope"; "REGION"; "--compartment-id"; compartment_id];
  lift (parse_list decode_public_ip (co_stdout output)).
Definition oci_version : IO OciError CommandOutput := oci_run ["--version"].

Definition create_private_ip (vnic : string) (display_name : option string) : IO OciError PrivateIp :=
  output ← oci_run (create_private_args vnic display_name);
  lift (parse_item decode_private_ip (co_stdout output)).
Definition create_reserved_public_ip (compartment_id private_ip_id : string) (display_name : option string)
    : IO OciError PublicIp :=
  output ← oci_run (create_public_args compartment_id private_ip_id display_name);
  lift (parse_item decode_public_ip (co_stdout output)).
Definition delete_public_ip (public_ip_id : string) : IO OciError unit :=
  oci_run (delete_public_args public_ip_id) ;; mret tt.
Definition delete_private_ip (private_ip_id : string) : IO OciError unit :=
  oci_run (delete_private_args private_ip_id) ;; mret tt.

Definition get_vnic (vnic : string) : IO OciError Vnic :=
  output ← oci_run ["network"; "vnic"; "get"; "--vnic-id"; vnic];
  lift (parse_item decode_vnic (co_stdout output)).
Definition validate_forwarding_vnic (vnic : string) : IO OciError Vnic :=
  v ← get_vnic vnic;
  lift (validate_vnic_forwarding v) ;;
  mret v.

Definition allocate_forwarding_ip (compartment_id vnic : string) (display_name : option string)
    : IO OciError Allocation :=
  validate_forwarding_vnic vnic ;;
  private_ip ← create_private_ip vnic display_name;
  created ← io_try (create_reserved_public_ip compartment_id (priv_id private_ip) display_name);
  match created with
  | Ok public_ip => mret (mkAllocation private_ip public_ip)
  | Err error =>
      io_try (delete_private_ip (priv_id private_ip)) ;;
      io_fail error
  end.

Definition add_nsg_rules (nsg_id : string) (rules : list IngressSecurityRule) : IO OciError unit :=
  json ← lift (map_err OciJson (json_write (JArr (nsg_rule_json <$> rules))));
  oci_run ["network"; "nsg"; "rules"; "add"; "--nsg-id"; nsg_id; "--security-rules"; json] ;;
  mret tt.
Definition remove_nsg_rules (nsg_id : string) (rule_ids : list string) : IO OciError unit :=
  json ← lift (map_err OciJson (json_write (strings_json rule_ids)));
  oci_run ["network"; "nsg"; "rules"; "remove"; "--nsg-id"; nsg_id; "--security-rule-ids"; json] ;;
  mret tt.
End cli.

(** ** The ledger of created addresses *)

Inductive Resource := PrivateAddress (id : string) | PublicAddress (id : string).
#[export] Instance resource_eq_dec : EqDecision Resource.
Proof. solve_decision. Defined.

Section ledger.
Context `{JsonLib} (binary : string).

(** The address that a command created, when the answer to it says so. *)
Definition created_by (args : list string) (out : string) : option Resource :=
  if bool_decide (take 3 args = ["network"; "private-ip"; "create"]) then
    PrivateAddress ∘ priv_id <$> result_ok (parse_item decode_private_ip out)
  else if bool_decide (take 3 args = ["network"; "public-ip"; "create"]) then
    PublicAddress ∘ pub_id <$> result_ok (parse_item decode_public_ip out)
  else None.

(** The address that a command asks to delete. *)
Definition deleted_by (args : list string) : option Resource :=
  match args with
  | [_; _; _; _; i; _] =>
      if bool_decide (args = delete_private_args i) then Some (PrivateAddress i)
      else if bool_decide (args = delete_public_args i) then Some (PublicAddress i)
      else None
  | _ => None
  end.

(** The addresses whose creation was reported and whose deletion was not asked for. *)
Definition ledger_step (held : list Resource) (e : Effect) : list Resource :=
  match e with
  | ECommand prog args rep =>
      if bool_decide (prog = binary) then
        let held := match deleted_by args with Some x => filter (fun y => y <> x) held | None => held end in
        match rep with
        | CmdDone o =>
            if is_success o then
              match created_by args (co_stdout o) with Some x => held ++ [x] | None => held end
            else held
        | _ => held
        end
      else held
  | _ => held
  end.
Definition ledger (held : list Resource) (e : Effect) : option (list Resource) := Some (ledger_step held e).

(** The ledger after a history. *)
Definition held_after (h : History) : list Resource := foldl ledger_step [] h.

Lemma ledger_runs effs held : mon_run ledger held effs = Some (foldl ledger_step held effs).
Proof. revert held. induction effs as [|e effs IH]; intros held; [done|]. cbn. by rewrite IH. Qed.
End ledger.

Section allocation.
Context `{JsonLib} `{Env} (cli : OciCli).

Abbreviation led := (ledger (oci_binary cli)).

(** A command of the tool, with what its outcome says. *)
Lemma oci_run_tracked s args (Q : Out OciError CommandOutput -> list Resource -> Prop) :
  (let held := match deleted_by args with Some x => filter (fun y => y <> x) s | None => s end in
   (forall o, is_success o = true ->
      Q (Ret o) match created_by args (co_stdout o) with Some x => held ++ [x] | None => held end) /\
   (forall e, Q (Fail e) held)) ->
  tracks led s (oci_run cli args) Q.
Proof.
  cbn zeta. intros [Hr Hf] w. unfold oci_run, mbind, io_bind, run_command.
  set (rep := env_command _ _ _). exists [ECommand (oci_binary cli) args rep], (ledger_step (oci_binary cli) s (ECommand (oci_binary cli) args rep)).
  split; [destruct rep as [| |o]; cbn; [done..|by destruct (is_success o)]|]. split; [done|].
  unfold ledger_step. rewrite bool_decide_eq_true_2 by done.
  destruct rep as [|m|o]; cbn; [apply Hf..|]. destruct (is_success o) eqn:Es; [by apply Hr|apply Hf].
Qed.

(** The tool never panics, and leaves the ledger in the state [s']. *)
Definition leaves {E A} (s' : list Resource) (o : Out E A) (s : list Resource) : Prop :=
  match o with Panicked _ => False | _ => s = s' end.

(** A command that names neither a creation nor a deletion. *)
Lemma other_tracked s args :
  deleted_by args = None -> (forall out, created_by args out = None) ->
  tracks led s (oci_run cli args) (leaves s).
Proof. intros Hd Hc. apply oci_run_tracked. cbn zeta. rewrite Hd. split; [|done]. intros o _. by rewrite Hc. Qed.

Lemma get_vnic_tracked s vnic : tracks led s (validate_forwarding_vnic cli vnic) (leaves s).
Proof.
  unfold validate_forwarding_vnic, get_vnic. do 2 apply tracks_bind.
  eapply tracks_mono; [by apply other_tracked|]. intros [o|e|x] s'; [intros ->|done..].
  apply tracks_lift; [|done]. intros v _. apply tracks_bind, tracks_lift; [|done]. intros _ _. by apply tracks_ret.
Qed.

Lemma deleted_by_private i : deleted_by (delete_private_args i) = Some (PrivateAddress i).
Proof. unfold deleted_by, delete_private_args. by rewrite bool_decide_eq_true_2. Qed.
Lemma deleted_by_public i : deleted_by (delete_public_args i) = Some (PublicAddress i).
Proof. unfold deleted_by, delete_public_args. by rewrite bool_decide_eq_false_2, bool_decide_eq_true_2. Qed.

Lemma delete_private_tracked s i :
  tracks led s (delete_private_ip cli i) (leaves (filter (fun y => y <> PrivateAddress i) s)).
Proof.
  unfold delete_private_ip. apply tracks_bind, oci_run_tracked. rewrite deleted_by_private. cbn zeta.
  split; [|done]. intros o _. by apply tracks_ret.
Qed.
Lemma delete_public_tracked s i :
  tracks led s (delete_public_ip cli i) (leaves (filter (fun y => y <> PublicAddress i) s)).
Proof.
  unfold delete_public_ip. apply tracks_bind, oci_run_tracked. rewrite deleted_by_public. cbn zeta.
  split; [|done]. intros o _. by apply tracks_ret.
Qed.

(** A creation command is no deletion. *)
Lemma create_not_delete vnic compartment private name :
  deleted_by (create_private_args vnic name) = None /\ deleted_by (create_public_args compartment private name) = None.
Proof. by destruct name. Qed.

Lemma create_private_tracked s vnic name :
  tracks led s (create_private_ip cli vnic name)
    (fun o s' => match o with
      | Ret p => s' = s ++ [PrivateAddress (priv_id p)] | Fail _ => s' = s | Panicked _ => False end).
Proof.
  unfold create_private_ip. apply tracks_bind, oci_run_tracked.
  destruct (create_not_delete vnic "" "" name) as [-> _]. cbn zeta. split; [|done]. intros o _.
  unfold created_by. cbn [create_private_args]. rewrite bool_decide_eq_true_2 by done.
  apply tracks_lift; intros ? ->; done.
Qed.

Lemma create_public_tracked s compartment private name :
  tracks led s (create_reserved_public_ip cli compartment private name)
    (fun o s' => match o with
      | Ret p => s' = s ++ [PublicAddress (pub_id p)] | Fail _ => s' = s | Panicked _ => False end).
Proof.
  unfold create_reserved_public_ip. apply tracks_bind, oci_run_tracked.
  destruct (create_not_delete "" compartment private name) as [_ ->]. cbn zeta. split; [|done]. intros o _.
  unfold created_by. cbn [create_public_args]. rewrite bool_decide_eq_false_2, bool_decide_eq_true_2 by done.
  apply tracks_lift; intros ? ->; done.
Qed.

Lemma allocate_tracked compartment vnic name :
  tracks led [] (allocate_forwarding_ip cli compartment vnic name)
    (fun o s' => match o with
      | Ret a => s' = [PrivateAddress (priv_id (al_private_ip a)); PublicAddress (pub_id (al_public_ip a))]
      | Fail _ => s' = []
      | Panicked _ => False
      end).
Proof.
  unfold allocate_forwarding_ip. apply tracks_bind. eapply tracks_mono; [apply get_vnic_tracked|].
  intros [v|e|x] s'; [intros ->|done..]. apply tracks_bind. eapply tracks_mono; [apply create_private_tracked|].
  intros [p|e|x] s'; [intros ->|done..]. apply tracks_bind, tracks_try.
  eapply tracks_mono; [apply create_public_tracked|]. intros [a|e|x] s'; [|intros ->|done].
  { intros ->. by apply tracks_ret. }
  apply tracks_bind, tracks_try. eapply tracks_mono; [apply delete_private_tracked|].
  intros [u|e'|x] s'; [intros ->|intros ->|done]; cbn; rewrite decide_False by naive_solver; by apply tracks_fail.
Qed.

(** The state of the VNIC is asked for in one command. *)
Lemma vnic_run vnic w :
  exists rep, w_log (validate_forwarding_vnic cli vnic w).2
      = w_log w ++ [ECommand (oci_binary cli) ["network"; "vnic"; "get"; "--vnic-id"; vnic] rep] /\
    match (validate_forwarding_vnic cli vnic w).1 with
    | Ret v => exists o, rep = CmdDone o /\ is_success o = true /\
        parse_item decode_vnic (co_stdout o) = Ok v /\ skip_source_dest_check v = Some true
    | _ => True
    end.
Proof.
  unfold validate_forwarding_vnic, get_vnic, oci_run, mbind, io_bind, run_command.
  set (rep := env_command _ _ _). exists rep. destruct rep as [|m|o]; [done..|].
  destruct (is_success o) eqn:Es; [|done]. cbn.
  unfold lift. destruct (parse_item decode_vnic (co_stdout o)) as [v|e] eqn:Ev; [|done].
  cbn. unfold validate_vnic_forwarding. case_bool_decide; [|done]. cbn. split; [done|]. by exists o.
Qed.

Lemma logs_oci_run args : preserves (logs (fun _ => True)) (oci_run cli args).
Proof.
  unfold oci_run. apply preserves_bind; [apply _|by apply logs_command|].
  intros [|m|o]; auto with io. case_match; auto with io.
Qed.

(** What follows the check only adds to the history. *)
Lemma provision_logs compartment vnic name :
  preserves (logs (fun _ => True)) (
    private_ip ← create_private_ip cli vnic name;
    created ← io_try (create_reserved_public_ip cli compartment (priv_id private_ip) name);
    match created with
    | Ok public_ip => mret (mkAllocation private_ip public_ip)
    | Err error => io_try (delete_private_ip cli (priv_id private_ip)) ;; io_fail error
    end : IO OciError Allocation).
Proof.
  pose proof logs_oci_run as Hrun.
  unfold create_private_ip, create_reserved_public_ip, delete_private_ip.
  apply preserves_bind; [apply _|apply preserves_bind; [apply _|apply Hrun|auto with io]|]. intros p.
  apply preserves_bind; [apply _|apply preserves_try, preserves_bind; [apply _|apply Hrun|auto with io]|].
  intros [a|e]; [auto with io|]. apply preserves_bind; [apply _| |auto with io].
  apply preserves_try, preserves_bind; [apply _|apply Hrun|auto with io].
Qed.
End allocation.

(** ** Properties *)

(** Whatever the tool answers, the provisioning of a forwarding address
    leaves no orphan: when it returns, the addresses whose creation was reported
    and whose deletion was not asked for are the two it returns; when it fails
    there are none. *)
Theorem allocate_leaves_no_orphan `{JsonLib} `{Env} cli compartment vnic name w :
  exists effs, w_log (allocate_forwarding_ip cli compartment vnic name w).2 = w_log w ++ effs /\
    held_after (oci_binary cli) effs = match (allocate_forwarding_ip cli compartment vnic name w).1 with
      | Ret a => [PrivateAddress (priv_id (al_private_ip a)); PublicAddress (pub_id (al_public_ip a))]
      | _ => []
      end.
Proof.
  destruct (allocate_tracked cli compartment vnic name w) as (effs & s & Hl & Hr & Hs).
  exists effs. split; [done|]. rewrite ledger_runs in Hr. injection Hr as Hr. unfold held_after. rewrite Hr.
  by destruct (allocate_forwarding_ip cli compartment vnic name w) as [[] w'].
Qed.

(** The provisioning asks for the state of the VNIC first, and issues no other
    command unless the answer says that the source and destination check is
    skipped on it. *)
Theorem allocate_checks_vnic `{JsonLib} `{Env} cli compartment vnic name w :
  exists rep rest, w_log (allocate_forwarding_ip cli compartment vnic name w).2
      = w_log w ++ ECommand (oci_binary cli) ["network"; "vnic"; "get"; "--vnic-id"; vnic] rep :: rest /\
    (rest = [] \/ exists o v, rep = CmdDone o /\ is_success o = true /\
      parse_item decode_vnic (co_stdout o) = Ok v /\ skip_source_dest_check v = Some true).
Proof.
  destruct (vnic_run cli vnic w) as (rep & Hl & Hv). exists rep. unfold allocate_forwarding_ip.
  destruct (validate_forwarding_vnic cli vnic w) as [o w1] eqn:E. cbn [fst snd] in *.
  destruct o as [v|e|x]; [|exists []; unfold mbind, io_bind; rewrite E; auto..].
  rewrite (bind_step _ _ w v w1) by exact E.
  destruct (provision_logs cli compartment vnic name w1) as (rest & -> & _).
  exists rest. rewrite Hl, <- (assoc_L (++)). split; [done|]. right. destruct Hv as (o & -> & ? & ?). by exists o, v.
Qed.

(** A public address in an answer of the API reads back as it was. *)
Theorem public_ip_round_trip p : decode_public_ip (public_ip_json p) = Some p.
Proof.
  assert (Hip : forall ip, as_ip (JStr (show_ip ip)) = Some ip) by (intros ip; apply parse_show_ip).
  assert (Hopt : forall o, optional as_string (Some (opt_json JStr o)) = Some o) by by intros [].
  destruct p. unfold decode_public_ip, public_ip_json. cbn [struct_fields].
  rewrite bool_decide_eq_true_2 by (vm_compute; repeat constructor; set_solver).
  cbn -[optional as_ip opt_json show_ip]. rewrite Hip. cbn -[optional opt_json]. by rewrite !Hopt.
Qed.
