(* ===== verification/Netbird.v ===== *)
(** [edge-netbird/src/lib.rs]: the state of the overlay network and the route to
    a target, read with the [netbird], [ip] and [ping] tools. *)
From Stdlib Require Import Ascii.
From S2P Require Import Prelude Str BTree Net Core Sql World Nft Json.
Local Open Scope Z_scope.

Inductive NetbirdError :=
  | NetbirdCommand (message : string)
  | NetbirdJson (message : string)
  | NetbirdIo (message : string).
Definition show_netbird_error (e : NetbirdError) : string :=
  match e with
  | NetbirdCommand m => "command failed: " +:+ m
  | NetbirdJson m => "netbird JSON parse failed: " +:+ m
  | NetbirdIo m => "process failed: " +:+ m
  end.

Record NetbirdCli := mkNetbirdCli { nb_netbird : string; nb_ip : string; nb_ping : string }.
Definition netbird_default : NetbirdCli := mkNetbirdCli "netbird" "ip" "ping".

(** ** The status *)

Record Peer := mkPeer {
  peer_fqdn : option string;
  peer_netbird_ip : option string;
  peer_netbird_ipv6 : option string;
  peer_status : option string;
  peer_connection_type : option string;
  peer_networks : list string;
}.
Record PeerOverview := mkPeers { peers_total : Z; peers_connected : Z; peers_details : list Peer }.
(** [ServiceStatus] has the single field [connected]. *)
Record ServiceStatus := mkService { service_connected : bool }.
Record NetbirdStatus := mkStatus {
  nb_peers : PeerOverview;
  nb_cli_version : option string;
  nb_daemon_version : option string;
  nb_daemon_status : option string;
  nb_management : ServiceStatus;
  nb_signal : ServiceStatus;
  nb_netbird_ip : option string;
  nb_netbird_ipv6 : option string;
  nb_uses_kernel_interface : option bool;
  nb_fqdn : option string;
  nb_networks : list string;
  nb_lazy_connection_enabled : bool;
}.

(** [null_to_default] *)
Definition null_to_default {A} (a : A) (d : Json -> option A) (v : Json) : option A :=
  default a <$> as_option d v.

Definition decode_peer (v : Json) : option Peer :=
  f ← struct_fields ["fqdn"; "netbirdIp"; "netbirdIpv6"; "status"; "connectionType"; "networks"] 5 v;
  fqdn ← optional as_string (f "fqdn");
  netbird_ip ← optional as_string (f "netbirdIp");
  netbird_ipv6 ← optional as_string (f "netbirdIpv6");
  status ← optional as_string (f "status");
  connection_type ← optional as_string (f "connectionType");
  networks ← defaulted [] (null_to_default [] (as_list as_string)) (f "networks");
  Some (mkPeer fqdn netbird_ip netbird_ipv6 status connection_type networks).
Definition decode_peers (v : Json) : option PeerOverview :=
  f ← struct_fields ["total"; "connected"; "details"] 0 v;
  total ← defaulted 0 as_usize (f "total");
  connected ← defaulted 0 as_usize (f "connected");
  details ← defaulted [] (as_list decode_peer) (f "details");
  Some (mkPeers total connected details).
Definition decode_service (v : Json) : option ServiceStatus :=
  f ← struct_fields ["connected"] 0 v;
  connected ← defaulted false as_bool (f "connected");
  Some (mkService connected).

Definition status_names : list string :=
  ["peers"; "cliVersion"; "daemonVersion"; "daemonStatus"; "management"; "signal"; "netbirdIp";
   "netbirdIpv6"; "usesKernelInterface"; "fqdn"; "networks"; "lazyConnectionEnabled"].
Definition decode_status (v : Json) : option NetbirdStatus :=
  f ← struct_fields status_names 10 v;
  peers ← defaulted (mkPeers 0 0 []) (null_to_default (mkPeers 0 0 []) decode_peers) (f "peers");
  cli_version ← optional as_string (f "cliVersion");
  daemon_version ← optional as_string (f "daemonVersion");
  daemon_status ← optional as_string (f "daemonStatus");
  management ← defaulted (mkService false) decode_service (f "management");
  signal ← defaulted (mkService false) decode_service (f "signal");
  netbird_ip ← optional as_string (f "netbirdIp");
  netbird_ipv6 ← optional as_string (f "netbirdIpv6");
  uses_kernel_interface ← optional as_bool (f "usesKernelInterface");
  fqdn ← optional as_string (f "fqdn");
  networks ← defaulted [] (null_to_default [] (as_list as_string)) (f "networks");
  lazy_connection_enabled ← defaulted false as_bool (f "lazyConnectionEnabled");
  Some (mkStatus peers cli_version daemon_version daemon_status management signal netbird_ip netbird_ipv6
    uses_kernel_interface fqdn networks lazy_connection_enabled).

(** The derived [Serialize]. *)
Definition peer_json (p : Peer) : Json :=
  JObj [("fqdn", opt_json JStr (peer_fqdn p)); ("netbirdIp", opt_json JStr (peer_netbird_ip p));
        ("netbirdIpv6", opt_json JStr (peer_netbird_ipv6 p)); ("status", opt_json JStr (peer_status p));
        ("connectionType", opt_json JStr (peer_connection_type p)); ("networks", strings_json (peer_networks p))].
Definition peers_json (p : PeerOverview) : Json :=
  JObj [("total", JNum (peers_total p)); ("connected", JNum (peers_connected p));
        ("details", JArr (peer_json <$> peers_details p))].
Definition service_json (s : ServiceStatus) : Json := JObj [("connected", JBool (service_connected s))].
Definition status_json (s : NetbirdStatus) : Json :=
  JObj [("peers", peers_json (nb_peers s)); ("cliVersion", opt_json JStr (nb_cli_version s));
        ("daemonVersion", opt_json JStr (nb_daemon_version s)); ("daemonStatus", opt_json JStr (nb_daemon_status s));
        ("management", service_json (nb_management s)); ("signal", service_json (nb_signal s));
        ("netbirdIp", opt_json JStr (nb_netbird_ip s)); ("netbirdIpv6", opt_json JStr (nb_netbird_ipv6 s));
        ("usesKernelInterface", opt_json JBool (nb_uses_kernel_interface s)); ("fqdn", opt_json JStr (nb_fqdn s));
        ("networks", strings_json (nb_networks s)); ("lazyConnectionEnabled", JBool (nb_lazy_connection_enabled s))].

Definition parse_status `{JsonLib} (json : string) : Result NetbirdError NetbirdStatus :=
  map_err NetbirdJson (from_str decode_status json).

(** A [BTreeSet] is the keys of a [BTreeMap]. *)
Definition advertised_networks (s : NetbirdStatus) : list string :=
  fst <$> foldl (fun set n => bt_insert n tt set) [] (mjoin (peer_networks <$> peers_details (nb_peers s))).
Definition daemon_connected (s : NetbirdStatus) : bool :=
  match nb_daemon_status s with Some st => eq_ignore_ascii_case st "connected" | None => false end.
Definition is_healthy (p : Peer) : bool :=
  match peer_status p with
  | Some st => eq_ignore_ascii_case st "connected" || eq_ignore_ascii_case st "idle"
  | None => false
  end.

(** ** The route *)

Record RouteCheck := mkRoute { rt_target : Ipv4Addr; rt_route : string; rt_interface : option string }.
Definition uses_interface (r : RouteCheck) (expected : string) : bool :=
  bool_decide (rt_interface r = Some expected).

Fixpoint interface_after_dev (fields : list string) : option string :=
  match fields with
  | [] => None
  | field :: fields => if String.eqb field "dev" then head fields else interface_after_dev fields
  end.
Definition parse_route_interface (route : string) : option string :=
  interface_after_dev (split_whitespace route).

Section cli.
Context `{JsonLib} `{Env}.

(** There is no timeout here: when the process does not end, nothing that follows
    happens. *)
Definition netbird_run (binary : string) (args : list string) : IO NetbirdError CommandOutput :=
  reply ← run_command binary args;
  match reply with
  | CmdDone o => if is_success o then mret o else io_fail (NetbirdCommand (error_message o))
  | CmdIo m => io_fail (NetbirdIo m)
  | CmdTimedOut => from_out (Panicked "no answer")
  end.

Definition netbird_status (cli : NetbirdCli) : IO NetbirdError NetbirdStatus :=
  output ← netbird_run (nb_netbird cli) ["status"; "--json"];
  lift (parse_status (co_stdout output)).
Definition route_get (cli : NetbirdCli) (target : Ipv4Addr) : IO NetbirdError RouteCheck :=
  output ← netbird_run (nb_ip cli) ["route"; "get"; show_ip target];
  let route := trim (co_stdout output) in
  mret (mkRoute target route (parse_route_interface route)).
Definition ping_once (cli : NetbirdCli) (target : Ipv4Addr) : IO NetbirdError CommandOutput :=
  netbird_run (nb_ping cli) ["-c"; "1"; "-W"; "2"; show_ip target].
End cli.

(** ** Reading the status *)

Lemma defaulted_strings l : defaulted [] (null_to_default [] (as_list as_string)) (Some (strings_json l)) = Some l.
Proof.
  cbn [defaulted]. unfold null_to_default, as_option, strings_json. fold (strings_json l).
  change (default [] <$> (Some <$> as_list as_string (strings_json l)) = Some l). by rewrite strings_read.
Qed.

#[local] Arguments optional : simpl never.
#[local] Arguments opt_json : simpl never.
#[local] Arguments defaulted : simpl never.
#[local] Arguments strings_json : simpl never.

Lemma peer_read p : decode_peer (peer_json p) = Some p.
Proof.
  destruct p. unfold decode_peer, peer_json. cbn [struct_fields].
  rewrite bool_decide_eq_true_2 by (vm_compute; repeat constructor; set_solver).
  cbn. rewrite !optional_string, defaulted_strings. done.
Qed.

Lemma peers_read p : usize_ok (peers_total p) -> usize_ok (peers_connected p) -> decode_peers (peers_json p) = Some p.
Proof.
  intros Ht Hc. destruct p. unfold decode_peers, peers_json. cbn [struct_fields].
  rewrite bool_decide_eq_true_2 by (vm_compute; repeat constructor; set_solver).
  cbn. rewrite !usize_read, defaulted_Some, list_json by (done || (apply Forall_forall; intros; apply peer_read)). done.
Qed.

Lemma service_read s : decode_service (service_json s) = Some s.
Proof. by destruct s. Qed.

(** ** Properties *)

(** A status written as the API answers it reads back as it was, as long as
    its counters are machine words. *)
Theorem status_round_trip s (Ht : usize_ok (peers_total (nb_peers s))) (Hc : usize_ok (peers_connected (nb_peers s))) :
  decode_status (status_json s) = Some s.
Proof.
  destruct s. cbn [nb_peers] in *. unfold decode_status, status_json. cbn [struct_fields].
  rewrite bool_decide_eq_true_2 by (vm_compute; repeat constructor; set_solver).
  cbn -[decode_peers peers_json decode_service service_json].
  rewrite !optional_string, optional_bool, defaulted_strings, !defaulted_Some, !service_read.
  unfold null_to_default at 1. unfold as_option, peers_json. fold (peers_json nb_peers0).
  rewrite peers_read by done. done.
Qed.

Lemma insert_all_keys l : forall set : list (string * unit), bt_wf set ->
  bt_wf (foldl (fun set n => bt_insert n tt set) set l) /\
  forall x, bt_get x (foldl (fun set n => bt_insert n tt set) set l) = if decide (x ∈ l) then Some tt else bt_get x set.
Proof.
  induction l as [|n l IH]; intros set Hwf; cbn [foldl].
  { split; [done|]. intros x. by rewrite decide_False by apply not_elem_of_nil. }
  destruct (IH (bt_insert n tt set)) as [Hw Hg]; [by apply bt_insert_wf|]. split; [done|].
  intros x. rewrite Hg, bt_get_insert. repeat case_decide; set_solver.
Qed.

(** The advertised networks are those of the peers, each of them once, in
    increasing order. *)
Theorem advertised_networks_sorted s :
  pairwise key_lt (advertised_networks s) /\
  forall n, n ∈ advertised_networks s <-> exists p, p ∈ peers_details (nb_peers s) /\ n ∈ peer_networks p.
Proof.
  unfold advertised_networks. set (l := mjoin _).
  destruct (insert_all_keys l [] bt_wf_nil) as [Hwf Hget]. split.
  { apply (pairwise_fmap key_lt fst). exact Hwf. }
  intros n. rewrite list_elem_of_fmap. transitivity (n ∈ l).
  - specialize (Hget n). split.
    + intros ([n' []] & -> & Hin). cbn in *. apply (bt_elem_get n' tt) in Hin; [|done].
      rewrite Hget in Hin. by case_decide.
    + intros Hin. rewrite decide_True in Hget by done. exists (n, tt). split; [done|]. by apply bt_get_elem.
  - unfold l. rewrite list_elem_of_join. setoid_rewrite list_elem_of_fmap. naive_solver.
Qed.

(** The interface of a route is the word that follows the first [dev] of the
    answer. *)
Theorem route_interface_follows_dev before interface after
    (Hw : Forall (word ∘ chars) (before ++ "dev" :: interface :: after)) (Hb : "dev" ∉ before) :
  parse_route_interface (join " " (before ++ "dev" :: interface :: after)) = Some interface.
Proof.
  unfold parse_route_interface. rewrite split_join by done. clear Hw.
  induction before as [|b l IH]; [done|]. rewrite not_elem_of_cons in Hb. destruct Hb as [Hne Hb].
  cbn [List.app interface_after_dev]. destruct (String.eqb_spec b "dev") as [->|]; [done|]. by apply IH.
Qed.

(** ** Witnesses *)

Definition sample_status : NetbirdStatus :=
  mkStatus (mkPeers 2 1 [mkPeer None None None (Some "Idle") None ["b"; "a"];
    mkPeer None None None None None ["a"]]) None None (Some "Connected") (mkService true) (mkService false)
    None None (Some true) None [] false.

Lemma status_round_trip_witness :
  decode_status (status_json sample_status) = Some sample_status /\ advertised_networks sample_status = ["a"; "b"].
Proof. split; [apply status_round_trip; cbn; unfold usize_ok; lia|vm_compute; reflexivity]. Defined.

Lemma route_interface_follows_dev_witness :
  parse_route_interface "192.168.20.1 dev wt0 table 7120" = Some "wt0".
Proof.
  apply (route_interface_follows_dev ["192.168.20.1"] "wt0" ["table"; "7120"]).
  - repeat constructor; vm_compute; congruence.
  - set_solver.
Defined.
