(* ===== verification/Api.v ===== *)
(** [edge-agent/src/api.rs]: the handlers of the management API, over the store,
    the reconciler and the command-line tools. *)
From Stdlib Require Import Ascii.
From S2P Require Import Prelude Str BTree Net Core Validation State Sql World Store Nft Xdp Linux Reconcile Json Oci Netbird.
Local Open Scope Z_scope.

(** ** Errors and authorisation *)

Record ApiError := mkApiError { api_status : Z; api_message : string }.

Definition api_of_core (e : EdgeCoreError) : ApiError :=
  mkApiError match e with
    | NotFound _ => 404
    | Validation _ | DuplicatePublicIp _ | DuplicateEdgePrivateIp _ | DuplicateTargetIp _
    | DuplicateMappingId _ => 400
    | StoreError _ => 500
    end (show_core_error e).
Definition unauthorized : ApiError := mkApiError 401 "missing or invalid bearer token".
Definition bad_gateway (message : string) : ApiError := mkApiError 502 message.
Definition bad_request (message : string) : ApiError := mkApiError 400 message.
Definition from_oci (e : OciError) : ApiError := mkApiError 502 (show_oci_error e).
Definition from_reconcile (e : ReconcileError) : ApiError := mkApiError 500 (show_reconcile_error e).

Definition byte_at (l : list ascii) (idx : nat) : Z := default 0 (byte_of <$> l !! idx).
Definition constant_time_eq (left right : string) : bool :=
  let l := chars left in
  let r := chars right in
  let diff := foldl (fun diff idx => Z.lor diff (Z.lxor (byte_at l idx) (byte_at r idx)))
    (Z.lxor (Z.of_nat (length l)) (Z.of_nat (length r))) (seq 0 (Nat.max (length l) (length r))) in
  diff =? 0.

(** [authorization] is the text of the [Authorization] header, when it is there
    and visible ASCII. *)
Definition require_auth (config : EdgeConfig) (authorization : option string) : Result ApiError unit :=
  match api_token config with
  | None => Ok tt
  | Some expected =>
      match value ← authorization; strip_prefix "Bearer " value with
      | None => Err unauthorized
      | Some actual => if constant_time_eq actual expected then Ok tt else Err unauthorized
      end
  end.

Definition require_confirm (value expected : string) : Result ApiError unit :=
  if eq_ignore_ascii_case (trim value) expected then Ok tt
  else Err (bad_request ("confirmation failed: type " +:+ dquote +:+ expected +:+ dquote +:+ " to proceed")).

Definition resolve (value fallback : option string) : option string :=
  match value with
  | Some v => if is_empty (trim v) then fallback else Some (trim v)
  | None => fallback
  end.

(** ** Requests and answers *)

Record CreateMappingRequest := mkCreate {
  cr_name : string;
  cr_public_ip : option Ipv4Addr;
  cr_edge_private_ip : Ipv4Addr;
  cr_target_ip : Ipv4Addr;
  cr_public_port : option Z;
  cr_target_port : option Z;
  cr_mode : option MappingMode;
  cr_protocol : option Protocol;
  cr_backend : option MappingBackend;
}.
Record ReconcileRequest := mkReconcileRequest {
  rr_dry_run : bool;
  rr_skip_linux : bool;
  rr_skip_nft : bool;
  rr_include_config : bool;
  rr_enable_xdp : bool;
  rr_xdp_interface : option string;
  rr_xdp_pin_path : option string;
  rr_output : option string;
}.
Record OciAllocateRequest := mkAllocate {
  oa_mapping_id : string;
  oa_compartment_id : option string;
  oa_vnic_id : option string;
  oa_display_name : option string;
  oa_confirm : string;
}.
Record OciReleaseRequest := mkRelease {
  or_mapping_id : option string;
  or_public_ip_id : option string;
  or_private_ip_id : option string;
  or_confirm : string;
}.
Record OciNsgAddRequest := mkNsgAdd {
  na_nsg_id : option string;
  na_protocol : string;
  na_source : string;
  na_port_min : option Z;
  na_port_max : option Z;
  na_description : option string;
  na_confirm : string;
}.
Record OciNsgRemoveRequest := mkNsgRemove {
  nr_nsg_id : option string;
  nr_rule_ids : list string;
  nr_confirm : string;
}.

Record StatusResponse := mkStatusResponse {
  sr_wan_interface : string;
  sr_netbird_interface : string;
  sr_target_cidrs : list string;
  sr_mappings : nat;
  sr_enabled_mappings : nat;
}.
Record ReconcileResponse := mkReconcileResponse {
  rs_generation_id : option Z;
  rs_added_addresses : list string;
  rs_removed_addresses : list string;
  rs_xdp_plan_entries : nat;
  rs_nftables_config : option string;
}.
Record AnalyticsResponse := mkAnalytics {
  an_mapping_total : nat;
  an_mapping_enabled : nat;
  an_mapping_status : list (string * nat);
  an_mapping_backend : list (string * nat);
  an_event_level : list (string * nat);
  an_problem_mappings : nat;
}.
Record TopologyFlow := mkFlowResponse {
  tf_id : string;
  tf_name : string;
  tf_public_endpoint : string;
  tf_edge_private_ip : string;
  tf_target_endpoint : string;
  tf_protocol : string;
  tf_mode : string;
  tf_backend : string;
  tf_status : string;
  tf_enabled : bool;
}.
Record TopologyResponse := mkTopology {
  tr_wan_interface : string;
  tr_netbird_interface : string;
  tr_target_cidrs : list string;
  tr_flows : list TopologyFlow;
}.
Record OciEnvStatus := mkOciEnv {
  oe_tenancy_id : bool;
  oe_user_id : bool;
  oe_fingerprint : bool;
  oe_private_key_path : bool;
}.
Record OciStatusResponse := mkOciStatus {
  os_auth_mode : OciAuthMode;
  os_region : option string;
  os_compartment_id_configured : bool;
  os_vnic_id_configured : bool;
  os_subnet_id_configured : bool;
  os_nsg_count : nat;
  os_api_key_env_ready : bool;
  os_env : OciEnvStatus;
  os_cli_available : bool;
  os_cli_version : option string;
  os_compartment_id : option string;
  os_vnic_id : option string;
  os_subnet_id : option string;
  os_nsg_ids : list string;
}.

Definition endpoint (ip : option string) (port : option Z) : string :=
  match ip, port with
  | Some ip, Some port => ip +:+ ":" +:+ show_Z port
  | Some ip, None => ip
  | _, _ => "-"
  end.
Definition topology_flow (m : Mapping) : TopologyFlow := {|
  tf_id := id m;
  tf_name := name m;
  tf_public_endpoint := endpoint (show_ip <$> public_ip m) (public_port m);
  tf_edge_private_ip := show_ip (edge_private_ip m);
  tf_target_endpoint := endpoint (Some (show_ip (target_ip m))) (target_port m);
  tf_protocol := wire (protocol m);
  tf_mode := wire (mode m);
  tf_backend := wire (backend m);
  tf_status := wire (status m);
  tf_enabled := enabled m;
|}.
Definition count_by (values : list string) : list (string * nat) :=
  foldl (fun counts v => bt_insert v (default 0%nat (bt_get v counts) + 1)%nat counts) [] values.

Definition xdp_config (on : bool) (interface pin_path : option string) (config : EdgeConfig) : XdpConfig :=
  let interface := default (wan_interface config) interface in
  let pin_path := default "/sys/fs/bpf/edgeroute" pin_path in
  if on then xdp_config_enabled interface pin_path else xdp_config_disabled interface.

(** ** Handlers *)

Section handlers.
Context `{Ipnet} `{StoreLib} `{JsonLib} `{Env}.
(** [vars] is [std::env::var_os], as far as a variable is set. *)
Context (vars : string -> bool) (config : EdgeConfig).

Definition core_api {A} (m : IO EdgeCoreError A) : IO ApiError A := io_map_err api_of_core m.
Definition oci_api {A} (m : IO OciError A) : IO ApiError A := io_map_err from_oci m.
Definition default_reconciler : Reconciler := mkReconciler linux_default nft_default.

Definition status : IO ApiError StatusResponse :=
  mappings ← core_api Store.list_mappings;
  mret (mkStatusResponse (wan_interface config) (netbird_interface config) (show_net <$> target_cidrs config)
    (length mappings) (length (filter (fun m => enabled m = true) mappings))).

Definition list_mappings : IO ApiError (list Mapping) := core_api Store.list_mappings.

Definition create_mapping (request : CreateMappingRequest) : IO ApiError Mapping :=
  now ← now_utc;
  uuid ← fresh_uuid;
  let mapping := set_endpoints
    (mapping_new (mapping_id_new uuid) now (cr_name request) (cr_public_ip request)
       (cr_edge_private_ip request) (cr_target_ip request))
    (cr_public_port request) (cr_target_port request) (default default_mode (cr_mode request))
    (default default_protocol (cr_protocol request)) (default default_backend (cr_backend request)) in
  core_api (Store.insert_mapping mapping) ;;
  mret mapping.

Definition get_mapping (i : string) : IO ApiError Mapping :=
  i ← lift (map_err api_of_core (mapping_id_from_str i));
  core_api (Store.get_mapping i).

Definition delete_options : ReconcileOptions :=
  mkOptions "/run/edge-router/generated.nft" false true true (xdp_config_disabled "").
Definition delete_mapping (i : string) : IO ApiError Mapping :=
  i ← lift (map_err api_of_core (mapping_id_from_str i));
  core_api (Store.set_mapping_enabled i false) ;;
  reconciled ← io_try (Reconcile.reconcile default_reconciler config delete_options);
  match reconciled with
  | Err error =>
      core_api (Store.record_event EventLevel.Error "delete reconcile failed" (Some (show_reconcile_error error))) ;;
      io_fail (from_reconcile error)
  | Ok _ => core_api (Store.delete_mapping i)
  end.

Definition enable_mapping (i : string) : IO ApiError Mapping :=
  i ← lift (map_err api_of_core (mapping_id_from_str i));
  core_api (Store.set_mapping_enabled i true).
Definition disable_mapping (i : string) : IO ApiError Mapping :=
  i ← lift (map_err api_of_core (mapping_id_from_str i));
  core_api (Store.set_mapping_enabled i false).

Definition dry_run_apply : IO ApiError string :=
  mappings ← core_api Store.list_mappings;
  io_map_err api_of_core (from_out (render_nftables mappings config render_table)).

Definition reconcile (request : ReconcileRequest) : IO ApiError ReconcileResponse :=
  let options := mkOptions (default "/run/edge-router/generated.nft" (rr_output request))
    (rr_dry_run request) (negb (rr_skip_nft request)) (negb (rr_skip_linux request))
    (xdp_config (rr_enable_xdp request) (rr_xdp_interface request) (rr_xdp_pin_path request) config) in
  report ← io_map_err from_reconcile (Reconcile.reconcile default_reconciler config options);
  mret (mkReconcileResponse (generation_id report) (added_addresses report) (removed_addresses report)
    (xdp_plan_entries report) (if rr_include_config request then Some (nftables_config report) else None)).

Definition netbird_api {A} (m : IO NetbirdError A) : IO ApiError A :=
  io_map_err (fun e => bad_gateway (show_netbird_error e)) m.
Definition api_netbird_status : IO ApiError NetbirdStatus := netbird_api (netbird_status netbird_default).
Definition netbird_networks : IO ApiError (list string) :=
  status ← netbird_api (netbird_status netbird_default);
  mret (advertised_networks status).

Definition events : IO ApiError (list Event) := core_api (Store.list_events 100).

Definition analytics : IO ApiError AnalyticsResponse :=
  mappings ← core_api Store.list_mappings;
  events ← core_api (Store.list_events 100);
  let problem := filter (fun m : Mapping => wire (Core.status m) ∈ ["degraded"; "error"]) mappings in
  mret (mkAnalytics (length mappings) (length (filter (fun m => enabled m = true) mappings))
    (count_by ((fun m : Mapping => wire (Core.status m)) <$> mappings))
    (count_by ((fun m : Mapping => wire (backend m)) <$> mappings))
    (count_by ((fun e : Event => wire (e_level e)) <$> events)) (length problem)).

Definition topology : IO ApiError TopologyResponse :=
  mappings ← core_api Store.list_mappings;
  mret (mkTopology (wan_interface config) (netbird_interface config) (show_net <$> target_cidrs config)
    (topology_flow <$> mappings)).

Definition oci_status : IO ApiError OciStatusResponse :=
  cli ← io_try (oci_version oci_default);
  let env := mkOciEnv (vars "OCI_TENANCY_ID") (vars "OCI_USER_ID") (vars "OCI_FINGERPRINT")
    (vars "OCI_PRIVATE_KEY_PATH") in
  let api_key_ready := oe_tenancy_id env && oe_user_id env && oe_fingerprint env && oe_private_key_path env in
  mret (mkOciStatus (oci_auth config) (oci_region config) (bool_decide (is_Some (oci_compartment_id config)))
    (bool_decide (is_Some (oci_vnic_id config))) (bool_decide (is_Some (oci_subnet_id config)))
    (length (oci_nsg_ids config)) api_key_ready env (is_ok cli) ((trim ∘ co_stdout) <$> result_ok cli)
    (oci_compartment_id config) (oci_vnic_id config) (oci_subnet_id config) (oci_nsg_ids config)).

(** What [OciCli] allocated, in the mapping. *)
Definition with_allocation (m : Mapping) (a : Allocation) : Mapping :=
  set_oci m (Some (pub_ip_address (al_public_ip a))) (Some (pub_id (al_public_ip a)))
    (priv_ip_address (al_private_ip a)) (Some (priv_id (al_private_ip a))).

Definition has_allocation (m : Mapping) : bool :=
  bool_decide (is_Some (public_ip m)) || bool_decide (is_Some (oci_public_ip_ocid m))
    || bool_decide (is_Some (oci_private_ip_ocid m)).

Definition missing_compartment : ApiError :=
  bad_request "missing compartment id (pass compartment_id or set oci_compartment_id)".
Definition missing_vnic : ApiError := bad_request "missing vnic id (pass vnic_id or set oci_vnic_id)".
Definition missing_nsg : ApiError := bad_request "missing nsg id (pass nsg_id or set oci_nsg_ids)".

Definition oci_allocate (request : OciAllocateRequest) : IO ApiError Mapping :=
  lift (require_confirm (oa_confirm request) "confirm") ;;
  i ← lift (map_err api_of_core (mapping_id_from_str (oa_mapping_id request)));
  mapping ← core_api (Store.get_mapping i);
  if has_allocation mapping then io_fail (bad_request ("mapping already has OCI allocation fields: " +:+ i))
  else
    compartment ← lift (ok_or (resolve (oa_compartment_id request) (oci_compartment_id config)) missing_compartment);
    vnic ← lift (ok_or (resolve (oa_vnic_id request) (oci_vnic_id config)) missing_vnic);
    let nm := default (name mapping) (resolve (oa_display_name request) None) in
    allocation ← oci_api (allocate_forwarding_ip oci_default compartment vnic (Some nm));
    now ← now_utc;
    let mapping := mark_status (with_allocation mapping allocation) Pending now in
    updated ← io_try (Store.update_mapping mapping);
    match updated with
    | Err error =>
        io_try (F := ApiError) (delete_public_ip oci_default (pub_id (al_public_ip allocation))) ;;
        io_try (F := ApiError) (delete_private_ip oci_default (priv_id (al_private_ip allocation))) ;;
        io_fail (api_of_core error)
    | Ok _ =>
        io_try (F := ApiError) (Store.record_event EventLevel.Info "oci allocate"
          (Some ("mapping " +:+ i +:+ " public " +:+ show_ip (pub_ip_address (al_public_ip allocation)) +:+
                 " private " +:+ show_ip (priv_ip_address (al_private_ip allocation))))) ;;
        mret mapping
    end.

(** The deletion of the addresses that are there, the public one first. *)
Definition release (public private : option string) : IO ApiError unit :=
  match public with Some i => oci_api (delete_public_ip oci_default i) | None => mret tt end ;;
  match private with Some i => oci_api (delete_private_ip oci_default i) | None => mret tt end.

Definition oci_release (request : OciReleaseRequest) : IO ApiError Json :=
  lift (require_confirm (or_confirm request) "delete") ;;
  match resolve (or_mapping_id request) None with
  | Some mapping_id =>
      i ← lift (map_err api_of_core (mapping_id_from_str mapping_id));
      mapping ← core_api (Store.get_mapping i);
      let public := oci_public_ip_ocid mapping in
      let private := oci_private_ip_ocid mapping in
      if bool_decide (public = None) && bool_decide (private = None) then
        io_fail (bad_request ("mapping has no OCI allocation to release: " +:+ i))
      else
        release public private ;;
        now ← now_utc;
        core_api (Store.update_mapping
          (mark_status (set_oci mapping None None (edge_private_ip mapping) None) Disabled now)) ;;
        io_try (F := ApiError) (Store.record_event EventLevel.Warn "oci release" (Some ("mapping " +:+ i))) ;;
        mret (json_object [("released", JBool true); ("mapping_id", JStr i);
                    ("public_ip_id", opt_json JStr public); ("private_ip_id", opt_json JStr private)])
  | None =>
      let public := resolve (or_public_ip_id request) None in
      let private := resolve (or_private_ip_id request) None in
      if bool_decide (public = None) && bool_decide (private = None) then
        io_fail (bad_request "release needs mapping_id or public_ip_id/private_ip_id")
      else
        release public private ;;
        mret (json_object [("released", JBool true); ("public_ip_id", opt_json JStr public);
                    ("private_ip_id", opt_json JStr private)])
  end.

Definition oci_vnic_check (vnic : option string) : IO ApiError Json :=
  vnic ← lift (ok_or (resolve vnic (oci_vnic_id config)) missing_vnic);
  v ← oci_api (get_vnic oci_default vnic);
  mret (json_object [("id", JStr (vnic_id v)); ("display_name", opt_json JStr (vnic_display_name v));
              ("skip_source_dest_check", opt_json JBool (skip_source_dest_check v));
              ("ok", JBool (is_ok (validate_vnic_forwarding v)))]).

Definition oci_public_ips (compartment : option string) : IO ApiError (list PublicIp) :=
  compartment ← lift (ok_or (resolve compartment (oci_compartment_id config)) missing_compartment);
  oci_api (list_public_ips oci_default compartment).

Definition nsg_protocol (value : string) : string :=
  let p := to_ascii_lowercase (trim value) in
  if bool_decide (p = "tcp" \/ p = "6") then "6"
  else if bool_decide (p = "udp" \/ p = "17") then "17" else p.
Definition nsg_ports (min max : option Z) : option PortOptions :=
  match min, max with
  | Some min, Some max => Some (mkPortOptions (mkPortRange min max))
  | Some port, None | None, Some port => Some (mkPortOptions (mkPortRange port port))
  | None, None => None
  end.
Definition nsg_rule (request : OciNsgAddRequest) : IngressSecurityRule :=
  let protocol := nsg_protocol (na_protocol request) in
  let ports := nsg_ports (na_port_min request) (na_port_max request) in
  mkRule protocol (trim (na_source request))
    (if bool_decide (protocol = "6") then ports else None)
    (if bool_decide (protocol = "17") then ports else None)
    (resolve (na_description request) None).
Definition oci_nsg_add (request : OciNsgAddRequest) : IO ApiError Json :=
  lift (require_confirm (na_confirm request) "confirm") ;;
  nsg ← lift (ok_or (resolve (na_nsg_id request) (head (oci_nsg_ids config))) missing_nsg);
  oci_api (add_nsg_rules oci_default nsg [nsg_rule request]) ;;
  mret (json_object [("added", JBool true); ("nsg_id", JStr nsg)]).

Definition oci_nsg_remove (request : OciNsgRemoveRequest) : IO ApiError Json :=
  lift (require_confirm (nr_confirm request) "delete") ;;
  nsg ← lift (ok_or (resolve (nr_nsg_id request) (head (oci_nsg_ids config))) missing_nsg);
  let rule_ids := filter (fun i => is_empty i = false) (trim <$> nr_rule_ids request) in
  match rule_ids with
  | [] => io_fail (bad_request "no rule ids supplied")
  | _ =>
      oci_api (remove_nsg_rules oci_default nsg rule_ids) ;;
      mret (json_object [("removed", JNum (Z.of_nat (length rule_ids))); ("nsg_id", JStr nsg)])
  end.
End handlers.

(** ** Routes *)

(** A request to one of the routes, with what is extracted from it. *)
Inductive Call :=
  | CStatus | CListMappings | CCreateMapping (request : CreateMappingRequest)
  | CGetMapping (i : string) | CDeleteMapping (i : string) | CEnableMapping (i : string)
  | CDisableMapping (i : string) | CDryRunApply | CReconcile (request : ReconcileRequest)
  | CNetbirdStatus | CNetbirdNetworks | CEvents | CAnalytics | CTopology | COciStatus
  | COciAllocate (request : OciAllocateRequest) | COciRelease (request : OciReleaseRequest)
  | COciVnicCheck (vnic : option string) | COciPublicIps (compartment : option string)
  | COciNsgAdd (request : OciNsgAddRequest) | COciNsgRemove (request : OciNsgRemoveRequest).

Inductive Answer :=
  | AStatus (a : StatusResponse) | AMappings (ms : list Mapping) | AMapping (m : Mapping) | AText (s : string)
  | AReconcile (a : ReconcileResponse) | ANetbird (a : NetbirdStatus) | ANames (l : list string)
  | AEvents (l : list Event) | AAnalytics (a : AnalyticsResponse) | ATopology (a : TopologyResponse)
  | AOciStatus (a : OciStatusResponse) | AJson (j : Json) | APublicIps (l : list PublicIp).

Section router.
Context `{Ipnet} `{StoreLib} `{JsonLib} `{Env} (vars : string -> bool) (config : EdgeConfig).

Definition io_map {E A B} (f : A -> B) (m : IO E A) : IO E B := a ← m; mret (f a).

(** The handler of a route, with the check that each of them starts with. *)
Definition handler (c : Call) : IO ApiError Answer :=
  match c with
  | CStatus => io_map AStatus (status config)
  | CListMappings => io_map AMappings list_mappings
  | CCreateMapping r => io_map AMapping (create_mapping r)
  | CGetMapping i => io_map AMapping (get_mapping i)
  | CDeleteMapping i => io_map AMapping (delete_mapping config i)
  | CEnableMapping i => io_map AMapping (enable_mapping i)
  | CDisableMapping i => io_map AMapping (disable_mapping i)
  | CDryRunApply => io_map AText (dry_run_apply config)
  | CReconcile r => io_map AReconcile (reconcile config r)
  | CNetbirdStatus => io_map ANetbird api_netbird_status
  | CNetbirdNetworks => io_map ANames netbird_networks
  | CEvents => io_map AEvents events
  | CAnalytics => io_map AAnalytics analytics
  | CTopology => io_map ATopology (topology config)
  | COciStatus => io_map AOciStatus (oci_status vars config)
  | COciAllocate r => io_map AMapping (oci_allocate config r)
  | COciRelease r => io_map AJson (oci_release r)
  | COciVnicCheck v => io_map AJson (oci_vnic_check config v)
  | COciPublicIps c => io_map APublicIps (oci_public_ips config c)
  | COciNsgAdd r => io_map AJson (oci_nsg_add config r)
  | COciNsgRemove r => io_map AJson (oci_nsg_remove config r)
  end.
Definition router (authorization : option string) (c : Call) : IO ApiError Answer :=
  lift (require_auth config authorization) ;;
  handler c.
End router.

(** ** The token *)

Lemma fold_lor_0 (f : nat -> Z) l d :
  foldl (fun diff idx => Z.lor diff (f idx)) d l = 0 <-> d = 0 /\ Forall (fun idx => f idx = 0) l.
Proof.
  revert d; induction l as [|x l IH]; intros d; cbn.
  { rewrite Forall_nil. tauto. }
  rewrite IH, Z.lor_eq_0_iff, Forall_cons. tauto.
Qed.

Lemma constant_time_eq_spec left right : constant_time_eq left right = true <-> left = right.
Proof.
  unfold constant_time_eq. rewrite Z.eqb_eq, (fold_lor_0 (fun idx => Z.lxor (byte_at (chars left) idx) (byte_at (chars right) idx))).
  rewrite Z.lxor_eq_0_iff, Forall_forall. split.
  - intros [Hlen%Nat2Z.inj Hall]. rewrite <- (of_chars_chars left), <- (of_chars_chars right). f_equal.
    apply list_eq. intros i. destruct (decide (i < length (chars left))%nat) as [Hi|Hi].
    + specialize (Hall i). rewrite elem_of_seq, Z.lxor_eq_0_iff in Hall. specialize (Hall ltac:(lia)).
      unfold byte_at in Hall. destruct (lookup_lt_is_Some_2 (chars left) i Hi) as [a Ha].
      destruct (lookup_lt_is_Some_2 (chars right) i) as [b Hb]; [by rewrite <- Hlen|].
      rewrite Ha, Hb in Hall |- *. cbn in Hall. by apply byte_of_inj in Hall as ->.
    + rewrite !lookup_ge_None_2 by lia. done.
  - intros ->. split; [done|]. intros i _. by apply Z.lxor_nilpotent.
Qed.

Lemma strip_prefix_Some p s r : strip_prefix p s = Some r <-> s = p +:+ r.
Proof.
  unfold strip_prefix. split.
  - intros Hp. destruct (strip_list (chars p) (chars s)) as [l|] eqn:E; [|done]. injection Hp as <-.
    apply strip_list_Some in E. rewrite <- (of_chars_chars s), E, of_chars_app. by rewrite of_chars_chars.
  - intros ->. rewrite chars_app, strip_list_app. cbn. by rewrite of_chars_chars.
Qed.

Lemma require_auth_spec config authorization :
  require_auth config authorization =
    match api_token config with
    | None => Ok tt
    | Some token => if decide (authorization = Some ("Bearer " +:+ token)) then Ok tt else Err unauthorized
    end.
Proof.
  unfold require_auth. destruct (api_token config) as [token|]; [|done].
  destruct authorization as [value|]; [|done]. cbn [mbind option_bind].
  destruct (strip_prefix "Bearer " value) as [actual|] eqn:E.
  - apply strip_prefix_Some in E as ->. destruct (constant_time_eq actual token) eqn:Ec.
    + apply constant_time_eq_spec in Ec as ->. by rewrite decide_True.
    + rewrite decide_False; [done|]. intros [= Heq]. apply not_true_iff_false in Ec. apply Ec, constant_time_eq_spec. exact Heq.
  - rewrite decide_False; [done|]. intros [= ->].
    by rewrite (proj2 (strip_prefix_Some _ _ token) eq_refl) in E.
Qed.

(** ** Properties *)

(** The comparison of tokens, which reads every byte of the longer one, is
    equality. *)
Theorem constant_time_eq_is_equality left right : constant_time_eq left right = bool_decide (left = right).
Proof. apply bool_iff. by rewrite constant_time_eq_spec, bool_decide_eq_true. Qed.

(** C12: when a token is configured, a request to any route without exactly
    [Bearer] and this token gets the status 401 and nothing happens; every other
    request is answered by its handler. *)
Theorem router_requires_token `{Ipnet} `{StoreLib} `{JsonLib} `{Env} vars config authorization call w :
  router vars config authorization call w =
    match api_token config with
    | None => handler vars config call w
    | Some token =>
        if decide (authorization = Some ("Bearer " +:+ token)) then handler vars config call w
        else (Fail unauthorized, w)
    end.
Proof. unfold router. rewrite require_auth_spec. destruct (api_token config); [by case_decide|done]. Qed.

Section ledger.
Context `{Ipnet} `{StoreLib} `{JsonLib} `{Env} (config : EdgeConfig).

Abbreviation led := (ledger (oci_binary oci_default)).

Lemma idle_not_command s e : (forall prog args rep, e <> ECommand prog args rep) -> idle led s e.
Proof. intros Hne. destruct e; try done. by destruct (Hne program args reply). Qed.
#[local] Hint Resolve idle_not_command : io.
#[local] Hint Extern 1 (_ <> ECommand _ _ _) => discriminate : io.

Lemma store_update_idle s m : preserves (logs (idle led s)) (Store.update_mapping m).
Proof. apply through_update_mapping; auto 8 with io. Qed.
Lemma store_event_idle s lv msg data : preserves (logs (idle led s)) (Store.record_event lv msg data).
Proof. apply through_record_event; auto 8 with io. Qed.
Lemma store_get_idle s i : preserves (logs (idle led s)) (Store.get_mapping i).
Proof. apply through_get_mapping; auto 8 with io. Qed.

(** The state after a step that leaves the ledger as it is. *)
Lemma tracks_beside {E A B} s (m : IO E A) (k : A -> IO E B) (Q : Out E B -> list Resource -> Prop) :
  calm m -> preserves (logs (idle led s)) m -> (forall a, tracks led s (k a) Q) -> (forall e, Q (Fail e) s) ->
  tracks led s (m ≫= k) Q.
Proof.
  intros Hc Hm Hk Hf. apply tracks_bind, tracks_calm; [done|]. eapply tracks_mono; [by apply tracks_idle|].
  intros [a|e|x] s' ->; [apply Hk|apply Hf|done].
Qed.

(** The same for a step that always returns. *)
Lemma tracks_through {E A B} s (m : IO E A) (k : A -> IO E B) (Q : Out E B -> list Resource -> Prop) :
  (forall w, exists a, (m w).1 = Ret a) -> preserves (logs (idle led s)) m -> (forall a, tracks led s (k a) Q) ->
  tracks led s (m ≫= k) Q.
Proof.
  intros Hret Hm Hk. apply tracks_bind. intros w. destruct (Hret w) as [a Ha].
  destruct (tracks_idle led s m Hm w) as (effs & s' & Hl & Hr & ->). exists effs, s. rewrite Ha. auto.
Qed.
Lemma try_returns {E F A} (m : IO E A) : calm m -> forall w, exists r, (io_try m w : Out F _ * World).1 = Ret r.
Proof.
  intros Hc w. specialize (Hc w). unfold io_try. destruct (m w) as [[a|e|x] w1]; [by eexists..|].
  by destruct (Hc x).
Qed.

(** What the mapping says of the addresses it owns. *)
Definition owned (m : Mapping) : list Resource :=
  match oci_private_ip_ocid m, oci_public_ip_ocid m with
  | Some private, Some public => [PrivateAddress private; PublicAddress public]
  | _, _ => []
  end.

(** The clean-up after a failed update empties the ledger. *)
Lemma delete_tried {A} s x (m : IO OciError unit) (k : Result OciError unit -> IO ApiError A)
    (Q : Out ApiError A -> list Resource -> Prop) :
  tracks led s m (leaves x) -> (forall r, tracks led x (k r) Q) -> tracks led s (r ← io_try m; k r) Q.
Proof.
  intros Hm Hk. apply tracks_bind, tracks_try. eapply tracks_mono; [exact Hm|].
  intros [u|e|y] s'; cbn; [intros ->; apply Hk|intros ->; apply Hk|done].
Qed.

Lemma clean_up_tracked {A} private public (error : ApiError) :
  tracks led [PrivateAddress private; PublicAddress public]
    (io_try (F := ApiError) (delete_public_ip oci_default public) ;;
     io_try (F := ApiError) (delete_private_ip oci_default private) ;;
     io_fail error : IO ApiError A) (fun o s => match o with Fail _ => s = [] | _ => False end).
Proof.
  eapply delete_tried; [apply delete_public_tracked|]. intros _.
  eapply delete_tried; [apply delete_private_tracked|]. intros _.
  apply tracks_fail. rewrite filter_cons_True, filter_cons_False by naive_solver. by rewrite filter_cons_False by naive_solver.
Qed.

Lemma owned_allocation m a now :
  owned (mark_status (with_allocation m a) Pending now)
  = [PrivateAddress (priv_id (al_private_ip a)); PublicAddress (pub_id (al_public_ip a))].
Proof. done. Qed.

Lemma oci_allocate_tracked request :
  tracks led [] (oci_allocate config request)
    (fun o s => match o with Ret m => s = owned m | _ => s = [] end).
Proof.
  unfold oci_allocate, core_api, oci_api. apply tracks_bind, tracks_lift; [intros _ _|done].
  apply tracks_bind, tracks_lift; [intros i _|done].
  apply tracks_beside; [auto with io|apply preserves_map_err, store_get_idle|intros m|done].
  destruct (has_allocation m); [by apply tracks_fail|].
  apply tracks_bind, tracks_lift; [intros compartment _|done].
  apply tracks_bind, tracks_lift; [intros vnic _|done].
  apply tracks_bind, tracks_map_err. eapply tracks_mono; [apply allocate_tracked|].
  intros [a|e|x] s; [intros ->|by intros ->|done].
  apply tracks_through; [by eexists|by apply logs_now|intros now].
  apply tracks_through; [by apply try_returns; auto with io|apply preserves_try, store_update_idle|intros [u|e]].
  - apply tracks_through; [by apply try_returns; auto with io|apply preserves_try, store_event_idle|].
    intros v. by apply tracks_ret.
  - eapply tracks_mono; [apply clean_up_tracked|]. by intros [].
Qed.
End ledger.


(** ** Deletion *)

Section deletion.
Context `{Ipnet} `{StoreLib} `{JsonLib} `{Env} (config : EdgeConfig).

Abbreviation nft := (nft_binary (rc_nft default_reconciler)).
Abbreviation g := (load_guard nft (nft_output delete_options)).

Lemma delete_mapping_loads i : tracks g false (delete_mapping config i) (fun _ _ => True).
Proof.
  unfold delete_mapping, core_api. apply tracks_past; [apply preserves_lift, _|intros j|done..].
  apply tracks_past; [apply preserves_map_err, through_set_mapping_enabled; auto 8 with io loads|intros m|done..].
  apply tracks_bind, tracks_try. eapply tracks_mono; [by apply reconcile_loads|].
  intros [report|e|x] s Hs; [|clear Hs|done].
  - rewrite (Hs eq_refl eq_refl). apply tracks_map_err, (tracks_mono _ _ _ (fun _ _ => True)); [|done].
    eapply tracks_mono; [apply (tracks_idle g true)|done]. apply through_delete_mapping; auto 8 with io loads.
    apply logs_sql_exec. done.
  - apply tracks_past; [apply preserves_map_err, through_record_event; auto 8 with io loads|intros ev|done..].
    by apply tracks_fail.
Qed.
End deletion.


(** ** Counters *)

Lemma count_by_from values : forall counts, bt_wf counts ->
  let count := foldl (fun counts v => bt_insert v (default 0%nat (bt_get v counts) + 1)%nat counts) counts values in
  bt_wf count /\ forall v, default 0%nat (bt_get v count)
    = (default 0%nat (bt_get v counts) + length (filter (fun u => u = v) values))%nat.
Proof.
  induction values as [|x l IH]; intros counts Hwf; cbn [foldl].
  { split; [done|]. intros v. cbn. lia. }
  destruct (IH (bt_insert x (default 0 (bt_get x counts) + 1)%nat counts)) as [Hw Hc]; [by apply bt_insert_wf|].
  split; [done|]. intros v. rewrite Hc, bt_get_insert, filter_cons. case_decide; [subst; cbn|]; lia.
Qed.

(** The counters of the analytics hold, in increasing order of the names,
    how often each name occurs. *)
Theorem count_by_counts values :
  pairwise key_lt (fst <$> count_by values) /\
  forall v, default 0%nat (bt_get v (count_by values)) = length (filter (fun u => u = v) values).
Proof.
  destruct (count_by_from values [] bt_wf_nil) as [Hw Hc]. split; [|exact Hc].
  apply (pairwise_fmap key_lt fst). exact Hw.
Qed.

(** ** Examples *)

#[local] Existing Instance ipnet_model.
#[local] Existing Instance model_lib.

(** JSON texts are not needed by the examples. *)
#[local] Instance no_json : JsonLib := {|
  json_write _ := Err "";
  json_read _ := Err "";
  json_data_error _ := "";
|}.

(** The effect is a command with these arguments. *)
Definition runs (args : list string) (e : Effect) : bool :=
  match e with ECommand _ args' _ => bool_decide (args' = args) | _ => false end.

(** A cloud in which the first deletion of a private address times out, and an
    address that is gone cannot be deleted again. *)
#[local] Instance flaky_env : Env := {|
  env_now h := Z.of_nat (length h);
  env_uuid _ := "0";
  env_sql_fault _ := None;
  env_others _ := [];
  env_fs_fault _ _ := None;
  env_short_write _ := 0%nat;
  env_command h prog args :=
    let tried := existsb (runs args) h in
    if bool_decide (args = delete_private_args "private") then
      if tried then CmdDone (mkOutput (Some 0) "" "") else CmdTimedOut
    else if tried then CmdDone (mkOutput (Some 1) "" "404 NotAuthorizedOrNotFound")
    else CmdDone (mkOutput (Some 0) "" "");
  env_connect _ _ _ := TcpConnected;
  env_http _ _ := HttpFailed "";
|}.

Definition allocated : Mapping :=
  set_oci (sample_mapping "a" (ip4 10 0 0 5) (ip4 192 168 20 1)) (Some (ip4 8 8 8 8)) (Some "public")
    (ip4 10 0 0 5) (Some "private").
Definition release_request : OciReleaseRequest := mkRelease (Some "a") None None "DELETE".
Definition allocated_world : World := (Store.insert_mapping allocated sample_world).2.


(** A mapping that is released stays enabled, with the address that was
    deleted, although its status says that it is disabled. *)
Theorem released_mapping_stays_enabled :
  let E := quiet_env in
  let released := @oci_release ipnet_model model_lib E release_request allocated_world in
  match released.1 with Ret _ => True | _ => False end /\
  match (@Store.get_mapping model_lib E "a" released.2).1 with
  | Ret m => enabled m = true /\ Core.status m = Disabled /\ edge_private_ip m = edge_private_ip allocated /\
      oci_private_ip_ocid m = None
  | _ => False
  end.
Proof. split_and!; vm_compute; try split_and!; reflexivity. Qed.
