(* ===== verification/Wire.v ===== *)
(** What travels between the gateway and the agent: the JSON of the requests and
    answers of the management API, as the derived [Serialize] and [Deserialize]
    of [edge-core], [edge-agent/src/api.rs] and [edge-gateway/src/ui.rs] write and
    read it. *)
From S2P Require Import Prelude Str BTree Net Core Validation State Sql World Store Json Oci Netbird Api.
Local Open Scope Z_scope.

(** ** Mappings and events *)

Section core.
Context `{StoreLib}.

(** [time::serde::rfc3339] *)
Definition time_json (t : Time) : Result string Json := s ← format_rfc3339 t; Ok (JStr s).
Definition as_time (v : Json) : option Time := s ← as_string v; result_ok (parse_rfc3339 s).

Definition mapping_json (m : Mapping) : Result string Json :=
  checked ← transpose_map time_json (last_checked_at m);
  created ← time_json (created_at m);
  updated ← time_json (updated_at m);
  Ok (JObj [("id", JStr (id m)); ("name", JStr (name m));
    ("public_ip", opt_json (JStr ∘ show_ip) (public_ip m));
    ("oci_public_ip_ocid", opt_json JStr (oci_public_ip_ocid m));
    ("edge_private_ip", JStr (show_ip (edge_private_ip m)));
    ("oci_private_ip_ocid", opt_json JStr (oci_private_ip_ocid m));
    ("target_ip", JStr (show_ip (target_ip m)));
    ("public_port", opt_json JNum (public_port m)); ("target_port", opt_json JNum (target_port m));
    ("protocol", JStr (wire (protocol m))); ("mode", JStr (wire (mode m)));
    ("backend", JStr (wire (backend m))); ("enabled", JBool (enabled m));
    ("status", JStr (wire (Core.status m))); ("last_error", opt_json JStr (last_error m));
    ("health_status", opt_json JStr (health_status m)); ("last_checked_at", default JNull checked);
    ("created_at", created); ("updated_at", updated)]).

Definition mapping_names : list string :=
  ["id"; "name"; "public_ip"; "oci_public_ip_ocid"; "edge_private_ip"; "oci_private_ip_ocid"; "target_ip";
   "public_port"; "target_port"; "protocol"; "mode"; "backend"; "enabled"; "status"; "last_error";
   "health_status"; "last_checked_at"; "created_at"; "updated_at"].
Definition decode_mapping (v : Json) : option Mapping :=
  f ← struct_fields mapping_names 19 v;
  id ← required as_string (f "id");
  name ← required as_string (f "name");
  public_ip ← optional as_ip (f "public_ip");
  oci_public_ip_ocid ← optional as_string (f "oci_public_ip_ocid");
  edge_private_ip ← required as_ip (f "edge_private_ip");
  oci_private_ip_ocid ← optional as_string (f "oci_private_ip_ocid");
  target_ip ← required as_ip (f "target_ip");
  public_port ← optional as_u16 (f "public_port");
  target_port ← optional as_u16 (f "target_port");
  protocol ← required as_wire (f "protocol");
  mode ← required as_wire (f "mode");
  backend ← defaulted default_backend as_wire (f "backend");
  enabled ← required as_bool (f "enabled");
  status ← required as_wire (f "status");
  last_error ← optional as_string (f "last_error");
  health_status ← optional as_string (f "health_status");
  last_checked_at ← required (as_option as_time) (f "last_checked_at");
  created_at ← required as_time (f "created_at");
  updated_at ← required as_time (f "updated_at");
  Some (mkMapping id name public_ip oci_public_ip_ocid edge_private_ip oci_private_ip_ocid target_ip public_port
    target_port protocol mode backend enabled status last_error health_status last_checked_at created_at updated_at).

Definition event_json (e : Event) : Result string Json :=
  created ← time_json (e_created_at e);
  Ok (JObj [("id", JNum (e_id e)); ("level", JStr (wire (e_level e))); ("message", JStr (e_message e));
            ("data", opt_json JStr (e_data e)); ("created_at", created)]).
Definition decode_event (v : Json) : option Event :=
  f ← struct_fields ["id"; "level"; "message"; "data"; "created_at"] 5 v;
  id ← required as_i64 (f "id");
  level ← required as_wire (f "level");
  message ← required as_string (f "message");
  data ← optional as_string (f "data");
  created_at ← required as_time (f "created_at");
  Some (mkEvent id level message data created_at).
End core.

(** ** Requests, as the agent reads them *)

Definition decode_create (v : Json) : option CreateMappingRequest :=
  f ← struct_fields ["name"; "public_ip"; "edge_private_ip"; "target_ip"; "public_port"; "target_port"; "mode";
                     "protocol"; "backend"] 9 v;
  name ← required as_string (f "name");
  public_ip ← optional as_ip (f "public_ip");
  edge_private_ip ← required as_ip (f "edge_private_ip");
  target_ip ← required as_ip (f "target_ip");
  public_port ← optional as_u16 (f "public_port");
  target_port ← optional as_u16 (f "target_port");
  mode ← optional as_wire (f "mode");
  protocol ← optional as_wire (f "protocol");
  backend ← optional as_wire (f "backend");
  Some (mkCreate name public_ip edge_private_ip target_ip public_port target_port mode protocol backend).
Definition decode_reconcile (v : Json) : option ReconcileRequest :=
  f ← struct_fields ["dry_run"; "skip_linux"; "skip_nft"; "include_config"; "enable_xdp"; "xdp_interface";
                     "xdp_pin_path"; "output"] 8 v;
  dry_run ← defaulted false as_bool (f "dry_run");
  skip_linux ← defaulted false as_bool (f "skip_linux");
  skip_nft ← defaulted false as_bool (f "skip_nft");
  include_config ← defaulted false as_bool (f "include_config");
  enable_xdp ← defaulted false as_bool (f "enable_xdp");
  xdp_interface ← optional as_string (f "xdp_interface");
  xdp_pin_path ← optional as_string (f "xdp_pin_path");
  output ← optional as_string (f "output");
  Some (mkReconcileRequest dry_run skip_linux skip_nft include_config enable_xdp xdp_interface xdp_pin_path output).
Definition decode_allocate (v : Json) : option OciAllocateRequest :=
  f ← struct_fields ["mapping_id"; "compartment_id"; "vnic_id"; "display_name"; "confirm"] 4 v;
  mapping_id ← required as_string (f "mapping_id");
  compartment_id ← optional as_string (f "compartment_id");
  vnic_id ← optional as_string (f "vnic_id");
  display_name ← optional as_string (f "display_name");
  confirm ← defaulted "" as_string (f "confirm");
  Some (mkAllocate mapping_id compartment_id vnic_id display_name confirm).
Definition decode_release (v : Json) : option OciReleaseRequest :=
  f ← struct_fields ["mapping_id"; "public_ip_id"; "private_ip_id"; "confirm"] 3 v;
  mapping_id ← optional as_string (f "mapping_id");
  public_ip_id ← optional as_string (f "public_ip_id");
  private_ip_id ← optional as_string (f "private_ip_id");
  confirm ← defaulted "" as_string (f "confirm");
  Some (mkRelease mapping_id public_ip_id private_ip_id confirm).
Definition decode_nsg_add (v : Json) : option OciNsgAddRequest :=
  f ← struct_fields ["nsg_id"; "protocol"; "source"; "port_min"; "port_max"; "description"; "confirm"] 6 v;
  nsg_id ← optional as_string (f "nsg_id");
  protocol ← required as_string (f "protocol");
  source ← required as_string (f "source");
  port_min ← optional as_u16 (f "port_min");
  port_max ← optional as_u16 (f "port_max");
  description ← optional as_string (f "description");
  confirm ← defaulted "" as_string (f "confirm");
  Some (mkNsgAdd nsg_id protocol source port_min port_max description confirm).
Definition decode_nsg_remove (v : Json) : option OciNsgRemoveRequest :=
  f ← struct_fields ["nsg_id"; "rule_ids"; "confirm"] 2 v;
  nsg_id ← optional as_string (f "nsg_id");
  rule_ids ← required (as_list as_string) (f "rule_ids");
  confirm ← defaulted "" as_string (f "confirm");
  Some (mkNsgRemove nsg_id rule_ids confirm).

(** ** Answers, as the agent writes them *)

Definition count_json (n : nat) : Json := JNum (Z.of_nat n).
Definition status_response_json (a : StatusResponse) : Json :=
  JObj [("wan_interface", JStr (sr_wan_interface a)); ("netbird_interface", JStr (sr_netbird_interface a));
        ("target_cidrs", strings_json (sr_target_cidrs a)); ("mappings", count_json (sr_mappings a));
        ("enabled_mappings", count_json (sr_enabled_mappings a))].
Definition reconcile_response_json (a : ReconcileResponse) : Json :=
  JObj [("generation_id", opt_json JNum (rs_generation_id a)); ("added_addresses", strings_json (rs_added_addresses a));
        ("removed_addresses", strings_json (rs_removed_addresses a));
        ("xdp_plan_entries", count_json (rs_xdp_plan_entries a));
        ("nftables_config", opt_json JStr (rs_nftables_config a))].
Definition counts_json (l : list (string * nat)) : Json := JObj (prod_map (fun k => k) count_json <$> l).
Definition analytics_json (a : AnalyticsResponse) : Json :=
  JObj [("mapping_total", count_json (an_mapping_total a)); ("mapping_enabled", count_json (an_mapping_enabled a));
        ("mapping_status", counts_json (an_mapping_status a)); ("mapping_backend", counts_json (an_mapping_backend a));
        ("event_level", counts_json (an_event_level a)); ("problem_mappings", count_json (an_problem_mappings a))].
Definition flow_json (t : TopologyFlow) : Json :=
  JObj [("id", JStr (tf_id t)); ("name", JStr (tf_name t)); ("public_endpoint", JStr (tf_public_endpoint t));
        ("edge_private_ip", JStr (tf_edge_private_ip t)); ("target_endpoint", JStr (tf_target_endpoint t));
        ("protocol", JStr (tf_protocol t)); ("mode", JStr (tf_mode t)); ("backend", JStr (tf_backend t));
        ("status", JStr (tf_status t)); ("enabled", JBool (tf_enabled t))].
Definition topology_json (a : TopologyResponse) : Json :=
  JObj [("wan_interface", JStr (tr_wan_interface a)); ("netbird_interface", JStr (tr_netbird_interface a));
        ("target_cidrs", strings_json (tr_target_cidrs a)); ("flows", JArr (flow_json <$> tr_flows a))].
Definition oci_env_json (e : OciEnvStatus) : Json :=
  JObj [("tenancy_id", JBool (oe_tenancy_id e)); ("user_id", JBool (oe_user_id e));
        ("fingerprint", JBool (oe_fingerprint e)); ("private_key_path", JBool (oe_private_key_path e))].
Definition oci_status_json (a : OciStatusResponse) : Json :=
  JObj [("auth_mode", JStr (wire (os_auth_mode a))); ("region", opt_json JStr (os_region a));
        ("compartment_id_configured", JBool (os_compartment_id_configured a));
        ("vnic_id_configured", JBool (os_vnic_id_configured a));
        ("subnet_id_configured", JBool (os_subnet_id_configured a)); ("nsg_count", count_json (os_nsg_count a));
        ("api_key_env_ready", JBool (os_api_key_env_ready a)); ("env", oci_env_json (os_env a));
        ("cli_available", JBool (os_cli_available a)); ("cli_version", opt_json JStr (os_cli_version a));
        ("compartment_id", opt_json JStr (os_compartment_id a)); ("vnic_id", opt_json JStr (os_vnic_id a));
        ("subnet_id", opt_json JStr (os_subnet_id a)); ("nsg_ids", strings_json (os_nsg_ids a))].

(** The body of an answer. *)
Definition answer_body `{StoreLib} `{JsonLib} (a : Answer) : Result string string :=
  match a with
  | AText s => Ok s
  | AStatus a => json_write (status_response_json a)
  | AMappings ms => l ← collect mapping_json ms; json_write (JArr l)
  | AMapping m => j ← mapping_json m; json_write j
  | AReconcile a => json_write (reconcile_response_json a)
  | ANetbird s => json_write (status_json s)
  | ANames l => json_write (strings_json l)
  | AEvents es => l ← collect event_json es; json_write (JArr l)
  | AAnalytics a => json_write (analytics_json a)
  | ATopology a => json_write (topology_json a)
  | AOciStatus a => json_write (oci_status_json a)
  | AJson j => json_write j
  | APublicIps l => json_write (JArr (public_ip_json <$> l))
  end.

(** ** Answers, as the pages read them *)

Definition as_count (v : Json) : option nat := Z.to_nat <$> as_usize v.
Definition decode_status_response (v : Json) : option StatusResponse :=
  f ← struct_fields ["wan_interface"; "netbird_interface"; "target_cidrs"; "mappings"; "enabled_mappings"] 5 v;
  wan_interface ← required as_string (f "wan_interface");
  netbird_interface ← required as_string (f "netbird_interface");
  target_cidrs ← required (as_list as_string) (f "target_cidrs");
  mappings ← required as_count (f "mappings");
  enabled_mappings ← required as_count (f "enabled_mappings");
  Some (mkStatusResponse wan_interface netbird_interface target_cidrs mappings enabled_mappings).
Definition decode_reconcile_response (v : Json) : option ReconcileResponse :=
  f ← struct_fields ["generation_id"; "added_addresses"; "removed_addresses"; "xdp_plan_entries";
                     "nftables_config"] 5 v;
  generation_id ← optional as_i64 (f "generation_id");
  added_addresses ← required (as_list as_string) (f "added_addresses");
  removed_addresses ← required (as_list as_string) (f "removed_addresses");
  xdp_plan_entries ← required as_count (f "xdp_plan_entries");
  nftables_config ← optional as_string (f "nftables_config");
  Some (mkReconcileResponse generation_id added_addresses removed_addresses xdp_plan_entries nftables_config).
Definition decode_flow (v : Json) : option TopologyFlow :=
  f ← struct_fields ["id"; "name"; "public_endpoint"; "edge_private_ip"; "target_endpoint"; "protocol"; "mode";
                     "backend"; "status"; "enabled"] 10 v;
  id ← required as_string (f "id");
  name ← required as_string (f "name");
  public_endpoint ← required as_string (f "public_endpoint");
  edge_private_ip ← required as_string (f "edge_private_ip");
  target_endpoint ← required as_string (f "target_endpoint");
  protocol ← required as_string (f "protocol");
  mode ← required as_string (f "mode");
  backend ← required as_string (f "backend");
  status ← required as_string (f "status");
  enabled ← required as_bool (f "enabled");
  Some (mkFlowResponse id name public_endpoint edge_private_ip target_endpoint protocol mode backend status enabled).
Definition decode_topology (v : Json) : option TopologyResponse :=
  f ← struct_fields ["wan_interface"; "netbird_interface"; "target_cidrs"; "flows"] 4 v;
  wan_interface ← required as_string (f "wan_interface");
  netbird_interface ← required as_string (f "netbird_interface");
  target_cidrs ← required (as_list as_string) (f "target_cidrs");
  flows ← required (as_list decode_flow) (f "flows");
  Some (mkTopology wan_interface netbird_interface target_cidrs flows).

(** [OciStatusResponse] of the pages, where the mode is a text. *)
Record OciStatusView := mkOciView {
  ov_auth_mode : string;
  ov_region : option string;
  ov_compartment_id_configured : bool;
  ov_vnic_id_configured : bool;
  ov_subnet_id_configured : bool;
  ov_nsg_count : nat;
  ov_api_key_env_ready : bool;
  ov_env : OciEnvStatus;
  ov_cli_available : bool;
  ov_cli_version : option string;
  ov_compartment_id : option string;
  ov_vnic_id : option string;
  ov_subnet_id : option string;
  ov_nsg_ids : list string;
}.
Definition decode_oci_env (v : Json) : option OciEnvStatus :=
  f ← struct_fields ["tenancy_id"; "user_id"; "fingerprint"; "private_key_path"] 4 v;
  tenancy_id ← required as_bool (f "tenancy_id");
  user_id ← required as_bool (f "user_id");
  fingerprint ← required as_bool (f "fingerprint");
  private_key_path ← required as_bool (f "private_key_path");
  Some (mkOciEnv tenancy_id user_id fingerprint private_key_path).
Definition decode_oci_status (v : Json) : option OciStatusView :=
  f ← struct_fields ["auth_mode"; "region"; "compartment_id_configured"; "vnic_id_configured";
    "subnet_id_configured"; "nsg_count"; "api_key_env_ready"; "env"; "cli_available"; "cli_version";
    "compartment_id"; "vnic_id"; "subnet_id"; "nsg_ids"] 10 v;
  auth_mode ← required as_string (f "auth_mode");
  region ← optional as_string (f "region");
  compartment_id_configured ← required as_bool (f "compartment_id_configured");
  vnic_id_configured ← required as_bool (f "vnic_id_configured");
  subnet_id_configured ← required as_bool (f "subnet_id_configured");
  nsg_count ← required as_count (f "nsg_count");
  api_key_env_ready ← required as_bool (f "api_key_env_ready");
  env ← required decode_oci_env (f "env");
  cli_available ← required as_bool (f "cli_available");
  cli_version ← optional as_string (f "cli_version");
  compartment_id ← optional as_string (f "compartment_id");
  vnic_id ← optional as_string (f "vnic_id");
  subnet_id ← optional as_string (f "subnet_id");
  nsg_ids ← defaulted [] (as_list as_string) (f "nsg_ids");
  Some (mkOciView auth_mode region compartment_id_configured vnic_id_configured subnet_id_configured nsg_count
    api_key_env_ready env cli_available cli_version compartment_id vnic_id subnet_id nsg_ids).

(** What the pages see of an answer. *)
Definition oci_view (a : OciStatusResponse) : OciStatusView :=
  mkOciView (wire (os_auth_mode a)) (os_region a) (os_compartment_id_configured a) (os_vnic_id_configured a)
    (os_subnet_id_configured a) (os_nsg_count a) (os_api_key_env_ready a) (os_env a) (os_cli_available a)
    (os_cli_version a) (os_compartment_id a) (os_vnic_id a) (os_subnet_id a) (os_nsg_ids a).

(** ** Reading back *)

#[local] Arguments required : simpl never.
#[local] Arguments optional : simpl never.
#[local] Arguments defaulted : simpl never.
#[local] Arguments opt_json : simpl never.
#[local] Arguments strings_json : simpl never.
#[local] Arguments count_json : simpl never.
#[local] Arguments as_list : simpl never.
#[local] Arguments as_ip : simpl never.
#[local] Arguments show_ip : simpl never.

Lemma required_Some {A} (d : Json -> option A) v : required d (Some v) = d v.
Proof. done. Qed.
Lemma count_read n : usize_ok (Z.of_nat n) -> as_count (count_json n) = Some n.
Proof.
  intros Hn. unfold as_count, count_json, as_usize. rewrite bool_decide_eq_true_2 by exact Hn. cbn. by rewrite Nat2Z.id.
Qed.
Definition i64_ok (z : Z) : Prop := - 2 ^ 63 <= z < 2 ^ 63.
Lemma i64_read z : i64_ok z -> as_i64 (JNum z) = Some z.
Proof. intros Hz. unfold as_i64. by rewrite bool_decide_eq_true_2. Qed.
Lemma opt_i64_read o : opt_all i64_ok o -> optional as_i64 (Some (opt_json JNum o)) = Some o.
Proof. apply opt_json_read; [by intros z|exact i64_read]. Qed.

(** Opens a derived reader on what the derived writer made, and reads its fields. *)
Ltac open_struct :=
  cbn [struct_fields]; rewrite bool_decide_eq_true_2 by (vm_compute; repeat constructor; set_solver); cbn.
Ltac read_fields :=
  repeat first
    [ rewrite required_Some | rewrite defaulted_Some | rewrite optional_string | rewrite strings_read
    | rewrite opt_ip_read | rewrite ip_read | rewrite wire_read
    | rewrite count_read by done | rewrite u16_read by done | rewrite i64_read by done
    | rewrite opt_i64_read by done | progress cbn ].

Lemma status_response_read a : usize_ok (Z.of_nat (sr_mappings a)) -> usize_ok (Z.of_nat (sr_enabled_mappings a)) ->
  decode_status_response (status_response_json a) = Some a.
Proof. intros Hm He. destruct a. cbn in * |-. unfold decode_status_response, status_response_json. open_struct. by read_fields. Qed.

Lemma reconcile_response_read a : opt_all i64_ok (rs_generation_id a) -> usize_ok (Z.of_nat (rs_xdp_plan_entries a)) ->
  decode_reconcile_response (reconcile_response_json a) = Some a.
Proof.
  intros Hg Hx. destruct a. cbn in * |-. unfold decode_reconcile_response, reconcile_response_json. open_struct. by read_fields.
Qed.

Lemma flow_read t : decode_flow (flow_json t) = Some t.
Proof. destruct t. unfold decode_flow, flow_json. open_struct. by read_fields. Qed.

Lemma topology_read a : decode_topology (topology_json a) = Some a.
Proof.
  destruct a. unfold decode_topology, topology_json. open_struct. read_fields.
  rewrite list_json; [done|]. apply Forall_forall. intros t _. apply flow_read.
Qed.

Lemma oci_status_read a : usize_ok (Z.of_nat (os_nsg_count a)) -> decode_oci_status (oci_status_json a) = Some (oci_view a).
Proof.
  intros Hn. destruct a as [???????[]]. cbn in * |-. unfold decode_oci_status, oci_status_json. open_struct.
  read_fields. unfold decode_oci_env, oci_env_json. open_struct. by read_fields.
Qed.

(** Ports that are read are 16-bit numbers. *)
Lemma optional_port o p : optional as_u16 o = Some p -> opt_all u16_ok p.
Proof.
  destruct o as [j|]; unfold optional; [|by intros [= <-]]. unfold as_option, as_u16.
  destruct j; try (by intros [= <-]); try done. case_bool_decide; [by intros [= <-]|done].
Qed.
Lemma decode_create_ports v r : decode_create v = Some r ->
  opt_all u16_ok (cr_public_port r) /\ opt_all u16_ok (cr_target_port r).
Proof.
  unfold decode_create. intros Hr. repeat match goal with
  | Hr : (_ ≫= _) = Some _ |- _ => apply bind_Some in Hr as (? & ? & Hr)
  end. injection Hr as <-. cbn. eauto using optional_port.
Qed.

Section core_read.
Context `{StoreLibLaws}.

Lemma time_read t v : time_json t = Ok v -> as_time v = Some t.
Proof.
  unfold time_json. intros (s & Hs & [= <-])%bind_Ok. unfold as_time. cbn. by rewrite (parse_format t s).
Qed.

Lemma opt_time_read o r : transpose_map time_json o = Ok r -> as_option as_time (default JNull r) = Some o.
Proof.
  intros Ho%transpose_map_Ok. destruct o as [t|]; [|by subst]. destruct Ho as (v & Ht & ->).
  unfold time_json in Ht. apply bind_Ok in Ht as (s & Hs & [= <-]). cbn. by rewrite (parse_format t s).
Qed.

Lemma mapping_read m v : opt_all u16_ok (public_port m) -> opt_all u16_ok (target_port m) ->
  mapping_json m = Ok v -> decode_mapping v = Some m.
Proof.
  intros Hp Ht. unfold mapping_json.
  intros (checked & Hc & (created & Hcr & (updated & Hu & [= <-])%bind_Ok)%bind_Ok)%bind_Ok.
  destruct m. cbn in * |-. unfold decode_mapping. open_struct. read_fields.
  rewrite (opt_time_read _ _ Hc). read_fields. rewrite (time_read _ _ Hcr). read_fields. by rewrite (time_read _ _ Hu).
Qed.

Lemma event_read e v : i64_ok (e_id e) -> event_json e = Ok v -> decode_event v = Some e.
Proof.
  intros Hi. unfold event_json. intros (created & Hc & [= <-])%bind_Ok. destruct e. cbn in * |-.
  unfold decode_event. open_struct. read_fields. by rewrite (time_read _ _ Hc).
Qed.

Lemma collected_read {A} (enc : A -> Result string Json) (dec : Json -> option A) l vs :
  Forall (fun a => forall v, enc a = Ok v -> dec v = Some a) l -> collect enc l = Ok vs ->
  as_list dec (JArr vs) = Some l.
Proof.
  intros Hl Hc%collect_Ok. unfold as_list. induction Hc as [|a v l vs Hv _ IH]; [done|].
  apply Forall_cons in Hl as [Ha Hl]. cbn. by rewrite (Ha v Hv), (IH Hl).
Qed.
End core_read.

(** ** Properties *)

(** The text of the answer reads as [x]. *)
Definition reads `{StoreLib} `{JsonLib} {A} (d : Json -> option A) (a : Answer) (x : A) : Prop :=
  forall text, answer_body a = Ok text -> from_str d text = Ok x.

Lemma from_written `{JsonLaws} {A} (d : Json -> option A) v text x :
  json_write v = Ok text -> d v = Some x -> from_str d text = Ok x.
Proof. intros Hw%json_read_write Hd. unfold from_str. rewrite Hw. cbn. by rewrite Hd. Qed.

Definition ports_u16 (m : Mapping) : Prop := opt_all u16_ok (public_port m) /\ opt_all u16_ok (target_port m).

(** C27: the pages read every answer of the agent as the data it was made from:
    mappings, events, the status, the topology, the report of a reconciliation
    and the state of the OCI configuration. *)
Theorem pages_read_answers `{StoreLibLaws} `{JsonLaws} :
  (forall m, ports_u16 m -> reads decode_mapping (AMapping m) m) /\
  (forall ms, Forall ports_u16 ms -> reads (as_list decode_mapping) (AMappings ms) ms) /\
  (forall es, Forall (fun e => i64_ok (e_id e)) es -> reads (as_list decode_event) (AEvents es) es) /\
  (forall a, usize_ok (Z.of_nat (sr_mappings a)) -> usize_ok (Z.of_nat (sr_enabled_mappings a)) ->
    reads decode_status_response (AStatus a) a) /\
  (forall a, reads decode_topology (ATopology a) a) /\
  (forall a, opt_all i64_ok (rs_generation_id a) -> usize_ok (Z.of_nat (rs_xdp_plan_entries a)) ->
    reads decode_reconcile_response (AReconcile a) a) /\
  (forall a, usize_ok (Z.of_nat (os_nsg_count a)) -> reads decode_oci_status (AOciStatus a) (oci_view a)).
Proof.
  unfold reads. split_and!; cbn [answer_body].
  - intros m [Hp Ht] text (v & Hv & Hw)%bind_Ok. by eapply from_written, mapping_read.
  - intros ms Hms text (vs & Hc & Hw)%bind_Ok. eapply from_written, collected_read; [exact Hw| |exact Hc].
    eapply Forall_impl; [exact Hms|]. intros m [Hp Ht] v. by apply mapping_read.
  - intros es Hes text (vs & Hc & Hw)%bind_Ok. eapply from_written, collected_read; [exact Hw| |exact Hc].
    eapply Forall_impl; [exact Hes|]. intros e He v. by apply event_read.
  - intros a Hm He text Hw. by eapply from_written, status_response_read.
  - intros a text Hw. by eapply from_written, topology_read.
  - intros a Hg Hx text Hw. by eapply from_written, reconcile_response_read.
  - intros a Hn text Hw. by eapply from_written, oci_status_read.
Qed.

(** ** Witnesses *)

Definition sample_answer : Mapping := set_endpoints (sample_mapping "a" (ip4 10 0 0 5) (ip4 192 168 20 1))
  (Some 443) None PortForwardSnat Tcp Nft.

Lemma pages_read_answers_witness :
  let S := model_lib in let J := json_model in
  reads (as_list decode_mapping) (AMappings [sample_answer]) [sample_answer] /\
  is_ok (answer_body (AMappings [sample_answer])) = true.
Proof.
  split; [|vm_compute; reflexivity].
  destruct (@pages_read_answers model_lib model_lib_laws json_model json_model_laws) as (_ & Hread & _).
  apply Hread, Forall_singleton. split; unfold opt_all, u16_ok; cbn [sample_answer set_endpoints public_port target_port]; [lia|done].
Defined.
