(* ===== verification/Gateway.v ===== *)
(** [edge-gateway/src/main.rs] and [agent.rs]: the tokens, the proxy of
    [/api] and the requests to the agent. The header maps, addresses and bodies
    of the [http] and [axum] crates are a parameter. *)
From Stdlib Require Import Ascii.
From S2P Require Import Prelude Str Utf8 Net Core Sql World Store Nft Json Api.
Local Open Scope Z_scope.

(** ** The [http] crate *)

(** Names of headers are in lower case; values are bytes. [body_to_bytes] is
    [axum::body::to_bytes] of a body, which is all its bytes or an error. *)
Class HttpLib := {
  HeaderMap : Type;
  hm_new : HeaderMap;
  hm_get_all : string -> HeaderMap -> list string;
  hm_insert : string -> string -> HeaderMap -> HeaderMap;
  hm_append : string -> string -> HeaderMap -> HeaderMap;
  hm_remove : string -> HeaderMap -> HeaderMap;
  hm_lines : HeaderMap -> list (string * string);
  header_name : string -> option string;
  header_value : string -> Result string string;
  value_to_str : string -> option string;
  parse_uri : string -> Result string string;
  body_to_bytes : nat -> Result string string -> Result string string;
}.

(** Visible ASCII. *)
Definition visible (s : string) : bool := all_bytes (within 32 126) s.

Class HttpLaws `{HttpLib} : Prop := {
  get_all_new n : hm_get_all n hm_new = [];
  get_all_insert n m v h : hm_get_all n (hm_insert m v h) = if decide (n = m) then [v] else hm_get_all n h;
  get_all_append n m v h :
    hm_get_all n (hm_append m v h) = hm_get_all n h ++ (if decide (n = m) then [v] else []);
  get_all_remove n m h : hm_get_all n (hm_remove m h) = if decide (n = m) then [] else hm_get_all n h;
  get_all_lines n h : hm_get_all n h = snd <$> filter (fun l => l.1 = n) (hm_lines h);
  header_value_bytes s v : header_value s = Ok v -> v = s;
  value_to_str_bytes v s : value_to_str v = Some s -> s = v;
  header_value_visible s : visible s = true -> header_value s = Ok s;
  value_to_str_visible s : visible s = true -> value_to_str s = Some s;
  parse_uri_text s u : parse_uri s = Ok u -> u = s;
  body_to_bytes_Ok n body b : body_to_bytes n body = Ok b <-> body = Ok b /\ (String.length b <= n)%nat;
}.

(** [toml]: a document, and the message for one that does not hold the expected
    data. *)
Class TomlLib := {
  toml_read : string -> Result string Json;
  toml_data_error : string -> string;
}.
Definition toml_from_str {A} `{TomlLib} (d : Json -> option A) (text : string) : Result string A :=
  v ← toml_read text;
  ok_or (d v) (toml_data_error text).

(** ** Errors and tokens *)

Record GatewayError := mkGatewayError { ge_status : Z; ge_message : string }.
Definition gw_unauthorized : GatewayError := mkGatewayError 401 "missing or invalid bearer token".
Definition gw_bad_gateway (m : string) : GatewayError := mkGatewayError 502 m.
Definition gw_internal (m : string) : GatewayError := mkGatewayError 500 m.

Record AppState := mkAppState {
  st_agent_socket : string;
  st_gateway_token : option string;
  st_api_token : option string;
}.

Record Tokens := mkTokens { tk_gateway : option string; tk_api : option string }.
Record FileTokens := mkFileTokens { ft_gateway_token : option string; ft_api_token : option string }.
Definition decode_file_tokens (v : Json) : option FileTokens :=
  f ← struct_fields ["gateway_token"; "api_token"] 2 v;
  gateway ← optional as_string (f "gateway_token");
  api ← optional as_string (f "api_token");
  Some (mkFileTokens gateway api).

Definition load_file `{TomlLib} `{Env} (path : string) : IO string FileTokens :=
  raw ← read_to_string path;
  lift (toml_from_str decode_file_tokens raw).

(** [Option::or_else] *)
Definition or_else {A} (a b : option A) : option A := match a with Some _ => a | None => b end.

(** With the feature [mock] there need not be a token for the agent. *)
Definition load_tokens_with `{TomlLib} `{Env} (mock : bool) (config : option string) (cli_gateway cli_api : option string)
    : IO string Tokens :=
  file ← match config with Some path => file ← load_file path; mret (Some file) | None => mret None end;
  let gateway := or_else cli_gateway (file ≫= ft_gateway_token) in
  let api := or_else cli_api (file ≫= ft_api_token) in
  if bool_decide (gateway = Some "") then io_fail "gateway token must not be empty"
  else if bool_decide (api = Some "") then io_fail "upstream API token must not be empty"
  else if negb mock && bool_decide (api = None) then
    io_fail "missing upstream API token; set EDGE_API_TOKEN or config api_token"
  else mret (mkTokens gateway api).
Definition load_tokens `{TomlLib} `{Env} := load_tokens_with false.

Definition byte_at (l : list ascii) (idx : nat) : Z := default 0 (byte_of <$> l !! idx).
Definition constant_time_eq (left right : string) : bool :=
  let l := chars left in
  let r := chars right in
  let diff := foldl (fun diff idx => Z.lor diff (Z.lxor (byte_at l idx) (byte_at r idx)))
    (Z.lxor (Z.of_nat (length l)) (Z.of_nat (length r))) (seq 0 (Nat.max (length l) (length r))) in
  diff =? 0.

(** ** Paths *)

Definition strip_api_prefix (path_and_query matched_path : string) : string :=
  if is_empty matched_path then "/" else default path_and_query (strip_prefix "/api" path_and_query).

Section gateway.
Context `{HttpLib}.

Definition upstream_uri (path_and_query : string) : Result GatewayError string :=
  let path := if starts_with "/" path_and_query then path_and_query else "/" +:+ path_and_query in
  map_err gw_internal (parse_uri ("http://edge-agent" +:+ path)).

(** ** Headers *)

Definition hop_by_hop_headers : list string :=
  ["connection"; "keep-alive"; "proxy-authenticate"; "proxy-authorization"; "te"; "trailer";
   "transfer-encoding"; "upgrade"].
Definition connection_nominated_headers (headers : HeaderMap) : list string :=
  omap (fun name => header_name (trim name))
    (mjoin (split ","%char <$> omap value_to_str (hm_get_all "connection" headers))).

Definition remove_all (names : list string) (headers : HeaderMap) : HeaderMap :=
  foldl (fun headers name => hm_remove name headers) headers names.
Definition rewrite_headers (headers : HeaderMap) (token : string) : Result GatewayError HeaderMap :=
  let nominated := connection_nominated_headers headers in
  let headers := remove_all hop_by_hop_headers headers in
  let headers := remove_all nominated headers in
  let headers := hm_remove "authorization" headers in
  let headers := hm_insert "host" "edge-agent" headers in
  value ← map_err gw_internal (header_value ("Bearer " +:+ token));
  Ok (hm_insert "authorization" value headers).

Definition require_gateway_auth (headers : HeaderMap) (token : option string) : Result GatewayError unit :=
  match token with
  | None => Ok tt
  | Some expected =>
      match value ← head (hm_get_all "authorization" headers); value ← value_to_str value;
            strip_prefix "Bearer " value with
      | None => Err gw_unauthorized
      | Some actual => if constant_time_eq actual expected then Ok tt else Err gw_unauthorized
      end
  end.

(** ** Requests to the agent *)

Section send.
Context `{Env} (state : AppState).

(** The header map of the lines of an answer. *)
Definition collect_lines (lines : list (string * string)) : HeaderMap :=
  foldl (fun h l => hm_append l.1 l.2 h) hm_new lines.

Definition send_raw (method path : string) (headers : HeaderMap) (body : string)
    : IO GatewayError (Z * HeaderMap * string) :=
  token ← lift (ok_or (st_api_token state) (gw_bad_gateway "missing upstream API token"));
  headers ← lift (rewrite_headers headers token);
  uri ← lift (upstream_uri path);
  reply ← http_request (mkHttpRequest method uri (hm_lines headers) body);
  match reply with
  | HttpFailed m => io_fail (gw_bad_gateway m)
  | HttpAnswered r =>
      body ← lift (map_err gw_bad_gateway (rp_body r));
      mret (rp_status r, collect_lines (rp_headers r), body)
  end.

Definition is_success_status (status : Z) : bool := (200 <=? status) && (status <? 300).
Definition decode_json {A} `{JsonLib} (d : Json -> option A) (status : Z) (body : string) : Result GatewayError A :=
  if is_success_status status then map_err gw_bad_gateway (from_str d body)
  else Err (gw_bad_gateway (from_utf8_lossy body)).
Definition decode_text (status : Z) (body : string) : Result GatewayError string :=
  let text := from_utf8_lossy body in
  if is_success_status status then Ok text else Err (gw_bad_gateway text).

Section json.
Context {A : Type} `{JsonLib} (d : Json -> option A).

Definition get_json (path : string) : IO GatewayError A :=
  '(status, _, body) ← send_raw "GET" path hm_new "";
  lift (decode_json d status body).
Definition post_json (path : string) (value : Json) : IO GatewayError A :=
  bytes ← lift (map_err gw_internal (json_write value));
  '(status, _, body) ← send_raw "POST" path (hm_insert "content-type" "application/json" hm_new) bytes;
  lift (decode_json d status body).
Definition post_empty_json (path : string) : IO GatewayError A :=
  '(status, _, body) ← send_raw "POST" path hm_new "";
  lift (decode_json d status body).
Definition delete_json (path : string) : IO GatewayError A :=
  '(status, _, body) ← send_raw "DELETE" path hm_new "";
  lift (decode_json d status body).
End json.
Definition post_text (path : string) : IO GatewayError string :=
  '(status, _, body) ← send_raw "POST" path hm_new "";
  lift (decode_text status body).

(** ** Handlers *)

Record ProxyRequest := mkProxyRequest {
  pr_method : string;
  pr_path_and_query : option string;
  pr_headers : HeaderMap;
  pr_body : Result string string;
}.
Record ProxyResponse := mkProxyResponse { ps_status : Z; ps_headers : HeaderMap; ps_body : string }.

Definition MAX_PROXY_BODY_BYTES : nat := 1024 * 1024.

(** [path] is what the route matched after [/api/]. *)
Definition proxy (path : string) (request : ProxyRequest) : IO GatewayError ProxyResponse :=
  lift (require_gateway_auth (pr_headers request) (st_gateway_token state)) ;;
  body ← lift (map_err gw_bad_gateway (body_to_bytes MAX_PROXY_BODY_BYTES (pr_body request)));
  let path_and_query := default "/" (pr_path_and_query request) in
  '(status, headers, body) ← send_raw (pr_method request) (strip_api_prefix path_and_query path)
    (pr_headers request) body;
  mret (mkProxyResponse status
    (collect_lines (filter (fun l => l.1 ∉ hop_by_hop_headers) (hm_lines headers))) body).

Definition gw_health : Json := JObj [("status", JStr "ok")].
Definition gw_status : Json :=
  JObj [("status", JStr "ok"); ("agent_socket", JStr (st_agent_socket state));
        ("upstream_auth", JStr (if st_api_token state then "configured" else "unconfigured"));
        ("api_auth", JStr (if st_gateway_token state then "bearer" else "netbird"))].
End send.
End gateway.

(** ** Lemmas *)

Section lemmas.
Context `{HttpLaws}.

Lemma get_all_remove_all n names h :
  hm_get_all n (remove_all names h) = if decide (n ∈ names) then [] else hm_get_all n h.
Proof.
  unfold remove_all. revert h; induction names as [|m names IH]; intros h; cbn; [done|].
  rewrite IH, get_all_remove. repeat case_decide; set_solver.
Qed.

Lemma get_all_collect n ls : hm_get_all n (collect_lines ls) = snd <$> filter (fun l => l.1 = n) ls.
Proof.
  unfold collect_lines. rewrite <- (List.app_nil_l (snd <$> _)), <- (get_all_new n).
  generalize hm_new as h. induction ls as [|[m v] ls IH]; intros h; cbn [foldl]; [by rewrite List.app_nil_r|].
  rewrite IH, get_all_append, <- (assoc_L (++)), filter_cons. cbn [fst snd].
  destruct (decide (m = n)) as [->|]; [by rewrite decide_True|by rewrite decide_False].
Qed.

#[local] Arguments remove_all : simpl never.

(** What is sent instead of the headers of a request. *)
Definition forwarded (headers : HeaderMap) (token n : string) : list string :=
  if decide (n = "authorization") then ["Bearer " +:+ token]
  else if decide (n = "host") then ["edge-agent"]
  else if decide (n ∈ hop_by_hop_headers \/ n ∈ connection_nominated_headers headers) then []
  else hm_get_all n headers.

Lemma rewrite_headers_forwards headers token h :
  rewrite_headers headers token = Ok h -> forall n, hm_get_all n h = forwarded headers token n.
Proof.
  unfold rewrite_headers. intros (v & Hv & [= <-])%bind_Ok n.
  destruct (header_value ("Bearer " +:+ token)) as [v'|] eqn:E; [|done]. injection Hv as ->.
  apply header_value_bytes in E as ->. unfold forwarded.
  rewrite !get_all_insert, get_all_remove, !get_all_remove_all.
  destruct (decide (n = "authorization")); [done|]. destruct (decide (n = "host")); [done|].
  repeat case_decide; tauto || done.
Qed.

Lemma rewrite_headers_ok headers token :
  is_ok (rewrite_headers headers token) = is_ok (header_value ("Bearer " +:+ token)).
Proof. unfold rewrite_headers. by destruct (header_value _). Qed.

Lemma starts_with_slash path u :
  upstream_uri path = Ok u ->
  u = "http://edge-agent" +:+ (if starts_with "/" path then path else "/" +:+ path).
Proof. unfold upstream_uri. destruct (parse_uri _) eqn:E; [|done]. intros [= <-]. by apply parse_uri_text in E. Qed.

(** The request that [send_raw] makes. *)
Record sent (state : AppState) (method path : string) (headers : HeaderMap) (body : string)
    (r : HttpRequest) : Prop := {
  sent_method : rq_method r = method;
  sent_uri : rq_uri r = "http://edge-agent" +:+ (if starts_with "/" path then path else "/" +:+ path);
  sent_body : rq_body r = body;
  sent_headers : exists token, st_api_token state = Some token /\
    forall n, snd <$> filter (fun l => l.1 = n) (rq_headers r) = forwarded headers token n;
}.

Lemma send_raw_sends `{Env} state method path headers body w :
  exists effs, w_log (send_raw state method path headers body w).2 = w_log w ++ effs /\
    (effs = [] /\ (exists e, (send_raw state method path headers body w).1 = Fail e) \/
     exists r rep, effs = [EHttp r rep] /\ sent state method path headers body r).
Proof.
  unfold send_raw. destruct (st_api_token state) as [token|] eqn:Et; cbn [ok_or].
  2: { exists []. rewrite List.app_nil_r. split; [done|]. left. eauto. }
  rewrite (lift_step token) by done. destruct (rewrite_headers headers token) as [h|e] eqn:Eh.
  2: { rewrite (lift_stop e) by done. exists []. rewrite List.app_nil_r. split; [done|]. left. eauto. }
  rewrite (lift_step h) by done. destruct (upstream_uri path) as [u|e] eqn:Eu.
  2: { rewrite (lift_stop e) by done. exists []. rewrite List.app_nil_r. split; [done|]. left. eauto. }
  rewrite (lift_step u) by done. set (r := mkHttpRequest method u (hm_lines h) body).
  exists [EHttp r (env_http (w_log w) r)]. split.
  - unfold mbind at 1, io_bind at 1, http_request. destruct (env_http (w_log w) r) as [m|a]; [done|].
    by destruct (rp_body a).
  - right. do 2 eexists. split; [reflexivity|]. split; cbn; [done|by apply starts_with_slash|done|].
    exists token. split; [done|]. intros n. rewrite <- get_all_lines. by apply rewrite_headers_forwards.
Qed.
End lemmas.

(** ** Properties *)

(** A rewritten request carries exactly the token of the agent and its host,
    none of the hop-by-hop headers and none of those that the [Connection] header
    nominates, and every other header as it came. *)
Theorem rewrite_headers_exact `{HttpLaws} headers token h (Hok : rewrite_headers headers token = Ok h) n :
  hm_get_all n h =
    if decide (n = "authorization") then ["Bearer " +:+ token]
    else if decide (n = "host") then ["edge-agent"]
    else if decide (n ∈ hop_by_hop_headers \/ n ∈ connection_nominated_headers headers) then []
    else hm_get_all n headers.
Proof. by apply rewrite_headers_forwards. Qed.

Lemma gateway_auth_spec `{HttpLaws} headers token :
  require_gateway_auth headers (Some token) = Ok tt <->
  exists value, head (hm_get_all "authorization" headers) = Some value /\
    value_to_str value = Some ("Bearer " +:+ token).
Proof.
  unfold require_gateway_auth. destruct (head _) as [value|]; [|split; [done|by intros (? & ? & ?)]].
  cbn [mbind option_bind]. destruct (value_to_str value) as [s|] eqn:Ev; [|split; [done|intros (? & [= <-] & ?); congruence]].
  cbn [mbind option_bind]. destruct (strip_prefix "Bearer " s) as [actual|] eqn:E.
  - apply strip_prefix_Some in E as ->. change (constant_time_eq actual token) with (Api.constant_time_eq actual token).
    destruct (Api.constant_time_eq actual token) eqn:Ec.
    + apply constant_time_eq_spec in Ec as ->. split; [intros _; exists value; by rewrite Ev|done].
    + split; [done|]. intros (? & [= <-] & Hs). rewrite Ev in Hs. injection Hs as Hs.
      apply not_true_iff_false in Ec. destruct Ec. apply constant_time_eq_spec. exact Hs.
  - split; [done|]. intros (? & [= <-] & Hs). rewrite Ev in Hs. injection Hs as ->. by rewrite (proj2 (strip_prefix_Some _ _ token) eq_refl) in E.
Qed.

Lemma gateway_auth_error `{HttpLib} headers token e :
  require_gateway_auth headers token = Err e -> e = gw_unauthorized.
Proof. unfold require_gateway_auth. destruct token; [|done]. repeat case_match; congruence. Qed.

(** C16: the proxy reaches the agent at most once per request, and only with the
    token of the gateway when one is set; what it sends has the method and the
    body of the request, at most a megabyte, the path without [/api], and the
    rewritten headers. *)
Theorem proxy_forwards `{HttpLaws} `{Env} state path request w :
  exists effs, w_log (proxy state path request w).2 = w_log w ++ effs /\
    (effs = [] \/ exists r rep body, effs = [EHttp r rep] /\
      (forall token, st_gateway_token state = Some token -> exists value,
        head (hm_get_all "authorization" (pr_headers request)) = Some value /\
        value_to_str value = Some ("Bearer " +:+ token)) /\
      pr_body request = Ok body /\ (String.length body <= MAX_PROXY_BODY_BYTES)%nat /\
      sent state (pr_method request) (strip_api_prefix (default "/" (pr_path_and_query request)) path)
        (pr_headers request) body r).
Proof.
  unfold proxy. destruct (require_gateway_auth _ _) as [[]|e] eqn:Ea.
  2: { rewrite (lift_stop e) by done. exists []. rewrite List.app_nil_r. auto. }
  rewrite (lift_step tt) by done. destruct (body_to_bytes _ _) as [body|e] eqn:Eb.
  2: { rewrite (lift_stop (gw_bad_gateway e)) by done. exists []. rewrite List.app_nil_r. auto. }
  rewrite (lift_step body) by done. apply body_to_bytes_Ok in Eb as [Hb Hlen].
  destruct (send_raw_sends state (pr_method request)
    (strip_api_prefix (default "/" (pr_path_and_query request)) path) (pr_headers request) body w)
    as (effs & Hl & He).
  exists effs. split.
  - rewrite <- Hl. unfold mbind, io_bind. by destruct (send_raw _ _ _ _ _ w) as [[[[]]| |]].
  - destruct He as [[-> _]|(r & rep & -> & Hs)]; [by left|]. right. exists r, rep, body. split_and!; try done.
    intros token Ht. rewrite Ht in Ea. by apply gateway_auth_spec.
Qed.

(** What the agent finds in the [Authorization] header of a request. *)
Definition authorization_of `{HttpLib} (lines : list (string * string)) : option string :=
  value ← head (snd <$> filter (fun l => l.1 = "authorization") lines);
  value_to_str value.

(** C17: every request that the gateway sends passes the check of an agent that
    has the same token, whatever headers the client sent. *)
Theorem sent_requests_authorised `{HttpLaws} `{Env} state token config method path headers body w
    (Hs : st_api_token state = Some token) (Hc : api_token config = Some token)
    (Hv : visible ("Bearer " +:+ token) = true) :
  exists effs, w_log (send_raw state method path headers body w).2 = w_log w ++ effs /\
    forall r rep, EHttp r rep ∈ effs -> require_auth config (authorization_of (rq_headers r)) = Ok tt.
Proof.
  destruct (send_raw_sends state method path headers body w) as (effs & Hl & He). exists effs. split; [done|].
  intros r rep Hin. destruct He as [[-> _]|(r' & rep' & -> & Hsent)]; [by apply not_elem_of_nil in Hin|].
  apply list_elem_of_singleton in Hin as [= <- <-]. destruct (sent_headers _ _ _ _ _ _ Hsent) as (token' & Ht & Hh).
  rewrite Ht in Hs. injection Hs as ->. specialize (Hh "authorization"). unfold forwarded in Hh.
  rewrite decide_True in Hh by done. rewrite require_auth_spec, Hc. unfold authorization_of. rewrite Hh.
  cbn [head mbind option_bind].
  rewrite value_to_str_visible by exact Hv. by rewrite decide_True.
Qed.

(** ** A library that satisfies the laws *)

Definition http_model : HttpLib := {|
  HeaderMap := list (string * string);
  hm_new := [];
  hm_get_all n h := snd <$> filter (fun l => l.1 = n) h;
  hm_insert n v h := filter (fun l => l.1 <> n) h ++ [(n, v)];
  hm_append n v h := h ++ [(n, v)];
  hm_remove n h := filter (fun l => l.1 <> n) h;
  hm_lines h := h;
  header_name s :=
    if negb (is_empty s) && all_bytes (fun c => is_ascii_alphanumeric c || Ascii.eqb c "-") s
    then Some (to_ascii_lowercase s) else None;
  header_value s := if visible s then Ok s else Err "failed to parse header value";
  value_to_str s := if visible s then Some s else None;
  parse_uri s := if all_bytes (within 33 126) s then Ok s else Err "invalid uri character";
  body_to_bytes n body :=
    b ← body; if bool_decide (String.length b <= n)%nat then Ok b else Err "length limit exceeded";
|}.

Lemma filter_kept n m (h : list (string * string)) :
  n <> m -> filter (fun l => l.1 = n) (filter (fun l => l.1 <> m) h) = filter (fun l => l.1 = n) h.
Proof.
  intros Hne. induction h as [|[k v] h IH]; [done|]. rewrite !filter_cons. cbn [fst].
  destruct (decide (k = n)) as [->|]; [|by destruct (decide (k <> m)); rewrite ?filter_cons_False].
  rewrite decide_True by done. by rewrite filter_cons_True, IH.
Qed.
Lemma filter_gone n (h : list (string * string)) :
  filter (fun l => l.1 = n) (filter (fun l => l.1 <> n) h) = [].
Proof.
  induction h as [|[k v] h IH]; [done|]. rewrite filter_cons. cbn [fst].
  destruct (decide (k <> n)); [by rewrite filter_cons_False|done].
Qed.
Lemma filter_one n m (v : string) :
  filter (fun l : string * string => l.1 = n) [(m, v)] = if decide (n = m) then [(m, v)] else [].
Proof. rewrite filter_cons. cbn [fst]. by destruct (decide (m = n)), (decide (n = m)). Qed.

Lemma http_model_laws : @HttpLaws http_model.
Proof.
  constructor; cbn -[filter].
  - done.
  - intros n m v h. rewrite filter_app, fmap_app, filter_one. case_decide as Hd; [subst; by rewrite filter_gone|].
    by rewrite filter_kept, List.app_nil_r.
  - intros n m v h. rewrite filter_app, fmap_app, filter_one. by case_decide.
  - intros n m h. case_decide as Hd; [subst; by rewrite filter_gone|by rewrite filter_kept].
  - done.
  - intros s v. case_match; congruence.
  - intros v s. case_match; congruence.
  - intros s Hs. by rewrite Hs.
  - intros s Hs. by rewrite Hs.
  - intros s u. case_match; congruence.
  - intros n [b|e] c; cbn; [|naive_solver]. case_bool_decide; split; [|intros [? ?]|..]; naive_solver.
Qed.

(** ** Witnesses *)

#[local] Existing Instance http_model.
#[local] Existing Instance quiet_env.

Definition sample_headers : list (string * string) :=
  [("host", "edge.example"); ("authorization", "Bearer gateway-token"); ("connection", "upgrade, X-Remove-Me");
   ("x-remove-me", "1"); ("transfer-encoding", "chunked"); ("accept", "text/html")].

Lemma rewrite_headers_exact_witness :
  exists h, rewrite_headers sample_headers "upstream" = Ok h /\
    hm_get_all "authorization" h = ["Bearer upstream"] /\ hm_get_all "x-remove-me" h = [] /\
    hm_get_all "accept" h = ["text/html"].
Proof.
  eexists. split; [vm_compute; reflexivity|].
  split_and!; rewrite (rewrite_headers_exact (H0 := http_model_laws) sample_headers "upstream") by (vm_compute; reflexivity);
    vm_compute; reflexivity.
Defined.

Lemma proxy_forwards_witness :
  let state := mkAppState "/run/agent.sock" (Some "gateway-token") (Some "upstream") in
  let request := mkProxyRequest "GET" (Some "/api/v1/status?full=true") sample_headers (Ok "") in
  exists r rep, w_log (proxy state "v1/status" request sample_world).2 = [EHttp r rep] /\
    rq_uri r = "http://edge-agent/v1/status?full=true".
Proof.
  cbn zeta. set (state := mkAppState _ _ _). set (request := mkProxyRequest _ _ _ _).
  destruct (proxy_forwards (H0 := http_model_laws) state "v1/status" request sample_world)
    as (effs & Hl & [->|(r & rep & body & -> & _ & _ & _ & Hs)]); [vm_compute in Hl; discriminate Hl|].
  exists r, rep. split; [exact Hl|]. by rewrite (sent_uri _ _ _ _ _ _ Hs).
Defined.

Lemma sent_requests_authorised_witness :
  let state := mkAppState "/run/agent.sock" None (Some "upstream") in
  let config := mkConfig "ens3" "wt0" [] None None None [] None InstancePrincipal (Some "upstream") in
  exists r rep, EHttp r rep ∈ w_log (send_raw state "GET" "/v1/status" sample_headers "" sample_world).2 /\
    require_auth config (authorization_of (rq_headers r)) = Ok tt.
Proof.
  cbn zeta. destruct (sent_requests_authorised (H0 := http_model_laws)
    (mkAppState "/run/agent.sock" None (Some "upstream")) "upstream"
    (mkConfig "ens3" "wt0" [] None None None [] None InstancePrincipal (Some "upstream"))
    "GET" "/v1/status" sample_headers "" sample_world) as (effs & Hl & Ha); [done..|].
  vm_compute in Hl. subst effs. eexists _, _. split; [vm_compute; by left|]. eapply Ha. by left.
Defined.
