(* ===== verification/Ui.v ===== *)
(** [edge-gateway/src/ui.rs]: what the pages send to the agent and show of its
    answers, and the diagnostic tools. The HTML around the data is in [Html]. *)
From Stdlib Require Import Ascii.
From S2P Require Import Prelude Str Utf8 BTree Net Net6 Core State Sql World Store Nft Json Oci Netbird Api Wire Gateway.
Local Open Scope Z_scope.

(** ** Fields of forms *)

Definition clean_opt (value : option string) : option string :=
  value ← value;
  let value := trim value in
  if is_empty value then None else Some value.

(** [str::parse::<u16>] *)
Fixpoint u16_loop (n : Z) (l : list ascii) : Result string Z :=
  match l with
  | [] => Ok n
  | c :: l =>
      if is_ascii_digit c then
        let n := 10 * n + (byte_of c - 48) in
        if n <? 65536 then u16_loop n l else Err "number too large to fit in target type"
      else Err "invalid digit found in string"
  end.
Definition parse_u16 (s : string) : Result string Z :=
  match chars s with
  | [] => Err "cannot parse integer from empty string"
  | ["+"%char] | ["-"%char] => Err "invalid digit found in string"
  | "+"%char :: l => u16_loop 0 l
  | l => u16_loop 0 l
  end.
Definition clean_port (value : option string) : Result GatewayError (option Z) :=
  transpose_map (fun v => map_err gw_bad_gateway (parse_u16 v)) (clean_opt value).

Definition with_query (path key : string) (value : option string) : string :=
  match value with Some v => path +:+ "?" +:+ key +:+ "=" +:+ v | None => path end.

Definition join_or_dash (values : list string) : string :=
  match values with [] => "-" | _ => join ", " values end.

(** ** Forms and the bodies made of them *)

Record CreateMappingForm := mkCreateForm {
  cf_name : string;
  cf_public_ip : option string;
  cf_edge_private_ip : string;
  cf_target_ip : string;
  cf_public_port : option string;
  cf_target_port : option string;
  cf_mode : string;
  cf_protocol : string;
  cf_backend : string;
}.
Definition create_body (form : CreateMappingForm) : Result GatewayError Json :=
  public_port ← clean_port (cf_public_port form);
  target_port ← clean_port (cf_target_port form);
  Ok (json_object [("name", JStr (cf_name form)); ("public_ip", opt_json JStr (clean_opt (cf_public_ip form)));
    ("edge_private_ip", JStr (trim (cf_edge_private_ip form))); ("target_ip", JStr (trim (cf_target_ip form)));
    ("public_port", opt_json JNum public_port); ("target_port", opt_json JNum target_port);
    ("mode", JStr (cf_mode form)); ("protocol", JStr (cf_protocol form)); ("backend", JStr (cf_backend form))]).

(** Check boxes: present when ticked. *)
Record ReconcileForm := mkReconcileForm {
  rf_dry_run : option string;
  rf_skip_linux : option string;
  rf_skip_nft : option string;
  rf_include_config : option string;
  rf_enable_xdp : option string;
  rf_xdp_interface : option string;
  rf_xdp_pin_path : option string;
}.
Definition ticked (o : option string) : bool := bool_decide (is_Some o).
Definition reconcile_body (form : ReconcileForm) : Json :=
  json_object [("dry_run", JBool (ticked (rf_dry_run form))); ("skip_linux", JBool (ticked (rf_skip_linux form)));
    ("skip_nft", JBool (ticked (rf_skip_nft form))); ("include_config", JBool (ticked (rf_include_config form)));
    ("enable_xdp", JBool (ticked (rf_enable_xdp form)));
    ("xdp_interface", opt_json JStr
      (v ← rf_xdp_interface form; if is_empty (trim v) then None else Some v));
    ("xdp_pin_path", opt_json JStr (v ← rf_xdp_pin_path form; clean_opt (Some v)))].
Definition reconcile_check_body : Json :=
  json_object [("dry_run", JBool true); ("skip_linux", JBool true); ("skip_nft", JBool true);
    ("include_config", JBool true); ("enable_xdp", JBool true)].

Record OracleAllocateForm := mkAllocateForm {
  af_mapping_id : string;
  af_compartment_id : option string;
  af_vnic_id : option string;
  af_display_name : option string;
  af_confirm : string;
}.
Definition allocate_body (form : OracleAllocateForm) : Json :=
  json_object [("mapping_id", JStr (trim (af_mapping_id form)));
    ("compartment_id", opt_json JStr (clean_opt (af_compartment_id form)));
    ("vnic_id", opt_json JStr (clean_opt (af_vnic_id form)));
    ("display_name", opt_json JStr (clean_opt (af_display_name form))); ("confirm", JStr (af_confirm form))].

Record OracleReleaseForm := mkReleaseForm {
  lf_mapping_id : option string;
  lf_public_ip_id : option string;
  lf_private_ip_id : option string;
  lf_confirm : string;
}.
Definition release_body (form : OracleReleaseForm) : Json :=
  json_object [("mapping_id", opt_json JStr (clean_opt (lf_mapping_id form)));
    ("public_ip_id", opt_json JStr (clean_opt (lf_public_ip_id form)));
    ("private_ip_id", opt_json JStr (clean_opt (lf_private_ip_id form))); ("confirm", JStr (lf_confirm form))].

Record OracleNsgAddForm := mkNsgAddForm {
  gf_nsg_id : option string;
  gf_protocol : string;
  gf_source : string;
  gf_port_min : option string;
  gf_port_max : option string;
  gf_description : option string;
  gf_confirm : string;
}.
Definition nsg_add_body (form : OracleNsgAddForm) : Result GatewayError Json :=
  port_min ← clean_port (gf_port_min form);
  port_max ← clean_port (gf_port_max form);
  Ok (json_object [("nsg_id", opt_json JStr (clean_opt (gf_nsg_id form))); ("protocol", JStr (gf_protocol form));
    ("source", JStr (trim (gf_source form))); ("port_min", opt_json JNum port_min);
    ("port_max", opt_json JNum port_max); ("description", opt_json JStr (clean_opt (gf_description form)));
    ("confirm", JStr (gf_confirm form))]).

Record OracleNsgRemoveForm := mkNsgRemoveForm {
  xf_nsg_id : option string;
  xf_rule_ids : string;
  xf_confirm : string;
}.
(** [split([',', '\n', ' '])] *)
Definition split_ids (s : string) : list string :=
  mjoin ((fun part => mjoin ((fun line => split " "%char line) <$> split "010"%char part)) <$> split ","%char s).
Definition form_rule_ids (s : string) : list string :=
  filter (fun i => is_empty i = false) (trim <$> split_ids s).
Definition nsg_remove_body (form : OracleNsgRemoveForm) : Json :=
  json_object [("nsg_id", opt_json JStr (clean_opt (xf_nsg_id form)));
    ("rule_ids", strings_json (form_rule_ids (xf_rule_ids form))); ("confirm", JStr (xf_confirm form))].

(** ** Packet captures *)

Definition interface_char (c : ascii) : bool :=
  is_ascii_alphanumeric c || existsb (Ascii.eqb c) [".";"_";"-";":"]%char.
Definition clean_interface (value : string) : Result GatewayError string :=
  let value := trim value in
  if is_empty value || (32 <? String.length value)%nat || negb (all_bytes interface_char value)
  then Err (gw_bad_gateway "invalid tcpdump interface") else Ok value.

Definition unsafe_token (part : string) : bool :=
  starts_with "-" part || contains ";" part || contains "|" part || contains "&" part.
Definition clean_tcpdump_filter (value : option string) : Result GatewayError (list string) :=
  match v ← value; let v := trim v in if is_empty v then None else Some v with
  | None => Ok []
  | Some value =>
      if (240 <? String.length value)%nat then Err (gw_bad_gateway "tcpdump filter is too long")
      else
        let parts := trim <$> split_whitespace value in
        if existsb unsafe_token parts then Err (gw_bad_gateway "tcpdump filter contains unsafe tokens")
        else Ok parts
  end.

Definition capture_packets (packets : option Z) : Z := Z.min 200 (Z.max 1 (default 25 packets)).
Definition tcpdump_args (interface : string) (packets : Z) (filter : list string) : list string :=
  ["-i"; interface; "-nn"; "-tttt"; "-vv"; "-c"; show_Z packets] ++ filter.

(** [str::matches(pattern).count()]: occurrences that do not overlap. *)
Fixpoint count_matches (pattern : list ascii) (skip : nat) (l : list ascii) : nat :=
  match l with
  | [] => 0
  | _ :: r =>
      match skip with
      | S skip => count_matches pattern skip r
      | O =>
          match strip_list pattern l with
          | Some _ => S (count_matches pattern (length pattern - 1) r)
          | None => count_matches pattern 0 r
          end
      end
  end%nat.
Definition occurrences (pattern s : string) : nat := count_matches (chars pattern) 0 (chars s).

Definition section_text (title text : string) : string :=
  if is_empty (trim text) then "" else newline +:+ title +:+ ":" +:+ newline +:+ trim text +:+ newline.
Definition show_nat (n : nat) : string := show_Z (Z.of_nat n).
Definition tcpdump_report (stdout stderr : string) (requested_packets : Z) (filter_words : list string) : string :=
  let packet_lines := length (filter (fun line => is_empty (trim line) = false) (lines stdout)) in
  let tcp := (occurrences " TCP " stdout + occurrences " Flags " stdout)%nat in
  let udp := occurrences " UDP" stdout in
  let icmp := occurrences " ICMP" stdout in
  let arp := occurrences " ARP" stdout in
  concat_str
    ["Requested packets: "; show_Z requested_packets; newline;
     "Captured lines: "; show_nat packet_lines; newline;
     "Filter: "; match filter_words with [] => "(none)" | _ => join " " filter_words end; newline; newline;
     "Protocol hints:"; newline;
     "  tcp: "; show_nat tcp; newline; "  udp: "; show_nat udp; newline;
     "  icmp: "; show_nat icmp; newline; "  arp: "; show_nat arp; newline;
     section_text "Tcpdump status" stderr; section_text "Packets" stdout].

(** ** Pages: the data that the templates show *)

Record ToolResult := mkToolResult { tool_title : string; tool_ok : bool; tool_body : string }.
Record OracleResult := mkOracleResult { or_title : string; or_ok : bool; or_body : string }.

Inductive Page :=
  | PDashboard (status : StatusResponse) (mappings : list Mapping) (events : list Event)
      (netbird : option NetbirdStatus) (networks : list string) (statuses backends : list (string * nat))
      (healthy unhealthy : nat) (alerts : list string)
  | PMappings (mappings : list Mapping) (topology : option TopologyResponse)
  | PReconcile (report : option ReconcileResponse) (ruleset : option string)
  | PTopology (topology : TopologyResponse)
  | POracle (oci : OciStatusView) (mappings : list Mapping) (needs_api_key : bool)
      (compartment vnic nsg : string) (allocatable allocated : list Mapping) (result : option OracleResult)
  | PTools (status : StatusResponse) (mappings : list Mapping) (networks : list string)
      (result : option ToolResult) (active_tab : string)
  | PNetbird (status : NetbirdStatus) (networks : list string) (healthy disconnected : nat)
      (peer_states : list (string * nat))
  | PEvents (events : list Event) (level_counts : list (string * nat))
  | PError (message : string).

Definition count_if (f : Peer -> bool) (l : list Peer) : nat := length (filter (fun p => f p = true) l).
Definition peer_state (p : Peer) : string := to_ascii_lowercase (default "unknown" (peer_status p)).

(** The alerts of the dashboard. *)
Definition alerts (mappings : list Mapping) (events : list Event) (netbird : option NetbirdStatus) : list string :=
  let unhealthy := match netbird with
    | Some s => count_if (fun p => negb (is_healthy p)) (peers_details (nb_peers s))
    | None => 0%nat
    end in
  let bad := length (filter (fun m : Mapping => wire (Core.status m) ∈ ["degraded"; "error"]) mappings) in
  (if (0 <? bad)%nat then [show_nat bad +:+ " mapping(s) degraded or failed"] else []) ++
  (if existsb (fun e : Event => bool_decide (wire (e_level e) ∈ ["warn"; "error"])) events
   then ["warning/error events recorded"] else []) ++
  (if (0 <? unhealthy)%nat then [show_nat unhealthy +:+ " NetBird peer(s) disconnected"] else []) ++
  match netbird with
  | None => ["NetBird status is unavailable"]
  | Some s =>
      (if daemon_connected s then [] else ["NetBird daemon is not connected"]) ++
      (if service_connected (nb_management s) && service_connected (nb_signal s) then []
       else ["NetBird control service is disconnected"])
  end.

Section pages.
Context `{StoreLib} `{JsonLib} `{HttpLib} `{Env} (state : AppState).

(** [.await.unwrap_or_default()] and [.await.ok()] *)
Definition or_default {A} (a : A) (m : IO GatewayError A) : IO GatewayError A :=
  r ← io_try m; mret (default a (result_ok r)).
Definition or_none {A} (m : IO GatewayError A) : IO GatewayError (option A) :=
  r ← io_try m; mret (result_ok r).

Definition get_mappings : IO GatewayError (list Mapping) := get_json state (as_list decode_mapping) "/v1/mappings".
Definition get_events : IO GatewayError (list Event) := get_json state (as_list decode_event) "/v1/events".
Definition get_networks : IO GatewayError (list string) := get_json state (as_list as_string) "/v1/netbird/networks".
Definition get_status : IO GatewayError StatusResponse := get_json state decode_status_response "/v1/status".
Definition get_netbird : IO GatewayError NetbirdStatus := get_json state decode_status "/v1/netbird/status".
Definition get_topology : IO GatewayError TopologyResponse := get_json state decode_topology "/v1/topology".

Definition dashboard_markup : IO GatewayError Page :=
  status ← get_status;
  mappings ← or_default [] get_mappings;
  events ← or_default [] get_events;
  netbird ← or_none get_netbird;
  networks ← or_default [] get_networks;
  let peers := default [] ((peers_details ∘ nb_peers) <$> netbird) in
  mret (PDashboard status mappings events netbird networks
    (count_by ((fun m : Mapping => wire (Core.status m)) <$> mappings))
    (count_by ((fun m : Mapping => wire (backend m)) <$> mappings))
    (count_if is_healthy peers) (count_if (fun p => negb (is_healthy p)) peers)
    (alerts mappings events netbird)).

Definition mappings_markup : IO GatewayError Page :=
  mappings ← get_mappings;
  topology ← or_none get_topology;
  mret (PMappings mappings topology).

Definition reconcile_markup (report : option ReconcileResponse) (ruleset : option string) : IO GatewayError Page :=
  mret (PReconcile report ruleset).

Definition topology_markup : IO GatewayError Page :=
  topology ← get_topology;
  mret (PTopology topology).

Definition oracle_markup (result : option OracleResult) : IO GatewayError Page :=
  oci ← get_json state decode_oci_status "/v1/oci/status";
  mappings ← or_default [] get_mappings;
  mret (POracle oci mappings (bool_decide (ov_auth_mode oci = "api_key") && negb (ov_api_key_env_ready oci))
    (default "" (ov_compartment_id oci)) (default "" (ov_vnic_id oci)) (default "" (head (ov_nsg_ids oci)))
    (filter (fun m => public_ip m = None /\ oci_public_ip_ocid m = None) mappings)
    (filter (fun m => is_Some (oci_public_ip_ocid m)) mappings) result).

Definition tools_markup (result : option ToolResult) (active_tab : string) : IO GatewayError Page :=
  status ← get_status;
  mappings ← or_default [] get_mappings;
  networks ← or_default [] get_networks;
  mret (PTools status mappings networks result active_tab).

Definition netbird_markup : IO GatewayError Page :=
  status ← get_netbird;
  networks ← or_default [] get_networks;
  let peers := peers_details (nb_peers status) in
  mret (PNetbird status networks (count_if is_healthy peers) (count_if (fun p => negb (is_healthy p)) peers)
    (count_by (peer_state <$> peers))).

Definition events_markup : IO GatewayError Page :=
  events ← get_events;
  mret (PEvents events (count_by ((fun e : Event => wire (e_level e)) <$> events))).

(** Errors become a page. *)
Definition render_result (m : IO GatewayError Page) : IO GatewayError Page :=
  r ← io_try m;
  mret match r with Ok p => p | Err e => PError (ge_message e) end.

(** ** Handlers *)

Definition create_mapping (form : CreateMappingForm) : IO GatewayError Page := render_result (
  body ← lift (create_body form);
  post_json state decode_mapping "/v1/mappings" body ;;
  mappings_markup).
Definition enable_mapping (i : string) : IO GatewayError Page := render_result (
  post_empty_json state decode_mapping ("/v1/mappings/" +:+ i +:+ "/enable") ;;
  mappings_markup).
Definition disable_mapping (i : string) : IO GatewayError Page := render_result (
  post_empty_json state decode_mapping ("/v1/mappings/" +:+ i +:+ "/disable") ;;
  mappings_markup).
Definition delete_mapping (i : string) : IO GatewayError Page := render_result (
  delete_json state decode_mapping ("/v1/mappings/" +:+ i) ;;
  mappings_markup).

Definition run_reconcile (form : ReconcileForm) : IO GatewayError Page := render_result (
  report ← post_json state decode_reconcile_response "/v1/reconcile" (reconcile_body form);
  reconcile_markup (Some report) None).
Definition dry_run_ruleset : IO GatewayError Page := render_result (
  rules ← post_text state "/v1/apply/dry-run";
  reconcile_markup None (Some rules)).

(** [serde_json::to_string_pretty], and [Display] of a value. *)
Context (pretty : Json -> Result string string) (compact : Json -> string).

Definition action_result (title : string) (result : Result GatewayError Json) : OracleResult :=
  match result with
  | Ok value =>
      mkOracleResult title true match pretty value with Ok body => body | Err _ => compact value end
  | Err e => mkOracleResult title false (ge_message e)
  end.
Definition oracle_action (title : string) (m : IO GatewayError Json) : IO GatewayError Page :=
  result ← io_try m;
  oracle_markup (Some (action_result title result)).

Definition oracle_allocate (form : OracleAllocateForm) : IO GatewayError Page := render_result (
  oracle_action "Allocate" (post_json state Some "/v1/oci/allocate" (allocate_body form))).
Definition oracle_release (form : OracleReleaseForm) : IO GatewayError Page := render_result (
  oracle_action "Release" (post_json state Some "/v1/oci/release" (release_body form))).
Definition oracle_vnic_check (vnic : option string) : IO GatewayError Page := render_result (
  oracle_action "VNIC Check" (get_json state Some (with_query "/v1/oci/vnic/check" "vnic_id" (clean_opt vnic)))).
Definition oracle_public_ips (compartment : option string) : IO GatewayError Page := render_result (
  oracle_action "Public IPs"
    (get_json state Some (with_query "/v1/oci/public-ips" "compartment_id" (clean_opt compartment)))).
Definition oracle_nsg_add (form : OracleNsgAddForm) : IO GatewayError Page := render_result (
  body ← lift (nsg_add_body form);
  oracle_action "NSG Add Rule" (post_json state Some "/v1/oci/nsg/add" body)).
Definition oracle_nsg_remove (form : OracleNsgRemoveForm) : IO GatewayError Page := render_result (
  oracle_action "NSG Remove Rule" (post_json state Some "/v1/oci/nsg/remove" (nsg_remove_body form))).

(** ** Tools *)

Definition tools_dry_run : IO GatewayError Page := render_result (
  rules ← post_text state "/v1/apply/dry-run";
  tools_markup (Some (mkToolResult "Ruleset Dry Run" true rules)) "validation").
Definition tools_reconcile_check : IO GatewayError Page := render_result (
  report ← post_json state decode_reconcile_response "/v1/reconcile" reconcile_check_body;
  body ← lift (map_err gw_internal (pretty (reconcile_response_json report)));
  tools_markup (Some (mkToolResult "Reconcile Validation" true body)) "validation").

(** A process with a limit of time. *)
Definition tool_command (program : string) (args : list string) (timed_out : string)
    : IO GatewayError CommandOutput :=
  reply ← run_command program args;
  match reply with
  | CmdTimedOut => io_fail (gw_bad_gateway timed_out)
  | CmdIo m => io_fail (gw_bad_gateway m)
  | CmdDone o => mret o
  end.

Definition ping_tool (target : string) : IO GatewayError Page := render_result (
  let target := trim target in
  lift (ok_or (parse_ip_addr target) (gw_bad_gateway "ping target must be an IPv4 or IPv6 address")) ;;
  output ← tool_command "ping" ["-c"; "3"; "-W"; "2"; target] "ping timed out";
  tools_markup (Some (mkToolResult "Ping Result" (is_success output) (co_stdout output +:+ co_stderr output)))
    "reachability").

(** [port] is a [u16]; the clock is read before and after. *)
Definition port_test_tool (target : string) (port : Z) : IO GatewayError Page := render_result (
  let target := trim target in
  ip ← lift (ok_or (parse_ip_addr target) (gw_bad_gateway "port test target must be an IPv4 or IPv6 address"));
  if port =? 0 then io_fail (gw_bad_gateway "port must be between 1 and 65535")
  else
    started ← now_utc;
    reply ← tcp_connect ip port;
    now ← now_utc;
    let elapsed := show_Z (Z.max 0 (now - started) / 1000000) in
    let to := "TCP connect to " +:+ show_ip_addr ip +:+ ":" +:+ show_Z port in
    let result := match reply with
      | TcpConnected => mkToolResult "Port Test Result" true (to +:+ " succeeded in " +:+ elapsed +:+ " ms")
      | TcpRefused e =>
          mkToolResult "Port Test Result" false (to +:+ " failed after " +:+ elapsed +:+ " ms" +:+ newline +:+ e)
      | TcpTimedOut => mkToolResult "Port Test Result" false (to +:+ " timed out after 5000 ms")
      end in
    tools_markup (Some result) "reachability").

Definition tcpdump_tool (interface : string) (filter : option string) (packets : option Z)
    : IO GatewayError Page := render_result (
  interface ← lift (clean_interface interface);
  let packets := capture_packets packets in
  filter ← lift (clean_tcpdump_filter filter);
  output ← tool_command "tcpdump" (tcpdump_args interface packets filter) "tcpdump capture timed out";
  tools_markup (Some (mkToolResult "TCP Dump Analysis" (is_success output)
    (tcpdump_report (co_stdout output) (co_stderr output) packets filter))) "capture").

(** ** Logs *)

(** [civil] is the date and the time of day of a moment, from [time]. *)
Context (civil : Time -> Z * Z * Z * (Z * Z * Z)).

Definition pad_left (c : string) (n : nat) (s : string) : string :=
  concat_str (repeat c (n - String.length s)) +:+ s.
Definition show_time (t : Time) : string :=
  let '(y, mo, d, (h, mi, s)) := civil t in
  let two z := pad_left "0" 2 (show_Z z) in
  pad_left "0" 4 (show_Z y) +:+ "-" +:+ two mo +:+ "-" +:+ two d +:+ " " +:+
  two h +:+ ":" +:+ two mi +:+ ":" +:+ two s +:+ "Z".
Definition log_line (e : Event) : string :=
  let level := wire (e_level e) in
  let data := match e_data e with
    | Some v => if is_empty (trim v) then "" else " " +:+ v
    | None => ""
    end in
  show_time (e_created_at e) +:+ " " +:+ level +:+ concat_str (repeat " " (5 - String.length level)) +:+ " " +:+
  e_message e +:+ data.
Definition raw_log_lines (events : list Event) : string := join newline (log_line <$> events) +:+ newline.

Definition download_logs : IO GatewayError string :=
  events ← get_events;
  mret (raw_log_lines events).

(** ** Routes *)

Inductive UiCall :=
  | UDashboard | UMappings | UCreate (form : CreateMappingForm) | UEnable (i : string) | UDisable (i : string)
  | UDelete (i : string) | UReconcile | URunReconcile (form : ReconcileForm) | UDryRun | UTools
  | UPing (target : string) | UPortTest (target : string) (port : Z)
  | UTcpdump (interface : string) (filter : option string) (packets : option Z)
  | UToolsDryRun | UToolsCheck | UTopology | UOracle | UAllocate (form : OracleAllocateForm)
  | URelease (form : OracleReleaseForm) | UVnicCheck (vnic : option string)
  | UPublicIps (compartment : option string) | UNsgAdd (form : OracleNsgAddForm)
  | UNsgRemove (form : OracleNsgRemoveForm) | UNetbird | UEvents.

Definition ui (c : UiCall) : IO GatewayError Page :=
  match c with
  | UDashboard => render_result dashboard_markup
  | UMappings => render_result mappings_markup
  | UCreate form => create_mapping form
  | UEnable i => enable_mapping i
  | UDisable i => disable_mapping i
  | UDelete i => delete_mapping i
  | UReconcile => render_result (reconcile_markup None None)
  | URunReconcile form => run_reconcile form
  | UDryRun => dry_run_ruleset
  | UTools => render_result (tools_markup None "validation")
  | UPing target => ping_tool target
  | UPortTest target port => port_test_tool target port
  | UTcpdump interface filter packets => tcpdump_tool interface filter packets
  | UToolsDryRun => tools_dry_run
  | UToolsCheck => tools_reconcile_check
  | UTopology => render_result topology_markup
  | UOracle => render_result (oracle_markup None)
  | UAllocate form => oracle_allocate form
  | URelease form => oracle_release form
  | UVnicCheck vnic => oracle_vnic_check vnic
  | UPublicIps compartment => oracle_public_ips compartment
  | UNsgAdd form => oracle_nsg_add form
  | UNsgRemove form => oracle_nsg_remove form
  | UNetbird => render_result netbird_markup
  | UEvents => render_result events_markup
  end.
End pages.

(** ** Numbers *)

Lemma u16_loop_range l : forall n z, 0 <= n < 65536 -> u16_loop n l = Ok z -> u16_ok z.
Proof.
  induction l as [|c l IH]; intros n z Hn; cbn [u16_loop]; [by intros [= <-]|].
  destruct (is_ascii_digit c) eqn:Ed; [|done]. destruct (Z.ltb_spec (10 * n + (byte_of c - 48)) 65536); [|done].
  apply IH. split; [|done]. unfold is_ascii_digit in Ed. unfold byte_of.
  apply andb_true_iff in Ed as [?%N.leb_le _]. lia.
Qed.

Lemma parse_u16_range s z : parse_u16 s = Ok z -> u16_ok z.
Proof.
  unfold parse_u16. intros Hs. assert (Hgo : exists l, u16_loop 0 l = Ok z) by (repeat case_match; simplify_eq; eauto).
  destruct Hgo as [l Hl]. by apply (u16_loop_range l 0).
Qed.

(** [f] holds from [z] on, [n] times. *)
Fixpoint all_from (f : Z -> bool) (n : nat) (z : Z) : bool :=
  match n with O => true | S n => f z && all_from f n (z + 1) end.
Lemma all_from_spec f n : forall z, all_from f n z = true -> forall x, z <= x < z + Z.of_nat n -> f x = true.
Proof.
  induction n as [|n IH]; intros z; cbn [all_from]; [lia|]. intros [Hz Hall]%andb_true_iff x Hx.
  destruct (decide (x = z)) as [->|]; [done|]. apply (IH (z + 1)); [done|lia].
Qed.

Definition reads_back (z : Z) : bool := match parse_u16 (show_Z z) with Ok z' => z' =? z | Err _ => false end.
Lemma u16_texts : all_from reads_back (Z.to_nat 65536) 0 = true.
Proof. vm_compute. reflexivity. Qed.

Lemma parse_show_u16 z : u16_ok z -> parse_u16 (show_Z z) = Ok z.
Proof.
  intros Hz. pose proof (all_from_spec _ _ _ u16_texts z) as Hr. rewrite Z2Nat.id in Hr by lia.
  specialize (Hr Hz). unfold reads_back in Hr. destruct (parse_u16 (show_Z z)); [|done].
  by apply Z.eqb_eq in Hr as ->.
Qed.

Lemma clean_port_range value p : clean_port value = Ok p -> opt_all u16_ok p.
Proof.
  unfold clean_port. intros Hp%transpose_map_Ok. destruct (clean_opt value) as [s|]; [|by subst].
  destruct Hp as (z & Hz & ->). destruct (parse_u16 s) as [z'|] eqn:E; [|done]. injection Hz as <-.
  by apply parse_u16_range in E.
Qed.

(** ** What the agent reads of a form *)

#[local] Arguments required : simpl never.
#[local] Arguments optional : simpl never.
#[local] Arguments defaulted : simpl never.
#[local] Arguments opt_json : simpl never.
#[local] Arguments strings_json : simpl never.
#[local] Arguments trim : simpl never.
#[local] Arguments json_object : simpl never.
#[local] Arguments clean_opt : simpl never.
#[local] Arguments form_rule_ids : simpl never.
#[local] Arguments as_ip : simpl never.
#[local] Arguments as_wire : simpl never.

Lemma optional_ip_text o :
  optional as_ip (Some (opt_json JStr o)) = match o with Some s => Some <$> parse_ip s | None => Some None end.
Proof. by destruct o. Qed.
Lemma required_ip_text s : required as_ip (Some (JStr s)) = parse_ip s.
Proof. done. Qed.
Lemma optional_wire_text {T} `{WireEnum T} s : optional as_wire (Some (JStr s)) = Some <$> from_wire (T := T) s.
Proof. done. Qed.
Lemma required_string s : required as_string (Some (JStr s)) = Some s.
Proof. done. Qed.
Lemma defaulted_string s : defaulted "" as_string (Some (JStr s)) = Some s.
Proof. done. Qed.
Lemma required_strings l : required (as_list as_string) (Some (strings_json l)) = Some l.
Proof. apply strings_read. Qed.
Lemma defaulted_bool b : defaulted false as_bool (Some (JBool b)) = Some b.
Proof. done. Qed.

(** The objects in the order of their names. *)
Lemma create_object a b c d e f g h i :
  json_object [("name", a); ("public_ip", b); ("edge_private_ip", c); ("target_ip", d); ("public_port", e); ("target_port", f); ("mode", g); ("protocol", h); ("backend", i)]
  = JObj [("backend", i); ("edge_private_ip", c); ("mode", g); ("name", a); ("protocol", h); ("public_ip", b); ("public_port", e); ("target_ip", d); ("target_port", f)].
Proof. reflexivity. Qed.
Lemma reconcile_object a b c d e f g :
  json_object [("dry_run", a); ("skip_linux", b); ("skip_nft", c); ("include_config", d); ("enable_xdp", e); ("xdp_interface", f); ("xdp_pin_path", g)]
  = JObj [("dry_run", a); ("enable_xdp", e); ("include_config", d); ("skip_linux", b); ("skip_nft", c); ("xdp_interface", f); ("xdp_pin_path", g)].
Proof. reflexivity. Qed.
Lemma check_object a b c d e :
  json_object [("dry_run", a); ("skip_linux", b); ("skip_nft", c); ("include_config", d); ("enable_xdp", e)]
  = JObj [("dry_run", a); ("enable_xdp", e); ("include_config", d); ("skip_linux", b); ("skip_nft", c)].
Proof. reflexivity. Qed.
Lemma allocate_object a b c d e :
  json_object [("mapping_id", a); ("compartment_id", b); ("vnic_id", c); ("display_name", d); ("confirm", e)]
  = JObj [("compartment_id", b); ("confirm", e); ("display_name", d); ("mapping_id", a); ("vnic_id", c)].
Proof. reflexivity. Qed.
Lemma release_object a b c d :
  json_object [("mapping_id", a); ("public_ip_id", b); ("private_ip_id", c); ("confirm", d)]
  = JObj [("confirm", d); ("mapping_id", a); ("private_ip_id", c); ("public_ip_id", b)].
Proof. reflexivity. Qed.
Lemma nsg_add_object a b c d e f g :
  json_object [("nsg_id", a); ("protocol", b); ("source", c); ("port_min", d); ("port_max", e); ("description", f); ("confirm", g)]
  = JObj [("confirm", g); ("description", f); ("nsg_id", a); ("port_max", e); ("port_min", d); ("protocol", b); ("source", c)].
Proof. reflexivity. Qed.
Lemma nsg_remove_object a b c :
  json_object [("nsg_id", a); ("rule_ids", b); ("confirm", c)]
  = JObj [("confirm", c); ("nsg_id", a); ("rule_ids", b)].
Proof. reflexivity. Qed.

Ltac read_texts :=
  repeat first
    [ rewrite required_string | rewrite optional_string | rewrite defaulted_string | rewrite optional_ip_text
    | rewrite required_ip_text | rewrite optional_wire_text | rewrite defaulted_bool | rewrite required_strings
    | rewrite u16_read by (by eapply clean_port_range) | progress cbn ].
Ltac read_form :=
  rewrite ?create_object, ?reconcile_object, ?check_object, ?allocate_object, ?release_object, ?nsg_add_object,
    ?nsg_remove_object;
  open_struct; read_texts.

(** The request that a form to create a mapping asks for. *)
Definition create_request (form : CreateMappingForm) (public_port target_port : option Z)
    : option CreateMappingRequest :=
  public_ip ← match clean_opt (cf_public_ip form) with Some s => Some <$> parse_ip s | None => Some None end;
  edge ← parse_ip (trim (cf_edge_private_ip form));
  target ← parse_ip (trim (cf_target_ip form));
  mode ← from_wire (cf_mode form);
  protocol ← from_wire (cf_protocol form);
  backend ← from_wire (cf_backend form);
  Some (mkCreate (cf_name form) public_ip edge target public_port target_port (Some mode) (Some protocol)
    (Some backend)).

#[local] Arguments from_wire : simpl never.
#[local] Arguments parse_ip : simpl never.

Lemma create_body_read form body : create_body form = Ok body ->
  exists pp tp, clean_port (cf_public_port form) = Ok pp /\ clean_port (cf_target_port form) = Ok tp /\
    decode_create body = create_request form pp tp.
Proof.
  unfold create_body. intros (pp & Hp & (tp & Ht & [= <-])%bind_Ok)%bind_Ok. exists pp, tp.
  split; [done|]. split; [done|]. unfold decode_create, create_request. read_form.
  destruct (match clean_opt _ with Some _ => _ | None => _ end) as [pip|]; [|done]. cbn.
  destruct (parse_ip (trim (cf_edge_private_ip form))); [|done]. cbn.
  destruct (parse_ip (trim (cf_target_ip form))); [|done]. read_texts.
  destruct (from_wire (cf_mode form)); [|done]. cbn.
  destruct (from_wire (cf_protocol form)); [|done]. cbn.
  by destruct (from_wire (cf_backend form)).
Qed.

Lemma reconcile_body_read form :
  decode_reconcile (reconcile_body form) = Some (mkReconcileRequest
    (ticked (rf_dry_run form)) (ticked (rf_skip_linux form)) (ticked (rf_skip_nft form))
    (ticked (rf_include_config form)) (ticked (rf_enable_xdp form))
    (v ← rf_xdp_interface form; if is_empty (trim v) then None else Some v) (clean_opt (rf_xdp_pin_path form)) None).
Proof.
  unfold decode_reconcile, reconcile_body. by read_form.
Qed.

(** ** Properties *)



(** ** What a page can do *)

(** A capture that takes no option of its author: the interface and the words of
    the filter are plain, and the number of packets is bounded. *)
Record capture_safe (interface : string) (packets : Z) (words : list string) : Prop := {
  safe_interface : interface <> "" /\ (String.length interface <= 32)%nat /\ all_bytes interface_char interface = true;
  safe_packets : 1 <= packets <= 200;
  safe_words : Forall (fun w => starts_with "-" w = false /\ contains ";" w = false /\ contains "|" w = false /\
    contains "&" w = false) words;
}.

(** The effects of the pages: requests to the agent with its token, a ping of an
    address, a capture that is safe, and a connection to a port. *)
Definition page_effect (token : option string) (e : Effect) : Prop :=
  match e with
  | EHttp r _ => exists t, token = Some t /\
      snd <$> filter (fun l => l.1 = "authorization") (rq_headers r) = ["Bearer " +:+ t]
  | ECommand prog args _ =>
      prog = "ping" /\ (exists target ip, args = ["-c"; "3"; "-W"; "2"; target] /\ parse_ip_addr target = Some ip) \/
      prog = "tcpdump" /\ exists interface packets words,
        args = tcpdump_args interface packets words /\ capture_safe interface packets words
  | EConnect _ port _ => port <> 0
  | EClock => True
  | _ => False
  end.

Lemma clean_interface_safe value i : clean_interface value = Ok i ->
  i <> "" /\ (String.length i <= 32)%nat /\ all_bytes interface_char i = true.
Proof.
  unfold clean_interface. destruct (_ || _ || _) eqn:E; [done|]. intros [= <-].
  apply orb_false_iff in E as [[He Hl]%orb_false_iff Hb]. apply is_empty_false in He.
  apply Nat.ltb_ge in Hl. by apply negb_false_iff in Hb.
Qed.

Lemma clean_filter_safe value words : clean_tcpdump_filter value = Ok words ->
  Forall (fun w => starts_with "-" w = false /\ contains ";" w = false /\ contains "|" w = false /\
    contains "&" w = false) words.
Proof.
  unfold clean_tcpdump_filter. destruct (value ≫= _) as [v|]; [|intros [= <-]; constructor].
  destruct (240 <? String.length v)%nat; [done|]. destruct (existsb unsafe_token _) eqn:E; [done|].
  intros [= <-]. apply Forall_forall. intros w Hw. apply existsb_false in E. rewrite Forall_forall in E.
  specialize (E w Hw). unfold unsafe_token in E. by repeat apply orb_false_iff in E as [E ?].
Qed.

Lemma capture_packets_range p : 1 <= capture_packets p <= 200.
Proof. unfold capture_packets. lia. Qed.

Section effects.
Context `{StoreLib} `{JsonLib} `{HttpLaws} `{Env} (state : AppState).

Abbreviation R := (logs (page_effect (st_api_token state))).

Lemma send_raw_page method path headers body : preserves R (send_raw state method path headers body).
Proof.
  intros w. destruct (send_raw_sends state method path headers body w) as (effs & Hl & He). exists effs.
  split; [done|]. destruct He as [[-> _]|(r & rep & -> & Hs)]; [constructor|].
  apply Forall_singleton. destruct (sent_headers _ _ _ _ _ _ Hs) as (t & Ht & Hh). exists t. split; [done|].
  rewrite Hh. unfold forwarded. by rewrite decide_True.
Qed.

Ltac page_step := first
  [ apply send_raw_page | by auto with io
  | apply preserves_bind; [apply _| |intros ?] | apply preserves_try | apply preserves_map_err
  | apply preserves_lift; apply _ | apply preserves_ret; apply _ | apply preserves_fail; apply _ | case_match ].
Ltac page_steps := repeat page_step.

Lemma get_json_page {A} (d : Json -> option A) path : preserves R (get_json state d path).
Proof. unfold get_json. page_steps. Qed.
Lemma post_json_page {A} (d : Json -> option A) path v : preserves R (post_json state d path v).
Proof. unfold post_json. page_steps. Qed.
Lemma post_empty_page {A} (d : Json -> option A) path : preserves R (post_empty_json state d path).
Proof. unfold post_empty_json. page_steps. Qed.
Lemma delete_json_page {A} (d : Json -> option A) path : preserves R (delete_json state d path).
Proof. unfold delete_json. page_steps. Qed.
Lemma post_text_page path : preserves R (post_text state path).
Proof. unfold post_text. page_steps. Qed.
#[local] Hint Resolve get_json_page post_json_page post_empty_page delete_json_page post_text_page : io.

Lemma or_default_page {A} (a : A) m : preserves R m -> preserves R (or_default a m).
Proof. intros Hm. unfold or_default. page_steps. Qed.
Lemma or_none_page {A} (m : IO GatewayError A) : preserves R m -> preserves R (or_none m).
Proof. intros Hm. unfold or_none. page_steps. Qed.
Lemma render_page m : preserves R m -> preserves R (render_result m).
Proof. intros Hm. unfold render_result. page_steps. Qed.
#[local] Hint Resolve or_default_page or_none_page render_page : io.
#[local] Hint Unfold get_mappings get_events get_networks get_status get_netbird get_topology : io.
#[local] Hint Extern 1 (preserves _ get_status) => apply get_json_page : io.
#[local] Hint Extern 1 (preserves _ (get_mappings _)) => apply get_json_page : io.
#[local] Hint Extern 1 (preserves _ (get_events _)) => apply get_json_page : io.
#[local] Hint Extern 1 (preserves _ (get_networks _)) => apply get_json_page : io.
#[local] Hint Extern 1 (preserves _ (get_status _)) => apply get_json_page : io.
#[local] Hint Extern 1 (preserves _ (get_netbird _)) => apply get_json_page : io.
#[local] Hint Extern 1 (preserves _ (get_topology _)) => apply get_json_page : io.

Lemma mappings_page : preserves R (mappings_markup state).
Proof. unfold mappings_markup. page_steps. Qed.
Lemma oracle_page result : preserves R (oracle_markup state result).
Proof. unfold oracle_markup. page_steps. Qed.
Lemma tools_page result tab : preserves R (tools_markup state result tab).
Proof. unfold tools_markup. page_steps. Qed.
#[local] Hint Resolve mappings_page oracle_page tools_page : io.

Lemma tool_command_page prog args text :
  (forall r, page_effect (st_api_token state) (ECommand prog args r)) -> preserves R (tool_command prog args text).
Proof. intros Ha. unfold tool_command. page_steps. Qed.

Lemma ping_page target : preserves R (ping_tool state target).
Proof.
  unfold ping_tool. apply render_page. cbn zeta. apply preserves_lift_bind; [apply _|]. intros ip Hip.
  apply preserves_bind; [apply _| |intros output; page_steps]. apply tool_command_page. intros r. left.
  split; [done|]. exists (trim target), ip. split; [done|]. by destruct (parse_ip_addr (trim target)); simplify_eq/=.
Qed.

Lemma port_test_page target port : preserves R (port_test_tool state target port).
Proof.
  unfold port_test_tool. apply render_page. cbn zeta. apply preserves_lift_bind; [apply _|]. intros ip _.
  destruct (Z.eqb_spec port 0) as [|Hne]; [page_steps|].
  apply preserves_bind; [apply _|by apply logs_now|intros started].
  apply preserves_bind; [apply _|by apply logs_connect|intros reply].
  apply preserves_bind; [apply _|by apply logs_now|intros now]. page_steps.
Qed.

Lemma tcpdump_page interface filter packets : preserves R (tcpdump_tool state interface filter packets).
Proof.
  unfold tcpdump_tool. apply render_page. apply preserves_lift_bind; [apply _|]. intros i Hi.
  apply preserves_lift_bind; [apply _|]. intros words Hw.
  apply preserves_bind; [apply _| |intros output; page_steps]. apply tool_command_page. intros r. right.
  split; [done|]. exists i, (capture_packets packets), words. split; [done|]. split.
  - by eapply clean_interface_safe.
  - apply capture_packets_range.
  - by eapply clean_filter_safe.
Qed.

Lemma ui_page pretty compact call : preserves R (ui state pretty compact call).
Proof.
  destruct call; cbn [ui];
    first [ apply ping_page | apply port_test_page | apply tcpdump_page
          | unfold dashboard_markup, create_mapping, enable_mapping, disable_mapping, delete_mapping,
              reconcile_markup, run_reconcile, dry_run_ruleset, tools_dry_run, tools_reconcile_check,
              topology_markup, oracle_allocate, oracle_release, oracle_vnic_check, oracle_public_ips,
              oracle_nsg_add, oracle_nsg_remove, oracle_action, netbird_markup, events_markup;
            apply render_page; page_steps ].
Qed.

Lemma render_log (m : IO GatewayError Page) w : w_log (render_result m w).2 = w_log (m w).2.
Proof. unfold render_result, mbind, io_bind, io_try. by destruct (m w) as [[]]. Qed.

(** What a handler that starts with a request does first. *)
Lemma post_empty_first {A} (d : Json -> option A) path (k : A -> IO GatewayError Page) w :
  (forall a, preserves R (k a)) ->
  exists effs, w_log ((post_empty_json state d path ≫= k) w).2 = w_log w ++ effs /\
    (effs = [] \/ exists r rep rest, effs = EHttp r rep :: rest /\ sent state "POST" path hm_new "" r).
Proof.
  intros Hk. destruct (send_raw_sends state "POST" path hm_new "" w) as (effs & Hl & [[-> [e He]]|(r & rep & -> & Hs)]).
  - exists []. split; [|by left]. rewrite <- Hl. unfold post_empty_json, mbind, io_bind.
    by destruct (send_raw state "POST" path hm_new "" w) as [[]].
  - destruct (bind_log _ (post_empty_json state d path) k w Hk) as (rest & Hrest).
    destruct (bind_log (page_effect (st_api_token state)) (send_raw state "POST" path hm_new "")
      (fun '(status, _, body) => lift (decode_json d status body)) w) as (rest' & Hrest').
    { intros [[st h] b]. page_steps. }
    exists (EHttp r rep :: rest' ++ rest). split; [|right; eauto 6].
    rewrite Hrest. unfold post_empty_json. rewrite Hrest', Hl. by rewrite <- !(assoc_L (++)).
Qed.
End effects.

(** ** Answers *)

Section answers.
Context `{StoreLib} `{JsonLib} `{HttpLib} `{Env} (state : AppState).

Lemma calm_send_raw method path headers body : calm (send_raw state method path headers body).
Proof. unfold send_raw. calm_steps. Qed.
#[local] Hint Resolve calm_send_raw : io.

Lemma calm_get {A} (d : Json -> option A) path : calm (get_json state d path).
Proof. unfold get_json. calm_steps. Qed.
Lemma calm_post {A} (d : Json -> option A) path v : calm (post_json state d path v).
Proof. unfold post_json. calm_steps. Qed.
Lemma calm_post_empty {A} (d : Json -> option A) path : calm (post_empty_json state d path).
Proof. unfold post_empty_json. calm_steps. Qed.
Lemma calm_delete_json {A} (d : Json -> option A) path : calm (delete_json state d path).
Proof. unfold delete_json. calm_steps. Qed.
Lemma calm_post_text path : calm (post_text state path).
Proof. unfold post_text. calm_steps. Qed.
Lemma calm_tool prog args text : calm (tool_command prog args text).
Proof. unfold tool_command. calm_steps. Qed.
#[local] Hint Resolve calm_get calm_post calm_post_empty calm_delete_json calm_post_text calm_tool : io.

Lemma calm_tools_markup result tab : calm (tools_markup state result tab).
Proof. unfold tools_markup, or_default, get_status, get_mappings, get_networks. calm_steps. Qed.
Lemma calm_mappings_markup : calm (mappings_markup state).
Proof. unfold mappings_markup, or_none, get_mappings, get_topology. calm_steps. Qed.
Lemma calm_oracle_markup result : calm (oracle_markup state result).
Proof. unfold oracle_markup, or_default, get_mappings. calm_steps. Qed.
#[local] Hint Resolve calm_tools_markup calm_mappings_markup calm_oracle_markup : io.

(** A page shows an error instead of failing with it. *)
Lemma render_answers m w : calm m -> exists p, (render_result m w).1 = Ret p.
Proof.
  intros Hm. specialize (Hm w). unfold render_result, mbind, io_bind, io_try.
  destruct (m w) as [[p|e|x] w1]; cbn in *; [by eexists..|by destruct (Hm x)].
Qed.

Lemma ui_answers pretty compact call w : exists p, (ui state pretty compact call w).1 = Ret p.
Proof.
  destruct call; cbn [ui]; apply render_answers;
    unfold dashboard_markup, reconcile_markup, topology_markup, oracle_action, netbird_markup, events_markup,
      or_default, or_none, get_status, get_mappings, get_events, get_networks, get_netbird, get_topology;
    calm_steps.
Qed.
End answers.


(** C26: whatever is asked of the pages, they do nothing but send requests that
    carry the token of the agent, ping an address that was parsed, capture
    packets with a plain interface, at most 200 packets and no option among the
    words of the filter, and connect to a port that is not 0: no database, no
    file, no other program. *)
Theorem pages_are_confined `{StoreLib} `{JsonLib} `{HttpLaws} `{Env} state pretty compact call w :
  exists effs, w_log (ui state pretty compact call w).2 = w_log w ++ effs /\
    Forall (page_effect (st_api_token state)) effs.
Proof. exact (ui_page state pretty compact call w). Qed.

(** The check of the tools page asks the agent for a dry run, with neither
    the addresses nor the ruleset to be applied. *)
Theorem tools_check_is_dry_run :
  decode_reconcile reconcile_check_body = Some (mkReconcileRequest true true true true true None None None).
Proof. unfold reconcile_check_body, decode_reconcile. by read_form. Qed.

(** An id with a slash or a question mark, which a percent-encoded path can
    hold, changes the operation that the pages ask for: enabling [x/disable?] is
    the request to disable [x]. *)
Theorem enable_path_is_not_encoded `{StoreLib} `{JsonLib} `{HttpLaws} `{Env} state w i :
  exists effs, w_log (enable_mapping state (i +:+ "/disable?") w).2 = w_log w ++ effs /\
    (effs = [] \/ exists r rep rest, effs = EHttp r rep :: rest /\ World.rq_method r = "POST" /\
      rq_uri r = "http://edge-agent/v1/mappings/" +:+ i +:+ "/disable?/enable").
Proof.
  unfold enable_mapping. rewrite render_log, app_assoc.
  destruct (post_empty_first state decode_mapping ("/v1/mappings/" +:+ i +:+ "/disable?" +:+ "/enable")
    (fun _ => mappings_markup state) w (fun _ => mappings_page state))
    as (effs & Hl & [->|(r & rep & rest & -> & Hs)]); eexists; (split; [exact Hl|]); [by left|right].
  exists r, rep, rest. split; [done|]. split; [apply (sent_method _ _ _ _ _ _ Hs)|].
  by rewrite (sent_uri _ _ _ _ _ _ Hs).
Qed.

(** ** Witnesses *)

#[local] Existing Instance model_lib.
#[local] Existing Instance json_model.
#[local] Existing Instance http_model.
#[local] Existing Instance quiet_env.

Definition sample_form : CreateMappingForm :=
  mkCreateForm "web" (Some " ") " 10.0.0.5 " "192.168.20.1" (Some "443") (Some "8443") "port_forward_snat" "tcp" "nft".



Lemma pages_are_confined_witness :
  let state := mkAppState "/run/agent.sock" None (Some "upstream") in
  let log := w_log (ui state json_write (fun _ => "") (UTcpdump "eth0" (Some "tcp port 443") None) sample_world).2 in
  Forall (page_effect (Some "upstream")) log /\ length log = 2%nat.
Proof.
  cbn zeta. split; [|vm_compute; reflexivity].
  destruct (pages_are_confined (H2 := http_model_laws) (mkAppState "/run/agent.sock" None (Some "upstream"))
    json_write (fun _ => "") (UTcpdump "eth0" (Some "tcp port 443") None) sample_world) as (effs & Hl & He).
  rewrite Hl. exact He.
Defined.

Lemma enable_path_is_not_encoded_witness :
  let state := mkAppState "/run/agent.sock" None (Some "upstream") in
  exists r rep rest, w_log (enable_mapping state "map_1/disable?" sample_world).2 = EHttp r rep :: rest /\
    rq_uri r = "http://edge-agent/v1/mappings/map_1/disable?/enable".
Proof.
  cbn zeta. destruct (enable_path_is_not_encoded (H2 := http_model_laws)
    (mkAppState "/run/agent.sock" None (Some "upstream")) sample_world "map_1")
    as (effs & Hl & [->|(r & rep & rest & -> & _ & Hu)]); [vm_compute in Hl; discriminate Hl|].
  exists r, rep, rest. split; [exact Hl|exact Hu].
Defined.
