(* ===== verification/Mock.v ===== *)
(** [edge-gateway/src/mock.rs]: with the feature [mock] and no token for the agent,
    a store in the gateway answers the requests of the pages in its place. *)
From Stdlib Require Import Ascii.
From S2P Require Import Prelude Str BTree Net Core State Sql World Store Nft Json Oci Netbird Api Wire Gateway Ui.
Local Open Scope Z_scope.

(** ** The store *)

Record MockStore := mkMockStore { mk_mappings : list Mapping; mk_events : list Event }.

Record MappingSeed := mkSeed {
  sd_id : string;
  sd_name : string;
  sd_edge_ip : string;
  sd_target_ip : string;
  sd_mode : MappingMode;
  sd_protocol : Protocol;
  sd_public_port : option Z;
  sd_target_port : option Z;
  sd_backend : MappingBackend;
  sd_status : MappingStatus;
}.

(** [.unwrap()] *)
Definition unwrap {E A} (o : option A) : IO E A := from_out (match o with Some a => Ret a | None => Panicked "unwrap" end).
Definition nanos (seconds : Z) : Z := seconds * 1000000000.

Section seeds.
Context `{Env}.

Definition mock_mapping {E} (seed : MappingSeed) : IO E Mapping :=
  public ← unwrap (parse_ip "203.0.113.10");
  edge ← unwrap (parse_ip (sd_edge_ip seed));
  target ← unwrap (parse_ip (sd_target_ip seed));
  now ← now_utc;
  uuid ← fresh_uuid;
  let m := mapping_new (mapping_id_new uuid) now (sd_name seed) (Some public) edge target in
  i ← unwrap (result_ok (mapping_id_from_str (sd_id seed)));
  checked ← now_utc;
  let m := set_endpoints (with_id m i) (sd_public_port seed) (sd_target_port seed) (sd_mode seed) (sd_protocol seed)
    (sd_backend seed) in
  mret (set_health m (sd_status seed) (Some "sample") (last_error m) (checked - nanos 120) (updated_at m)).

Definition mock_event {E} (i : Z) (level : EventLevel.t) (message : string) (data : option string) : IO E Event :=
  now ← now_utc;
  mret (mkEvent i level message data (now - nanos (i * 45))).

(** [MockStore::new], at the first request. *)
Definition mock_new {E} : IO E MockStore :=
  mysql ← mock_mapping (mkSeed "map_0a1b2c3d4e5f" "mysql" "10.0.0.101" "192.168.20.42" PortForwardSnat Tcp
    (Some 13306) (Some 3306) Nft Active);
  web ← mock_mapping (mkSeed "map_112233445566" "home-web" "10.0.0.102" "192.168.20.80" OneToOneSnat All
    None None Nft Degraded);
  degraded ← mock_event 3 EventLevel.Warn "mapping health degraded" (Some "192.168.20.80: timed out");
  applied ← mock_event 2 EventLevel.Info "reconcile applied" (Some "generation=617");
  started ← mock_event 1 EventLevel.Debug "agent started" None;
  mret (mkMockStore [mysql; web] [degraded; applied; started]).
End seeds.

(** ** Answers *)

(** [serde_json::to_value]: objects become maps ordered by the names. *)
Fixpoint to_value (v : Json) : Json :=
  match v with
  | JArr l => JArr (to_value <$> l)
  | JObj fields => json_object ((fun f => (f.1, to_value f.2)) <$> fields)
  | v => v
  end.

Definition nft_text : string :=
  join newline ["table ip edge_nat {"; "  chain prerouting {";
    "    type nat hook prerouting priority dstnat; policy accept;"; "  }"; "}"; ""].

Definition mock_status (st : MockStore) : Json := json_object [
  ("wan_interface", JStr "ens3"); ("netbird_interface", JStr "wt0");
  ("target_cidrs", strings_json ["10.10.30.0/24"; "10.10.40.0/24"; "10.10.50.0/24"]);
  ("mappings", count_json (length (mk_mappings st)));
  ("enabled_mappings", count_json (length (filter (fun m => enabled m = true) (mk_mappings st))))].

Definition mock_report : Json := json_object [
  ("generation_id", JNum 618); ("added_addresses", strings_json ["10.0.0.101"]); ("removed_addresses", JArr []);
  ("xdp_plan_entries", JNum 0); ("nftables_config", JStr nft_text)].

Definition mock_netbird : NetbirdStatus :=
  mkStatus (mkPeers 2 1 [
      mkPeer (Some "netbird-routing.bird.home") (Some "100.64.94.84") (Some "fd66:a144::2") (Some "Connected")
        (Some "Relayed") ["10.10.40.0/24"];
      mkPeer (Some "idle.bird.home") (Some "100.64.34.182") (Some "fd66:a144::3") (Some "Idle") (Some "-") []])
    (Some "0.73.2") (Some "0.73.2") (Some "Connected") (mkService true) (mkService true)
    (Some "100.64.65.67/16") (Some "fd66:a144::1/64") (Some true) (Some "mainvnic.bird.home") [] true.

Definition with_status (st : MockStore) (s : MappingStatus) : nat :=
  length (filter (fun m => Core.status m = s) (mk_mappings st)).
Definition mock_analytics (st : MockStore) : Json := json_object [
  ("mapping_total", count_json (length (mk_mappings st)));
  ("mapping_enabled", count_json (length (filter (fun m => enabled m = true) (mk_mappings st))));
  ("mapping_status", json_object [("active", count_json (with_status st Active));
    ("degraded", count_json (with_status st Degraded))]);
  ("mapping_backend", json_object [("nft", count_json (length (mk_mappings st)))]);
  ("event_level", json_object [("warn", JNum 1); ("info", JNum 1); ("debug", JNum 1)]);
  ("problem_mappings", count_json (length (filter (fun m => Core.status m = Degraded \/ Core.status m = Core.Error) (mk_mappings st))))].

Definition mock_flow (m : Mapping) : Json := json_object [
  ("id", JStr (id m)); ("name", JStr (name m));
  ("public_endpoint", JStr (endpoint (show_ip <$> public_ip m) (public_port m)));
  ("edge_private_ip", JStr (show_ip (edge_private_ip m)));
  ("target_endpoint", JStr (endpoint (Some (show_ip (target_ip m))) (target_port m)));
  ("protocol", JStr (wire (protocol m))); ("mode", JStr (wire (mode m))); ("backend", JStr (wire (backend m)));
  ("status", JStr (wire (Core.status m))); ("enabled", JBool (enabled m))].
Definition mock_topology (st : MockStore) : Json := json_object [
  ("wan_interface", JStr "ens3"); ("netbird_interface", JStr "wt0"); ("target_cidrs", strings_json ["10.10.40.0/24"]);
  ("flows", JArr (mock_flow <$> mk_mappings st))].

Definition mock_oci_status : Json := json_object [
  ("auth_mode", JStr "instance_principal"); ("region", JStr "eu-paris-1");
  ("compartment_id_configured", JBool true); ("vnic_id_configured", JBool true); ("subnet_id_configured", JBool true);
  ("nsg_count", JNum 1); ("api_key_env_ready", JBool false);
  ("env", json_object [("tenancy_id", JBool false); ("user_id", JBool false); ("fingerprint", JBool false);
    ("private_key_path", JBool false)]);
  ("cli_available", JBool true); ("cli_version", JStr "oci-cli fixture");
  ("compartment_id", JStr "ocid1.compartment.oc1..fixture"); ("vnic_id", JStr "ocid1.vnic.oc1..fixture");
  ("subnet_id", JStr "ocid1.subnet.oc1..fixture"); ("nsg_ids", strings_json ["ocid1.networksecuritygroup.oc1..fixture"])].
Definition mock_allocation : Json := json_object [
  ("id", JStr "fixture"); ("name", JStr "fixture"); ("public_ip", JStr "152.0.0.10");
  ("edge_private_ip", JStr "10.0.0.101"); ("oci_public_ip_ocid", JStr "ocid1.publicip.oc1..fixture");
  ("oci_private_ip_ocid", JStr "ocid1.privateip.oc1..fixture"); ("note", JStr "mock allocate; no OCI call made")].
Definition mock_release : Json :=
  json_object [("released", JBool true); ("note", JStr "mock release; no OCI call made")].
Definition mock_vnic : Json := json_object [
  ("id", JStr "ocid1.vnic.oc1..fixture"); ("display_name", JStr "edge"); ("skip_source_dest_check", JBool true);
  ("ok", JBool true)].
Definition mock_public_ips : Json := JArr [json_object [
  ("id", JStr "ocid1.publicip.oc1..fixture"); ("ip-address", JStr "152.0.0.10");
  ("private-ip-id", JStr "ocid1.privateip.oc1..fixture"); ("lifetime", JStr "RESERVED"); ("scope", JStr "REGION");
  ("lifecycle-state", JStr "AVAILABLE"); ("display-name", JStr "fixture")]].
Definition mock_nsg_added : Json := json_object [("added", JBool true); ("nsg_id", JStr "fixture")].
Definition mock_nsg_removed : Json := json_object [("removed", JNum 1); ("nsg_id", JStr "fixture")].

(** [CreateMapping] of the mock, with its own order of the fields. *)
Definition decode_mock_create (v : Json) : option CreateMappingRequest :=
  f ← struct_fields ["name"; "public_ip"; "edge_private_ip"; "target_ip"; "public_port"; "target_port"; "protocol";
                     "mode"; "backend"] 9 v;
  name ← required as_string (f "name");
  public_ip ← optional as_ip (f "public_ip");
  edge_private_ip ← required as_ip (f "edge_private_ip");
  target_ip ← required as_ip (f "target_ip");
  public_port ← optional as_u16 (f "public_port");
  target_port ← optional as_u16 (f "target_port");
  protocol ← optional as_wire (f "protocol");
  mode ← optional as_wire (f "mode");
  backend ← optional as_wire (f "backend");
  Some (mkCreate name public_ip edge_private_ip target_ip public_port target_port mode protocol backend).

(** The id and the action of a path below that of the mappings. *)
Definition mapping_action (path : string) : option (string * option string) :=
  rest ← strip_prefix "/v1/mappings/" path;
  match split_once "/"%char rest with
  | Some (i, action) =>
      if bool_decide (action = "enable" \/ action = "disable") then Some (i, Some action) else None
  | None => Some (rest, None)
  end.

(** ** Requests *)

(** What runs while the store is locked: it keeps what was changed before a
    failure. Nothing that runs then panics, so the lock is never poisoned. *)
Definition MockIO (A : Type) : Type := MockStore -> World -> Out GatewayError A * MockStore * World.
#[export] Instance mock_ret : MRet MockIO := fun _ a st w => (Ret a, st, w).
#[export] Instance mock_bind : MBind MockIO := fun _ _ k m st w =>
  match m st w with
  | (Ret a, st', w') => k a st' w'
  | (Fail e, st', w') => (Fail e, st', w')
  | (Panicked s, st', w') => (Panicked s, st', w')
  end.
Definition locked {A} (m : IO GatewayError A) : MockIO A := fun st w => let '(o, w') := m w in (o, st, w').
Definition mock_store : MockIO MockStore := fun st w => (Ret st, st, w).
Definition set_mappings (ms : list Mapping) : MockIO unit := fun st w => (Ret tt, mkMockStore ms (mk_events st), w).

Section mock.
Context `{StoreLib} `{JsonLib} `{HttpLib} `{Env}.

Abbreviation Reply := (Z * HeaderMap * string)%type.
(** [.map_err(GatewayError::bad_gateway)?] *)
Definition tried {A} (r : Result string A) : MockIO A := locked (lift (map_err gw_bad_gateway r)).
Definition plain (status : Z) (text : string) : Reply := (status, hm_new, text).

Definition mapping_value (m : Mapping) : Result string Json := to_value <$> mapping_json m.
Definition mappings_value (ms : list Mapping) : Result string Json := JArr <$> collect mapping_value ms.
Definition events_value (es : list Event) : Result string Json := JArr <$> collect (fun e => to_value <$> event_json e) es.

Definition encode_json (v : Json) : MockIO Reply :=
  bytes ← tried (json_write v);
  mret (200, hm_insert "content-type" "application/json" hm_new, bytes).
Definition encoded (r : Result string Json) : MockIO Reply := v ← tried r; encode_json v.

Definition mock_create (body : string) : MockIO Reply :=
  input ← tried (from_str decode_mock_create body);
  now ← locked now_utc;
  uuid ← locked fresh_uuid;
  let m := set_endpoints
    (mapping_new (mapping_id_new uuid) now (cr_name input) (cr_public_ip input) (cr_edge_private_ip input)
       (cr_target_ip input))
    (cr_public_port input) (cr_target_port input) (default default_mode (cr_mode input))
    (default default_protocol (cr_protocol input)) (default default_backend (cr_backend input)) in
  let m := set_state m (enabled m) Pending (updated_at m) in
  st ← mock_store;
  set_mappings (mk_mappings st ++ [m]) ;;
  encoded (mapping_value m).

(** Enabling and disabling. *)
Definition mock_switch (index : nat) (m : Mapping) (on : bool) : MockIO Reply :=
  now ← locked now_utc;
  let m := set_state m on (if on then Pending else Disabled) now in
  st ← mock_store;
  set_mappings (<[index := m]> (mk_mappings st)) ;;
  encoded (mapping_value m).

Definition handle_mapping_action (method mapping_id : string) (action : option string) : MockIO Reply :=
  st ← mock_store;
  match list_find (fun m => id m = mapping_id) (mk_mappings st) with
  | None => mret (plain 404 "mapping not found")
  | Some (index, m) =>
      if bool_decide (method = "GET" /\ action = None) then encoded (mapping_value m)
      else if bool_decide (method = "DELETE" /\ action = None) then
        set_mappings (delete index (mk_mappings st)) ;; encoded (mapping_value m)
      else if bool_decide (method = "POST" /\ action = Some "enable") then mock_switch index m true
      else if bool_decide (method = "POST" /\ action = Some "disable") then mock_switch index m false
      else mret (plain 405 "method not allowed")
  end.

(** The requests that are answered with fixed data or with what is in the store. *)
Definition mock_answers (st : MockStore) : list (string * string * Result string Json) := [
  ("GET", "/v1/status", Ok (mock_status st)); ("GET", "/v1/mappings", mappings_value (mk_mappings st));
  ("POST", "/v1/reconcile", Ok mock_report);
  ("GET", "/v1/netbird/status", Ok (to_value (status_json mock_netbird)));
  ("GET", "/v1/netbird/networks", Ok (strings_json ["10.10.40.0/24"]));
  ("GET", "/v1/events", events_value (mk_events st)); ("GET", "/v1/analytics", Ok (mock_analytics st));
  ("GET", "/v1/topology", Ok (mock_topology st)); ("GET", "/v1/oci/status", Ok mock_oci_status);
  ("POST", "/v1/oci/allocate", Ok mock_allocation); ("POST", "/v1/oci/release", Ok mock_release);
  ("GET", "/v1/oci/vnic/check", Ok mock_vnic); ("GET", "/v1/oci/public-ips", Ok mock_public_ips);
  ("POST", "/v1/oci/nsg/add", Ok mock_nsg_added); ("POST", "/v1/oci/nsg/remove", Ok mock_nsg_removed)].

Definition handle (method path body : string) : MockIO Reply :=
  let path := default path (head (split "?"%char path)) in
  st ← mock_store;
  if bool_decide (method = "POST" /\ path = "/v1/mappings") then mock_create body
  else if bool_decide (method = "POST" /\ path = "/v1/apply/dry-run") then mret (plain 200 nft_text)
  else match find (fun a => bool_decide (a.1.1 = method) && bool_decide (a.1.2 = path)) (mock_answers st) with
  | Some (_, answer) => encoded answer
  | None =>
      match mapping_action path with
      | Some (mapping_id, action) => handle_mapping_action method mapping_id action
      | None => mret (plain 404 "mock route not found")
      end
  end.

(** [send_raw] with the feature. *)
Definition mock_send_raw (state : AppState) (method path : string) (headers : HeaderMap) (body : string) : MockIO Reply :=
  match st_api_token state with
  | None => handle method path body
  | Some _ => locked (send_raw state method path headers body)
  end.
Definition mock_get_json {A} (d : Json -> option A) (state : AppState) (path : string) : MockIO A :=
  '(status, _, body) ← mock_send_raw state "GET" path hm_new "";
  locked (lift (decode_json d status body)).
End mock.

(** ** Reading the answers *)

#[local] Arguments required : simpl never.
#[local] Arguments optional : simpl never.
#[local] Arguments defaulted : simpl never.
#[local] Arguments opt_json : simpl never.
#[local] Arguments strings_json : simpl never.
#[local] Arguments count_json : simpl never.
#[local] Arguments as_list : simpl never.
#[local] Arguments as_ip : simpl never.
#[local] Arguments show_ip : simpl never.

Lemma to_value_opt {A} (f : A -> Json) o : (forall a, to_value (f a) = f a) -> to_value (opt_json f o) = opt_json f o.
Proof. intros Hf. destruct o as [a|]; [apply Hf|done]. Qed.

Lemma mapping_object a b c d e f g h i j k l m n o p q r s :
  json_object [("id", a); ("name", b); ("public_ip", c); ("oci_public_ip_ocid", d); ("edge_private_ip", e);
    ("oci_private_ip_ocid", f); ("target_ip", g); ("public_port", h); ("target_port", i); ("protocol", j); ("mode", k);
    ("backend", l); ("enabled", m); ("status", n); ("last_error", o); ("health_status", p); ("last_checked_at", q);
    ("created_at", r); ("updated_at", s)]
  = JObj [("backend", l); ("created_at", r); ("edge_private_ip", e); ("enabled", m); ("health_status", p); ("id", a);
    ("last_checked_at", q); ("last_error", o); ("mode", k); ("name", b); ("oci_private_ip_ocid", f);
    ("oci_public_ip_ocid", d); ("protocol", j); ("public_ip", c); ("public_port", h); ("status", n); ("target_ip", g);
    ("target_port", i); ("updated_at", s)].
Proof. reflexivity. Qed.
Lemma event_object a b c d e :
  json_object [("id", a); ("level", b); ("message", c); ("data", d); ("created_at", e)]
  = JObj [("created_at", e); ("data", d); ("id", a); ("level", b); ("message", c)].
Proof. reflexivity. Qed.
Lemma flow_object a b c d e f g h i j :
  json_object [("id", a); ("name", b); ("public_endpoint", c); ("edge_private_ip", d); ("target_endpoint", e);
    ("protocol", f); ("mode", g); ("backend", h); ("status", i); ("enabled", j)]
  = JObj [("backend", h); ("edge_private_ip", d); ("enabled", j); ("id", a); ("mode", g); ("name", b);
    ("protocol", f); ("public_endpoint", c); ("status", i); ("target_endpoint", e)].
Proof. reflexivity. Qed.
Lemma topology_object a b c d :
  json_object [("wan_interface", a); ("netbird_interface", b); ("target_cidrs", c); ("flows", d)]
  = JObj [("flows", d); ("netbird_interface", b); ("target_cidrs", c); ("wan_interface", a)].
Proof. reflexivity. Qed.
Lemma status_object a b c d e :
  json_object [("wan_interface", a); ("netbird_interface", b); ("target_cidrs", c); ("mappings", d); ("enabled_mappings", e)]
  = JObj [("enabled_mappings", e); ("mappings", d); ("netbird_interface", b); ("target_cidrs", c); ("wan_interface", a)].
Proof. reflexivity. Qed.

Lemma flow_value_read m : decode_flow (mock_flow m) = Some (topology_flow m).
Proof. unfold mock_flow, decode_flow. rewrite flow_object. open_struct. by read_fields. Qed.

Lemma topology_value_read st : decode_topology (mock_topology st) =
  Some (mkTopology "ens3" "wt0" ["10.10.40.0/24"] (topology_flow <$> mk_mappings st)).
Proof.
  unfold mock_topology, decode_topology. rewrite topology_object. open_struct. read_fields.
  replace (as_list decode_flow (JArr (mock_flow <$> mk_mappings st))) with (Some (topology_flow <$> mk_mappings st)); [done|].
  unfold as_list. induction (mk_mappings st) as [|m ms IH]; [done|]. cbn [fmap list_fmap mapM].
  rewrite flow_value_read. cbn. by rewrite <- IH.
Qed.

Lemma status_value_read st : usize_ok (Z.of_nat (length (mk_mappings st))) ->
  decode_status_response (mock_status st) =
    Some (mkStatusResponse "ens3" "wt0" ["10.10.30.0/24"; "10.10.40.0/24"; "10.10.50.0/24"] (length (mk_mappings st))
      (length (filter (fun m => enabled m = true) (mk_mappings st)))).
Proof.
  intros Hn. assert (He : usize_ok (Z.of_nat (length (filter (fun m => enabled m = true) (mk_mappings st))))).
  { pose proof (length_filter (fun m => enabled m = true) (mk_mappings st)). unfold usize_ok in *. lia. }
  unfold mock_status, decode_status_response. rewrite status_object. open_struct. by read_fields.
Qed.

Section reads.
Context `{StoreLibLaws}.

Lemma time_value t v : time_json t = Ok v -> to_value v = v.
Proof. unfold time_json. by intros (s & _ & [= <-])%bind_Ok. Qed.

Lemma mapping_value_read m v : ports_u16 m -> mapping_value m = Ok v -> decode_mapping v = Some m.
Proof.
  intros [Hp Ht]. unfold mapping_value, mapping_json.
  destruct (transpose_map time_json (last_checked_at m)) as [checked|] eqn:Hc; [|done].
  destruct (time_json (created_at m)) as [created|] eqn:Hcr; [|done].
  destruct (time_json (updated_at m)) as [updated|] eqn:Hu; [|done]. intros [= <-].
  assert (Hcv : to_value (default JNull checked) = default JNull checked).
  { apply transpose_map_Ok in Hc. destruct (last_checked_at m); [|by subst].
    destruct Hc as (c & Hc & ->). by eapply time_value. }
  cbn [fmap list_fmap fst snd to_value].
  rewrite !to_value_opt by done. rewrite Hcv, (time_value _ _ Hcr), (time_value _ _ Hu), mapping_object.
  destruct m. cbn in * |-. unfold decode_mapping. open_struct. read_fields.
  rewrite (opt_time_read _ _ Hc). read_fields. rewrite (time_read _ _ Hcr). read_fields. by rewrite (time_read _ _ Hu).
Qed.

Lemma event_value_read e v : i64_ok (e_id e) -> to_value <$> event_json e = Ok v -> decode_event v = Some e.
Proof.
  intros Hi. unfold event_json. destruct (time_json (e_created_at e)) as [created|] eqn:Hc; [|done]. intros [= <-].
  cbn [fmap list_fmap fst snd to_value]. rewrite to_value_opt by done. rewrite (time_value _ _ Hc), event_object.
  destruct e. cbn in * |-. unfold decode_event. open_struct. read_fields. by rewrite (time_read _ _ Hc).
Qed.
End reads.

(** ** Histories *)

Section invariant.
Context `{StoreLib}.

(** A time that has a text. *)
Definition writes (t : Time) : Prop := exists s, format_rfc3339 t = Ok s.
(** Data of the store that is written and read back. *)
Record mapping_ok (m : Mapping) : Prop := {
  mo_ports : ports_u16 m;
  mo_created : writes (created_at m);
  mo_updated : writes (updated_at m);
  mo_checked : opt_all writes (last_checked_at m);
}.
Record event_ok (e : Event) : Prop := { eo_id : i64_ok (e_id e); eo_created : writes (e_created_at e) }.
Record mock_ok (st : MockStore) : Prop := {
  mk_mappings_ok : Forall mapping_ok (mk_mappings st);
  mk_events_ok : Forall event_ok (mk_events st);
}.

(** Whatever the computation does, it keeps the store well-formed. *)
Definition keeps_ok {A} (m : MockIO A) : Prop := forall st w, mock_ok st -> mock_ok (m st w).1.2.

Lemma keeps_ret {A} (a : A) : keeps_ok (mret a).
Proof. by intros st w. Qed.
Lemma keeps_locked {A} (m : IO GatewayError A) : keeps_ok (locked m).
Proof. intros st w Hst. unfold locked. by destruct (m w). Qed.
Lemma keeps_store : keeps_ok mock_store.
Proof. by intros st w. Qed.
Lemma keeps_bind {A B} (m : MockIO A) (k : A -> MockIO B) :
  keeps_ok m -> (forall a, keeps_ok (k a)) -> keeps_ok (m ≫= k).
Proof.
  intros Hm Hk st w Hst. specialize (Hm st w Hst). unfold mbind, mock_bind.
  destruct (m st w) as [[[a|e|s] st'] w']; cbn in *; [by apply Hk|done..].
Qed.
Lemma keeps_bind_ok {A B} (m : MockIO A) (k : A -> MockIO B) (Q : A -> Prop) :
  keeps_ok m -> (forall st w a st' w', m st w = (Ret a, st', w') -> mock_ok st -> Q a) ->
  (forall a, Q a -> keeps_ok (k a)) -> keeps_ok (m ≫= k).
Proof.
  intros Hm HQ Hk st w Hst. specialize (Hm st w Hst). specialize (HQ st w). unfold mbind, mock_bind.
  destruct (m st w) as [[[a|e|s] st'] w']; cbn in *; [eapply Hk; eauto|done..].
Qed.
Lemma keeps_mappings ms : Forall mapping_ok ms -> keeps_ok (set_mappings ms).
Proof. intros Hms st w []. by split. Qed.
End invariant.

Section histories.
Context `{StoreLib} `{JsonLib} `{HttpLib} `{Env}.
(** The clock, and the moments a little before it, have texts. *)
Context (Hclock : forall h d, 0 <= d <= nanos 135 -> writes (env_now h - d)).

Lemma clock_writes {E} w now w' : (now_utc : IO E Time) w = (Ret now, w') -> forall d, 0 <= d <= nanos 135 -> writes (now - d).
Proof. intros [= <- <-]. apply Hclock. Qed.
Lemma writes_now now : (forall d, 0 <= d <= nanos 135 -> writes (now - d)) -> writes now.
Proof. intros Hn. specialize (Hn 0). rewrite Z.sub_0_r in Hn. apply Hn. vm_compute. split; discriminate. Qed.

Lemma keeps_clock {A} (k : Time -> MockIO A) : (forall now, writes now -> keeps_ok (k now)) -> keeps_ok (now ← locked now_utc; k now).
Proof.
  intros Hk. eapply keeps_bind_ok; [apply keeps_locked| |exact Hk]. intros st w now st' w' [= <- <- <-] _.
  apply writes_now, Hclock.
Qed.

Lemma keeps_tried {A} (r : Result string A) : keeps_ok (tried r).
Proof. apply keeps_locked. Qed.
Lemma keeps_encoded r : keeps_ok (encoded r).
Proof. repeat (apply keeps_bind; [apply keeps_tried|intros ?]). apply keeps_ret. Qed.

Lemma decoded_ports v r : decode_mock_create v = Some r -> opt_all u16_ok (cr_public_port r) /\ opt_all u16_ok (cr_target_port r).
Proof.
  unfold decode_mock_create. intros Hr. repeat match goal with
  | Hr : (_ ≫= _) = Some _ |- _ => apply bind_Some in Hr as (? & ? & Hr)
  end. injection Hr as <-. cbn. eauto using optional_port.
Qed.

Lemma keeps_create body : keeps_ok (mock_create body).
Proof.
  unfold mock_create. apply keeps_bind_ok with (Q := fun r => opt_all u16_ok (cr_public_port r) /\ opt_all u16_ok (cr_target_port r)).
  - apply keeps_tried.
  - intros st w r st' w' Hr _. unfold tried, locked, lift, from_str in Hr.
    destruct (json_read body) as [v|]; [|done]. cbn in Hr.
    destruct (decode_mock_create v) as [r'|] eqn:E; [|done]. injection Hr as -> _ _. by apply decoded_ports in E.
  - intros r Hr. apply keeps_clock. intros now Hnow. apply keeps_bind; [apply keeps_locked|intros uuid].
    cbn zeta. eapply keeps_bind_ok with (Q := mock_ok); [apply keeps_store|by intros st w a st' w' [= -> _ _]|].
    intros st [Hp _]. apply keeps_bind; [|intros ?; apply keeps_encoded]. apply keeps_mappings.
    apply Forall_app. split; [done|]. apply Forall_singleton. by split.
Qed.

Lemma keeps_switch index m on : mapping_ok m -> keeps_ok (mock_switch index m on).
Proof.
  intros []. unfold mock_switch. apply keeps_clock. intros now Hnow.
  eapply keeps_bind_ok with (Q := mock_ok); [apply keeps_store|by intros st w a st' w' [= -> _ _]|].
  intros st [Hp _]. apply keeps_bind; [|intros ?; apply keeps_encoded]. apply keeps_mappings. apply Forall_insert; [done|]. by split.
Qed.

Lemma keeps_action method i action : keeps_ok (handle_mapping_action method i action).
Proof.
  unfold handle_mapping_action.
  eapply keeps_bind_ok with (Q := mock_ok); [apply keeps_store|by intros st w a st' w' [= -> _ _]|].
  intros st [Hp _]. destruct (list_find _ _) as [[index m]|] eqn:E; [|apply keeps_ret].
  apply list_find_Some in E as (Hm & _ & _). assert (mapping_ok m) by (rewrite Forall_lookup in Hp; by eapply Hp).
  repeat case_bool_decide; first
    [ apply keeps_encoded | by apply keeps_switch | apply keeps_ret
    | apply keeps_bind; [by apply keeps_mappings, Forall_delete|intros ?; apply keeps_encoded] ].
Qed.

Lemma keeps_handle method path body : keeps_ok (handle method path body).
Proof.
  unfold handle. apply keeps_bind; [apply keeps_store|intros st].
  case_bool_decide; [apply keeps_create|]. case_bool_decide; [apply keeps_ret|].
  destruct (find _ _) as [[? answer]|]; [apply keeps_encoded|].
  destruct (mapping_action _) as [[i action]|]; [apply keeps_action|apply keeps_ret].
Qed.

(** Requests one after the other: method, path and body. *)
Fixpoint mock_run (requests : list (string * string * string)) (st : MockStore) (w : World) : MockStore * World :=
  match requests with
  | [] => (st, w)
  | (method, path, body) :: requests =>
      let '(_, st', w') := handle method path body st w in mock_run requests st' w'
  end.

Lemma mock_run_ok requests : forall st w, mock_ok st -> mock_ok (mock_run requests st w).1.
Proof.
  induction requests as [|[[method path] body] requests IH]; intros st w Hst; [done|]. cbn [mock_run].
  pose proof (keeps_handle method path body st w Hst) as Hk.
  destruct (handle method path body st w) as [[o st'] w']. by apply IH.
Qed.

Lemma mock_mapping_ok {E} seed w m w' :
  opt_all u16_ok (sd_public_port seed) -> opt_all u16_ok (sd_target_port seed) ->
  (mock_mapping seed : IO E Mapping) w = (Ret m, w') -> mapping_ok m.
Proof.
  intros Hp Ht. unfold mock_mapping. intros Hm. do 3 (apply bind_Ret in Hm as (? & ? & _ & Hm)).
  apply bind_Ret in Hm as (now & ? & Hnow & Hm). pose proof (writes_now _ (clock_writes _ _ _ Hnow)). do 2 (apply bind_Ret in Hm as (? & ? & _ & Hm)).
  apply bind_Ret in Hm as (checked & ? & Hchecked & Hm). cbn zeta in Hm.
  injection Hm as <- _. split; try done. apply (clock_writes _ _ _ Hchecked). vm_compute. split; discriminate.
Qed.
Lemma mock_event_ok {E} i level message data w e w' : 1 <= i <= 3 ->
  (mock_event i level message data : IO E Event) w = (Ret e, w') -> event_ok e.
Proof.
  unfold mock_event. intros Hi He. apply bind_Ret in He as (now & ? & Hnow & He). injection He as <- _.
  split; cbn; [unfold i64_ok; lia|]. apply (clock_writes _ _ _ Hnow). unfold nanos. lia.
Qed.

Lemma mock_new_ok {E} w st w' : (mock_new : IO E MockStore) w = (Ret st, w') -> mock_ok st.
Proof.
  unfold mock_new. intros Hn.
  apply bind_Ret in Hn as (mysql & w1 & Hm1%mock_mapping_ok & Hn); [|cbn; unfold u16_ok; lia..].
  apply bind_Ret in Hn as (web & w2 & Hm2%mock_mapping_ok & Hn); [|done..].
  apply bind_Ret in Hn as (e3 & w3 & He3%mock_event_ok & Hn); [|lia].
  apply bind_Ret in Hn as (e2 & w4 & He4%mock_event_ok & Hn); [|lia].
  apply bind_Ret in Hn as (e1 & w5 & He5%mock_event_ok & Hn); [|lia]. injection Hn as <- _.
  split; cbn [mk_mappings mk_events]; rewrite !Forall_cons; eauto using Forall_nil_2.
Qed.
End histories.

(** ** Theorems *)

Section served.
Context `{StoreLibLaws} `{JsonLaws} `{HttpLib} `{Env}.
Context (Hwrite : forall v, exists text, json_write v = Ok text).

Lemma time_written t : writes t -> exists v, time_json t = Ok v.
Proof. intros [s Hs]. unfold time_json. rewrite Hs. cbn. eauto. Qed.

Lemma collect_total {A B} (f : A -> Result string B) l :
  Forall (fun a => exists b, f a = Ok b) l -> exists bs, collect f l = Ok bs.
Proof.
  induction 1 as [|a l [b Hb] _ [bs IH]]; [by exists []|]. cbn. rewrite Hb. cbn. rewrite IH. cbn. eauto.
Qed.
Lemma mapping_written m : mapping_ok m -> exists v, mapping_value m = Ok v.
Proof.
  intros [_ [c Hc]%time_written [u Hu]%time_written Ho]. unfold mapping_value, mapping_json.
  assert (exists o, transpose_map time_json (last_checked_at m) = Ok o) as [o ->].
  { destruct (last_checked_at m) as [t|]; cbn; [|by eexists]. destruct (time_written t Ho) as [v ->]. cbn. eauto. }
  rewrite Hc, Hu. cbn. eauto.
Qed.
Lemma event_written e : event_ok e -> exists v, to_value <$> event_json e = Ok v.
Proof. intros [_ [c Hc]%time_written]. unfold event_json. rewrite Hc. cbn. eauto. Qed.

(** A value that is written and read back. *)
Lemma encoded_read {A} (d : Json -> option A) r v x st w :
  r = Ok v -> d v = Some x ->
  exists headers text, encoded r st w = (Ret (200, headers, text), st, w) /\ decode_json d 200 text = Ok x.
Proof.
  intros -> Hd. destruct (Hwrite v) as [text Hv]. do 2 eexists. split.
  - unfold encoded, encode_json, tried, locked, mbind, mock_bind, lift. cbn. rewrite Hv. cbn. reflexivity.
  - unfold decode_json. cbn. by rewrite (from_written d v text x).
Qed.

Lemma mock_read {A} (d : Json -> option A) state path st w r v x :
  st_api_token state = None ->
  find (fun a => bool_decide (a.1.1 = "GET") && bool_decide (a.1.2 = path)) (mock_answers st) = Some ("GET", path, r) ->
  default path (head (split "?"%char path)) = path ->
  r = Ok v -> d v = Some x -> mock_get_json d state path st w = (Ret x, st, w).
Proof.
  intros Ht Hf Hp Hr Hd. destruct (encoded_read d r v x st w Hr Hd) as (headers & text & He & Hx).
  unfold mock_get_json, mock_send_raw. rewrite Ht. unfold handle. rewrite Hp. unfold mock_store at 1.
  unfold mbind at 1 2, mock_bind at 1 2. rewrite Hf. rewrite !bool_decide_eq_false_2 by (by intros [? _]).
  rewrite He. unfold locked, lift. by rewrite Hx.
Qed.
End served.

(** Without a token for the agent, the pages get what they show from the mock:
    after any requests, it answers their readings with what its store holds, and
    the flows and mappings as the agent would show them. *)
Theorem mock_serves_pages `{StoreLibLaws} `{JsonLaws} `{HttpLib} `{Env} state requests w0 st0 w1 st w
    (Hwrite : forall v, exists text, json_write v = Ok text)
    (Hclock : forall h d, 0 <= d <= nanos 135 -> writes (env_now h - d))
    (Htoken : st_api_token state = None) (Hnew : (mock_new : IO GatewayError MockStore) w0 = (Ret st0, w1))
    (Hrun : mock_run requests st0 w1 = (st, w)) (Hlen : usize_ok (Z.of_nat (length (mk_mappings st)))) :
  mock_get_json (as_list decode_mapping) state "/v1/mappings" st w = (Ret (mk_mappings st), st, w) /\
  mock_get_json (as_list decode_event) state "/v1/events" st w = (Ret (mk_events st), st, w) /\
  mock_get_json decode_topology state "/v1/topology" st w =
    (Ret (mkTopology "ens3" "wt0" ["10.10.40.0/24"] (topology_flow <$> mk_mappings st)), st, w) /\
  mock_get_json decode_status_response state "/v1/status" st w =
    (Ret (mkStatusResponse "ens3" "wt0" ["10.10.30.0/24"; "10.10.40.0/24"; "10.10.50.0/24"] (length (mk_mappings st))
      (length (filter (fun m => enabled m = true) (mk_mappings st)))), st, w) /\
  mock_get_json decode_status state "/v1/netbird/status" st w = (Ret mock_netbird, st, w) /\
  mock_get_json (as_list as_string) state "/v1/netbird/networks" st w = (Ret ["10.10.40.0/24"], st, w) /\
  exists oci, mock_get_json decode_oci_status state "/v1/oci/status" st w = (Ret oci, st, w).
Proof.
  destruct (mock_run_ok Hclock requests st0 w1 (mock_new_ok Hclock _ _ _ Hnew)) as [Hmok Heok]. rewrite Hrun in Hmok, Heok.
  cbn in *.
  destruct (collect_total mapping_value (mk_mappings st)) as [ms Hms]; [exact (Forall_impl _ _ _ Hmok mapping_written)|].
  destruct (collect_total (fun e => to_value <$> event_json e) (mk_events st)) as [es Hes];
    [exact (Forall_impl _ _ _ Heok event_written)|].
  split_and!.
  - eapply (mock_read Hwrite); [done|reflexivity|done|unfold mappings_value; by rewrite Hms|].
    eapply collected_read; [|exact Hms]. eapply Forall_impl; [exact Hmok|]. intros m [Hm _ _ _] v. by apply mapping_value_read.
  - eapply (mock_read Hwrite); [done|reflexivity|done|unfold events_value; by rewrite Hes|].
    eapply collected_read; [|exact Hes]. eapply Forall_impl; [exact Heok|]. intros e [He _] v. by apply event_value_read.
  - eapply (mock_read Hwrite); [done|reflexivity|done|done|]. apply topology_value_read.
  - eapply (mock_read Hwrite); [done|reflexivity|done|done|]. by apply status_value_read.
  - eapply (mock_read Hwrite); [done|reflexivity|done|done|]. vm_compute. reflexivity.
  - eapply (mock_read Hwrite); [done|reflexivity|done|done|]. reflexivity.
  - eexists. eapply (mock_read Hwrite); [done|reflexivity|done|done|]. vm_compute. reflexivity.
Qed.

(** ** Witness *)

#[local] Existing Instance model_lib.
#[local] Existing Instance json_model.
#[local] Existing Instance http_model.
#[local] Existing Instance quiet_env.

Definition fresh_mock : MockStore :=
  match (mock_new : IO GatewayError MockStore) sample_world with (Ret st, _) => st | _ => mkMockStore [] [] end.
Lemma fresh_mock_run :
  (mock_new : IO GatewayError MockStore) sample_world =
    (Ret fresh_mock, ((mock_new : IO GatewayError MockStore) sample_world).2).
Proof. apply run_pair. vm_compute. reflexivity. Qed.

Definition mock_requests : list (string * string * string) :=
  [("POST", "/v1/mappings/map_112233445566/disable", ""); ("DELETE", "/v1/mappings/map_0a1b2c3d4e5f", "")].
Definition mock_end : MockStore * World :=
  mock_run mock_requests fresh_mock ((mock_new : IO GatewayError MockStore) sample_world).2.

Lemma mock_serves_pages_witness :
  (mock_get_json (as_list decode_mapping) (mkAppState "" None None) "/v1/mappings" mock_end.1 mock_end.2).1.1
    = Ret (mk_mappings mock_end.1) /\
  (fun m => (id m, enabled m)) <$> mk_mappings mock_end.1 = [("map_112233445566", false)].
Proof.
  split; [|vm_compute; reflexivity].
  assert (Hw : forall v, exists text, json_write v = Ok text) by (intros v; eexists; reflexivity).
  assert (Ht : forall h d, 0 <= d <= nanos 135 -> writes (env_now h - d)) by (intros h d _; eexists; reflexivity).
  assert (Hl : usize_ok (Z.of_nat (length (mk_mappings mock_end.1)))) by (vm_compute; split; [discriminate|reflexivity]).
  destruct (mock_serves_pages (H0 := model_lib_laws) (H2 := json_model_laws) (mkAppState "" None None) mock_requests _ _ _
    mock_end.1 mock_end.2 Hw Ht eq_refl fresh_mock_run (surjective_pairing _) Hl) as [Hm _].
  by rewrite Hm.
Defined.
