(* ===== verification/Html.v ===== *)
(** [edge-gateway/src/ui.rs]: the templates of the pages. A page is the tree that its
    [html!] template describes; the text of a tree, with its characters escaped, is
    [maud]'s. *)
From S2P Require Import Prelude Str BTree Net Core Validation State Sql World Store Nft Json Oci Netbird Api Wire Gateway Ui.
Local Open Scope Z_scope.

(** ** Markup *)

(** An attribute without a value is [None]. *)
Abbreviation Attr := (string * option string)%type.
#[local] Unset Elimination Schemes.
Inductive Node :=
  | Text (s : string)
  | Element (tag : string) (attrs : list Attr) (children : list Node).
#[local] Set Elimination Schemes.
Abbreviation Markup := (list Node).

Declare Scope html_scope.
Delimit Scope html_scope with html.
Open Scope html_scope.
Notation "a =: v" := (a%string, Some v%string) (at level 70) : html_scope.

Definition flag (a : string) : Attr := (a, None).
(** [tag attrs { parts }] and [tag attrs;] *)
Definition el (tag : string) (attrs : list Attr) (parts : list Markup) : Markup := [Element tag attrs (mjoin parts)].
Definition tx (s : string) : Markup := [Text s].
Definition num (n : nat) : Markup := tx (show_nat n).
(** An element around a text. *)
Definition lab (tag s : string) : Markup := el tag [] [tx s].
Definition lab_in (tag cls s : string) : Markup := el tag ["class" =: cls] [tx s].
(** [@for], [@if] and [@if let] *)
Definition each {A} (l : list A) (f : A -> Markup) : Markup := mjoin (f <$> l).
Definition when (b : bool) (m : Markup) : Markup := if b then m else [].
Definition given {A} (o : option A) (f : A -> Markup) : Markup := match o with Some a => f a | None => [] end.

(** The attributes of an element that replaces the view: the method, the path. *)
Definition hx (method path : string) : list Attr :=
  [(method, Some path); "hx-target" =: "#view"; "hx-swap" =: "innerHTML transition:true"].

(** ** Parts of pages *)

Definition page_head (title eyebrow : string) (actions : Markup) : Markup :=
  el "div" ["class" =: "page-head"] [
    el "div" [] [lab_in "p" "eyebrow" eyebrow; lab "h1" title];
    el "div" ["class" =: "actions"] [actions]].

Definition summary_item (label value meta : string) : Markup :=
  el "div" ["class" =: "summary-item"] [
    lab_in "span" "label" label; lab_in "strong" "mono" value; lab_in "span" "meta" meta].

Definition empty (message : string) : Markup := el "div" ["class" =: "empty"] [lab "p" message].
Definition error_card (message : string) : Markup :=
  el "div" ["class" =: "card error-card"] [
    el "div" ["class" =: "card-body"] [lab "h2" "Request failed"; lab "p" message]].
Definition status_pill (status : string) : Markup := lab_in "span" ("pill pill-" +:+ status) status.

Definition tab_button_class (active_tab tab : string) : string :=
  if bool_decide (active_tab = tab) then "sub-menu-item active" else "sub-menu-item".
Definition tab_panel_class (active_tab tab : string) : string :=
  if bool_decide (active_tab = tab) then "tool-tab-panel active" else "tool-tab-panel".
Definition is_active_tab (active_tab tab : string) : string :=
  if bool_decide (active_tab = tab) then "true" else "false".
Definition bool_text (value : bool) : string := if value then "configured" else "missing".

Definition endpoint (ip : option string) (port : option Z) : string :=
  match ip, port with
  | Some ip, Some port => ip +:+ ":" +:+ show_Z port
  | Some ip, None => ip
  | _, _ => "-"
  end.
Definition public_end (m : Mapping) : string := endpoint (show_ip <$> public_ip m) (public_port m).
Definition target_end (m : Mapping) : string := endpoint (Some (show_ip (target_ip m))) (target_port m).

(** A field of a form: its label and its control. *)
Definition field (label : string) (control : Markup) : Markup :=
  el "label" ["class" =: "field"] [lab "span" label; control].
Definition input (attrs : list Attr) : Markup := el "input" attrs [].
Definition choices (name : string) (values : list string) : Markup :=
  el "select" ["name" =: name] [each values (fun v => el "option" ["value" =: v] [tx v])].
Definition port_input (name : string) : Markup :=
  input ["name" =: name; "type" =: "number"; "min" =: "1"; "max" =: "65535"].
Definition confirm_field (word action : string) : Markup :=
  el "label" ["class" =: "field confirm-field"] [
    el "span" [] [tx ("Type " +:+ dquote); tx word; tx (dquote +:+ " to "); tx action];
    input ["name" =: "confirm"; flag "data-confirm-input"; "data-confirm-word" =: word; "autocomplete" =: "off";
      "placeholder" =: word]].
Definition refresh (path : string) : Markup := el "button" (("class" =: "btn") :: hx "hx-get" path) [tx "Refresh"].
Definition fact (term value : string) : Markup := lab "dt" term ++ lab "dd" value.
Definition fact_in (term cls value : string) : Markup := lab "dt" term ++ lab_in "dd" cls value.

(** The width of a bar is a part of the largest value, in percent. *)
Definition bar_max (values : list (string * nat)) : nat := Nat.max 1 (list_max (snd <$> values)).
Definition bar_width (value largest : nat) : nat := (value * 100 / largest)%nat.
Definition bar_chart (values : list (string * nat)) : Markup :=
  let largest := bar_max values in
  if forallb (fun v => Nat.eqb (snd v) 0) values then empty "No live data for this chart."
  else el "div" ["class" =: "bars"] [each values (fun '(label, value) =>
    el "div" ["class" =: "bar-row"] [
      lab_in "span" "bar-label" label;
      el "div" ["class" =: "bar-track"] [
        el "div" ["class" =: "bar-fill bar-fill-" +:+ label;
          "style" =: "width: " +:+ show_nat (bar_width value largest) +:+ "%"] []];
      el "strong" [] [num value]])].

Definition binding_diagrams (flows : list TopologyFlow) : Markup :=
  match flows with
  | [] => empty "No mapping binds configured."
  | _ => el "div" ["class" =: "bind-list"] [each flows (fun flow =>
      el "article" ["class" =: "bind-card"] [
        el "header" [] [
          lab "strong" (tf_name flow);
          el "span" ["class" =: "bind-meta"] [tx (tf_protocol flow); tx " / "; tx (tf_mode flow); tx " / ";
            tx (tf_backend flow)];
          status_pill (tf_status flow);
          when (negb (tf_enabled flow)) (status_pill "disabled")];
        el "div" ["class" =: "bind-path"] [
          lab "code" (tf_public_endpoint flow); lab "span" "->"; lab "code" (tf_edge_private_ip flow);
          lab "span" "->"; lab "code" (tf_target_endpoint flow)]])]
  end.

Definition new_mapping_dialog : Markup :=
  el "dialog" ["id" =: "new-mapping-dialog"; "class" =: "modal"] [el "div" ["class" =: "modal-box"] [
    el "header" [] [
      lab "h2" "New Mapping";
      el "button" ["class" =: "btn"; "type" =: "button"; "data-close-dialog" =: "new-mapping-dialog"] [tx "Close"]];
    el "form" (("class" =: "mapping-form") :: hx "hx-post" "/ui/mappings") [
      el "label" ["class" =: "field full"] [lab "span" "Name";
        input ["name" =: "name"; flag "required"; "placeholder" =: "mysql"]];
      field "Edge private IP" (input ["name" =: "edge_private_ip"; flag "required"; "placeholder" =: "10.0.0.101"]);
      field "Target IP" (input ["name" =: "target_ip"; flag "required"; "placeholder" =: "192.168.20.42"]);
      field "Public IP" (input ["name" =: "public_ip"; "placeholder" =: "optional"]);
      field "Public port" (port_input "public_port");
      field "Target port" (port_input "target_port");
      field "Protocol" (choices "protocol" ["all"; "tcp"; "udp"]);
      field "Mode" (choices "mode" ["one_to_one_snat"; "port_forward_snat"]);
      field "Backend" (choices "backend" ["nft"; "xdp"]);
      el "div" ["class" =: "modal-actions"] [
        el "button" ["class" =: "btn"; "type" =: "button"; "data-close-dialog" =: "new-mapping-dialog"] [tx "Cancel"];
        el "button" ["class" =: "primary"; "type" =: "submit"] [tx "Create Mapping"]]]]].

Definition inspect_dialog_id (m : Mapping) : string := "inspect-" +:+ id m.

Section pages.
(** The date and the time of day of a moment, from [time]. *)
Context (civil : Time -> Z * Z * Z * (Z * Z * Z)).
Abbreviation format_time := (show_time civil).

Definition inspect_mapping_dialog (m : Mapping) (flow : option TopologyFlow) : Markup :=
  let dialog_id := inspect_dialog_id m in
  let checked_at := default "-" (format_time <$> last_checked_at m) in
  el "dialog" ["id" =: dialog_id; "class" =: "modal modal-wide"] [el "div" ["class" =: "modal-box"] [
    el "header" [] [
      el "div" [] [lab "h2" "Inspect Mapping"; lab_in "p" "muted mono" (id m)];
      status_pill (wire (Core.status m));
      el "button" ["class" =: "btn"; "type" =: "button"; "data-close-dialog" =: dialog_id] [tx "Close"]];
    el "div" ["class" =: "inspect-body"] [
      el "div" ["class" =: "inspect-title"] [
        lab "h3" (name m);
        el "span" ["class" =: "muted"] [tx (wire (protocol m)); tx " / "; tx (wire (mode m)); tx " / ";
          tx (wire (backend m))]];
      el "div" ["class" =: "inspect-grid"] [
        el "dl" ["class" =: "facts compact"] [
          fact "Enabled" (if enabled m then "yes" else "no"); fact "Status" (wire (Core.status m));
          fact "Health" (default "-" (health_status m)); fact "Checked" checked_at];
        el "dl" ["class" =: "facts compact"] [
          fact_in "Public" "mono wrap" (public_end m); fact_in "Edge" "mono wrap" (show_ip (edge_private_ip m));
          fact_in "Target" "mono wrap" (target_end m); fact "Backend" (wire (backend m))];
        el "dl" ["class" =: "facts compact"] [
          fact_in "Public OCID" "mono wrap" (default "-" (oci_public_ip_ocid m));
          fact_in "Private OCID" "mono wrap" (default "-" (oci_private_ip_ocid m));
          fact "Created" (format_time (created_at m)); fact "Updated" (format_time (updated_at m))]];
      given (last_error m) (fun error =>
        el "div" ["class" =: "inspect-alert"] [lab "strong" "Last error"; lab "code" error]);
      match flow with
      | Some flow =>
          el "div" ["class" =: "inspect-path"] [
            el "div" ["class" =: "path-node"] [lab "span" "Public"; lab "code" (tf_public_endpoint flow)];
            lab_in "span" "path-arrow" "->";
            el "div" ["class" =: "path-node"] [lab "span" "Edge"; lab "code" (tf_edge_private_ip flow)];
            lab_in "span" "path-arrow" "->";
            el "div" ["class" =: "path-node"] [lab "span" "Target"; lab "code" (tf_target_endpoint flow)]]
      | None => empty "No topology bind found for this mapping."
      end]]].

Definition events_list (events : list Event) : Markup :=
  match events with
  | [] => empty "No events recorded."
  | _ => el "ol" ["class" =: "events"] [each events (fun event => el "li" [] [
      lab "time" (format_time (e_created_at event));
      lab_in "span" ("pill pill-" +:+ wire (e_level event)) (wire (e_level event));
      lab_in "span" "msg" (e_message event);
      given (e_data event) (lab "code")])]
  end.

Definition raw_log_markup (events : list Event) : Markup := each events (fun event =>
  el "span" ["class" =: "log-line"; "data-level" =: wire (e_level event)] [
    tx (format_time (e_created_at event)); tx " ";
    tx (wire (e_level event) +:+ concat_str (repeat " " (5 - String.length (wire (e_level event))))); tx " ";
    tx (e_message event);
    given (e_data event) (fun data => tx " " ++ tx data);
    tx newline]).

(** ** Pages *)

Definition peer_chart (healthy disconnected : nat) : Markup :=
  bar_chart (bt_insert "disconnected" disconnected (bt_insert "healthy" healthy [])).
Definition tool_link (page path title : string) : Markup :=
  el "a" (["class" =: "btn"; "href" =: path] ++ hx "hx-get" page ++ ["hx-push-url" =: path]) [tx title].
Definition logs_link (title : string) : Markup :=
  el "a" (("href" =: "/ui/logs") :: hx "hx-get" "/ui/logs") [tx title].
Definition enabled_count (mappings : list Mapping) : nat := length (filter (fun m => enabled m = true) mappings).

Definition dashboard_html (status : StatusResponse) (events : list Event) (netbird : option NetbirdStatus)
    (networks : list string) (statuses backends : list (string * nat)) (healthy unhealthy : nat)
    (alerts : list string) : Markup :=
  page_head "Dashboard" "Control plane state" (refresh "/ui/dashboard") ++
  el "div" ["class" =: "summary-row"] [
    summary_item "Mappings" (show_nat (sr_mappings status)) "total configured";
    summary_item "Enabled" (show_nat (sr_enabled_mappings status)) "active in store";
    summary_item "WAN" (sr_wan_interface status) "public interface";
    summary_item "Alerts" (show_nat (length alerts)) "live derived"] ++
  el "div" ["class" =: "dashboard-layout"] [
    el "section" ["class" =: "console-section health-section"] [
      el "header" [] [lab "h2" "Router Health"; lab_in "span" "muted" "live agent snapshot"];
      el "div" ["class" =: "status-strip vertical"] [
        el "div" [] [lab_in "span" "label" "NetBird";
          lab "strong" (default "unknown" (netbird ≫= nb_daemon_status)); lab "small" (sr_netbird_interface status)];
        el "div" [] [lab_in "span" "label" "Advertised Networks"; el "strong" [] [num (length networks)];
          lab "small" (join_or_dash networks)];
        el "div" [] [lab_in "span" "label" "Target CIDRs"; el "strong" [] [num (length (sr_target_cidrs status))];
          lab "small" (join_or_dash (sr_target_cidrs status))];
        el "div" [] [lab_in "span" "label" "Peers Healthy";
          el "strong" [] [num healthy; tx "/"; num (healthy + unhealthy)]; lab "small" "connected or idle"];
        el "div" [] [lab_in "span" "label" "Rule Coverage";
          el "strong" [] [num (sr_enabled_mappings status); tx "/"; num (sr_mappings status)];
          lab "small" "enabled mappings"]]];
    el "section" ["class" =: "console-section alert-section"] [
      el "header" [] [lab "h2" "Alerts"; logs_link "Logs"];
      el "div" ["class" =: "card-body"] [
        match alerts with
        | [] => el "div" ["class" =: "ok-block"] [lab "strong" "Nominal";
                  lab "span" "No live health alerts from available APIs."]
        | _ => el "ul" ["class" =: "alert-list"] [each alerts (fun alert =>
                  el "li" [] [status_pill "warn"; lab "span" alert])]
        end]];
    el "section" ["class" =: "console-section chart-card"] [
      el "header" [] [lab "h2" "Mapping Status"]; el "div" ["class" =: "card-body"] [bar_chart statuses]];
    el "section" ["class" =: "console-section chart-card"] [
      el "header" [] [lab "h2" "Routing Backends"]; el "div" ["class" =: "card-body"] [bar_chart backends]];
    el "section" ["class" =: "console-section chart-card"] [
      el "header" [] [lab "h2" "NetBird Peer State"];
      el "div" ["class" =: "card-body"] [peer_chart healthy unhealthy]];
    el "section" ["class" =: "console-section logs-preview"] [
      el "header" [] [lab "h2" "Recent Logs"; logs_link "View all"]; events_list (take 8 events)];
    el "section" ["class" =: "console-section ops-actions"] [
      el "header" [] [lab "h2" "Operations"];
      el "div" ["class" =: "card-body"] [el "div" ["class" =: "tool-links"] [
        tool_link "/ui/tools" "/tools" "Diagnostics"; tool_link "/ui/mappings" "/mappings" "Mappings";
        tool_link "/ui/netbird" "/netbird" "NetBird"; tool_link "/ui/reconcile" "/reconcile" "Reconcile"]]]].

(** The row of a mapping in the table. *)
Definition mapping_row (m : Mapping) : Markup :=
  let dialog_id := inspect_dialog_id m in
  el "tr" [] [
    el "td" [] [input ["type" =: "checkbox"; flag "data-row-select"; "data-dialog-id" =: dialog_id;
      "aria-label" =: "Select " +:+ name m]];
    el "td" [] [lab_in "strong" "clip" (name m); lab_in "span" "sub mono clip" (id m)];
    el "td" ["class" =: "mono clip"; "title" =: public_end m] [tx (public_end m)];
    el "td" ["class" =: "mono"] [tx (show_ip (edge_private_ip m))];
    el "td" ["class" =: "mono clip"; "title" =: target_end m] [tx (target_end m)];
    lab "td" (wire (protocol m)); lab "td" (wire (mode m)); lab "td" (wire (backend m));
    el "td" [] [status_pill (wire (Core.status m)); given (last_error m) (fun err =>
      el "span" ["class" =: "sub err clip"; "title" =: err] [tx err])];
    el "td" ["class" =: "actions-cell"] [el "div" ["class" =: "row nowrap"] [
      el "button" ["class" =: "btn"; "type" =: "button"; "title" =: "Inspect " +:+ name m;
        "data-open-dialog" =: dialog_id] [tx "Inspect"];
      if enabled m
      then el "button" (("class" =: "btn") :: hx "hx-post" ("/ui/mappings/" +:+ id m +:+ "/disable")) [tx "Disable"]
      else el "button" (("class" =: "btn") :: hx "hx-post" ("/ui/mappings/" +:+ id m +:+ "/enable")) [tx "Enable"];
      el "button" ((("class" =: "btn danger") :: hx "hx-delete" ("/ui/mappings/" +:+ id m)) ++
        ["hx-confirm" =: "Delete mapping " +:+ name m +:+ "?"]) [tx "Delete"]]]].

Definition mappings_table (mappings : list Mapping) : Markup :=
  el "div" ["class" =: "table-wrap mappings-wrap"] [el "table" ["class" =: "mappings-table"] [
    el "colgroup" [] [each ["col-select"; "col-name"; "col-endpoint"; "col-ip"; "col-endpoint"; "col-small";
      "col-mode"; "col-small"; "col-status"; "col-actions"] (fun c => el "col" ["class" =: c] [])];
    el "thead" [] [el "tr" [] [
      el "th" [] [input ["type" =: "checkbox"; flag "data-select-all"; "aria-label" =: "Select all mappings"]];
      each ["Name"; "Public"; "Edge"; "Target"; "Protocol"; "Mode"; "Backend"; "Status"; "Actions"] (lab "th")]];
    el "tbody" [] [each mappings mapping_row]]].

Definition mappings_html (mappings : list Mapping) (topology : option TopologyResponse) : Markup :=
  let flows := match topology with Some t => tr_flows t | None => [] end in
  page_head "Mappings" "NAT rules" (
    el "button" ["class" =: "primary"; "type" =: "button"; "data-open-dialog" =: "new-mapping-dialog"]
      [tx "New Mapping"] ++
    el "button" ["class" =: "btn"; "type" =: "button"; flag "data-bulk-action"; flag "disabled"] [tx "Bulk Actions"] ++
    el "button" ["class" =: "btn"; "type" =: "button"; flag "data-inspect-selected"; flag "disabled"] [tx "Inspect"] ++
    refresh "/ui/mappings") ++
  el "section" ["class" =: "console-section"] [
    el "div" ["class" =: "section-toolbar"] [
      el "div" [] [lab "h2" "Rules"; el "p" ["class" =: "muted"] [num (length mappings); tx " total, ";
        num (enabled_count mappings); tx " enabled"]];
      el "div" ["class" =: "row"] [
        el "span" ["class" =: "selection-count"; flag "data-selection-count"] [tx "0 selected"]]];
    match mappings with [] => empty "No mappings configured." | _ => mappings_table mappings end] ++
  given topology (fun t => el "section" ["class" =: "console-section section-spaced"] [
    el "header" [] [lab "h2" "Path"; el "span" ["class" =: "muted"] [tx (tr_wan_interface t); tx " -> ";
      tx (tr_netbird_interface t)]];
    binding_diagrams (tr_flows t)]) ++
  each mappings (fun m => inspect_mapping_dialog m (find (fun flow => bool_decide (tf_id flow = id m)) flows)) ++
  new_mapping_dialog.

Definition checkline (name : string) (checked : bool) (text : Markup) : Markup :=
  el "label" ["class" =: "checkline"] [
    input (["type" =: "checkbox"; "name" =: name] ++ (if checked then [flag "checked"] else []));
    el "span" [] [text]].
Definition submit (cls title : string) : Markup := el "button" ["class" =: cls; "type" =: "submit"] [tx title].

Definition reconcile_html (report : option ReconcileResponse) (ruleset : option string) : Markup :=
  page_head "Reconcile" "Validate, render, and apply desired state" [] ++
  el "div" ["class" =: "grid two"] [
    el "section" ["class" =: "card"] [
      el "header" [] [lab "h2" "Reconcile Options"];
      el "div" ["class" =: "card-body"] [el "form" (hx "hx-post" "/ui/reconcile") [
        checkline "dry_run" true (tx "Dry run" ++ lab "small" " no live apply");
        checkline "include_config" true (tx "Include nftables config");
        checkline "skip_linux" false (tx "Skip Linux address changes");
        checkline "skip_nft" false (tx "Skip nft apply");
        checkline "enable_xdp" false (tx "Enable XDP planning");
        field "XDP interface" (input ["name" =: "xdp_interface"; "placeholder" =: "ens3"]);
        field "XDP pin path" (input ["name" =: "xdp_pin_path"; "placeholder" =: "/sys/fs/bpf/edgeroute"]);
        el "div" ["class" =: "row"] [
          submit "primary" "Run Reconcile";
          el "button" (["class" =: "btn"; "type" =: "button"] ++ hx "hx-post" "/ui/reconcile/dry-run")
            [tx "Render Ruleset"]]]]];
    el "section" ["class" =: "card"] [
      el "header" [] [lab "h2" "Result"];
      el "div" ["class" =: "card-body"] [
        match report, ruleset with
        | Some report, _ =>
            el "dl" ["class" =: "facts"] [
              fact "Generation" (default "dry-run" (show_Z <$> rs_generation_id report));
              fact "Added addresses" (join_or_dash (rs_added_addresses report));
              fact "Removed addresses" (join_or_dash (rs_removed_addresses report));
              fact "XDP plan entries" (show_nat (rs_xdp_plan_entries report))] ++
            given (rs_nftables_config report) (lab_in "pre" "code")
        | None, Some ruleset => lab_in "pre" "code" ruleset
        | None, None => empty "Run reconcile or render a dry-run ruleset."
        end]]].

Definition topology_html (topology : TopologyResponse) : Markup :=
  page_head "Topology" "Live bind paths and routing shape" (refresh "/ui/topology") ++
  el "div" ["class" =: "summary-row"] [
    summary_item "WAN" (tr_wan_interface topology) "public side";
    summary_item "NetBird" (tr_netbird_interface topology) "private side";
    summary_item "Target CIDRs" (show_nat (length (tr_target_cidrs topology))) (join_or_dash (tr_target_cidrs topology));
    summary_item "Binds" (show_nat (length (tr_flows topology))) "configured flows"] ++
  el "section" ["class" =: "console-section section-spaced"] [
    el "header" [] [lab "h2" "Binding Diagrams"; lab_in "span" "muted" "public edge to private target"];
    binding_diagrams (tr_flows topology)].

Definition post_form (path : string) (parts : list Markup) : Markup := el "form" (hx "hx-post" path) parts.
(** A field that starts with a value of the configuration. *)
Definition preset (label name value : string) : Markup :=
  field label (input ["name" =: name; "value" =: value; "placeholder" =: "from config"]).
Definition mapping_choice (mappings : list Mapping) (shown : Mapping -> string) : Markup :=
  field "Mapping" (el "select" ["name" =: "mapping_id"; flag "required"] [each mappings (fun m =>
    el "option" ["value" =: id m] [tx (name m); tx " ("; tx (shown m); tx ")"])]).
Definition confirmed (cls title : string) : Markup :=
  el "button" ["class" =: cls; "type" =: "submit"; flag "data-confirm-submit"; flag "disabled"] [tx title].
Definition console (title meta : string) (parts : list Markup) : Markup :=
  el "section" ["class" =: "console-section section-spaced"] [
    el "header" [] (lab "h2" title :: if is_empty meta then [] else [lab_in "span" "muted" meta]);
    el "div" ["class" =: "split-layout oracle-split"] parts].

Definition allocation_forms (compartment vnic : string) (allocatable allocated : list Mapping) : Markup :=
  console "Allocation Control" "public IP to edge private IP to local target" [
    el "div" [] [lab "h3" "Allocate public + private IP";
      match allocatable with
      | [] => lab_in "p" "muted" "No unallocated mappings. Create a mapping first."
      | _ => post_form "/ui/oracle/allocate" [
          mapping_choice allocatable id;
          preset "Compartment OCID" "compartment_id" compartment;
          preset "VNIC OCID" "vnic_id" vnic;
          field "Display name" (input ["name" =: "display_name"; "placeholder" =: "defaults to mapping name"]);
          confirm_field "confirm" "allocate"; confirmed "primary" "Allocate"]
      end];
    el "div" [] [lab "h3" "Release allocation";
      match allocated with
      | [] => lab_in "p" "muted" "No allocated mappings to release."
      | _ => post_form "/ui/oracle/release" [
          mapping_choice allocated public_end;
          confirm_field "delete" "delete"; confirmed "danger" "Release (deletes OCI IPs)"]
      end]].

Definition inventory_forms (compartment vnic : string) : Markup :=
  console "VNIC and Inventory" "" [
    el "div" [] [lab "h3" "Forwarding VNIC check"; post_form "/ui/oracle/vnic-check" [
      preset "VNIC OCID" "vnic_id" vnic; submit "btn" "Check skip-source-dest-check"]];
    el "div" [] [lab "h3" "List reserved public IPs"; post_form "/ui/oracle/public-ips" [
      preset "Compartment OCID" "compartment_id" compartment; submit "btn" "List Public IPs"]]].

Definition nsg_forms (nsg : string) : Markup :=
  console "NSG Ingress Rules" "open the OCI firewall for a forward" [
    el "div" [] [lab "h3" "Add ingress rule"; post_form "/ui/oracle/nsg/add" [
      preset "NSG OCID" "nsg_id" nsg;
      field "Protocol" (choices "protocol" ["tcp"; "udp"; "all"]);
      field "Source CIDR" (input ["name" =: "source"; flag "required"; "value" =: "0.0.0.0/0"]);
      field "Port min" (port_input "port_min"); field "Port max" (port_input "port_max");
      field "Description" (input ["name" =: "description"; "placeholder" =: "EdgeRoute forward"]);
      confirm_field "confirm" "add"; confirmed "primary" "Add Rule"]];
    el "div" [] [lab "h3" "Remove ingress rules"; post_form "/ui/oracle/nsg/remove" [
      preset "NSG OCID" "nsg_id" nsg;
      field "Rule IDs" (input ["name" =: "rule_ids"; flag "required"; "placeholder" =: "comma or space separated"]);
      confirm_field "delete" "delete"; confirmed "danger" "Remove Rules"]]].

Definition oracle_html (oci : OciStatusView) (needs_api_key : bool) (compartment vnic nsg : string)
    (allocatable allocated : list Mapping) (result : option OracleResult) : Markup :=
  page_head "Oracle" "OCI CLI and allocation readiness" (refresh "/ui/oracle") ++
  given result (fun r =>
    el "section" ["class" =: "console-section section-spaced oracle-result " +:+ (if or_ok r then "ok" else "err")] [
      el "header" [] [el "h2" [] [tx (or_title r); tx " — "; tx (if or_ok r then "ok" else "failed")]];
      lab_in "pre" "code" (or_body r)]) ++
  el "div" ["class" =: "summary-row"] [
    summary_item "Auth Mode" (ov_auth_mode oci) "edge config";
    summary_item "Region" (default "-" (ov_region oci)) "OCI region";
    summary_item "OCI CLI" (if ov_cli_available oci then "available" else "missing/timeout")
      (default "no version" (ov_cli_version oci));
    summary_item "API Key Env" (if ov_api_key_env_ready oci then "ready" else "missing") "for api_key mode"] ++
  console "Configuration Readiness" "" [
    el "div" [] [lab "h3" "Edge Config"; el "dl" ["class" =: "facts"] [
      fact "Compartment" (bool_text (ov_compartment_id_configured oci));
      fact "VNIC" (bool_text (ov_vnic_id_configured oci));
      fact "Subnet" (bool_text (ov_subnet_id_configured oci));
      fact "NSGs" (show_nat (ov_nsg_count oci))]];
    el "div" [] [lab "h3" "API Key Env"; el "dl" ["class" =: "facts"] [
      fact "OCI_TENANCY_ID" (bool_text (oe_tenancy_id (ov_env oci)));
      fact "OCI_USER_ID" (bool_text (oe_user_id (ov_env oci)));
      fact "OCI_FINGERPRINT" (bool_text (oe_fingerprint (ov_env oci)));
      fact "OCI_PRIVATE_KEY_PATH" (bool_text (oe_private_key_path (ov_env oci)))]];
    el "div" [] [lab "h3" "What This Means";
      if needs_api_key
      then lab_in "p" "warn-text" "api_key mode is selected but required env vars are missing."
      else if bool_decide (ov_auth_mode oci = "instance_principal")
      then lab_in "p" "muted" "Instance principal works only when OCI CLI is configured to use it, usually on an OCI instance with proper dynamic-group policy."
      else lab_in "p" "muted" "OCI API key environment looks ready for direct API mode.";
      lab_in "pre" "code tight" (join newline ["oci setup config"; "# or for an OCI instance:";
        "oci --auth instance_principal iam region list"])]] ++
  allocation_forms compartment vnic allocatable allocated ++
  inventory_forms compartment vnic ++
  nsg_forms nsg.

Definition tab_button (active_tab tab title : string) : Markup :=
  el "button" ["type" =: "button"; "role" =: "tab"; "class" =: tab_button_class active_tab tab;
    "aria-selected" =: is_active_tab active_tab tab; "data-tab-target" =: tab] [tx title].
Definition tab_panel (active_tab tab title : string) (parts : list Markup) : Markup :=
  el "section" ["class" =: tab_panel_class active_tab tab; "data-tab-panel" =: tab] (lab "h2" title :: parts).

Definition tool_panels (status : StatusResponse) (mappings : list Mapping) (networks : list string)
    (active_tab : string) : list Markup := [
  tab_panel active_tab "validation" "Validation" [
    lab_in "p" "muted" "Check generated firewall state before anything is applied.";
    el "div" ["class" =: "tool-actions-block"] [
      el "button" (("class" =: "primary") :: hx "hx-post" "/ui/tools/dry-run") [tx "Validate Ruleset"];
      el "button" (("class" =: "btn") :: hx "hx-post" "/ui/tools/reconcile-check") [tx "Run Dry Reconcile"]]];
  tab_panel active_tab "reachability" "Reachability" [
    el "div" ["class" =: "tool-form-grid"] [
      post_form "/ui/tools/ping" [lab "h3" "ICMP Ping";
        field "Target IP" (input ["name" =: "target"; flag "required"; "placeholder" =: "100.64.0.1"]);
        submit "primary" "Ping Target"];
      post_form "/ui/tools/port-test" [lab "h3" "TCP Port";
        el "div" ["class" =: "tool-form-row"] [
          field "Target IP" (input ["name" =: "target"; flag "required"; "placeholder" =: "192.168.20.80"]);
          el "label" ["class" =: "field port-field"] [lab "span" "Port";
            input ["name" =: "port"; "type" =: "number"; "min" =: "1"; "max" =: "65535"; flag "required";
              "placeholder" =: "443"]]];
        submit "btn" "Test TCP Port"]]];
  tab_panel active_tab "capture" "Packet Capture" [
    post_form "/ui/tools/tcpdump" [
      el "div" ["class" =: "tool-form-row"] [
        field "Interface" (input ["name" =: "interface"; flag "required"; "value" =: sr_wan_interface status;
          "placeholder" =: "ens3"]);
        el "label" ["class" =: "field port-field"] [lab "span" "Packets";
          input ["name" =: "packets"; "type" =: "number"; "min" =: "1"; "max" =: "200"; "value" =: "25"]]];
      field "BPF filter" (input ["name" =: "filter"; "placeholder" =: "host 192.168.20.80 and tcp"]);
      submit "primary" "Run TCP Dump"]];
  tab_panel active_tab "inputs" "Route Inputs" [
    el "dl" ["class" =: "facts compact"] [
      fact_in "Advertised" "mono" (join_or_dash networks);
      fact "Enabled" (show_nat (enabled_count mappings));
      fact "Problems" (show_nat (length (filter (fun m : Mapping => wire (Core.status m) ∈ ["degraded"; "error"]) mappings)));
      fact_in "WAN" "mono" (sr_wan_interface status);
      fact_in "NetBird" "mono" (sr_netbird_interface status)]]].

Definition tools_html (status : StatusResponse) (mappings : list Mapping) (networks : list string)
    (result : option ToolResult) (active_tab : string) : Markup :=
  page_head "Tools" "Validate routing, reachability, and config state" (refresh "/ui/tools") ++
  el "div" ["class" =: "summary-row"] [
    summary_item "WAN" (sr_wan_interface status) "agent config";
    summary_item "NetBird IF" (sr_netbird_interface status) "agent config";
    summary_item "Networks" (show_nat (length networks)) "netbird advertised";
    summary_item "Mappings" (show_nat (length mappings)) "loaded from agent"] ++
  el "div" ["class" =: "tools-layout"; flag "data-tabs-scope"] [
    el "section" ["class" =: "console-section tool-console"] [
      el "header" [] [lab "h2" "Toolbox"; lab_in "span" "muted" "select one diagnostic mode"];
      el "div" ["class" =: "sub-menu"; "role" =: "tablist"; "aria-label" =: "Tool categories"] [
        tab_button active_tab "validation" "Validation"; tab_button active_tab "reachability" "Reachability";
        tab_button active_tab "capture" "Packet Capture"; tab_button active_tab "inputs" "Route Inputs"];
      el "div" ["class" =: "tool-panels"] (tool_panels status mappings networks active_tab)];
    el "section" ["class" =: "console-section result-pane"] [
      el "header" [] [lab "h2" "Result";
        given result (fun r => status_pill (if tool_ok r then "active" else "error"))];
      el "div" ["class" =: "card-body"] [
        match result with
        | Some r => lab "h3" (tool_title r) ++ lab_in "pre" "code" (tool_body r)
        | None => empty "Run a validation or diagnostic tool."
        end]]].

Definition peer_row (p : Peer) : Markup :=
  el "tr" [] [
    lab "td" (default "-" (peer_fqdn p));
    el "td" [] [status_pill (if is_healthy p then "active" else "error");
      lab "span" (default "unknown" (peer_status p))];
    lab_in "td" "mono" (default "-" (peer_netbird_ip p)); lab_in "td" "mono" (default "-" (peer_netbird_ipv6 p));
    lab_in "td" "mono wrap" (join_or_dash (peer_networks p))].

Definition netbird_html (status : NetbirdStatus) (networks : list string) (healthy disconnected : nat)
    (peer_states : list (string * nat)) : Markup :=
  page_head "NetBird" "Subnet router and peer state" (refresh "/ui/netbird") ++
  el "div" ["class" =: "summary-row"] [
    summary_item "Daemon" (default "unknown" (nb_daemon_status status)) "netbird status";
    summary_item "Peers" (show_Z (peers_total (nb_peers status))) "netbird nodes";
    summary_item "Healthy" (show_nat healthy) "connected or idle";
    summary_item "Networks" (show_nat (length networks)) "advertised subnets"] ++
  el "div" ["class" =: "tabs-strip"] [
    el "a" ["class" =: "active"; "href" =: "#netbird-overview"] [tx "Overview"];
    el "a" ["href" =: "#netbird-networks"] [tx "Networks"];
    el "a" ["href" =: "#netbird-peers"] [tx "Peers"]] ++
  el "section" ["id" =: "netbird-overview"; "class" =: "console-section section-spaced"] [
    el "header" [] [lab "h2" "Overview"; lab_in "span" "muted" "local node and peer health"];
    el "div" ["class" =: "split-layout"] [
      el "div" [] [lab "h3" "Local Node"; el "dl" ["class" =: "facts"] [
        fact "Host" (default "-" (nb_fqdn status));
        fact "Daemon" (default "unknown" (nb_daemon_status status));
        fact "NetBird IPv4" (default "-" (nb_netbird_ip status));
        fact "NetBird IPv6" (default "-" (nb_netbird_ipv6 status));
        fact "Interface" (if bool_decide (nb_uses_kernel_interface status = Some true)
                          then "kernel" else "userspace/unknown")]];
      el "div" [] [lab "h3" "Peer Availability"; peer_chart healthy disconnected];
      el "div" [] [lab "h3" "Peer Inventory"; bar_chart peer_states]]] ++
  el "section" ["id" =: "netbird-networks"; "class" =: "console-section section-spaced"] [
    el "header" [] [lab "h2" "Advertised Networks";
      el "span" ["class" =: "muted"] [num (length networks); tx " networks"]];
    match networks with
    | [] => empty "No routed networks reported by NetBird."
    | _ => el "div" ["class" =: "route-chips"] [each networks (lab "code")]
    end] ++
  el "section" ["id" =: "netbird-peers"; "class" =: "console-section"] [
    el "header" [] [lab "h2" "Peers";
      el "span" ["class" =: "muted"] [tx (show_Z (peers_total (nb_peers status))); tx " peers"]];
    el "div" ["class" =: "table-wrap"] [el "table" ["class" =: "stable-table"] [
      el "thead" [] [el "tr" [] [each ["Host"; "State"; "IPv4"; "IPv6"; "Networks"] (lab "th")]];
      el "tbody" [] [each (peers_details (nb_peers status)) peer_row]]]].

Definition log_filter (level title : string) : Markup :=
  el "button" ["class" =: "btn"; "type" =: "button"; "data-log-filter" =: level] [tx title].
Definition events_html (events : list Event) (level_counts : list (string * nat)) : Markup :=
  let count level := show_nat (default 0%nat (bt_get level level_counts)) in
  page_head "Logs" "Agent audit and reconcile log" (
    el "a" ["class" =: "btn"; "href" =: "/ui/logs/download"] [tx "Download"] ++
    el "button" ["class" =: "btn"; "type" =: "button"; flag "disabled";
      "title" =: "Requires edge-agent log rotation endpoint"] [tx "Roll"] ++
    refresh "/ui/logs") ++
  el "div" ["class" =: "summary-row compact-row"] [
    summary_item "Rows" (show_nat (length events)) "agent events";
    summary_item "Warn" (count "warn") "needs review";
    summary_item "Error" (count "error") "failed actions";
    summary_item "Source" "edge-agent" "event API"] ++
  el "section" ["class" =: "console-section log-console"] [
    el "header" [] [lab "h2" "Raw Event Stream"; lab_in "span" "muted" "newest first"];
    el "div" ["class" =: "log-toolbar"] [
      log_filter "all" "All"; log_filter "warn" "Warn"; log_filter "error" "Error";
      el "button" ["class" =: "btn"; "type" =: "button"; flag "data-copy-logs"] [tx "Copy"]];
    el "pre" ["class" =: "raw-log"; flag "data-raw-log"] [
      match events with [] => tx ("no events recorded" +:+ newline) | _ => raw_log_markup events end]].

Definition page_html (p : Page) : Markup :=
  match p with
  | PDashboard status _ events netbird networks statuses backends healthy unhealthy alerts =>
      dashboard_html status events netbird networks statuses backends healthy unhealthy alerts
  | PMappings mappings topology => mappings_html mappings topology
  | PReconcile report ruleset => reconcile_html report ruleset
  | PTopology topology => topology_html topology
  | POracle oci _ needs_api_key compartment vnic nsg allocatable allocated result =>
      oracle_html oci needs_api_key compartment vnic nsg allocatable allocated result
  | PTools status mappings networks result active_tab => tools_html status mappings networks result active_tab
  | PNetbird status networks healthy disconnected peer_states =>
      netbird_html status networks healthy disconnected peer_states
  | PEvents events level_counts => events_html events level_counts
  | PError message => error_card message
  end.
End pages.
