(* ===== verification/Routes.v ===== *)
(** [edge-gateway/src/main.rs], [ui.rs]: the routes of the gateway, the fields that its
    handlers read of a form, and what the elements of the pages ask for: requests,
    the submissions of forms, dialogs and places on the page. *)
From Stdlib Require Import Ascii.
From S2P Require Import Prelude Str BTree Net Core Validation State Sql World Store Nft Json Oci Netbird Api Wire Gateway Ui Html.
Local Open Scope Z_scope.

(** ** Routes *)

Inductive Handler :=
  | HIndex | HHealth | HStatus | HProxy | HDashboard | HMappings | HCreate | HEnable | HDisable | HDelete
  | HReconcile | HRunReconcile | HDryRun | HTools | HPing | HPortTest | HTcpdump | HToolsDryRun | HToolsCheck
  | HTopology | HOracle | HAllocate | HRelease | HVnicCheck | HPublicIps | HNsgAdd | HNsgRemove | HNetbird
  | HEvents | HDownloadLogs.
#[export] Instance Handler_eq_dec : EqDecision Handler.
Proof. solve_decision. Defined.

(** The pattern of the path, the method ([any] is [ANY]) and the handler. *)
Definition routes : list (string * string * Handler) := [
  ("/", "GET", HIndex); ("/dashboard", "GET", HIndex); ("/mappings", "GET", HIndex); ("/tools", "GET", HIndex);
  ("/topology", "GET", HIndex); ("/oracle", "GET", HIndex); ("/reconcile", "GET", HIndex);
  ("/netbird", "GET", HIndex); ("/logs", "GET", HIndex); ("/healthz", "GET", HHealth); ("/status", "GET", HStatus);
  ("/api/{*path}", "ANY", HProxy); ("/ui/dashboard", "GET", HDashboard);
  ("/ui/mappings", "GET", HMappings); ("/ui/mappings", "POST", HCreate);
  ("/ui/mappings/{id}/enable", "POST", HEnable); ("/ui/mappings/{id}/disable", "POST", HDisable);
  ("/ui/mappings/{id}", "DELETE", HDelete);
  ("/ui/reconcile", "GET", HReconcile); ("/ui/reconcile", "POST", HRunReconcile);
  ("/ui/reconcile/dry-run", "POST", HDryRun); ("/ui/tools", "GET", HTools); ("/ui/tools/ping", "POST", HPing);
  ("/ui/tools/port-test", "POST", HPortTest); ("/ui/tools/tcpdump", "POST", HTcpdump);
  ("/ui/tools/dry-run", "POST", HToolsDryRun); ("/ui/tools/reconcile-check", "POST", HToolsCheck);
  ("/ui/topology", "GET", HTopology); ("/ui/oracle", "GET", HOracle); ("/ui/oracle/allocate", "POST", HAllocate);
  ("/ui/oracle/release", "POST", HRelease); ("/ui/oracle/vnic-check", "POST", HVnicCheck);
  ("/ui/oracle/public-ips", "POST", HPublicIps); ("/ui/oracle/nsg/add", "POST", HNsgAdd);
  ("/ui/oracle/nsg/remove", "POST", HNsgRemove); ("/ui/netbird", "GET", HNetbird); ("/ui/events", "GET", HEvents);
  ("/ui/logs", "GET", HEvents); ("/ui/logs/download", "GET", HDownloadLogs)].

(** A path that a pattern matches, with a plain text for a parameter: letters, digits,
    [-] and [_] stand for themselves in a path. *)
Definition plain_char (c : ascii) : bool :=
  is_ascii_alphanumeric c || existsb (Ascii.eqb c) ["-"; "_"]%char.
Definition plain_text (s : string) : Prop := is_empty s = false /\ all_bytes plain_char s = true.
Definition segment_matches (pattern segment : string) : Prop :=
  if starts_with "{" pattern then plain_text segment else segment = pattern.
Definition path_matches (pattern path : string) : Prop :=
  Forall2 segment_matches (split "/"%char pattern) (split "/"%char path).
Definition routed (method path : string) (h : Handler) : Prop :=
  exists pattern, (pattern, method, h) ∈ routes /\ path_matches pattern path.

(** *** Forms, as [axum::Form] reads them *)

Abbreviation Pairs := (list (string * string)).

(** The number of a field, which [serde_urlencoded] parses. *)
Class FormLib := form_u16 : string -> option Z.
Class FormLaws `{FormLib} : Prop := form_u16_text : forall z, u16_ok z -> form_u16 (show_Z z) = Some z.

Definition values_of (name : string) (form : Pairs) : list string := snd <$> filter (fun p => p.1 = name) form.
(** A field of type [String] and one of type [Option<String>]; no field comes twice. *)
Definition text_field (name : string) (form : Pairs) : option string :=
  match values_of name form with [v] => Some v | _ => None end.
Definition opt_field (name : string) (form : Pairs) : option (option string) :=
  match values_of name form with [] => Some None | [v] => Some (Some v) | _ => None end.

Section forms.
Context `{FormLib}.
Definition u16_field (name : string) (form : Pairs) : option Z := text_field name form ≫= form_u16.
Definition opt_u16_field (name : string) (form : Pairs) : option (option Z) :=
  v ← opt_field name form;
  match v with Some v => Some <$> form_u16 v | None => Some None end.

(** What a handler of the pages is called with: the parameter of the path, the form. *)
Definition form_call (h : Handler) (param : option string) (form : Pairs) : option UiCall :=
  match h with
  | HIndex | HHealth | HStatus | HProxy | HDownloadLogs => None
  | HDashboard => Some UDashboard | HMappings => Some UMappings | HReconcile => Some UReconcile
  | HDryRun => Some UDryRun | HTools => Some UTools | HToolsDryRun => Some UToolsDryRun
  | HToolsCheck => Some UToolsCheck | HTopology => Some UTopology | HOracle => Some UOracle
  | HNetbird => Some UNetbird | HEvents => Some UEvents
  | HEnable => UEnable <$> param | HDisable => UDisable <$> param | HDelete => UDelete <$> param
  | HCreate =>
      name ← text_field "name" form; public_ip ← opt_field "public_ip" form;
      edge_private_ip ← text_field "edge_private_ip" form; target_ip ← text_field "target_ip" form;
      public_port ← opt_field "public_port" form; target_port ← opt_field "target_port" form;
      mode ← text_field "mode" form; protocol ← text_field "protocol" form; backend ← text_field "backend" form;
      Some (UCreate (mkCreateForm name public_ip edge_private_ip target_ip public_port target_port mode protocol backend))
  | HRunReconcile =>
      dry_run ← opt_field "dry_run" form; skip_linux ← opt_field "skip_linux" form;
      skip_nft ← opt_field "skip_nft" form; include_config ← opt_field "include_config" form;
      enable_xdp ← opt_field "enable_xdp" form; xdp_interface ← opt_field "xdp_interface" form;
      xdp_pin_path ← opt_field "xdp_pin_path" form;
      Some (URunReconcile (mkReconcileForm dry_run skip_linux skip_nft include_config enable_xdp xdp_interface xdp_pin_path))
  | HPing => UPing <$> text_field "target" form
  | HPortTest => target ← text_field "target" form; port ← u16_field "port" form; Some (UPortTest target port)
  | HTcpdump =>
      interface ← text_field "interface" form; filter ← opt_field "filter" form;
      packets ← opt_u16_field "packets" form; Some (UTcpdump interface filter packets)
  | HAllocate =>
      mapping_id ← text_field "mapping_id" form; compartment_id ← opt_field "compartment_id" form;
      vnic_id ← opt_field "vnic_id" form; display_name ← opt_field "display_name" form;
      confirm ← text_field "confirm" form;
      Some (UAllocate (mkAllocateForm mapping_id compartment_id vnic_id display_name confirm))
  | HRelease =>
      mapping_id ← opt_field "mapping_id" form; public_ip_id ← opt_field "public_ip_id" form;
      private_ip_id ← opt_field "private_ip_id" form; confirm ← text_field "confirm" form;
      Some (URelease (mkReleaseForm mapping_id public_ip_id private_ip_id confirm))
  | HVnicCheck => UVnicCheck <$> opt_field "vnic_id" form
  | HPublicIps => UPublicIps <$> opt_field "compartment_id" form
  | HNsgAdd =>
      nsg_id ← opt_field "nsg_id" form; protocol ← text_field "protocol" form; source ← text_field "source" form;
      port_min ← opt_field "port_min" form; port_max ← opt_field "port_max" form;
      description ← opt_field "description" form; confirm ← text_field "confirm" form;
      Some (UNsgAdd (mkNsgAddForm nsg_id protocol source port_min port_max description confirm))
  | HNsgRemove =>
      nsg_id ← opt_field "nsg_id" form; rule_ids ← text_field "rule_ids" form; confirm ← text_field "confirm" form;
      Some (UNsgRemove (mkNsgRemoveForm nsg_id rule_ids confirm))
  end.
End forms.

(** ** What a page offers *)

(** An element with those inside it. *)
Fixpoint nodes (n : Node) : list Node :=
  n :: match n with Text _ => [] | Element _ _ children => flat_map nodes children end.
Definition page_nodes (m : Markup) : list Node := flat_map nodes m.

Definition attr (a : string) (attrs : list Attr) : option string :=
  match find (fun x => bool_decide (x.1 = a)) attrs with Some (_, v) => v | None => None end.
Definition has_attr (a : string) (attrs : list Attr) : bool := existsb (fun x => bool_decide (x.1 = a)) attrs.
Definition attrs_of (n : Node) : list Attr := match n with Text _ => [] | Element _ attrs _ => attrs end.

(** The requests that an element makes: its method and path. A reference to a place
    on the page is none. *)
Definition requests (attrs : list Attr) : list (string * string) :=
  option_list ((fun p => ("GET", p)) <$> attr "hx-get" attrs) ++
  option_list ((fun p => ("POST", p)) <$> attr "hx-post" attrs) ++
  option_list ((fun p => ("DELETE", p)) <$> attr "hx-delete" attrs) ++
  match attr "href" attrs with Some p => if starts_with "#" p then [] else [("GET", p)] | None => [] end.

(** The places that an element refers to: dialogs that it opens or closes, and anchors. *)
Definition references (attrs : list Attr) : list string :=
  option_list (attr "data-open-dialog" attrs) ++ option_list (attr "data-close-dialog" attrs) ++
  option_list (attr "data-dialog-id" attrs) ++ option_list (attr "href" attrs ≫= strip_prefix "#").

(** The controls of a form that a browser submits, and what they submit. *)
Inductive Control :=
  | Entry (name : string)
  | Box (name : string)
  | Choice (name : string)
  | Number (name : string) (lo hi : Z) (needed : bool).
Definition bound (a : string) (attrs : list Attr) (z : Z) : Z :=
  match attr a attrs with Some s => match parse_u16 s with Ok n => n | Err _ => z end | None => z end.
Definition control (tag : string) (attrs : list Attr) : option Control :=
  name ← attr "name" attrs;
  if bool_decide (tag = "select") then Some (Choice name)
  else if bool_decide (tag = "input") then Some
    match attr "type" attrs with
    | Some "checkbox" => Box name
    | Some "number" => Number name (bound "min" attrs 0) (bound "max" attrs 65535) (has_attr "required" attrs)
    | _ => Entry name
    end
  else None.
Fixpoint controls (n : Node) : list Control :=
  match n with
  | Text _ => []
  | Element tag attrs children =>
      match control tag attrs with Some c => [c] | None => flat_map controls children end
  end.

(** A number is typed in decimal, or left out where it may be. *)
Definition submits (c : Control) (form : Pairs) : Prop :=
  match c with
  | Entry name | Choice name => exists v, form = [(name, v)]
  | Box name => form = [] \/ form = [(name, "on")]
  | Number name lo hi needed =>
      exists v, form = [(name, v)] /\
        (needed = false /\ v = "" \/ exists z, lo <= z <= hi /\ v = show_Z z)
  end.
Definition submission (cs : list Control) (form : Pairs) : Prop :=
  exists parts, Forall2 submits cs parts /\ form = mjoin parts.
(** ** Lemmas on the nodes of a page *)

Lemma page_nodes_app a b : page_nodes (a ++ b) = page_nodes a ++ page_nodes b.
Proof. apply flat_map_app. Qed.

(** Every node of the markup satisfies [P]. *)
Definition every (P : Node -> Prop) (m : Markup) : Prop := Forall P (page_nodes m).

Section every.
Context (P : Node -> Prop).

Lemma every_nil : every P [].
Proof. constructor. Qed.
Lemma every_app a b : every P (a ++ b) <-> every P a /\ every P b.
Proof. unfold every. by rewrite page_nodes_app, Forall_app. Qed.
Lemma every_join ms : every P (mjoin ms) <-> Forall (every P) ms.
Proof.
  induction ms as [|m ms IH]; cbn [mjoin list_join]; [by split; constructor|].
  by rewrite every_app, IH, Forall_cons.
Qed.
Lemma every_el tag attrs parts : P (Element tag attrs (mjoin parts)) -> Forall (every P) parts -> every P (el tag attrs parts).
Proof.
  intros HP Hparts. unfold every, page_nodes, el. cbn [flat_map nodes]. rewrite List.app_nil_r. constructor; [done|].
  by apply every_join.
Qed.
Lemma every_tx s : P (Text s) -> every P (tx s).
Proof. intros. by repeat constructor. Qed.
Lemma every_each {A} (l : list A) f : (forall x, x ∈ l -> every P (f x)) -> every P (each l f).
Proof. intros Hf. apply every_join, Forall_fmap, Forall_forall. exact Hf. Qed.
Lemma every_given {A} (o : option A) f : (forall x, o = Some x -> every P (f x)) -> every P (given o f).
Proof. destruct o; cbn; [auto|constructor]. Qed.
Lemma every_when b m : every P m -> every P (when b m).
Proof. destruct b; [done|constructor]. Qed.
End every.

Ltac head_of m := lazymatch m with ?f _ => head_of f | _ => m end.
Create HintDb html.
(** Walks down a template, with [tac] for the nodes. *)
Ltac walk_step tac :=
  first [solve [auto 4 with html nocore] | lazymatch goal with
  | |- every _ [] => apply every_nil
  | |- every _ (_ ++ _) => apply every_app; split
  | |- every _ (el _ _ _) => apply every_el; [tac|]
  | |- every _ (tx _) => apply every_tx; tac
  | |- every _ (each _ _) => apply every_each; intros ? ?
  | |- every _ (given _ _) => apply every_given; intros ? ?
  | |- every _ (when _ _) => apply every_when
  | |- every _ (match ?x with _ => _ end) => destruct x eqn:?
  | |- every _ (let _ := _ in _) => cbv zeta
  | |- Forall (every _) (match ?x with _ => _ end) => destruct x eqn:?
  | |- Forall (every _) [] => constructor
  | |- Forall (every _) (_ :: _) => constructor
  | |- every _ ?m => let h := head_of m in unfold h
  | |- Forall (every _) ?m => let h := head_of m in unfold h
  end].
Ltac walk tac := repeat walk_step tac.

(** ** Requests *)

(** A literal path of the table. *)
Definition routed_literal (method path : string) : bool :=
  forallb (fun s => negb (starts_with "{" s)) (split "/"%char path) &&
  existsb (fun '(pattern, m, _) => bool_decide (pattern = path) && bool_decide (m = method)) routes.

Lemma routed_literal_ok method path : routed_literal method path = true -> exists h, routed method path h.
Proof.
  unfold routed_literal. intros [Hs [[[pattern m] h] [Hin Hb]]%existsb_exists]%andb_true_iff.
  apply andb_true_iff in Hb as [->%bool_decide_eq_true ->%bool_decide_eq_true].
  exists h, path. split; [by apply list_elem_of_In|]. apply Forall_Forall2_diag, Forall_forall.
  intros s Hin'. rewrite forallb_forall in Hs. specialize (Hs s). unfold segment_matches.
  rewrite <- list_elem_of_In in Hs. apply Hs in Hin'. by destruct (starts_with "{" s).
Qed.

Definition offers (n : Node) : Prop :=
  Forall (fun r => exists h, routed r.1 r.2 h) (requests (attrs_of n)).

Lemma offers_literals n :
  forallb (fun r => routed_literal r.1 r.2) (requests (attrs_of n)) = true -> offers n.
Proof.
  rewrite forallb_forall. intros Hall. apply Forall_forall. intros r Hr%list_elem_of_In.
  by apply routed_literal_ok, Hall.
Qed.
Ltac offer := apply offers_literals; vm_compute; reflexivity.

Lemma plain_no_slash s : plain_text s -> "/"%char ∉ chars s.
Proof.
  intros [_ Hall] Hin. unfold all_bytes in Hall. rewrite forallb_forall in Hall.
  apply list_elem_of_In, Hall in Hin. vm_compute in Hin. discriminate Hin.
Qed.
Lemma plain_segment s : plain_text s -> segment_matches "{id}" s.
Proof. done. Qed.

Lemma split_after c s r : c ∉ chars s -> split c (s +:+ String c r) = s :: split c r.
Proof.
  intros Hc. unfold split. rewrite chars_app. change (chars (String c r)) with (c :: chars r).
  rewrite split_l_app by done. cbn. by rewrite of_chars_chars.
Qed.
Lemma split_whole c s : c ∉ chars s -> split c s = [s].
Proof. intros Hc. unfold split. rewrite split_l_no_sep by done. cbn. by rewrite of_chars_chars. Qed.

(** The paths of a mapping. *)
Lemma split_mapping i : plain_text i -> split "/"%char ("/ui/mappings/" +:+ i) = [""; "ui"; "mappings"; i].
Proof.
  intros Hi%plain_no_slash.
  change ("/ui/mappings/" +:+ i) with ("" +:+ String "/" ("ui" +:+ String "/" ("mappings" +:+ String "/" i))).
  rewrite !split_after by (refine (bool_decide_unpack _ _); vm_compute; exact I). by rewrite split_whole.
Qed.
Lemma split_mapping_action i a : plain_text i -> plain_text a ->
  split "/"%char ("/ui/mappings/" +:+ i +:+ "/" +:+ a) = [""; "ui"; "mappings"; i; a].
Proof.
  intros Hi%plain_no_slash Ha%plain_no_slash.
  change ("/ui/mappings/" +:+ i +:+ "/" +:+ a)
    with ("" +:+ String "/" ("ui" +:+ String "/" ("mappings" +:+ String "/" (i +:+ String "/" a)))).
  rewrite !split_after by (first [assumption | refine (bool_decide_unpack _ _); vm_compute; exact I]). by rewrite split_whole.
Qed.

Lemma segment_same s : starts_with "{" s = false -> segment_matches s s.
Proof. unfold segment_matches. by intros ->. Qed.
Ltac matched :=
  match goal with |- Forall2 _ (split ?c ?p) _ => let l := eval vm_compute in (split c p) in change (split c p) with l end;
  repeat first [apply Forall2_nil_2 | apply Forall2_cons; split; [first [apply segment_same; reflexivity | by apply plain_segment]|]].

Lemma routed_mapping i : plain_text i ->
  routed "DELETE" ("/ui/mappings/" +:+ i) HDelete /\
  routed "POST" ("/ui/mappings/" +:+ i +:+ "/enable") HEnable /\
  routed "POST" ("/ui/mappings/" +:+ i +:+ "/disable") HDisable.
Proof.
  intros Hi. split_and!.
  - exists "/ui/mappings/{id}". split; [by apply (list_elem_of_lookup_2 _ 17)|].
    unfold path_matches. rewrite (split_mapping i Hi). matched.
  - exists "/ui/mappings/{id}/enable". split; [by apply (list_elem_of_lookup_2 _ 15)|].
    pose proof (split_mapping_action i "enable" Hi ltac:(done)) as Hp. change ("/" +:+ "enable") with "/enable" in Hp.
    unfold path_matches. rewrite Hp. matched.
  - exists "/ui/mappings/{id}/disable". split; [by apply (list_elem_of_lookup_2 _ 16)|].
    pose proof (split_mapping_action i "disable" Hi ltac:(done)) as Hp. change ("/" +:+ "disable") with "/disable" in Hp.
    unfold path_matches. rewrite Hp. matched.
Qed.

Lemma offers_one n method path h : requests (attrs_of n) = [(method, path)] -> routed method path h -> offers n.
Proof. unfold offers. intros -> Hr. repeat constructor. by exists h. Qed.

Lemma offers_row m : plain_text (id m) -> every offers (mapping_row m).
Proof.
  intros Hi. destruct (routed_mapping (id m) Hi) as (Hd & He & Hs). unfold mapping_row. cbv zeta.
  walk ltac:(first [offer | by eapply offers_one; [reflexivity|eassumption]]).
Qed.
#[local] Hint Resolve offers_row : html.

(** The mappings of which a page shows rows. *)
Definition page_rows (p : Page) : list Mapping := match p with PMappings mappings _ => mappings | _ => [] end.

Lemma offers_page civil p : Forall (fun m => plain_text (id m)) (page_rows p) -> every offers (page_html civil p).
Proof.
  rewrite Forall_forall. intros Hp. destruct p; cbn [page_html page_rows] in *; walk ltac:(offer).
Qed.

(** ** References *)

(** The places that a page has. *)
Definition places (m : Markup) : list string := omap (fun n => attr "id" (attrs_of n)) (page_nodes m).

Definition refers (places : list string) (n : Node) : Prop := Forall (fun r => r ∈ places) (references (attrs_of n)).

Lemma refers_literals l n : forallb (fun r => bool_decide (r ∈ l)) (references (attrs_of n)) = true -> refers l n.
Proof.
  rewrite forallb_forall. intros Hall. apply Forall_forall. intros r Hr%list_elem_of_In.
  by eapply bool_decide_eq_true, Hall.
Qed.
Lemma refers_none l n : references (attrs_of n) = [] -> refers l n.
Proof. unfold refers. intros ->. constructor. Qed.
Ltac refer := first [apply refers_none; vm_compute; reflexivity | apply refers_literals; vm_compute; reflexivity].

Lemma refers_mono l k n : l ⊆ k -> refers l n -> refers k n.
Proof. intros Hs Hn. eapply Forall_impl; [exact Hn|]. intros r. apply Hs. Qed.
Lemma refers_one l n r : references (attrs_of n) = [r] -> r ∈ l -> refers l n.
Proof. unfold refers. intros ->. by repeat constructor. Qed.

Lemma places_app a b : places (a ++ b) = places a ++ places b.
Proof. unfold places. by rewrite page_nodes_app, omap_app. Qed.
Lemma places_each {A} (l : list A) f x r : x ∈ l -> r ∈ places (f x) -> r ∈ places (each l f).
Proof.
  intros Hx Hr. induction Hx as [|x y l Hx IH]; unfold each; cbn [fmap list_fmap mjoin list_join];
    rewrite places_app; apply elem_of_app; [by left|right]. by apply IH.
Qed.
Lemma places_head tag attrs parts r : attr "id" attrs = Some r -> r ∈ places (el tag attrs parts).
Proof. intros Hr. unfold places, el. cbn. rewrite Hr. left. Qed.

Lemma refers_row l m : inspect_dialog_id m ∈ l -> every (refers l) (mapping_row m).
Proof.
  intros Hi. unfold mapping_row. cbv zeta.
  walk ltac:(first [refer | by eapply refers_one; [reflexivity|exact Hi]]).
Qed.
#[local] Hint Resolve refers_row : html.

Lemma refers_inspect l civil m flow : inspect_dialog_id m ∈ l -> every (refers l) (inspect_mapping_dialog civil m flow).
Proof.
  intros Hi. unfold inspect_mapping_dialog. cbv zeta.
  walk ltac:(first [refer | by eapply refers_one; [reflexivity|exact Hi]]).
Qed.
#[local] Hint Resolve refers_inspect : html.

Definition anchors : list string := ["netbird-overview"; "netbird-networks"; "netbird-peers"].
(** The places that the elements of a page refer to. *)
Definition referred (p : Page) : list string :=
  match p with
  | PMappings mappings _ => "new-mapping-dialog" :: (inspect_dialog_id <$> mappings)
  | PNetbird _ _ _ _ _ => anchors
  | _ => []
  end.

Lemma refers_page civil p : every (refers (referred p)) (page_html civil p).
Proof.
  assert (Hm : forall mappings m, m ∈ mappings -> inspect_dialog_id m ∈ "new-mapping-dialog" :: (inspect_dialog_id <$> mappings)).
  { intros. right. by apply list_elem_of_fmap_2. }
  assert (Hd : forall l : list string, "new-mapping-dialog" ∈ "new-mapping-dialog" :: l) by left.
  destruct p; cbn [page_html referred];
    walk ltac:(first [refer | by eapply refers_one; [reflexivity|apply Hd]]).
Qed.

Lemma referred_places civil p : referred p ⊆ places (page_html civil p).
Proof.
  intros r. destruct p; cbn [referred page_html]; try by intros []%not_elem_of_nil.
  - unfold mappings_html. cbv zeta. rewrite !places_app, !elem_of_app.
    intros [->|(m & -> & Hm)%list_elem_of_fmap]%elem_of_cons.
    + do 4 right. by apply places_head.
    + do 3 right; left. eapply places_each; [exact Hm|]. by apply places_head.
  - unfold netbird_html. rewrite !places_app, !elem_of_app. unfold anchors. rewrite !elem_of_cons.
    intros [->|[->|[->|[]%not_elem_of_nil]]]; [do 3 right; left | do 4 right; left | do 5 right]; by apply places_head.
Qed.

(** ** Forms *)

Section submissions.
Context `{FormLaws}.

(** What is typed into a form is read by the handler that the form is sent to; the number
    of packets is not left out. *)
Definition form_read (attrs : list Attr) (cs : list Control) : Prop :=
  exists path h, attr "hx-post" attrs = Some path /\ routed "POST" path h /\
    forall form, submission cs form -> ("packets", "") ∉ form -> exists call, form_call h None form = Some call.
Definition reads (n : Node) : Prop :=
  forall attrs children, n = Element "form" attrs children -> form_read attrs (flat_map controls children).

Lemma form_read_intro attrs cs path h :
  attr "hx-post" attrs = Some path -> bool_decide ((path, "POST", h) ∈ routes) = true ->
  forallb (fun s => negb (starts_with "{" s)) (split "/"%char path) = true ->
  (forall parts, Forall2 submits cs parts -> ("packets", "") ∉ (mjoin parts : Pairs) ->
    exists call, form_call h None (mjoin parts) = Some call) ->
  form_read attrs cs.
Proof.
  intros Ha Hr%bool_decide_eq_true Hs Hc. exists path, h. split; [done|]. split.
  - exists path. split; [done|]. apply Forall_Forall2_diag, Forall_forall. intros s Hin%list_elem_of_In.
    rewrite forallb_forall in Hs. apply Hs in Hin. apply segment_same. by destruct (starts_with "{" s).
  - intros form (parts & Hp & ->). by apply Hc.
Qed.

Lemma number_read lo hi needed v :
  0 <= lo -> hi < 65536 -> (needed = false /\ v = "" \/ exists z, lo <= z <= hi /\ v = show_Z z) ->
  (needed = false -> v <> "") -> exists z, form_u16 v = Some z.
Proof.
  intros Hlo Hhi [[Hn ->]|(z & Hz & ->)] Hne; [by destruct (Hne Hn)|]. exists z. apply form_u16_text. unfold u16_ok. lia.
Qed.

Ltac controls_of := match goal with |- forall parts, Forall2 submits ?cs parts -> _ =>
  let l := eval vm_compute in cs in change cs with l end.
Ltac typed := match goal with
  | H : Forall2 submits (_ :: _) _ |- _ => apply Forall2_cons_inv_l in H as (? & ? & ? & ? & ->)
  | H : Forall2 submits [] _ |- _ => apply Forall2_nil_inv_l in H as ->
  | H : submits (Entry _) _ |- _ => destruct H as [? ->]
  | H : submits (Choice _) _ |- _ => destruct H as [? ->]
  | H : submits (Box _) _ |- _ => destruct H as [->| ->]
  | H : submits (Number _ _ _ _) _ |- _ => destruct H as (? & -> & ?)
  end.
(** The form at [path]. *)
Ltac read_at h := eapply (form_read_intro _ _ _ h); [reflexivity|vm_compute; reflexivity|vm_compute; reflexivity|];
  controls_of; intros parts Hparts Hpackets; repeat typed.

(** The handler of a form. *)
Definition post_handler (attrs : list Attr) : Handler :=
  match find (fun r => bool_decide (Some r.1.1 = attr "hx-post" attrs) && bool_decide (r.1.2 = "POST")) routes with
  | Some (_, _, h) => h
  | None => HIndex
  end.
Ltac read_form := match goal with |- form_read ?attrs _ =>
  let h := eval vm_compute in (post_handler attrs) in read_at h end.
Ltac reads_node := intros ? ? [=]; try subst; try (read_form; eexists; vm_compute; reflexivity).

Lemma create_read : every reads new_mapping_dialog.
Proof. unfold new_mapping_dialog. walk ltac:(reads_node). Qed.
Lemma reconcile_read report ruleset : every reads (reconcile_html report ruleset).
Proof. unfold reconcile_html. walk ltac:(reads_node). Qed.
Lemma allocation_read compartment vnic allocatable allocated :
  every reads (allocation_forms compartment vnic allocatable allocated).
Proof. unfold allocation_forms. walk ltac:(reads_node). Qed.
Lemma inventory_read compartment vnic : every reads (inventory_forms compartment vnic).
Proof. unfold inventory_forms. walk ltac:(reads_node). Qed.
Lemma nsg_read nsg : every reads (nsg_forms nsg).
Proof. unfold nsg_forms. walk ltac:(reads_node). Qed.
Lemma tools_read status mappings networks active_tab :
  Forall (every reads) (tool_panels status mappings networks active_tab).
Proof.
  unfold tool_panels. walk ltac:(reads_node).
  - read_form. match goal with Hn : true = false /\ _ \/ _ |- _ =>
      apply number_read in Hn as [z Hz]; [|lia|lia|done] end.
    eexists. unfold form_u16 in Hz. vm_compute. rewrite Hz. reflexivity.
  - read_form. match goal with Hn : false = false /\ ?v = "" \/ _ |- _ =>
      apply number_read in Hn as [z Hz]; [|lia|lia|intros _ ->; apply Hpackets; vm_compute; set_solver] end.
    eexists. unfold form_u16 in Hz. vm_compute. rewrite Hz. reflexivity.
Qed.
#[local] Hint Resolve create_read reconcile_read allocation_read inventory_read nsg_read tools_read : html.

Lemma reads_page civil p : every reads (page_html civil p).
Proof. destruct p; cbn [page_html]; walk ltac:(intros ? ? [=]). Qed.
End submissions.

(** ** Theorems *)

(** The requests that the elements of the markup make. *)
Definition offered (m : Markup) : list (string * string) := flat_map (fun n => requests (attrs_of n)) (page_nodes m).

Lemma offered_row m :
  offered (mapping_row m) =
    [("POST", "/ui/mappings/" +:+ id m +:+ if enabled m then "/disable" else "/enable"); ("DELETE", "/ui/mappings/" +:+ id m)].
Proof. unfold mapping_row. destruct (enabled m), (last_error m); vm_compute; reflexivity. Qed.

(** C30: every request that an element of a page makes is one of the routes of the
    gateway, when the ids of the mappings on it are plain texts; and the row of a
    mapping makes two: the one that switches it, which is routed to its
    enabling just when it is disabled, and its deletion. *)
Theorem pages_offer_routes civil p (Hplain : Forall (fun m => plain_text (id m)) (page_rows p)) :
  Forall (fun r => exists h, routed r.1 r.2 h) (offered (page_html civil p)) /\
  Forall (fun m => exists switch delete, offered (mapping_row m) = [switch; delete] /\
    routed switch.1 switch.2 (if enabled m then HDisable else HEnable) /\ routed delete.1 delete.2 HDelete) (page_rows p).
Proof.
  split.
  - apply Forall_forall. intros r Hr%list_elem_of_In. apply in_flat_map in Hr as (n & Hn%list_elem_of_In & Hr%list_elem_of_In).
    pose proof (offers_page civil p Hplain) as Ho.
    unfold every in Ho. rewrite Forall_forall in Ho. specialize (Ho n Hn). unfold offers in Ho. rewrite Forall_forall in Ho. by apply Ho.
  - eapply Forall_impl; [exact Hplain|]. intros m Hm. cbn in Hm.
    destruct (routed_mapping (id m) Hm) as (Hd & He & Hs). eexists _, _. split; [apply offered_row|].
    split; [|exact Hd]. cbn [fst snd]. by destruct (enabled m).
Qed.

(** C29: a form of a page is sent to a route whose handler reads what the form submits,
    whatever is typed into its controls: every field that the handler needs is
    there, once, and its numbers are numbers. The exception is the number of
    packets of a capture when it is left out. *)
Theorem page_forms_call `{FormLaws} civil p attrs children
    (Hform : Element "form" attrs children ∈ page_nodes (page_html civil p)) :
  exists path h, attr "hx-post" attrs = Some path /\ routed "POST" path h /\
    forall form, submission (flat_map controls children) form -> ("packets", "") ∉ form ->
      exists call, form_call h None form = Some call.
Proof.
  pose proof (reads_page civil p) as Hr. unfold every in Hr. rewrite Forall_forall in Hr.
  by destruct (Hr _ Hform _ _ eq_refl) as (path & h & ?); exists path, h.
Qed.

(** The dialogs that the elements of a page open or close, and the places that its
    links lead to, are on the page. *)
Theorem page_references_resolve civil p :
  Forall (fun n => Forall (fun r => r ∈ places (page_html civil p)) (references (attrs_of n)))
    (page_nodes (page_html civil p)).
Proof.
  eapply Forall_impl; [exact (refers_page civil p)|]. intros n. apply refers_mono. apply referred_places.
Qed.

(** ** Witnesses *)

#[local] Instance form_model : FormLib := fun s => result_ok (parse_u16 s).
#[local] Instance form_model_laws : FormLaws.
Proof. intros z Hz. unfold form_u16, form_model. by rewrite parse_show_u16. Qed.

Definition sample_civil (_ : Time) : Z * Z * Z * (Z * Z * Z) := (2024, 5, 6, (7, 8, 9)).

Definition sample_page : Page := PMappings sample_mappings None.
Lemma pages_offer_routes_witness :
  length (offered (page_html sample_civil sample_page)) = 6%nat /\
  (exists h, routed "DELETE" "/ui/mappings/a" h) /\
  exists switch delete, offered (mapping_row (sample_mapping "b" (ip4 10 0 0 6) (ip4 192 168 20 2))) = [switch; delete] /\
    routed switch.1 switch.2 HDisable /\ routed delete.1 delete.2 HDelete.
Proof.
  assert (Hp : Forall (fun m => plain_text (id m)) (page_rows sample_page)) by (repeat constructor).
  destruct (pages_offer_routes sample_civil sample_page Hp) as [Ho Hrows]. split; [vm_compute; reflexivity|]. split.
  - rewrite Forall_forall in Ho. apply (Ho ("DELETE", "/ui/mappings/a")).
    apply (list_elem_of_lookup_2 _ 2). vm_compute. reflexivity.
  - rewrite Forall_forall in Hrows. apply (Hrows (sample_mapping "b" (ip4 10 0 0 6) (ip4 192 168 20 2))).
    apply (list_elem_of_lookup_2 _ 1). vm_compute. reflexivity.
Defined.

Definition sample_tools : Page :=
  PTools (mkStatusResponse "ens3" "wt0" [] 0 0) [] [] None "capture".
(** The form of the capture. *)
Definition capture_form : Node :=
  match filter (fun n => attr "hx-post" (attrs_of n) = Some "/ui/tools/tcpdump")
    (page_nodes (page_html sample_civil sample_tools)) with n :: _ => n | [] => Text "" end.
Definition capture_entries : Pairs := [("interface", "ens3"); ("packets", "25"); ("filter", "tcp port 443")].

Lemma page_forms_call_witness :
  exists attrs children path h call, capture_form = Element "form" attrs children /\
    attr "hx-post" attrs = Some path /\ routed "POST" path h /\ form_call h None capture_entries = Some call.
Proof.
  assert (Hin : capture_form ∈ page_nodes (page_html sample_civil sample_tools)).
  { apply (list_elem_of_lookup_2 _ 95). vm_compute. reflexivity. }
  destruct capture_form as [|tag attrs children] eqn:E; [vm_compute in E; discriminate E|].
  assert (tag = "form") as -> by (vm_compute in E; congruence).
  destruct (page_forms_call sample_civil sample_tools attrs children Hin) as (path & h & Hpath & Hr & Hc).
  destruct (Hc capture_entries) as [call Hcall].
  - exists [[("interface", "ens3")]; [("packets", "25")]; [("filter", "tcp port 443")]]. split; [|reflexivity].
    vm_compute in E. injection E as <- <-. vm_compute.
    repeat (apply Forall2_cons; split); try apply Forall2_nil_2; try (eexists; reflexivity).
    eexists. split; [reflexivity|right]. exists 25. split; [split; discriminate|reflexivity].
  - refine (bool_decide_unpack _ _). vm_compute. exact I.
  - exists attrs, children, path, h, call. done.
Defined.
