(* ===== verification/Serve.v ===== *)
(** [edge-agent/src/api.rs] as a server: its table of routes, what a request is taken
    for, and the answer that goes back. *)
From Stdlib Require Import Ascii.
From S2P Require Import Prelude Str Utf8 BTree Net Core Validation State Sql World Store Nft Json Oci Netbird Api Wire Gateway Ui Html Routes.
Local Open Scope Z_scope.

(** ** The server *)

(** [axum]: the text of a parameter of a path, the fields of a query, whether a
    content type is JSON, the answer to a request that does not match; and the error
    that [hyper] reports when the other end goes away. *)
Class AxumLib := {
  path_param : string -> option string;
  query_fields : string -> option Pairs;
  json_type : string -> bool;
  rejected : HttpRequest -> HttpResponse;
  connection_closed : string;
}.
Class AxumLaws `{AxumLib} : Prop := {
  path_param_plain s : plain_text s -> path_param s = Some s;
  json_type_plain : json_type "application/json" = true;
  rejected_status rq : is_success_status (rp_status (rejected rq)) = false;
}.

Inductive Route :=
  | RStatus | RListMappings | RCreateMapping | RGetMapping | RDeleteMapping | REnableMapping | RDisableMapping
  | RDryRunApply | RReconcile | RNetbirdStatus | RNetbirdNetworks | REvents | RAnalytics | RTopology | ROciStatus
  | ROciAllocate | ROciRelease | ROciVnicCheck | ROciPublicIps | ROciNsgAdd | ROciNsgRemove.

Definition agent_routes : list (string * string * Route) := [
  ("/v1/status", "GET", RStatus); ("/v1/mappings", "GET", RListMappings); ("/v1/mappings", "POST", RCreateMapping);
  ("/v1/mappings/{id}", "GET", RGetMapping); ("/v1/mappings/{id}", "DELETE", RDeleteMapping);
  ("/v1/mappings/{id}/enable", "POST", REnableMapping); ("/v1/mappings/{id}/disable", "POST", RDisableMapping);
  ("/v1/apply/dry-run", "POST", RDryRunApply); ("/v1/reconcile", "POST", RReconcile);
  ("/v1/netbird/status", "GET", RNetbirdStatus); ("/v1/netbird/networks", "GET", RNetbirdNetworks);
  ("/v1/events", "GET", REvents); ("/v1/analytics", "GET", RAnalytics); ("/v1/topology", "GET", RTopology);
  ("/v1/oci/status", "GET", ROciStatus); ("/v1/oci/allocate", "POST", ROciAllocate);
  ("/v1/oci/release", "POST", ROciRelease); ("/v1/oci/vnic/check", "GET", ROciVnicCheck);
  ("/v1/oci/public-ips", "GET", ROciPublicIps); ("/v1/oci/nsg/add", "POST", ROciNsgAdd);
  ("/v1/oci/nsg/remove", "POST", ROciNsgRemove)].

(** The parameters of a path that has the form of a pattern: its segments are those of
    the pattern, any that is not empty for a parameter. *)
Fixpoint path_captures (pattern path : list string) : option (list string) :=
  match pattern, path with
  | [], [] => Some []
  | p :: pattern, s :: path =>
      if starts_with "{" p then if is_empty s then None else cons s <$> path_captures pattern path
      else if bool_decide (p = s) then path_captures pattern path else None
  | _, _ => None
  end.
Definition route_of (method path : string) : option (Route * list string) :=
  let segments := split "/"%char path in
  head (omap (fun '(pattern, m, route) =>
    if bool_decide (m = method) then pair route <$> path_captures (split "/"%char pattern) segments else None)
    agent_routes).

Section serve.
Context `{Ipnet} `{StoreLib} `{JsonLib} `{HttpLib} `{AxumLib} `{Env}.
Context (vars : string -> bool) (config : EdgeConfig).

Definition header_values (name : string) (rq : HttpRequest) : list string :=
  snd <$> filter (fun l => l.1 = name) (World.rq_headers rq).
(** [headers.get(AUTHORIZATION).and_then(|value| value.to_str().ok())] *)
Definition authorization (rq : HttpRequest) : option string := head (header_values "authorization" rq) ≫= value_to_str.

(** The extractors: [Json], [Path] and [Query]. *)
Definition json_request {A} (d : Json -> option A) (rq : HttpRequest) : option A :=
  content_type ← head (header_values "content-type" rq);
  if json_type content_type then result_ok (from_str d (World.rq_body rq)) else None.
Definition path_request (captures : list string) : option string := head captures ≫= path_param.
Definition query_request (name query : string) : option (option string) := fields ← query_fields query; opt_field name fields.

(** The call that a request to a route is. *)
Definition route_call (route : Route) (captures : list string) (query : string) (rq : HttpRequest) : option Call :=
  match route with
  | RStatus => Some CStatus | RListMappings => Some CListMappings | RDryRunApply => Some CDryRunApply
  | RNetbirdStatus => Some CNetbirdStatus | RNetbirdNetworks => Some CNetbirdNetworks | REvents => Some CEvents
  | RAnalytics => Some CAnalytics | RTopology => Some CTopology | ROciStatus => Some COciStatus
  | RGetMapping => CGetMapping <$> path_request captures | RDeleteMapping => CDeleteMapping <$> path_request captures
  | REnableMapping => CEnableMapping <$> path_request captures
  | RDisableMapping => CDisableMapping <$> path_request captures
  | RCreateMapping => CCreateMapping <$> json_request decode_create rq
  | RReconcile => CReconcile <$> json_request decode_reconcile rq
  | ROciAllocate => COciAllocate <$> json_request decode_allocate rq
  | ROciRelease => COciRelease <$> json_request decode_release rq
  | ROciNsgAdd => COciNsgAdd <$> json_request decode_nsg_add rq
  | ROciNsgRemove => COciNsgRemove <$> json_request decode_nsg_remove rq
  | ROciVnicCheck => COciVnicCheck <$> query_request "vnic_id" query
  | ROciPublicIps => COciPublicIps <$> query_request "compartment_id" query
  end.
(** From the path and the query of the address. *)
Definition call_of (rq : HttpRequest) : option Call :=
  target ← strip_prefix "http://edge-agent" (World.rq_uri rq);
  let '(path, query) := default (target, "") (split_once "?"%char target) in
  '(route, captures) ← route_of (World.rq_method rq) path;
  route_call route captures query rq.

Definition text_response (status : Z) (text : string) : HttpReply :=
  HttpAnswered (mkHttpResponse status [("content-type", "text/plain; charset=utf-8")] (Ok text)).
(** A handler that panics takes its connection with it. *)
Definition respond (o : Out ApiError Answer) : HttpReply :=
  match o with
  | Ret (AText s) => text_response 200 s
  | Ret a =>
      match answer_body a with
      | Ok text => HttpAnswered (mkHttpResponse 200 [("content-type", "application/json")] (Ok text))
      | Err m => text_response 500 m
      end
  | Fail e => text_response (api_status e) (api_message e)
  | Panicked _ => HttpFailed connection_closed
  end.

Definition serve (rq : HttpRequest) (w : World) : HttpReply * World :=
  match call_of rq with
  | None => (HttpAnswered (rejected rq), w)
  | Some c => let '(o, w') := router vars config (authorization rq) c w in (respond o, w')
  end.

(** The agent after the requests of a history of the gateway. *)
Definition agent_after (start : World) (h : History) : World :=
  foldl (fun w e => match e with EHttp rq _ => (serve rq w).2 | _ => w end) start h.
End serve.
