(* ===== verification/Served.v ===== *)
(** What the requests to the agent keep: whatever is sent to it, the mappings in its
    database stay valid under its configuration. *)
From Stdlib Require Import Ascii.
From S2P Require Import Prelude Str Utf8 BTree Net Core Validation State Sql World Store Nft Xdp Linux Reconcile Json Oci Netbird Api Wire Gateway Ui Html Routes Serve.
Local Open Scope Z_scope.

(** The database holds valid mappings, none of which clash, if it did before. *)
Definition keeps_valid `{Ipnet} `{StoreLib} (c : EdgeConfig) (w w' : World) : Prop :=
  seq_inv c (w_db w) -> seq_inv c (w_db w').
#[export] Instance keeps_valid_preorder `{Ipnet} `{StoreLib} c : PreOrder (keeps_valid c).
Proof. split; [intros w|intros w1 w2 w3]; unfold keeps_valid; auto. Qed.

(** The mappings read back, and pass the validation that rendering starts with. *)
Definition reads_valid `{Ipnet} `{StoreLib} (c : EdgeConfig) (db : Db) : Prop :=
  exists ms, collect row_to_mapping (merge_sort row_le (db_mappings db)) = Ok ms /\ validate_mappings ms c = Ok tt.

(** A result that has a property, when there is one. *)
Definition returns `{Env} {E A} (m : IO E A) (Q : A -> Prop) : Prop := forall w a w', m w = (Ret a, w') -> Q a.
Lemma preserves_bind_returns `{Env} {E A B} R `{!PreOrder R} (m : IO E A) (k : A -> IO E B) Q :
  preserves R m -> returns m Q -> (forall a, Q a -> preserves R (k a)) -> preserves R (m ≫= k).
Proof.
  intros Hm HQ Hk w. specialize (Hm w). specialize (HQ w). unfold mbind, io_bind.
  destruct (m w) as [[a|e|s] w1]; [|done..]. etrans; [exact Hm|]. apply Hk. eauto.
Qed.

Section kept.
Context `{Ipnet} `{StoreLibLaws} `{JsonLib} `{Alone} (c : EdgeConfig).

(** ** Operations *)

Lemma kept_query {A} (q : Db -> A) : preserves (keeps_valid c) (sql_query q).
Proof.
  intros w Hinv. unfold sql_query. cbn zeta. rewrite interfere_alone. by destruct (env_sql_fault _).
Qed.
Lemma kept_now {E} : preserves (keeps_valid c) (now_utc : IO E Time).
Proof. by intros w Hinv. Qed.
Lemma kept_uuid {E} : preserves (keeps_valid c) (fresh_uuid : IO E string).
Proof. by intros w Hinv. Qed.
Lemma kept_command {E} prog args : preserves (keeps_valid c) (run_command prog args : IO E CmdReply).
Proof. by intros w Hinv. Qed.
Lemma kept_connect {E} ip port : preserves (keeps_valid c) (tcp_connect ip port : IO E TcpReply).
Proof. by intros w Hinv. Qed.
Lemma kept_fs op : preserves (keeps_valid c) (fs_do op).
Proof. intros w Hinv. unfold fs_do. cbn zeta. by repeat case_match. Qed.
#[local] Hint Resolve kept_query kept_now kept_uuid kept_command kept_connect kept_fs : io.

Lemma kept_safe {A} (m : IO EdgeCoreError A) :
  (forall w, seq_inv c (w_db w) -> wp m w (safe c)) -> preserves (keeps_valid c) m.
Proof. intros Hm w Hinv. exact (Hm w Hinv). Qed.
Lemma kept_enabled i en : preserves (keeps_valid c) (set_mapping_enabled i en).
Proof. apply kept_safe. intros w. apply set_mapping_enabled_safe. Qed.
Lemma kept_health i st h e : preserves (keeps_valid c) (set_mapping_health i st h e).
Proof. apply kept_safe. intros w. apply set_mapping_health_safe. Qed.
Lemma kept_get i : preserves (keeps_valid c) (Store.get_mapping i).
Proof. apply kept_safe. intros w. apply get_mapping_safe. Qed.
Lemma kept_delete i : preserves (keeps_valid c) (Store.delete_mapping i).
Proof. apply kept_safe. intros w. apply delete_mapping_safe. Qed.
Lemma kept_generation st cfg ap er : preserves (keeps_valid c) (Store.record_generation st cfg ap er).
Proof. apply kept_safe. intros w. apply record_generation_safe. Qed.
Lemma kept_event lv msg data : preserves (keeps_valid c) (Store.record_event lv msg data).
Proof. apply kept_safe. intros w. apply record_event_safe. Qed.
Lemma kept_insert m : mapping_wf m -> preserves (keeps_valid c) (Store.insert_mapping m).
Proof.
  intros Hwf. apply kept_safe. intros w Hinv. eapply (config_ports c m w); [done..|reflexivity|].
  intros Hp. apply insert_mapping_safe; [done|apply Hwf|done].
Qed.
Lemma kept_update m : mapping_wf m -> preserves (keeps_valid c) (Store.update_mapping m).
Proof.
  intros Hwf. apply kept_safe. intros w Hinv. eapply (config_ports c m w); [done..|reflexivity|].
  intros Hp. apply update_mapping_safe; [done|apply Hwf|done].
Qed.
#[local] Hint Resolve kept_enabled kept_health kept_get kept_delete kept_generation kept_event kept_insert kept_update : io.

#[local] Ltac step :=
  first
    [ by eauto with io
    | apply preserves_bind; [apply _| |intros ?] | apply preserves_map_err | apply preserves_try
    | apply preserves_lift; apply _ | apply preserves_from_out; apply _
    | apply preserves_ret; apply _ | apply preserves_fail; apply _
    | case_match ].
#[local] Ltac steps := repeat step.

Lemma kept_list : preserves (keeps_valid c) Store.list_mappings.
Proof. unfold Store.list_mappings, sql. steps. Qed.
Lemma kept_events n : preserves (keeps_valid c) (Store.list_events n).
Proof. unfold Store.list_events, sql. steps. Qed.
Lemma kept_oci cli args : preserves (keeps_valid c) (oci_run cli args).
Proof. unfold oci_run. steps. Qed.
Lemma kept_netbird cli : preserves (keeps_valid c) (netbird_status cli).
Proof. unfold netbird_status, netbird_run. steps. Qed.
#[local] Hint Resolve kept_list kept_events kept_oci kept_netbird : io.

(** ** Reconciliation *)

Lemma kept_addresses l wan ms added removed : preserves (keeps_valid c) (apply_addresses l wan ms added removed).
Proof.
  revert added removed. induction ms as [|m ms IH]; intros added removed; cbn [apply_addresses]; [steps|].
  unfold ensure_addr, delete_addr_if_present, interface_addresses, run_owned. steps.
Qed.
Lemma kept_write path bytes : preserves (keeps_valid c) (atomic_write path bytes).
Proof. unfold atomic_write. steps. Qed.
Lemma kept_failure rendered event message : preserves (keeps_valid c) (record_failure rendered event message).
Proof. unfold record_failure, core. steps. Qed.
Lemma kept_update_health m : preserves (keeps_valid c) (update_health m).
Proof. unfold update_health, core, health_check. steps. Qed.
#[local] Hint Resolve kept_addresses kept_write kept_failure kept_update_health : io.
Lemma kept_install r opts rendered : preserves (keeps_valid c) (install r opts rendered).
Proof. unfold install, core, check_file, apply_file, nft_run. steps. Qed.
Lemma kept_conclude opts ms rendered i : preserves (keeps_valid c) (conclude opts ms rendered i).
Proof. unfold conclude, core. steps. Qed.
#[local] Hint Resolve kept_install kept_conclude : io.
Lemma kept_reconcile r config opts : preserves (keeps_valid c) (Reconcile.reconcile r config opts).
Proof. unfold Reconcile.reconcile, core. steps. Qed.
#[local] Hint Resolve kept_reconcile : io.

(** ** Handlers *)

Lemma decoded_port o col p : decode_port o col = Ok p -> opt_all u16_ok p.
Proof.
  unfold decode_port. destruct o as [port|]; [|by intros [= <-]].
  destruct ((1 <=? port) && (port <=? 65535)) eqn:E; [|done]. intros [= <-]. cbn. unfold u16_ok. lia.
Qed.
(** A stored mapping is well-formed. *)
Lemma stored_wf i : returns (Store.get_mapping i) mapping_wf.
Proof.
  intros w m w' Hm. unfold Store.get_mapping in Hm. apply bind_Ret in Hm as (o & w1 & _ & Hm).
  apply bind_Ret in Hm as (row & w2 & _ & Hm). unfold lift in Hm.
  destruct (row_to_mapping row) as [m'|] eqn:E; [|done]. injection Hm as -> _.
  unfold row_to_mapping in E. apply bind_Ok in E as (pp & Hp%decoded_port & (tp & Ht%decoded_port & E)%bind_Ok).
  apply bind_Ok in E as (j & Hj%mapping_id_from_str_ok & E). res_inv. by split.
Qed.
Lemma stored_api_wf i : returns (core_api (Store.get_mapping i)) mapping_wf.
Proof.
  intros w m w' Hm. unfold core_api, io_map_err in Hm. pose proof (stored_wf i w) as Hwf.
  destruct (Store.get_mapping i w) as [[a|e|s] w1]; [|done..]. injection Hm as <- <-. by eapply Hwf.
Qed.

Lemma kept_allocate config r : preserves (keeps_valid c) (oci_allocate config r).
Proof.
  unfold oci_allocate. apply preserves_bind; [apply _|steps|intros _]. apply preserves_bind; [apply _|steps|intros i].
  eapply preserves_bind_returns; [apply _|unfold core_api; steps|apply stored_api_wf|intros m Hm]. case_match; [steps|].
  apply preserves_bind; [apply _|steps|intros compartment]. apply preserves_bind; [apply _|steps|intros vnic]. cbn zeta.
  apply preserves_bind; [apply _| |intros allocation].
  { unfold oci_api, allocate_forwarding_ip, validate_forwarding_vnic, get_vnic, create_private_ip, create_reserved_public_ip,
      delete_private_ip. steps. }
  apply preserves_bind; [apply _|apply kept_now|intros now].
  assert (Hwf : mapping_wf (mark_status (with_allocation m allocation) Pending now)) by (by destruct Hm; split).
  apply preserves_bind; [apply _|apply preserves_try; by apply kept_update|intros updated].
  unfold delete_public_ip, delete_private_ip. steps.
Qed.
Lemma kept_release r : preserves (keeps_valid c) (oci_release r).
Proof.
  assert (Hrel : forall public private, preserves (keeps_valid c) (release public private)).
  { intros public private. unfold release, oci_api, delete_public_ip, delete_private_ip. steps. }
  unfold oci_release. apply preserves_bind; [apply _|steps|intros _]. case_match; [|steps].
  apply preserves_bind; [apply _|steps|intros i].
  eapply preserves_bind_returns; [apply _|unfold core_api; steps|apply stored_api_wf|intros m Hm]. cbn zeta. case_match; [steps|].
  apply preserves_bind; [apply _|apply Hrel|intros _]. apply preserves_bind; [apply _|apply kept_now|intros now].
  apply preserves_bind; [apply _| |intros _; steps]. apply preserves_map_err, kept_update. by destruct Hm; split.
Qed.

Lemma kept_handler vars config call :
  match call with CCreateMapping r => opt_all u16_ok (cr_public_port r) /\ opt_all u16_ok (cr_target_port r) | _ => True end ->
  (forall h, id_ok (mapping_id_new (env_uuid h))) ->
  preserves (keeps_valid c) (handler vars config call).
Proof.
  intros Hports Huuid. destruct call; cbn [handler]; unfold io_map.
  - unfold status, core_api. steps.
  - unfold Api.list_mappings, core_api. steps.
  - destruct Hports as [Hp Ht]. unfold Api.create_mapping, core_api. apply preserves_bind; [apply _| |intros m; steps].
    apply preserves_bind; [apply _|apply kept_now|intros now].
    apply (preserves_bind_returns _ fresh_uuid _ (fun uuid => id_ok (mapping_id_new uuid))); [apply kept_uuid| |intros uuid Hid].
    + intros w uuid w' [= <- <-]. exact (Huuid (w_log w)).
    + apply preserves_bind; [apply _|apply preserves_map_err, kept_insert; by split|intros ?; steps].
  - unfold Api.get_mapping, core_api. steps.
  - unfold Api.delete_mapping, core_api. steps.
  - unfold enable_mapping, core_api. steps.
  - unfold disable_mapping, core_api. steps.
  - unfold dry_run_apply, core_api. steps.
  - unfold reconcile. steps.
  - unfold api_netbird_status, netbird_api. steps.
  - unfold netbird_networks, netbird_api. steps.
  - unfold events, core_api. steps.
  - unfold analytics, core_api. steps.
  - unfold topology, core_api. steps.
  - unfold oci_status, oci_version. steps.
  - apply preserves_bind; [apply _|apply kept_allocate|intros ?; steps].
  - apply preserves_bind; [apply _|apply kept_release|intros ?; steps].
  - unfold oci_vnic_check, oci_api, get_vnic. steps.
  - unfold oci_public_ips, oci_api, list_public_ips. steps.
  - unfold oci_nsg_add, oci_api, add_nsg_rules. steps.
  - unfold oci_nsg_remove, oci_api, remove_nsg_rules. steps.
Qed.

(** ** Requests *)

Context `{HttpLib} `{AxumLib}.

Lemma json_request_ports rq r : json_request decode_create rq = Some r ->
  opt_all u16_ok (cr_public_port r) /\ opt_all u16_ok (cr_target_port r).
Proof.
  unfold json_request. intros (t & _ & Hr)%bind_Some. destruct (json_type t); [|done].
  destruct (from_str decode_create (World.rq_body rq)) as [r'|] eqn:E; [|done]. injection Hr as ->.
  unfold from_str in E. apply bind_Ok in E as (v & _ & Hv). destruct (decode_create v) eqn:Ed; [|done]. injection Hv as ->.
  by eapply decode_create_ports.
Qed.
Lemma call_ports rq r : call_of rq = Some (CCreateMapping r) ->
  opt_all u16_ok (cr_public_port r) /\ opt_all u16_ok (cr_target_port r).
Proof.
  unfold call_of. intros (target & _ & Hc)%bind_Some.
  destruct (default (target, "") (split_once "?"%char target)) as [path query]. apply bind_Some in Hc as ([route captures] & _ & Hc).
  destruct route; cbn [route_call] in Hc; try done;
    try (apply fmap_Some in Hc as (x & Hx & [= ->]); by eapply json_request_ports).
Qed.

Lemma kept_serve vars config rq w : (forall h, id_ok (mapping_id_new (env_uuid h))) ->
  keeps_valid c w (serve vars config rq w).2.
Proof.
  intros Huuid. unfold serve. destruct (call_of rq) as [call|] eqn:Ec; [|cbn; reflexivity].
  assert (Hk : preserves (keeps_valid c) (router vars config (authorization rq) call)).
  { unfold router. apply preserves_bind; [apply _|steps|intros _]. apply kept_handler; [|done].
    destruct call; try done. by eapply call_ports. }
  specialize (Hk w). by destruct (router _ _ _ _ w).
Qed.

Lemma kept_agent vars config h : (forall h, id_ok (mapping_id_new (env_uuid h))) -> forall start,
  keeps_valid c start (agent_after vars config start h).
Proof.
  intros Huuid. induction h as [|e h IH]; intros start; [cbn; reflexivity|].
  unfold agent_after. cbn [foldl]. etrans; [|apply IH]. destruct e; try reflexivity. by apply kept_serve.
Qed.
End kept.

(** ** Property *)


(** ** Models and a witness *)

Definition axum_model : AxumLib := {|
  path_param s := Some s;
  query_fields _ := Some [];
  json_type t := bool_decide (t = "application/json");
  rejected _ := mkHttpResponse 422 [] (Ok "Unprocessable Entity");
  connection_closed := "connection closed before message completed";
|}.
Lemma axum_model_laws : @AxumLaws axum_model.
Proof. by split. Qed.

(** An agent that gives the id [map_1]. *)
Definition one_agent : Env := {|
  env_now h := Z.of_nat (length h);
  env_uuid _ := "1";
  env_sql_fault _ := None;
  env_others _ := [];
  env_fs_fault _ _ := None;
  env_short_write _ := 0%nat;
  env_command _ _ _ := CmdDone (mkOutput (Some 0) "" "");
  env_connect _ _ _ := TcpConnected;
  env_http _ _ := HttpFailed "";
|}.
Lemma one_alone : @Alone one_agent.
Proof. by intros h. Qed.
Lemma one_reliable : @Reliable one_agent.
Proof. by intros h. Qed.
Lemma one_id (h : History) : id_ok (mapping_id_new (@env_uuid one_agent h)).
Proof. by split. Qed.

Definition no_vars : string -> bool := fun _ => false.

#[local] Existing Instance ipnet_model.
#[local] Existing Instance model_lib.
#[local] Existing Instance json_model.
#[local] Existing Instance http_model.
#[local] Existing Instance axum_model.
#[local] Existing Instance one_agent.

(** A request that creates a mapping, and one that is no request. *)
Definition create_rq : HttpRequest := mkHttpRequest "POST" "http://edge-agent/v1/mappings"
  [("content-type", "application/json")]
  match create_body sample_form with Ok v => default "" (result_ok (json_write v)) | Err _ => "" end.
Definition unread_rq : HttpRequest := mkHttpRequest "POST" "http://edge-agent/v1/mappings" [] "{".
Definition sample_history : History := [EHttp create_rq (HttpFailed ""); EClock; EHttp unread_rq (HttpFailed "")].
Definition served_world : World := agent_after no_vars sample_config sample_world sample_history.

