(* ===== verification/Link.v ===== *)
(** The gateway and the agent together: the environment of the gateway in which the
    agent answers what is sent to it, and what the pages do to the agent. *)
From Stdlib Require Import Ascii.
From S2P Require Import Prelude Str Utf8 BTree Net Core Validation State Sql World Store Nft Json Oci Netbird Api Wire Gateway Ui Html Routes Serve Served.
Local Open Scope Z_scope.

(** An environment of the gateway in which the agent answers, from where it started. *)
Definition linked `{Ipnet} `{StoreLib} `{JsonLib} `{HttpLib} `{AxumLib} (agent gateway : Env)
    (vars : string -> bool) (config : EdgeConfig) (start : World) : Env := {|
  env_now := @env_now gateway;
  env_uuid := @env_uuid gateway;
  env_sql_fault := @env_sql_fault gateway;
  env_others := @env_others gateway;
  env_fs_fault := @env_fs_fault gateway;
  env_short_write := @env_short_write gateway;
  env_command := @env_command gateway;
  env_connect := @env_connect gateway;
  env_http h rq := (serve (H4 := agent) vars config rq (agent_after (H4 := agent) vars config start h)).1;
|}.

(** ** A request to the agent is a call of its handler *)

(** Addresses of plain texts and slashes parse. *)
Definition path_char (c : ascii) : bool := plain_char c || Ascii.eqb c "/".
Definition plain_path (path : string) : Prop := starts_with "/" path = true /\ all_bytes path_char path = true.
Class UriLaws `{HttpLib} : Prop :=
  parse_uri_plain path : plain_path path -> is_ok (parse_uri ("http://edge-agent" +:+ path)) = true.

(** What the gateway reads of a reply, and so of the outcome of a handler. *)
Definition reply_read {A} (d : Z -> string -> Result GatewayError A) (reply : HttpReply) : Out GatewayError A :=
  match reply with
  | HttpFailed m => Fail (gw_bad_gateway m)
  | HttpAnswered r =>
      match rp_body r with
      | Ok body => match d (rp_status r) body with Ok a => Ret a | Err e => Fail e end
      | Err m => Fail (gw_bad_gateway m)
      end
  end.
Definition received `{StoreLib} `{JsonLib} `{AxumLib} {A} (d : Z -> string -> Result GatewayError A)
    (o : Out ApiError Answer) : Out GatewayError A := reply_read d (respond o).

Lemma strip_own_prefix p s : strip_prefix p (p +:+ s) = Some s.
Proof. by apply strip_prefix_Some. Qed.

Lemma split_once_none c s : c ∉ chars s -> split_once c s = None.
Proof.
  intros Hc. unfold split_once. assert (split_once_l c (chars s) = None) as ->; [|done].
  induction (chars s) as [|x l IH]; [done|]. cbn [split_once_l].
  destruct (Ascii.eqb_spec x c) as [->|]; [destruct Hc; left|].
  rewrite IH; [done|]. intros ?. apply Hc. by right.
Qed.

Lemma all_bytes_not c f s : all_bytes f s = true -> f c = false -> c ∉ chars s.
Proof.
  unfold all_bytes. rewrite forallb_forall. intros Hall Hc Hin. apply list_elem_of_In, Hall in Hin. congruence.
Qed.
Lemma all_bytes_app f s t : all_bytes f (s +:+ t) = all_bytes f s && all_bytes f t.
Proof. unfold all_bytes. by rewrite chars_app, forallb_app. Qed.
Lemma plain_is_path s : plain_text s -> all_bytes path_char s = true.
Proof.
  intros [_ Hs]. unfold all_bytes in *. rewrite forallb_forall in Hs |- *. intros c Hc. unfold path_char.
  by rewrite Hs.
Qed.
Lemma plain_path_query path : plain_path path -> split_once "?"%char path = None.
Proof. intros [_ Hp]. apply split_once_none. by eapply all_bytes_not. Qed.

Section link.
Context `{Ipnet} `{StoreLib} `{JsonLaws} `{HttpLaws} `{!UriLaws} `{AxumLaws} (agent gateway : Env).
Context (vars : string -> bool) (config : EdgeConfig) (start : World) (state : AppState) (token : string).

(** The gateway has the token of the agent, which a header can hold. *)
Record paired : Prop := {
  pd_state : st_api_token state = Some token;
  pd_visible : visible ("Bearer " +:+ token) = true;
  pd_config : api_token config = None \/ api_token config = Some token;
}.
Context (Hpaired : paired).

#[local] Instance link : Env := linked agent gateway vars config start.
(** The world of the agent at a moment of the gateway. *)
Definition agent_of (w : World) : World := agent_after (H4 := agent) vars config start (w_log w).
Abbreviation run c := (handler (H2 := agent) vars config c).

(** The computation of the gateway is the call of the agent. *)
Definition remote {A} (m : IO GatewayError A) (c : Call) (d : Z -> string -> Result GatewayError A) : Prop :=
  forall w, (m w).1 = received d (run c (agent_of w)).1 /\ agent_of (m w).2 = (run c (agent_of w)).2.

Lemma agent_of_request w rq rep : agent_of (note (EHttp rq rep) w) = (serve (H4 := agent) vars config rq (agent_of w)).2.
Proof. unfold agent_of, agent_after, note. cbn [w_log]. by rewrite foldl_app. Qed.

Lemma sent_authorized method path headers body rq : sent state method path headers body rq ->
  authorization rq = Some ("Bearer " +:+ token).
Proof.
  intros Hs. destruct (sent_headers _ _ _ _ _ _ Hs) as (t & Ht & Hf). rewrite (pd_state Hpaired) in Ht. injection Ht as <-.
  unfold authorization, header_values. rewrite Hf. unfold forwarded. rewrite decide_True by done. cbn.
  apply value_to_str_visible, Hpaired.
Qed.

Lemma serve_call rq c w : call_of rq = Some c -> authorization rq = Some ("Bearer " +:+ token) ->
  serve (H4 := agent) vars config rq w = (respond (run c w).1, (run c w).2).
Proof.
  intros Hc Ha. unfold serve. rewrite Hc, Ha. unfold router. rewrite require_auth_spec.
  destruct (pd_config Hpaired) as [->| ->]; [|rewrite decide_True by done];
    unfold lift, mbind, io_bind; by destruct (run c w).
Qed.

(** A request reaches the agent, and its reply comes back. *)
Lemma send_serve {A} (d : Z -> string -> Result GatewayError A) method path headers body w : plain_path path ->
  exists rq, sent state method path headers body rq /\
    let '(reply, a) := serve (H4 := agent) vars config rq (agent_of w) in
    let '(o, w') := ('(status, _, text) ← send_raw state method path headers body; lift (d status text)) w in
    o = reply_read d reply /\ agent_of w' = a.
Proof.
  intros Hpath. assert (Hrw : exists h, rewrite_headers headers token = Ok h).
  { pose proof (rewrite_headers_ok headers token) as Hr. rewrite header_value_visible in Hr by apply Hpaired.
    destruct (rewrite_headers headers token); [eauto|done]. }
  destruct Hrw as [h Hh].
  assert (Hu : upstream_uri path = Ok ("http://edge-agent" +:+ path)).
  { unfold upstream_uri. rewrite (proj1 Hpath). pose proof (parse_uri_plain path Hpath) as Hp.
    destruct (parse_uri ("http://edge-agent" +:+ path)) as [u|] eqn:E; [|done]. by apply parse_uri_text in E as ->. }
  set (rq := mkHttpRequest method ("http://edge-agent" +:+ path) (hm_lines h) body).
  exists rq. split.
  { split; [done| |done|]; cbn; [by rewrite (proj1 Hpath)|]. exists token. split; [apply Hpaired|]. intros n.
    rewrite <- get_all_lines. by apply rewrite_headers_forwards. }
  assert (Hsend : send_raw state method path headers body w =
    (match (serve (H4 := agent) vars config rq (agent_of w)).1 with
     | HttpFailed m => Fail (gw_bad_gateway m)
     | HttpAnswered r =>
         match rp_body r with
         | Ok text => Ret (rp_status r, collect_lines (rp_headers r), text)
         | Err m => Fail (gw_bad_gateway m)
         end
     end, note (EHttp rq (serve (H4 := agent) vars config rq (agent_of w)).1) w)).
  { unfold send_raw. rewrite (lift_step token) by (by rewrite (pd_state Hpaired)).
    rewrite (lift_step h) by done. rewrite (lift_step ("http://edge-agent" +:+ path)) by done.
    unfold mbind at 1, io_bind at 1, http_request, env_http, link, linked. fold rq. fold (agent_of w).
    cbn [fst]. destruct (serve _ _ rq _).1 as [m|r]; [done|]. by destruct (rp_body r). }
  pose proof (agent_of_request w rq (serve (H4 := agent) vars config rq (agent_of w)).1) as Hafter.
  unfold mbind, io_bind. rewrite Hsend. destruct (serve (H4 := agent) vars config rq (agent_of w)) as [reply a].
  cbn [fst snd] in *. unfold reply_read. destruct reply as [m|r]; [done|].
  destruct (rp_body r) as [text|m]; [|done]. unfold lift. by destruct (d (rp_status r) text).
Qed.

Lemma send_remote {A} (d : Z -> string -> Result GatewayError A) method path headers body c :
  plain_path path -> (forall rq, sent state method path headers body rq -> call_of rq = Some c) ->
  remote ('(status, _, text) ← send_raw state method path headers body; lift (d status text)) c d.
Proof.
  intros Hpath Hcall w. destruct (send_serve d method path headers body w Hpath) as (rq & Hs & Hrun).
  rewrite (serve_call rq c) in Hrun by eauto using sent_authorized. cbv beta iota in Hrun.
  by match type of Hrun with match ?x with _ => _ end => destruct x end.
Qed.

(** A request that no handler takes. *)
Lemma send_refused {A} (d : Json -> option A) method path headers body w :
  plain_path path -> (forall rq, sent state method path headers body rq -> call_of rq = None) ->
  exists e w', ('(status, _, text) ← send_raw state method path headers body; lift (decode_json d status text)) w = (Fail e, w') /\
    agent_of w' = agent_of w.
Proof.
  intros Hpath Hcall. destruct (send_serve (decode_json d) method path headers body w Hpath) as (rq & Hs & Hrun).
  unfold serve in Hrun. rewrite (Hcall rq Hs) in Hrun. cbv beta iota in Hrun.
  destruct (('(status, _, text) ← send_raw state method path headers body; lift (decode_json d status text)) w) as [o w'].
  destruct Hrun as [-> Ha]. unfold reply_read. destruct (rp_body (rejected rq)) as [text|m]; [|eauto].
  unfold decode_json. rewrite rejected_status. eauto.
Qed.

Lemma call_of_sent method path headers body rq route captures :
  sent state method path headers body rq -> plain_path path -> route_of method path = Some (route, captures) ->
  call_of rq = route_call route captures "" rq.
Proof.
  intros Hs Hp Hr. unfold call_of. rewrite (sent_uri _ _ _ _ _ _ Hs), (proj1 Hp), strip_own_prefix. cbn [mbind option_bind].
  rewrite plain_path_query by done. cbn [default from_option]. by rewrite (sent_method _ _ _ _ _ _ Hs), Hr.
Qed.

Lemma json_sent {A} (d : Json -> option A) method path rq v body r :
  sent state method path (hm_insert "content-type" "application/json" hm_new) body rq ->
  json_write v = Ok body -> d v = Some r -> json_request d rq = Some r.
Proof.
  intros Hs Hv Hd. unfold json_request. destruct (sent_headers _ _ _ _ _ _ Hs) as (t & _ & Hf).
  unfold header_values. rewrite Hf. unfold forwarded. rewrite !decide_False; [| |done|done].
  - rewrite get_all_insert, decide_True by done. cbn. rewrite json_type_plain, (sent_body _ _ _ _ _ _ Hs).
    by rewrite (from_written d v body r).
  - unfold connection_nominated_headers. rewrite get_all_insert, decide_False, get_all_new by done.
    intros [Hh|Hn]; [refine (bool_decide_eq_false_1 _ _ Hh); vm_compute; reflexivity|by apply elem_of_nil in Hn].
Qed.

Lemma remote_send {A} (d : Z -> string -> Result GatewayError A) method path headers body route captures c :
  plain_path path -> route_of method path = Some (route, captures) ->
  (forall rq, sent state method path headers body rq -> route_call route captures "" rq = Some c) ->
  remote ('(status, _, text) ← send_raw state method path headers body; lift (d status text)) c d.
Proof. intros Hp Hr Hc. apply send_remote; [done|]. intros rq Hs. by rewrite (call_of_sent _ _ _ _ _ _ _ Hs Hp Hr), (Hc rq Hs). Qed.

Lemma remote_post {A B} (dr : Json -> option B) (d : Json -> option A) path route (mk : B -> Call) v body r :
  plain_path path -> route_of "POST" path = Some (route, []) ->
  (forall rq, route_call route [] "" rq = mk <$> json_request dr rq) ->
  json_write v = Ok body -> dr v = Some r ->
  remote (post_json state d path v) (mk r) (decode_json d).
Proof.
  intros Hp Hr Hm Hw Hd w. unfold post_json. rewrite (lift_step body) by (by rewrite Hw). revert w.
  eapply remote_send; [done..|]. intros rq Hs. by rewrite Hm, (json_sent dr _ _ _ _ _ _ Hs Hw Hd).
Qed.

Lemma plain_mapping_path i : plain_text i -> plain_path ("/v1/mappings/" +:+ i).
Proof. intros Hi. split; [done|]. rewrite all_bytes_app, (plain_is_path i Hi). reflexivity. Qed.
Lemma plain_action_path i a : plain_text i -> plain_text a -> plain_path ("/v1/mappings/" +:+ i +:+ "/" +:+ a).
Proof. intros Hi Ha. split; [done|]. rewrite !all_bytes_app, (plain_is_path i Hi), (plain_is_path a Ha). reflexivity. Qed.

Lemma split_v1_mapping i : plain_text i -> split "/"%char ("/v1/mappings/" +:+ i) = [""; "v1"; "mappings"; i].
Proof.
  intros Hi%plain_no_slash.
  change ("/v1/mappings/" +:+ i) with ("" +:+ String "/" ("v1" +:+ String "/" ("mappings" +:+ String "/" i))).
  rewrite !split_after by (refine (bool_decide_unpack _ _); vm_compute; exact I). by rewrite split_whole.
Qed.
Lemma split_v1_action i a : plain_text i -> plain_text a ->
  split "/"%char ("/v1/mappings/" +:+ i +:+ "/" +:+ a) = [""; "v1"; "mappings"; i; a].
Proof.
  intros Hi%plain_no_slash Ha%plain_no_slash.
  change ("/v1/mappings/" +:+ i +:+ "/" +:+ a)
    with ("" +:+ String "/" ("v1" +:+ String "/" ("mappings" +:+ String "/" (i +:+ String "/" a)))).
  rewrite !split_after by (first [assumption | refine (bool_decide_unpack _ _); vm_compute; exact I]). by rewrite split_whole.
Qed.

Lemma route_mapping i : plain_text i ->
  route_of "DELETE" ("/v1/mappings/" +:+ i) = Some (RDeleteMapping, [i]) /\
  route_of "POST" ("/v1/mappings/" +:+ i +:+ "/enable") = Some (REnableMapping, [i]) /\
  route_of "POST" ("/v1/mappings/" +:+ i +:+ "/disable") = Some (RDisableMapping, [i]).
Proof.
  intros Hi. pose proof (split_v1_mapping i Hi) as Hd. pose proof (split_v1_action i "enable" Hi ltac:(done)) as He.
  pose proof (split_v1_action i "disable" Hi ltac:(done)) as Hs.
  change ("/" +:+ "enable") with "/enable" in He. change ("/" +:+ "disable") with "/disable" in Hs.
  destruct i as [|x i]; [by destruct Hi|]. unfold route_of. rewrite Hd, He, Hs. split_and!; vm_compute; reflexivity.
Qed.

(** The requests of the pages. *)
Lemma remote_get {A} (d : Json -> option A) path route c :
  plain_path path -> route_of "GET" path = Some (route, []) -> (forall rq, route_call route [] "" rq = Some c) ->
  remote (get_json state d path) c (decode_json d).
Proof. intros Hp Hr Hc. eapply remote_send; [done..|]. intros rq _. apply Hc. Qed.

Lemma remote_bare {A} (d : Z -> string -> Result GatewayError A) method path headers route i c :
  plain_text i -> plain_path path -> route_of method path = Some (route, [i]) ->
  (forall rq, route_call route [i] "" rq = c <$> path_request [i]) ->
  remote ('(status, _, text) ← send_raw state method path headers ""; lift (d status text)) (c i) d.
Proof.
  intros Hi Hp Hr Hc. eapply remote_send; [exact Hp|exact Hr|]. intros rq _. rewrite Hc. unfold path_request.
  cbn [head mbind option_bind]. by rewrite path_param_plain.
Qed.

Lemma remote_switch i : plain_text i ->
  remote (post_empty_json state decode_mapping ("/v1/mappings/" +:+ i +:+ "/enable")) (CEnableMapping i) (decode_json decode_mapping) /\
  remote (post_empty_json state decode_mapping ("/v1/mappings/" +:+ i +:+ "/disable")) (CDisableMapping i) (decode_json decode_mapping) /\
  remote (delete_json state decode_mapping ("/v1/mappings/" +:+ i)) (CDeleteMapping i) (decode_json decode_mapping).
Proof.
  intros Hi. destruct (route_mapping i Hi) as (Hd & He & Hs).
  pose proof (plain_action_path i "enable" Hi (conj eq_refl eq_refl)) as Hpe.
  pose proof (plain_action_path i "disable" Hi (conj eq_refl eq_refl)) as Hps.
  pose proof (plain_mapping_path i Hi) as Hpd.
  change ("/" +:+ "enable") with "/enable" in Hpe. change ("/" +:+ "disable") with "/disable" in Hps.
  split; [|split].
  - exact (remote_bare _ _ _ _ _ i CEnableMapping Hi Hpe He (fun _ => eq_refl)).
  - exact (remote_bare _ _ _ _ _ i CDisableMapping Hi Hps Hs (fun _ => eq_refl)).
  - exact (remote_bare _ _ _ _ _ i CDeleteMapping Hi Hpd Hd (fun _ => eq_refl)).
Qed.
(** The requests that the pages make, each with the handler that it is for and the
    reading of its answer. *)
Inductive asks : forall {A}, IO GatewayError A -> Call -> (Z -> string -> Result GatewayError A) -> Prop :=
  | ask_status : asks (get_status state) CStatus (decode_json decode_status_response)
  | ask_mappings : asks (get_mappings state) CListMappings (decode_json (as_list decode_mapping))
  | ask_events : asks (get_events state) CEvents (decode_json (as_list decode_event))
  | ask_networks : asks (get_networks state) CNetbirdNetworks (decode_json (as_list as_string))
  | ask_netbird : asks (get_netbird state) CNetbirdStatus (decode_json decode_status)
  | ask_topology : asks (get_topology state) CTopology (decode_json decode_topology)
  | ask_oci_status : asks (get_json state decode_oci_status "/v1/oci/status") COciStatus (decode_json decode_oci_status)
  | ask_dry_run : asks (post_text state "/v1/apply/dry-run") CDryRunApply decode_text
  | ask_create v text r : json_write v = Ok text -> decode_create v = Some r ->
      asks (post_json state decode_mapping "/v1/mappings" v) (CCreateMapping r) (decode_json decode_mapping)
  | ask_reconcile v text r : json_write v = Ok text -> decode_reconcile v = Some r ->
      asks (post_json state decode_reconcile_response "/v1/reconcile" v) (CReconcile r)
        (decode_json decode_reconcile_response)
  | ask_allocate v text r : json_write v = Ok text -> decode_allocate v = Some r ->
      asks (post_json state Some "/v1/oci/allocate" v) (COciAllocate r) (decode_json Some)
  | ask_release v text r : json_write v = Ok text -> decode_release v = Some r ->
      asks (post_json state Some "/v1/oci/release" v) (COciRelease r) (decode_json Some)
  | ask_nsg_add v text r : json_write v = Ok text -> decode_nsg_add v = Some r ->
      asks (post_json state Some "/v1/oci/nsg/add" v) (COciNsgAdd r) (decode_json Some)
  | ask_nsg_remove v text r : json_write v = Ok text -> decode_nsg_remove v = Some r ->
      asks (post_json state Some "/v1/oci/nsg/remove" v) (COciNsgRemove r) (decode_json Some)
  | ask_enable i : plain_text i ->
      asks (post_empty_json state decode_mapping ("/v1/mappings/" +:+ i +:+ "/enable")) (CEnableMapping i)
        (decode_json decode_mapping)
  | ask_disable i : plain_text i ->
      asks (post_empty_json state decode_mapping ("/v1/mappings/" +:+ i +:+ "/disable")) (CDisableMapping i)
        (decode_json decode_mapping)
  | ask_delete i : plain_text i ->
      asks (delete_json state decode_mapping ("/v1/mappings/" +:+ i)) (CDeleteMapping i) (decode_json decode_mapping).

Lemma plain_path_true path : starts_with "/" path && all_bytes path_char path = true -> plain_path path.
Proof. by intros [? ?]%andb_prop. Qed.
#[local] Ltac plain_path := apply plain_path_true; vm_compute; reflexivity.
#[local] Ltac routed := vm_compute; reflexivity.
#[local] Ltac asked_get route := apply (remote_get _ _ route); [plain_path|routed|intros; reflexivity].
#[local] Ltac asked_post dr route Hw Hr :=
  match type of Hw with json_write ?v = Ok ?text => match type of Hr with _ = Some ?r =>
    apply (remote_post dr _ _ route _ v text r); [plain_path|routed|intros; reflexivity|exact Hw|exact Hr]
  end end.

Lemma asks_remote {A} (m : IO GatewayError A) c d : asks m c d -> remote m c d.
Proof.
  destruct 1 as [| | | | | | | |v text r Hw Hr|v text r Hw Hr|v text r Hw Hr|v text r Hw Hr|v text r Hw Hr|v text r Hw Hr|i Hi|i Hi|i Hi].
  - asked_get RStatus.
  - asked_get RListMappings.
  - asked_get REvents.
  - asked_get RNetbirdNetworks.
  - asked_get RNetbirdStatus.
  - asked_get RTopology.
  - asked_get ROciStatus.
  - apply (remote_send _ _ _ _ _ RDryRunApply []); [plain_path|routed|intros; reflexivity].
  - asked_post decode_create RCreateMapping Hw Hr.
  - asked_post decode_reconcile RReconcile Hw Hr.
  - asked_post decode_allocate ROciAllocate Hw Hr.
  - asked_post decode_release ROciRelease Hw Hr.
  - asked_post decode_nsg_add ROciNsgAdd Hw Hr.
  - asked_post decode_nsg_remove ROciNsgRemove Hw Hr.
  - apply (remote_switch i Hi).
  - apply (remote_switch i Hi).
  - apply (remote_switch i Hi).
Qed.

(** ** A form of the pages *)

Lemma respond_status (o : Out ApiError Answer) a text : o = Ret a -> answer_body a = Ok text ->
  exists h, respond o = HttpAnswered (mkHttpResponse 200 h (Ok text)).
Proof. intros ->. cbn. destruct a; cbn [answer_body]; try (intros ->; by eexists). intros [= ->]. by eexists. Qed.
Lemma received_read {A} (d : Json -> option A) a v text x :
  answer_body a = Ok text -> json_write v = Ok text -> d v = Some x -> received (decode_json d) (Ret a) = Ret x.
Proof.
  intros Ha Hv Hd. destruct (respond_status (Ret a) a text eq_refl Ha) as [h Hr]. unfold received. rewrite Hr. cbn.
  unfold decode_json. cbn. by rewrite (from_written d v text x).
Qed.
Lemma received_refused {A} (d : Json -> option A) e : is_success_status (api_status e) = false ->
  received (decode_json d) (Fail e) = Fail (gw_bad_gateway (from_utf8_lossy (api_message e))).
Proof. intros He. unfold received. cbn. unfold decode_json. by rewrite He. Qed.
Lemma core_status e : is_success_status (api_status (api_of_core e)) = false.
Proof. by destruct e. Qed.
Lemma received_answers {A} (d : Z -> string -> Result GatewayError A) o s : received d o <> Panicked s.
Proof.
  unfold received, reply_read. destruct (respond o) as [m|r]; [done|]. destruct (rp_body r) as [t|m]; [|done].
  by destruct (d _ t).
Qed.

Context `{!StoreLibLaws} `{!@Alone agent} `{!@Reliable agent}.
Context (Hwrite : forall v, exists text, json_write v = Ok text).
Context (Huuid : forall h, id_ok (mapping_id_new (@env_uuid agent h))).

(** The mapping that a form asks for, made at a moment with a fresh id. *)
Definition form_mapping (form : CreateMappingForm) (now : Time) (uuid : string) : option Mapping :=
  public_port ← result_ok (clean_port (cf_public_port form));
  target_port ← result_ok (clean_port (cf_target_port form));
  r ← create_request form public_port target_port;
  Some (set_endpoints
    (mapping_new (mapping_id_new uuid) now (cr_name r) (cr_public_ip r) (cr_edge_private_ip r) (cr_target_ip r))
    (cr_public_port r) (cr_target_port r) (default default_mode (cr_mode r)) (default default_protocol (cr_protocol r))
    (default default_backend (cr_backend r))).

(** What the database takes: a valid mapping under a new id, apart from those stored. *)
Definition storable (c : EdgeConfig) (db : Db) (m : Mapping) : Prop :=
  id m ∉ r_id <$> db_mappings db /\ mapping_valid (target_cidrs c) m /\ admits db m /\
  exists row, row_of_mapping m = Ok row.
(** The rows that a page can show. *)
Definition row_shown (r : MapRow) : Prop := forall m, row_to_mapping r = Ok m -> exists v, mapping_json m = Ok v.

Lemma row_ports r m : row_to_mapping r = Ok m -> ports_u16 m.
Proof.
  unfold row_to_mapping. intros (pp & Hp & (tp & Ht & Hm)%bind_Ok)%bind_Ok.
  repeat match type of Hm with (_ ≫= _) = Ok _ => apply bind_Ok in Hm as (? & _ & Hm) end.
  injection Hm as <-. split; cbn; eauto using decoded_port.
Qed.

Lemma transpose_formatted o r : format_optional_time o = Ok r -> exists v, transpose_map time_json o = Ok v.
Proof.
  unfold format_optional_time. destruct o as [t|]; cbn; [|by eexists].
  unfold format_time, time_json. destruct (format_rfc3339 t); [|done]. cbn. eauto.
Qed.
Lemma row_json m row : row_of_mapping m = Ok row -> exists v, mapping_json m = Ok v.
Proof.
  assert (Ht : forall t s, format_time t = Ok s -> exists v, time_json t = Ok v).
  { intros t s. unfold format_time, time_json. destruct (format_rfc3339 t); [|done]. cbn. eauto. }
  unfold row_of_mapping, bind_row. intros (created & [c Hc]%Ht & Hr)%bind_Ok.
  do 4 (apply bind_Ok in Hr as (? & _ & Hr)). apply bind_Ok in Hr as (checked & [ch Hch]%transpose_formatted & Hr).
  apply bind_Ok in Hr as (updated & [u Hu]%Ht & _). unfold mapping_json. rewrite Hch, Hc, Hu. cbn. eauto.
Qed.

Lemma stored_run ms a : collect row_to_mapping (merge_sort row_le (db_mappings (w_db a))) = Ok ms ->
  @Store.list_mappings _ agent a = (Ret ms, note EQuery a).
Proof. intros Hms. unfold Store.list_mappings, mbind, io_bind. rewrite (@query_run agent _ _ _). unfold lift. by rewrite Hms. Qed.

(** The list of mappings, read by the pages. *)
Lemma list_read c w : seq_inv c (w_db (agent_of w)) -> Forall row_shown (db_mappings (w_db (agent_of w))) ->
  exists ms w', get_mappings state w = (Ret ms, w') /\ w_db (agent_of w') = w_db (agent_of w) /\
    collect row_to_mapping (merge_sort row_le (db_mappings (w_db (agent_of w)))) = Ok ms.
Proof.
  intros Hinv Hshown. destruct (asks_remote _ _ _ ask_mappings w) as [Ho Ha].
  destruct (seq_inv_validates c _ Hinv) as (ms & Hms & _).
  assert (Hrun : run CListMappings (agent_of w) = (Ret (AMappings ms), note EQuery (agent_of w))).
  { cbn [handler]. unfold io_map, Api.list_mappings, core_api, io_map_err, mbind, io_bind. by rewrite (stored_run ms). }
  rewrite Hrun in Ho, Ha. cbn [fst snd] in *. exists ms, (get_mappings state w).2.
  pose proof Hms as Hrows%collect_Ok.
  assert (Hall : Forall (fun m => ports_u16 m /\ exists v, mapping_json m = Ok v) ms).
  { apply Forall_forall. intros m (i & Hi)%list_elem_of_lookup. destruct (Forall2_lookup_r _ _ _ _ _ Hrows Hi) as (r & Hr & Hm).
    apply list_elem_of_lookup_2 in Hr. rewrite merge_sort_Permutation in Hr. rewrite Forall_forall in Hshown.
    split; [by eapply row_ports|by eapply Hshown]. }
  assert (exists vs, collect mapping_json ms = Ok vs) as [vs Hvs].
  { clear -Hall. induction Hall as [|m l [_ [v Hv]] _ [vs IH]]; [by exists []|]. cbn. rewrite Hv. cbn. rewrite IH. cbn. eauto. }
  destruct (Hwrite (JArr vs)) as [text Htext]. split_and!; [|by rewrite Ha|done].
  rewrite (surjective_pairing (get_mappings state w)). f_equal. rewrite Ho.
  eapply received_read; [|exact Htext|].
  - cbn [answer_body]. by rewrite Hvs.
  - eapply collected_read; [|exact Hvs]. eapply Forall_impl; [exact Hall|]. intros m [[Hp Ht] _] v. by apply mapping_read.
Qed.

(** The page of the mappings. *)
Lemma page_read c w : seq_inv c (w_db (agent_of w)) -> Forall row_shown (db_mappings (w_db (agent_of w))) ->
  exists ms topo w', mappings_markup state w = (Ret (PMappings ms topo), w') /\
    w_db (agent_of w') = w_db (agent_of w) /\
    collect row_to_mapping (merge_sort row_le (db_mappings (w_db (agent_of w)))) = Ok ms.
Proof.
  intros Hinv Hshown. destruct (list_read c w Hinv Hshown) as (ms & w1 & Hget & Hdb & Hms).
  unfold mappings_markup. rewrite (bind_step _ _ _ _ _ Hget).
  destruct (asks_remote _ _ _ ask_topology w1) as [Ho Ha].
  assert (Hrun : w_db (run CTopology (agent_of w1)).2 = w_db (agent_of w1)).
  { cbn [handler]. unfold io_map, topology, core_api, io_map_err, mbind, io_bind.
    by rewrite (stored_run ms) by (by rewrite Hdb). }
  assert (Hend : w_db (agent_of (get_topology state w1).2) = w_db (agent_of w)) by by rewrite Ha, Hrun.
  unfold or_none, io_try, mbind, io_bind.
  pose proof (received_answers (decode_json decode_topology) (run CTopology (agent_of w1)).1) as Hp. rewrite <- Ho in Hp.
  destruct (get_topology state w1) as [[topo|e|s] w2]; cbn in *; [by do 3 eexists|by do 3 eexists|by destruct (Hp s)].
Qed.

(** A form gives a well-formed mapping. *)
Lemma form_mapping_wf form now h m : form_mapping form now (@env_uuid agent h) = Some m -> mapping_wf m.
Proof.
  unfold form_mapping. intros Hm. apply bind_Some in Hm as (pp & Hpp & Hm). apply bind_Some in Hm as (tp & Htp & Hm).
  destruct (clean_port (cf_public_port form)) eqn:Ep, (clean_port (cf_target_port form)) eqn:Et; try done.
  injection Hpp as ->. injection Htp as ->. apply bind_Some in Hm as (r & Hr & Hm). injection Hm as <-.
  unfold create_request in Hr. repeat (apply bind_Some in Hr as (? & _ & Hr)). injection Hr as <-.
  split; [apply Huuid|by eapply clean_port_range..].
Qed.

(** The handler of a creation. *)
Lemma create_run c form pp tp r a m : seq_inv c (w_db a) ->
  clean_port (cf_public_port form) = Ok pp -> clean_port (cf_target_port form) = Ok tp -> create_request form pp tp = Some r ->
  form_mapping form (@env_now agent (w_log a)) (@env_uuid agent (w_log a ++ [EClock])) = Some m ->
  (exists a', run (CCreateMapping r) a = (Ret (AMapping m), a') /\ storable c (w_db a) m /\ seq_inv c (w_db a') /\
     ports_ok m /\ exists row, row_of_mapping m = Ok row /\ db_mappings (w_db a') = db_mappings (w_db a) ++ [row]) \/
  (exists e a', run (CCreateMapping r) a = (Fail (api_of_core e), a') /\ w_db a' = w_db a /\ ~ storable c (w_db a) m).
Proof.
  intros Hinv Hpp Htp Hr Hm. pose proof (form_mapping_wf _ _ _ _ Hm) as Hwf. unfold form_mapping in Hm. rewrite Hpp, Htp in Hm. cbn [result_ok mbind option_bind] in Hm.
  rewrite Hr in Hm. cbn [mbind option_bind] in Hm. injection Hm as Hm.
  set (a1 := note EFresh (note EClock a)). change (w_db a) with (w_db a1).
  assert (Hrun : run (CCreateMapping r) a = (let '(o, a') := @Store.insert_mapping _ _ agent m a1 in
    (match o with Ret _ => Ret (AMapping m) | Fail e => Fail (api_of_core e) | Panicked s => Panicked s end, a'))).
  { rewrite <- Hm. cbn [handler]. unfold io_map, Api.create_mapping, core_api, io_map_err, mbind, io_bind.
    unfold now_utc, fresh_uuid. cbn [w_log note]. fold a1. by destruct (Store.insert_mapping _ _) as [[?|?|?] ?]. }
  destruct (@insert_mapping_run _ _ _ agent _ _ c m a1 Hinv Hwf) as [(a' & E & [Hn Hv Ha (row & Hrow & Hdb)])|(e & a' & E & Hdb & Hno)].
  - left. exists a'. rewrite Hrun, E. pose proof (valid_ports _ _ Hwf Hv) as Hp.
    pose proof (@insert_mapping_safe _ _ _ agent _ c m a1 Hinv (wf_id _ Hwf) Hp) as Hs.
    unfold wp, safe in Hs. rewrite E in Hs. split_and!; [done| |exact Hs|done|by exists row].
    refine (conj Hn (conj Hv (conj Ha _))). by exists row.
  - right. exists e, a'. rewrite Hrun, E. split_and!; [done|done|]. exact Hno.
Qed.

Lemma json_unsent {A} (d : Json -> option A) method path rq v body :
  sent state method path (hm_insert "content-type" "application/json" hm_new) body rq ->
  json_write v = Ok body -> d v = None -> json_request d rq = None.
Proof.
  intros Hs Hv Hd. unfold json_request. destruct (head _) as [t|]; [|done]. cbn. destruct (json_type t); [|done].
  rewrite (sent_body _ _ _ _ _ _ Hs). unfold from_str. rewrite (json_read_write _ _ Hv). cbn. by rewrite Hd.
Qed.

(** A body that is no request. *)
Lemma form_unread body text w : json_write body = Ok text -> decode_create body = None ->
  exists e w', post_json state decode_mapping "/v1/mappings" body w = (Fail e, w') /\ agent_of w' = agent_of w.
Proof.
  intros Htext Hd. unfold post_json. rewrite (lift_step text) by (by rewrite Htext). apply send_refused; [plain_path|].
  intros rq Hs. rewrite (call_of_sent _ _ _ _ _ RCreateMapping [] Hs); [|plain_path|routed].
  cbn [route_call]. by rewrite (json_unsent decode_create _ _ _ _ _ Hs Htext Hd).
Qed.

(** A row that is stored is listed. *)
Lemma row_listed rows row m ms : collect row_to_mapping (merge_sort row_le rows) = Ok ms -> row ∈ rows ->
  row_to_mapping row = Ok m -> m ∈ ms.
Proof.
  intros Hms%collect_Ok Hin Hm. rewrite <- (merge_sort_Permutation row_le) in Hin. apply list_elem_of_lookup_1 in Hin as [i Hi].
  destruct (Forall2_lookup_l _ _ _ _ _ Hms Hi) as (m2 & Hm2 & Hdec). assert (m2 = m) as -> by congruence.
  by eapply list_elem_of_lookup_2.
Qed.

(** What a form did: its mapping is stored and shown, or nothing was stored and the
    page says why. *)
Definition form_result (c : EdgeConfig) (db : Db) (m : option Mapping) (p : Page) (db' : Db) : Prop :=
  (exists m' row ms topo, m = Some m' /\ storable c db m' /\ row_of_mapping m' = Ok row /\
     db_mappings db' = db_mappings db ++ [row] /\
     p = PMappings ms topo /\ collect row_to_mapping (merge_sort row_le (db_mappings db')) = Ok ms /\ m' ∈ ms) \/
  (exists message, p = PError message /\ db' = db /\ forall m', m = Some m' -> ~ storable c db m').

Lemma error_page (m : IO GatewayError Page) w e w' : m w = (Fail e, w') -> render_result m w = (Ret (PError (ge_message e)), w').
Proof. unfold render_result, io_try, mbind, io_bind. by intros ->. Qed.
Lemma shown_page (m : IO GatewayError Page) w p w' : m w = (Ret p, w') -> render_result m w = (Ret p, w').
Proof. unfold render_result, io_try, mbind, io_bind. by intros ->. Qed.


End link.

(** ** Witnesses *)

#[local] Existing Instance ipnet_model.
#[local] Existing Instance model_lib.
#[local] Existing Instance model_lib_laws.
#[local] Existing Instance json_model.
#[local] Existing Instance json_model_laws.
#[local] Existing Instance http_model.
#[local] Existing Instance http_model_laws.

#[local] Instance uri_model : UriLaws.
Proof.
  intros path [_ Hp]. cbn [parse_uri http_model]. rewrite all_bytes_app.
  replace (all_bytes (within 33 126) path) with true; [done|]. symmetry. unfold all_bytes in *. rewrite forallb_forall in Hp |- *.
  intros c Hc. specialize (Hp c Hc). revert Hp. destruct c as [[] [] [] [] [] [] [] []]; vm_compute; try done.
Qed.
#[local] Existing Instance axum_model.
#[local] Existing Instance axum_model_laws.
#[local] Existing Instance one_alone.
#[local] Existing Instance one_reliable.

Definition linked_state : AppState := mkAppState "/run/agent.sock" None (Some "upstream").
Definition linked_config : EdgeConfig :=
  mkConfig "ens3" "wt0" [] None None None [] None InstancePrincipal (Some "upstream").
Lemma linked_paired : paired linked_config linked_state "upstream".
Proof. by split; [|vm_compute|right]. Qed.
Definition quiet_world : World := mkWorld db_empty ∅ [].

Lemma model_writes v : exists text, json_write v = Ok text.
Proof. by eexists. Qed.
#[local] Instance linked_env : Env := linked one_agent quiet_env no_vars linked_config sample_world.
Definition created : Out GatewayError Page * World := Ui.create_mapping linked_state sample_form quiet_world.


