(* ===== verification/Agent.v ===== *)
(** [edge-agent/src/main.rs]: the configuration of the agent and the checks
    before it serves the API. *)
From S2P Require Import Prelude Str Net Net6 Core Validation State Sql World Store Json Api Wire Gateway Reconcile.
Local Open Scope Z_scope.

(** An [anyhow::Error]: the contexts, from the outermost, and the cause. *)
Abbreviation Anyhow := (list string).

(** [.with_context(|| context)?] and [?] *)
Definition with_context {E A} (show : E -> string) (context : string) (m : IO E A) : IO Anyhow A :=
  io_map_err (fun e => [context; show e]) m.
Definition anyhow {E A} (show : E -> string) (m : IO E A) : IO Anyhow A := io_map_err (fun e => [show e]) m.
Definition bail {A} (message : string) : IO Anyhow A := io_fail [message].

Record FileConfig := mkFileConfig {
  fc_wan_interface : option string;
  fc_netbird_interface : option string;
  fc_target_cidrs : option (list Ipv4Net);
  fc_oci_compartment_id : option string;
  fc_oci_vnic_id : option string;
  fc_oci_subnet_id : option string;
  fc_oci_nsg_ids : option (list string);
  fc_oci_region : option string;
  fc_oci_auth : option OciAuthMode;
  fc_api_token : option string;
}.

Section start.
(** [as_net] is the [Deserialize] of [ipnet]. *)
Context `{Ipnet} `{StoreLib} `{JsonLib} `{TomlLib} `{Env} (as_net : Json -> option Ipv4Net).

Definition decode_file_config (v : Json) : option FileConfig :=
  f ← struct_fields ["wan_interface"; "netbird_interface"; "target_cidrs"; "oci_compartment_id"; "oci_vnic_id";
    "oci_subnet_id"; "oci_nsg_ids"; "oci_region"; "oci_auth"; "api_token"] 10 v;
  wan_interface ← optional as_string (f "wan_interface");
  netbird_interface ← optional as_string (f "netbird_interface");
  target_cidrs ← optional (as_list as_net) (f "target_cidrs");
  oci_compartment_id ← optional as_string (f "oci_compartment_id");
  oci_vnic_id ← optional as_string (f "oci_vnic_id");
  oci_subnet_id ← optional as_string (f "oci_subnet_id");
  oci_nsg_ids ← optional (as_list as_string) (f "oci_nsg_ids");
  oci_region ← optional as_string (f "oci_region");
  oci_auth ← optional as_wire (f "oci_auth");
  api_token ← optional as_string (f "api_token");
  Some (mkFileConfig wan_interface netbird_interface target_cidrs oci_compartment_id oci_vnic_id oci_subnet_id
    oci_nsg_ids oci_region oci_auth api_token).

(** What a file says, over the values of the command line. *)
Definition merge_file (config : EdgeConfig) (file : FileConfig) : EdgeConfig := {|
  wan_interface := default (wan_interface config) (fc_wan_interface file);
  netbird_interface := default (netbird_interface config) (fc_netbird_interface file);
  target_cidrs := default (target_cidrs config) (fc_target_cidrs file);
  oci_compartment_id := fc_oci_compartment_id file;
  oci_vnic_id := fc_oci_vnic_id file;
  oci_subnet_id := fc_oci_subnet_id file;
  oci_nsg_ids := default [] (fc_oci_nsg_ids file);
  oci_region := fc_oci_region file;
  oci_auth := default (oci_auth config) (fc_oci_auth file);
  api_token := fc_api_token file;
|}.

Definition load_config (path : option string) (wan netbird : string) (cidrs : list Ipv4Net) : IO Anyhow EdgeConfig :=
  let config := config_new wan netbird cidrs in
  match path with
  | None => mret config
  | Some path =>
      raw ← with_context (fun e => e) ("read config " +:+ path) (read_to_string path);
      file ← with_context (fun e => e) ("parse config " +:+ path) (lift (toml_from_str decode_file_config raw));
      mret (merge_file config file)
  end.

Definition reject_public_bind (addr : SocketAddr) : Result Anyhow unit :=
  if ip_unspecified (socket_ip addr)
  then Err ["refusing to bind management API to public wildcard address " +:+ show_socket addr]
  else Ok tt.

Record AgentCli := mkAgentCli {
  ac_db : string;
  ac_config : option string;
  ac_bind : SocketAddr;
  ac_unix_socket : option string;
  ac_api_token : option string;
  ac_allow_no_auth : bool;
  ac_wan_interface : string;
  ac_netbird_interface : string;
  ac_target_cidrs : list Ipv4Net;
}.

Definition set_token (c : EdgeConfig) (token : option string) : EdgeConfig :=
  mkConfig (wan_interface c) (netbird_interface c) (target_cidrs c) (oci_compartment_id c) (oci_vnic_id c)
    (oci_subnet_id c) (oci_nsg_ids c) (oci_region c) (oci_auth c) token.

(** [main] up to the router: the configuration that is served. [connect] is
    [SqliteStore::connect], which [Migrate] models on the tables themselves. *)
Definition agent_start (cli : AgentCli) (connect : IO EdgeCoreError unit) : IO Anyhow EdgeConfig :=
  lift (reject_public_bind (ac_bind cli)) ;;
  let authoritative := bool_decide (is_Some (ac_config cli)) in
  requested ← load_config (ac_config cli) (ac_wan_interface cli) (ac_netbird_interface cli) (ac_target_cidrs cli);
  with_context show_core_error ("open state database " +:+ ac_db cli) connect ;;
  config ← anyhow show_core_error (resolve_edge_config requested authoritative);
  let config := match api_token config with None => set_token config (ac_api_token cli) | Some _ => config end in
  if bool_decide (api_token config = None) && negb (ac_allow_no_auth cli) then
    bail ("missing API token; set EDGE_API_TOKEN, config api_token, or pass --allow-no-auth for local " +:+
          "development")
  else mret config.

(** The listener: a Unix socket, in the place of a file left by an earlier run, or an
    address. *)
Definition agent_listen (cli : AgentCli) : IO Anyhow unit :=
  match ac_unix_socket cli with
  | Some socket =>
      stale ← path_exists socket;
      (if (stale : bool) then with_context (fun e => e) ("remove stale socket " +:+ socket) (fs_do (RemoveFile socket))
       else mret tt) ;;
      match path_parent socket with
      | Some parent => with_context (fun e => e) ("create socket dir " +:+ parent) (fs_do (MakeDirs parent))
      | None => mret tt
      end ;;
      with_context (fun e => e) ("bind unix socket " +:+ socket) (bind_unix socket)
  | None =>
      let bind := show_socket (ac_bind cli) in
      with_context (fun e => e) ("bind " +:+ bind) (bind_tcp bind)
  end.
(** [main] up to the moment it serves requests. *)
Definition agent_main (cli : AgentCli) (connect : IO EdgeCoreError unit) : IO Anyhow EdgeConfig :=
  config ← agent_start cli connect;
  agent_listen cli ;;
  mret config.
End start.

(** The gateway's own check. *)
Definition gateway_reject_public_bind (addr : SocketAddr) : Result Anyhow unit :=
  if ip_unspecified (socket_ip addr)
  then Err ["refusing to bind gateway to wildcard address " +:+ show_socket addr] else Ok tt.

Record GatewayCli := mkGatewayCli {
  gc_config : option string;
  gc_bind : SocketAddr;
  gc_agent_socket : string;
  gc_static_dir : string;
  gc_gateway_token : option string;
  gc_api_token : option string;
}.
Definition gateway_listen `{Env} (cli : GatewayCli) : IO Anyhow unit :=
  anyhow (fun e => e) (bind_tcp (show_socket (gc_bind cli))).
(** [main] of the gateway up to the moment it serves requests: the state of its handlers. *)
Definition gateway_start `{TomlLib} `{Env} (cli : GatewayCli) : IO Anyhow AppState :=
  lift (gateway_reject_public_bind (gc_bind cli)) ;;
  tokens ← anyhow (fun e => e) (load_tokens (gc_config cli) (gc_gateway_token cli) (gc_api_token cli));
  gateway_listen cli ;;
  mret (mkAppState (gc_agent_socket cli) (tk_gateway tokens) (tk_api tokens)).

(** ** Properties *)

Lemma lift_Ret {E A B} (r : Result E A) (k : A -> IO E B) w b w' :
  (lift r ≫= k) w = (Ret b, w') -> exists a, r = Ok a /\ k a w = (Ret b, w').
Proof. destruct r as [a|e]; [by exists a|done]. Qed.

(** The effects that open a listener. *)
Definition listens (e : Effect) : Prop := match e with EFs (BindUnix _ | BindTcp _) _ => True | _ => False end.
Definition silent (e : Effect) : Prop := ~ listens e.
Lemma silent_listens effs : Forall silent effs -> ~ Exists listens effs.
Proof.
  induction 1 as [|e effs He _ IH]; [rewrite Exists_nil; by intros []|]. rewrite Exists_cons. by intros [Hl|Hl].
Qed.

(** What an agent may serve: its API is not on a wildcard address, and without
    [--allow-no-auth] every request must carry its token. *)
Definition guarded `{Ipnet} `{StoreLib} `{JsonLib} `{Env} (cli : AgentCli) (config : EdgeConfig) : Prop :=
  ip_unspecified (socket_ip (ac_bind cli)) = false /\
  (ac_allow_no_auth cli = false -> exists token, api_token config = Some token /\
    forall vars call authorization w, authorization <> Some ("Bearer " +:+ token) ->
      router vars config authorization call w = (Fail unauthorized, w)).

Section agent.
Context `{Ipnet} `{StoreLib} `{JsonLib} `{TomlLib} `{Env} (as_net : Json -> option Ipv4Net).

Lemma start_guarded cli connect w config w' : agent_start as_net cli connect w = (Ret config, w') -> guarded cli config.
Proof.
  intros Hrun. unfold agent_start in Hrun. apply lift_Ret in Hrun as ([] & Hb & Hrun). split.
  { unfold reject_public_bind in Hb. by destruct (ip_unspecified _). }
  intros Hauth. apply bind_Ret in Hrun as (requested & w1 & _ & Hrun).
  apply bind_Ret in Hrun as (u & w2 & _ & Hrun). apply bind_Ret in Hrun as (stored & w3 & _ & Hrun).
  cbn zeta in Hrun. set (final := match api_token stored with None => _ | Some _ => _ end) in Hrun.
  rewrite Hauth in Hrun. cbn [negb] in Hrun. rewrite andb_true_r in Hrun.
  case_bool_decide as Hnone; [done|]. injection Hrun as <- <-.
  destruct (api_token final) as [token|] eqn:Et; [|done]. exists token. split; [done|].
  intros vars call authorization w5 Hne. unfold router. rewrite require_auth_spec, Et.
  by rewrite decide_False.
Qed.

Lemma read_silent path : preserves (logs silent) (read_to_string path).
Proof. intros w. unfold read_to_string. case_match; (eapply logs_one; [done|by intros []]). Qed.
Lemma start_silent cli connect : preserves (logs silent) connect -> preserves (logs silent) (agent_start as_net cli connect).
Proof.
  intros Hc. unfold agent_start, load_config, with_context, anyhow, bail, resolve_edge_config, ensure_edge_config,
    set_edge_config, edge_config, sql.
  repeat first
    [ by auto using read_silent with io | apply logs_sql_query; intros [] | apply logs_sql_exec; intros ? []
    | apply preserves_bind; [apply _| |intros ?] | apply preserves_map_err | apply preserves_try
    | apply preserves_lift; apply _ | apply preserves_ret; apply _ | apply preserves_fail; apply _ | case_match ].
Qed.
End agent.

(** C35: an agent opens a listener, and gets to serve the API, only when that is not on a
    wildcard address and, without [--allow-no-auth], every request must carry a token:
    any other gets the status 401 and nothing happens. *)
Theorem started_agent_authenticates `{Ipnet} `{StoreLib} `{JsonLib} `{TomlLib} `{Env} as_net cli connect w o w' effs
    (Hconnect : preserves (logs silent) connect)
    (Hrun : agent_main as_net cli connect w = (o, w')) (Hlog : w_log w' = w_log w ++ effs) :
  (forall config, o = Ret config -> guarded cli config) /\
  (Exists listens effs -> exists config, (agent_start as_net cli connect w).1 = Ret config /\ guarded cli config).
Proof.
  pose proof (start_silent as_net cli connect Hconnect w) as (pre & Hpre & Hsilent).
  unfold agent_main in Hrun. unfold mbind at 1, io_bind at 1 in Hrun.
  destruct (agent_start as_net cli connect w) as [[config|e|s] w1] eqn:E; cbn [fst snd] in *.
  - apply start_guarded in E as Hg. split; [|by intros _; exists config].
    intros config' ->. apply (bind_Ret (agent_listen cli)) in Hrun as (u & w2 & _ & Hrun).
    injection Hrun as <- _. exact Hg.
  - injection Hrun as <- <-. split; [done|]. intros Hl. exfalso. rewrite Hpre in Hlog. apply (inj _) in Hlog as ->.
    by eapply silent_listens.
  - injection Hrun as <- <-. split; [done|]. intros Hl. exfalso. rewrite Hpre in Hlog. apply (inj _) in Hlog as ->.
    by eapply silent_listens.
Qed.

(** Where nothing fails, the agent listens on its Unix socket whatever file was in
    its place, and no other file changes; it is a file that is there when the agent
    starts that it removes, and nothing else. *)
Theorem agent_replaces_stale_socket `{Env} cli socket w (Hf : forall h op, env_fs_fault h op = None)
    (Hs : ac_unix_socket cli = Some socket) :
  exists w' effs, agent_listen cli w = (Ret tt, w') /\ w_fs w' = <[socket := ""]> (w_fs w) /\
    w_log w' = w_log w ++ effs /\
    forall path ok, EFs (RemoveFile path) ok ∈ effs -> path = socket /\ is_Some (w_fs w !! socket).
Proof.
  assert (Hdo : forall op w1, fs_do op w1 = (Ret tt, mkWorld (w_db w1) (fs_apply op (w_fs w1)) (w_log w1 ++ [EFs op true]))).
  { intros op w1. unfold fs_do. by rewrite Hf. }
  unfold agent_listen. rewrite Hs. unfold path_exists, mbind, io_bind. rewrite Hf.
  case_bool_decide as Hex.
  - unfold with_context, io_map_err. rewrite Hdo. cbn [w_fs w_log note fs_apply].
    destruct (path_parent socket) as [parent|]; unfold io_map_err; rewrite ?Hdo; cbn [w_fs w_log note fs_apply mret io_ret w_db];
      unfold bind_unix; cbn [w_fs]; rewrite lookup_delete_eq, Hdo; cbn [w_fs w_log fs_apply];
      (do 2 eexists; split; [reflexivity|]; cbn [w_fs w_log]; split; [by rewrite insert_delete_eq|];
       split; [by rewrite <- !(assoc_L (++))|]); set_solver.
  - apply eq_None_not_Some in Hex. cbn [w_fs w_log note mret io_ret].
    destruct (path_parent socket) as [parent|]; unfold with_context, io_map_err; rewrite ?Hdo; cbn [w_fs w_log note fs_apply mret io_ret w_db];
      unfold bind_unix; cbn [w_fs note]; rewrite Hex, Hdo; cbn [w_fs w_log note fs_apply];
      (do 2 eexists; split; [reflexivity|]; cbn [w_fs w_log]; split; [done|]; split; [by rewrite <- !(assoc_L (++))|]); set_solver.
Qed.

Lemma load_tokens_checked `{TomlLib} `{Env} config gateway api w t w' :
  load_tokens config gateway api w = (Ret t, w') ->
  tk_gateway t <> Some "" /\ exists token, tk_api t = Some token /\ token <> "".
Proof.
  unfold load_tokens, load_tokens_with. intros (file & w1 & _ & Hrun)%bind_Ret. cbn zeta in Hrun. cbn [negb andb] in Hrun.
  case_bool_decide as Hg; [done|]. case_bool_decide as Ha; [done|]. case_bool_decide as Hn; [done|].
  injection Hrun as <- <-. cbn. split; [done|].
  destruct (or_else api _) as [token|]; [|done]. exists token. split; [done|congruence].
Qed.

(** A gateway that gets to serve does not listen on a wildcard address and has a
    token for the agent that is not empty; so has its own token, if it has one,
    and then the proxy refuses every request without it before anything else. *)
Theorem started_gateway_checks_tokens `{HttpLaws} `{TomlLib} `{Env} cli w state w'
    (Hrun : gateway_start cli w = (Ret state, w')) :
  ip_unspecified (socket_ip (gc_bind cli)) = false /\
  (exists token, st_api_token state = Some token /\ token <> "") /\
  (forall expected, st_gateway_token state = Some expected -> expected <> "" /\
    forall path request w1,
      value_to_str <$> head (hm_get_all "authorization" (pr_headers request)) <> Some (Some ("Bearer " +:+ expected)) ->
      proxy state path request w1 = (Fail gw_unauthorized, w1)).
Proof.
  unfold gateway_start in Hrun. apply lift_Ret in Hrun as ([] & Hb & Hrun). split.
  { unfold gateway_reject_public_bind in Hb. by destruct (ip_unspecified _). }
  apply bind_Ret in Hrun as (t & w1 & Ht%map_err_Ret & Hrun). apply bind_Ret in Hrun as (u & w3 & _ & [= <- <-]). apply load_tokens_checked in Ht as [Hg Ha].
  split; [exact Ha|]. cbn [st_gateway_token]. intros expected He. split; [congruence|].
  intros path request w2 Hne. unfold proxy. cbn [st_gateway_token]. rewrite He.
  destruct (require_gateway_auth (pr_headers request) (Some expected)) as [[]|e] eqn:E.
  - apply gateway_auth_spec in E as (value & Hv & Hs). rewrite Hv in Hne. cbn in Hne. by rewrite Hs in Hne.
  - rewrite (lift_stop e) by done. by rewrite (gateway_auth_error _ _ _ E).
Qed.

(** ** Witness *)

#[local] Existing Instance ipnet_model.
#[local] Existing Instance model_lib.
#[local] Existing Instance json_model.
#[local] Existing Instance http_model.
#[local] Existing Instance quiet_env.

Definition no_toml : TomlLib := {| toml_read _ := Err "expected a table"; toml_data_error _ := "" |}.

Definition sample_cli : AgentCli :=
  mkAgentCli "/var/lib/edge-router/state.sqlite" None (SockV4 (ip4 127 0 0 1) 8443) None (Some "secret") false
    "ens3" "wt0" [].

Definition sample_start : Out Anyhow EdgeConfig * World :=
  agent_main (H2 := no_toml) (fun _ => None) sample_cli (mret tt) sample_world.
Definition sample_served : EdgeConfig := match sample_start.1 with Ret c => c | _ => sample_config end.
Lemma sample_start_run :
  agent_main (H2 := no_toml) (fun _ => None) sample_cli (mret tt) sample_world = (Ret sample_served, sample_start.2).
Proof. apply run_pair. vm_compute. reflexivity. Qed.

Lemma started_agent_authenticates_witness :
  is_ok (reject_public_bind (ac_bind sample_cli)) = true /\ exists token, api_token sample_served = Some token.
Proof.
  split; [reflexivity|].
  destruct (started_agent_authenticates (H2 := no_toml) _ _ _ _ _ _ _ (preserves_ret _ tt) sample_start_run eq_refl) as [Hg _].
  destruct (Hg sample_served eq_refl) as [_ Ht]. destruct (Ht eq_refl) as (token & Htoken & _). exists token. exact Htoken.
Defined.

Definition socket_cli : AgentCli :=
  mkAgentCli "/var/lib/edge-router/state.sqlite" None (SockV4 (ip4 127 0 0 1) 8443) (Some "/run/agent.sock") None true
    "ens3" "wt0" [].
Definition stale_world : World := mkWorld db_empty {["/run/agent.sock" := "old"]} [].
Lemma agent_replaces_stale_socket_witness :
  exists w', agent_listen socket_cli stale_world = (Ret tt, w') /\ w_fs w' !! "/run/agent.sock" = Some "".
Proof.
  assert (Hf : forall h op, env_fs_fault h op = None) by done.
  destruct (agent_replaces_stale_socket socket_cli "/run/agent.sock" stale_world Hf eq_refl)
    as (w' & effs & Hrun & Hfs & _). exists w'. split; [exact Hrun|]. rewrite Hfs. apply lookup_insert_eq.
Defined.

Definition sample_gateway : GatewayCli :=
  mkGatewayCli None (SockV4 (ip4 127 0 0 1) 8080) "/run/agent.sock" "web" (Some "secret") (Some "upstream").
Definition sample_state : AppState := mkAppState "/run/agent.sock" (Some "secret") (Some "upstream").
Lemma sample_gateway_run :
  gateway_start (H := no_toml) sample_gateway sample_world =
    (Ret sample_state, (gateway_start (H := no_toml) sample_gateway sample_world).2).
Proof. apply run_pair. vm_compute. reflexivity. Qed.

Lemma started_gateway_checks_tokens_witness :
  (gateway_start (H := no_toml) sample_gateway sample_world).1 = Ret sample_state /\
  proxy sample_state "v1/status" (mkProxyRequest "GET" (Some "/api/v1/status") hm_new (Ok "")) sample_world
    = (Fail gw_unauthorized, sample_world).
Proof.
  split; [vm_compute; reflexivity|].
  destruct (started_gateway_checks_tokens (H0 := http_model_laws) (H1 := no_toml) _ _ _ _ sample_gateway_run) as (_ & _ & Hp).
  apply (Hp "secret" eq_refl). done.
Defined.
