(* ===== verification/Cli.v ===== *)
(** [edge-cli/src/main.rs]: the commands of the [edge] tool, over the store, the
    reconciler and the command-line tools, with what they print. *)
From Stdlib Require Import Ascii.
From S2P Require Import Prelude Str BTree Net Net6 Core Validation State Sql World Store Nft Xdp Linux Reconcile.
From S2P Require Import Json Oci Netbird Api Wire Gateway Agent.
Local Open Scope Z_scope.

(** ** Commands *)

Record CreateMappingArgs := mkCreateArgs {
  ca_edge_private_ip : Ipv4Addr;
  ca_target : Ipv4Addr;
  ca_public_ip : option Ipv4Addr;
  ca_public_port : option Z;
  ca_target_port : option Z;
  ca_mode : MappingMode;
  ca_protocol : Protocol;
  ca_backend : MappingBackend;
  ca_name : option string;
  ca_skip_route_check : bool;
}.
Record DeleteMappingArgs := mkDeleteArgs {
  da_id : string;
  da_keep_oci_resources : bool;
  da_skip_reconcile : bool;
  da_output : string;
}.
Record ApplyArgs := mkApplyArgs {
  aa_dry_run : bool;
  aa_check : bool;
  aa_output : string;
  aa_enable_xdp : bool;
  aa_xdp_interface : option string;
  aa_xdp_pin_path : string;
}.
Record ReconcileArgs := mkReconcileArgs {
  ra_dry_run : bool;
  ra_skip_linux : bool;
  ra_skip_nft : bool;
  ra_output : string;
  ra_enable_xdp : bool;
  ra_xdp_interface : option string;
  ra_xdp_pin_path : string;
}.
Record RollbackArgs := mkRollbackArgs { ba_generation_id : Z; ba_output : string }.

Inductive MapCommand :=
  | MapCreate (args : CreateMappingArgs)
  | MapList
  | MapGet (i : string)
  | MapDelete (args : DeleteMappingArgs)
  | MapEnable (i : string)
  | MapDisable (i : string).
Inductive OracleIpCommand :=
  | IpList (compartment_id : string)
  | IpAllocate (mapping_id compartment_id vnic_id : string) (display_name : option string)
  | IpRelease (public_ip_id : string) (private_ip_id : option string).
Inductive OracleVnicCommand :=
  | VnicCheck (vnic_id : option string).
Inductive OracleCommand :=
  | OracleIp (command : OracleIpCommand)
  | OracleVnic (command : OracleVnicCommand).
Inductive NetbirdCommand :=
  | NbStatus
  | NbNetworks
  | NbCheck (target : Ipv4Addr) (ping : bool).
Inductive Command :=
  | CmdMap (command : MapCommand)
  | CmdApply (args : ApplyArgs)
  | CmdReconcile (args : ReconcileArgs)
  | CmdRollback (args : RollbackArgs)
  | CmdOracle (command : OracleCommand)
  | CmdStatus
  | CmdNetBird (command : NetbirdCommand).

Record Cli := mkCli {
  cl_db : string;
  cl_config : option string;
  cl_wan_interface : string;
  cl_netbird_interface : string;
  cl_target_cidrs : list Ipv4Net;
  cl_command : Command;
}.

(** ** Output *)

Definition println (text : string) : IO Anyhow unit := print (text +:+ newline).
Definition eprintln (text : string) : IO Anyhow unit := print_to true (text +:+ newline).
Definition print_lines (l : list string) : IO Anyhow unit := io_for_each println l.

(** [Debug] of the enums. *)
Definition debug_mode (m : MappingMode) : string :=
  match m with OneToOneSnat => "OneToOneSnat" | PortForwardSnat => "PortForwardSnat" end.
Definition debug_protocol (p : Protocol) : string := match p with All => "All" | Tcp => "Tcp" | Udp => "Udp" end.
Definition debug_status (s : MappingStatus) : string :=
  match s with
  | Pending => "Pending" | Active => "Active" | Disabled => "Disabled" | Degraded => "Degraded"
  | Core.Error => "Error"
  end.

(** [.map(|port| format!(":{port}")).unwrap_or_default()] *)
Definition port_suffix (port : option Z) : string := match port with Some p => ":" +:+ show_Z p | None => "" end.
Definition tab : string := String "009"%char EmptyString.

Definition mapping_line (m : Mapping) : string :=
  join tab [id m; match public_ip m with Some ip => show_ip ip | None => "-" end +:+ port_suffix (public_port m);
    show_ip (edge_private_ip m); show_ip (target_ip m) +:+ port_suffix (target_port m);
    debug_mode (mode m) +:+ "/" +:+ debug_protocol (protocol m); debug_status (Core.status m);
    "enabled=" +:+ show_bool (enabled m)].
Definition print_mapping_line (m : Mapping) : IO Anyhow unit := println (mapping_line m).

(** [.replace('.', "_")] *)
Definition replace_dots (s : string) : string := of_chars (map (fun c => if Ascii.eqb c "." then "_"%char else c) (chars s)).

(** ** OCI clean-up *)

Definition is_oci_not_found (e : OciError) : bool :=
  let text := to_ascii_lowercase (show_oci_error e) in
  contains "notfound" text || contains "not found" text || contains "404" text.

Section cli.
Context `{Ipnet} `{StoreLib} `{JsonLib} `{TomlLib} `{Env}.
(** [Debug] of the library's networks, and of the errors of the OCI tool. *)
Context (as_net : Json -> option Ipv4Net) (debug_net : Ipv4Net -> string) (debug_oci : OciError -> string).

Definition of_core {A} (m : IO EdgeCoreError A) : IO Anyhow A := anyhow show_core_error m.
Definition of_oci {A} (m : IO OciError A) : IO Anyhow A := anyhow show_oci_error m.
Definition of_netbird {A} (m : IO NetbirdError A) : IO Anyhow A := anyhow show_netbird_error m.
Definition of_reconcile {A} (m : IO ReconcileError A) : IO Anyhow A := anyhow show_reconcile_error m.

(** The deletion of one address, with the failures so far. *)
Definition cleanup_address (what : string) (delete : string -> IO OciError unit) (i : option string)
    (failures : list string) : IO Anyhow (list string) :=
  match i with
  | None => mret failures
  | Some i =>
      deleted ← io_try (delete i);
      match deleted with
      | Ok _ => println ("Deleted OCI " +:+ what +:+ ": " +:+ i) ;; mret failures
      | Err e =>
          if is_oci_not_found e then println ("OCI " +:+ what +:+ " already absent: " +:+ i) ;; mret failures
          else mret (failures ++ [what +:+ " " +:+ i +:+ ": " +:+ show_oci_error e])
      end
  end.
Definition cleanup_mapping_oci (m : Mapping) : IO Anyhow unit :=
  failures ← cleanup_address "public IP" (delete_public_ip oci_default) (oci_public_ip_ocid m) [];
  failures ← cleanup_address "private IP" (delete_private_ip oci_default) (oci_private_ip_ocid m) failures;
  match failures with
  | [] => mret tt
  | _ => bail ("OCI cleanup failed: " +:+ join "; " failures)
  end.

(** ** Mappings *)

Definition route_error (interface : string) (r : RouteCheck) : string :=
  "target route does not use " +:+ interface +:+ ": " +:+ rt_route r.
Definition validate_netbird_route (target : Ipv4Addr) (interface : string) : IO Anyhow unit :=
  route ← of_netbird (route_get netbird_default target);
  if uses_interface route interface then mret tt else bail (route_error interface route).

Definition map_id (i : string) : IO Anyhow MappingId := of_core (lift (mapping_id_from_str i)).

Definition map_create (args : CreateMappingArgs) (config : EdgeConfig) : IO Anyhow unit :=
  (if ca_skip_route_check args then mret tt
   else validate_netbird_route (ca_target args) (netbird_interface config)) ;;
  let nm := default (replace_dots ("target_" +:+ show_ip (ca_target args))) (ca_name args) in
  now ← now_utc;
  uuid ← fresh_uuid;
  let mapping := set_endpoints
    (mapping_new (mapping_id_new uuid) now nm (ca_public_ip args) (ca_edge_private_ip args) (ca_target args))
    (ca_public_port args) (ca_target_port args) (ca_mode args) (ca_protocol args) (ca_backend args) in
  of_core (Store.insert_mapping mapping) ;;
  println ("Created mapping: " +:+ id mapping) ;;
  match public_ip mapping with
  | Some ip => println ("Public IP: " +:+ show_ip ip +:+ port_suffix (public_port mapping))
  | None => mret tt
  end ;;
  print_lines ["Edge private IP: " +:+ show_ip (edge_private_ip mapping);
    "Target IP: " +:+ show_ip (target_ip mapping) +:+ port_suffix (target_port mapping);
    "Mode: " +:+ debug_mode (mode mapping) +:+ " " +:+ debug_protocol (protocol mapping);
    "Status: " +:+ debug_status (Core.status mapping)].

Definition delete_options (output : string) : ReconcileOptions :=
  mkOptions output false true true (xdp_config_disabled "").
Definition map_delete (args : DeleteMappingArgs) (config : EdgeConfig) : IO Anyhow unit :=
  i ← map_id (da_id args);
  mapping ← of_core (Store.get_mapping i);
  of_core (Store.set_mapping_enabled i false) ;;
  (if da_skip_reconcile args then mret tt
   else
     with_context show_reconcile_error ("reconcile disabled mapping " +:+ i)
       (Reconcile.reconcile default_reconciler config (delete_options (da_output args))) ;;
     mret tt) ;;
  (if da_keep_oci_resources args then mret tt else cleanup_mapping_oci mapping) ;;
  mapping ← of_core (Store.delete_mapping i);
  println ("Deleted mapping: " +:+ id mapping).

Definition handle_map (command : MapCommand) (config : EdgeConfig) : IO Anyhow unit :=
  match command with
  | MapCreate args => map_create args config
  | MapList => mappings ← of_core Store.list_mappings; io_for_each print_mapping_line mappings
  | MapGet i => i ← map_id i; mapping ← of_core (Store.get_mapping i); print_mapping_line mapping
  | MapDelete args => map_delete args config
  | MapEnable i =>
      i ← map_id i; mapping ← of_core (Store.set_mapping_enabled i true);
      println ("Enabled mapping: " +:+ id mapping)
  | MapDisable i =>
      i ← map_id i; mapping ← of_core (Store.set_mapping_enabled i false);
      println ("Disabled mapping: " +:+ id mapping)
  end.

(** ** Apply, reconcile, rollback *)

Definition cli_xdp_config (on : bool) (interface : option string) (pin_path : string) (config : EdgeConfig)
    : XdpConfig :=
  if on then xdp_config_enabled (default (wan_interface config) interface) pin_path
  else xdp_config_disabled (default (wan_interface config) interface).

Definition xdp_note (entries : nat) : IO Anyhow unit :=
  if (0 <? entries)%nat then eprintln ("XDP plan entries: " +:+ show_Z (Z.of_nat entries)) else mret tt.

Definition handle_apply (args : ApplyArgs) (config : EdgeConfig) : IO Anyhow unit :=
  mappings ← of_core Store.list_mappings;
  rendered ← of_core (from_out (render_nftables mappings config render_table));
  if aa_dry_run args && aa_check args then bail "--dry-run and --check are mutually exclusive"
  else
    let has_xdp_mappings := existsb (fun m => enabled m && bool_decide (backend m = Xdp)) mappings in
    if aa_dry_run args && negb (aa_enable_xdp args) && negb has_xdp_mappings then print rendered
    else
      let options := mkOptions (aa_output args) (aa_dry_run args) (negb (aa_check args)) (negb (aa_check args))
        (cli_xdp_config (aa_enable_xdp args) (aa_xdp_interface args) (aa_xdp_pin_path args) config) in
      report ← of_reconcile (Reconcile.reconcile default_reconciler config options);
      if aa_dry_run args then print rendered ;; xdp_note (xdp_plan_entries report)
      else if aa_check args then println ("nft validation ok: " +:+ aa_output args)
      else println ("Applied nftables config: " +:+ aa_output args).

Definition handle_reconcile (args : ReconcileArgs) (config : EdgeConfig) : IO Anyhow unit :=
  let options := mkOptions (ra_output args) (ra_dry_run args) (negb (ra_skip_nft args)) (negb (ra_skip_linux args))
    (cli_xdp_config (ra_enable_xdp args) (ra_xdp_interface args) (ra_xdp_pin_path args) config) in
  report ← of_reconcile (Reconcile.reconcile default_reconciler config options);
  if ra_dry_run args then print (nftables_config report) ;; xdp_note (xdp_plan_entries report)
  else
    print_lines ["Reconciled generation: " +:+ debug_opt_Z (generation_id report);
      "Added addresses: " +:+ join "," (added_addresses report);
      "Removed addresses: " +:+ join "," (removed_addresses report);
      "XDP plan entries: " +:+ show_Z (Z.of_nat (xdp_plan_entries report))].

Definition handle_rollback (args : RollbackArgs) : IO Anyhow unit :=
  of_reconcile (rollback default_reconciler (ba_generation_id args) (ba_output args)) ;;
  println ("Rolled back to generation: " +:+ show_Z (ba_generation_id args)).

(** ** OCI *)

Definition debug_failure (r : Result OciError unit) : string :=
  match r with Ok _ => "None" | Err e => "Some(" +:+ debug_oci e +:+ ")" end.

Definition ip_allocate (mapping_id compartment_id vnic : string) (display_name : option string) : IO Anyhow unit :=
  i ← map_id mapping_id;
  mapping ← of_core (Store.get_mapping i);
  if has_allocation mapping then bail ("mapping already has OCI allocation fields: " +:+ i)
  else
    let nm := default (name mapping) display_name in
    of_oci (validate_forwarding_vnic oci_default vnic) ;;
    private_ip ← of_oci (create_private_ip oci_default vnic (Some nm));
    created ← io_try (create_reserved_public_ip oci_default compartment_id (priv_id private_ip) (Some nm));
    match created with
    | Err error =>
        cleanup ← io_try (delete_private_ip oci_default (priv_id private_ip));
        match cleanup with
        | Err cleanup_error =>
            bail ("public IP allocation failed: " +:+ show_oci_error error +:+
                  "; private IP cleanup failed: " +:+ show_oci_error cleanup_error)
        | Ok _ => bail (show_oci_error error)
        end
    | Ok public_ip =>
        let allocation := mkAllocation private_ip public_ip in
        now ← now_utc;
        let mapping := mark_status (with_allocation mapping allocation) Pending now in
        updated ← io_try (Store.update_mapping mapping);
        match updated with
        | Err error =>
            public_cleanup ← io_try (delete_public_ip oci_default (pub_id public_ip));
            private_cleanup ← io_try (delete_private_ip oci_default (priv_id private_ip));
            if is_ok public_cleanup && is_ok private_cleanup then
              bail ("database update failed after OCI allocation; cleaned up OCI resources: " +:+
                    show_core_error error)
            else
              bail ("database update failed after OCI allocation: " +:+ show_core_error error +:+
                    "; public IP cleanup: " +:+ debug_failure public_cleanup +:+
                    "; private IP cleanup: " +:+ debug_failure private_cleanup)
        | Ok _ =>
            print_lines ["Allocated public IP: " +:+ show_ip (pub_ip_address public_ip);
              "Allocated OCI private IP: " +:+ show_ip (edge_private_ip mapping);
              "OCI public IP OCID: " +:+ default "-" (oci_public_ip_ocid mapping);
              "OCI private IP OCID: " +:+ default "-" (oci_private_ip_ocid mapping)]
        end
    end.

Definition public_ip_line (p : PublicIp) : string :=
  join tab [pub_id p; show_ip (pub_ip_address p); default "-" (pub_private_ip_id p); default "-" (pub_lifecycle_state p)].

Definition ip_release (public_ip_id : string) (private_ip_id : option string) : IO Anyhow unit :=
  of_oci (delete_public_ip oci_default public_ip_id) ;;
  println ("Released public IP: " +:+ public_ip_id) ;;
  match private_ip_id with
  | Some i => of_oci (delete_private_ip oci_default i) ;; println ("Deleted private IP: " +:+ i)
  | None => mret tt
  end.

Definition vnic_check (vnic : option string) : IO Anyhow unit :=
  config ← of_core Store.edge_config;
  vnic ← match or_else vnic (config ≫= oci_vnic_id) with
    | Some v => mret v
    | None => bail "missing VNIC ID; pass --vnic-id or set oci_vnic_id in config"
    end;
  v ← of_oci (validate_forwarding_vnic oci_default vnic);
  println ("VNIC forwarding check ok: " +:+ vnic_id v +:+ " (" +:+ default "-" (vnic_display_name v) +:+ ")").

Definition handle_oracle (command : OracleCommand) : IO Anyhow unit :=
  match command with
  | OracleIp (IpList compartment) =>
      ips ← of_oci (list_public_ips oci_default compartment); print_lines (public_ip_line <$> ips)
  | OracleIp (IpAllocate mapping_id compartment vnic display_name) =>
      ip_allocate mapping_id compartment vnic display_name
  | OracleIp (IpRelease public private) => ip_release public private
  | OracleVnic (VnicCheck vnic) => vnic_check vnic
  end.

(** ** NetBird and status *)

Definition handle_netbird (command : NetbirdCommand) (interface : string) : IO Anyhow unit :=
  match command with
  | NbStatus =>
      s ← of_netbird (netbird_status netbird_default);
      print_lines ["Daemon: " +:+ default "unknown" (nb_daemon_status s); "FQDN: " +:+ default "-" (nb_fqdn s);
        "NetBird IPv4: " +:+ default "-" (nb_netbird_ip s); "NetBird IPv6: " +:+ default "-" (nb_netbird_ipv6 s);
        "Peers: " +:+ show_Z (peers_connected (nb_peers s)) +:+ "/" +:+ show_Z (peers_total (nb_peers s)) +:+
        " connected"]
  | NbNetworks => s ← of_netbird (netbird_status netbird_default); print_lines (advertised_networks s)
  | NbCheck target ping =>
      route ← of_netbird (route_get netbird_default target);
      println ("Route: " +:+ rt_route route) ;;
      println ("Interface: " +:+ default "-" (rt_interface route)) ;;
      if negb (uses_interface route interface) then bail (route_error interface route)
      else if ping : bool then of_netbird (ping_once netbird_default target) ;; println "Ping: ok"
      else mret tt
  end.

Definition handle_status (config : EdgeConfig) : IO Anyhow unit :=
  mappings ← of_core Store.list_mappings;
  print_lines ["WAN interface: " +:+ wan_interface config; "NetBird interface: " +:+ netbird_interface config;
    "Target CIDRs: [" +:+ join ", " (debug_net <$> target_cidrs config) +:+ "]";
    "Mappings: " +:+ show_Z (Z.of_nat (length mappings)) +:+ " total, " +:+
    show_Z (Z.of_nat (length (filter (fun m => enabled m = true) mappings))) +:+ " enabled"].

(** ** [main] *)

Definition run_command_line (command : Command) (config : EdgeConfig) : IO Anyhow unit :=
  match command with
  | CmdMap command => handle_map command config
  | CmdApply args => handle_apply args config
  | CmdReconcile args => handle_reconcile args config
  | CmdRollback args => handle_rollback args
  | CmdOracle command => handle_oracle command
  | CmdStatus => handle_status config
  | CmdNetBird command => handle_netbird command (netbird_interface config)
  end.

(** The tool's own [FileConfig] and [load_config], which repeat those of the agent. *)
Definition cli_load_config : option string -> string -> string -> list Ipv4Net -> IO Anyhow EdgeConfig :=
  load_config as_net.

(** [connect] is [SqliteStore::connect], which [Migrate] models. *)
Definition cli_main (cli : Cli) (connect : IO EdgeCoreError unit) : IO Anyhow unit :=
  let authoritative := bool_decide (is_Some (cl_config cli)) in
  requested ← cli_load_config (cl_config cli) (cl_wan_interface cli) (cl_netbird_interface cli)
    (cl_target_cidrs cli);
  with_context show_core_error ("open state database " +:+ cl_db cli) connect ;;
  config ← of_core (Store.resolve_edge_config requested authoritative);
  run_command_line (cl_command cli) config.
End cli.

(** ** The removal of a mapping *)

Section deletion.
Context `{Ipnet} `{StoreLib} `{JsonLib} `{Env}.

Lemma loads_oci nft path s args :
  nft <> oci_binary oci_default -> preserves (logs (idle (load_guard nft path) s)) (oci_run oci_default args).
Proof.
  intros Hne. unfold oci_run. apply preserves_bind; [apply _| |intros reply].
  - apply logs_command. intros rep. unfold idle, load_guard. by rewrite bool_decide_eq_false_2 by naive_solver.
  - repeat case_match; auto with io.
Qed.

Lemma loads_cleanup nft path s m :
  nft <> oci_binary oci_default -> preserves (logs (idle (load_guard nft path) s)) (cleanup_mapping_oci m).
Proof.
  intros Hne.
  assert (Haddress : forall what delete i fs,
    (forall i, preserves (logs (idle (load_guard nft path) s)) (delete i)) ->
    preserves (logs (idle (load_guard nft path) s)) (cleanup_address what delete i fs)).
  { intros what delete [i|] fs Hd; cbn [cleanup_address]; [|by auto with io].
    apply preserves_bind; [apply _|by apply preserves_try|intros [u|e]].
    - apply preserves_bind; [apply _|by apply logs_print|intros _; by auto with io].
    - destruct (is_oci_not_found e); [|by auto with io].
      apply preserves_bind; [apply _|by apply logs_print|intros _; by auto with io]. }
  unfold cleanup_mapping_oci. apply preserves_bind; [apply _| |intros fs].
  { apply Haddress. intros i. unfold delete_public_ip.
    apply preserves_bind; [apply _|by apply loads_oci|intros out; by auto with io]. }
  apply preserves_bind; [apply _| |intros fs']; [|by destruct fs'; unfold bail; auto with io].
  apply Haddress. intros i. unfold delete_private_ip.
  apply preserves_bind; [apply _|by apply loads_oci|intros out; by auto with io].
Qed.

Abbreviation nft := (nft_binary (rc_nft default_reconciler)).

Lemma map_delete_loads args config : da_skip_reconcile args = false ->
  tracks (load_guard nft (da_output args)) false (map_delete args config) (fun _ _ => True).
Proof.
  intros Hskip. unfold map_delete, map_id, of_core, anyhow, with_context. rewrite Hskip.
  apply tracks_past; [apply preserves_map_err, preserves_lift, _|intros i|done..].
  apply tracks_past; [apply preserves_map_err, through_get_mapping; auto 8 with io loads|intros m|done..].
  apply tracks_past; [apply preserves_map_err, through_set_mapping_enabled; auto 8 with io loads|intros m'|done..].
  apply tracks_bind, tracks_bind, tracks_map_err. eapply tracks_mono; [by apply reconcile_loads|].
  intros [report|e|x] s Hs; [|done..]. rewrite (Hs eq_refl eq_refl). apply tracks_ret.
  apply tracks_past; [|intros u|done..].
  { destruct (da_keep_oci_resources args); [by auto with io|by apply loads_cleanup]. }
  eapply tracks_mono; [apply (tracks_idle _ true)|done].
  apply preserves_bind; [apply _|apply preserves_map_err, through_delete_mapping; auto 8 with io loads|intros d].
  - by apply logs_sql_exec.
  - by apply logs_print.
Qed.
End deletion.

(** ** Properties *)


(** ** The clean-up of both addresses *)

(** How a run of the OCI tool ended. *)
Definition oci_outcome (rep : CmdReply) : Result OciError CommandOutput :=
  match rep with
  | CmdTimedOut => Err (OciTimeout 12)
  | CmdIo m => Err (OciIo m)
  | CmdDone o => if is_success o then Ok o else Err (OciCommand (error_message o))
  end.
(** The address is gone. *)
Definition settled (rep : CmdReply) : bool :=
  match oci_outcome rep with Ok _ => true | Err e => is_oci_not_found e end.

(** The processes that were run, with their ends. *)
Definition commands (effs : History) : list (string * list string * CmdReply) :=
  omap (fun e => match e with ECommand prog args rep => Some (prog, args, rep) | _ => None end) effs.

Lemma commands_app e1 e2 : commands (e1 ++ e2) = commands e1 ++ commands e2.
Proof. apply omap_app. Qed.

Section cleanup.
Context `{JsonLib} `{Env}.

Lemma oci_run_outcome args w :
  oci_run oci_default args w =
    let rep := env_command (w_log w) "oci" args in lift (oci_outcome rep) (note (ECommand "oci" args rep) w).
Proof.
  unfold oci_run, mbind, io_bind, run_command, oci_outcome. cbn. destruct (env_command _ _ _); [done..|].
  by destruct (is_success o).
Qed.

(** What one clean-up runs, and what is left of its failures. *)
Lemma cleanup_address_run what delete args i fs w :
  (forall i w, delete i w = (oci_run oci_default (args i) ;; mret tt : IO OciError unit) w) ->
  exists effs fs', cleanup_address what delete i fs w = (Ret fs', (cleanup_address what delete i fs w).2) /\
    w_log (cleanup_address what delete i fs w).2 = w_log w ++ effs /\
    fst <$> commands effs = match i with Some i => [("oci", args i)] | None => [] end /\
    (fs' = [] <-> fs = [] /\ Forall (fun c => settled c.2 = true) (commands effs)).
Proof.
  intros Hd. destruct i as [i|]; cbn [cleanup_address].
  2: { exists [], fs. rewrite List.app_nil_r. split_and!; [done..|]. split; [by intros ->|by intros [-> _]]. }
  set (rep := env_command (w_log w) "oci" (args i)).
  assert (Hrun : delete i w = (lift (oci_outcome rep) ;; mret tt : IO OciError unit) (note (ECommand "oci" (args i) rep) w)).
  { rewrite Hd. unfold mbind at 1, io_bind at 1. rewrite oci_run_outcome. reflexivity. }
  unfold mbind, io_bind, io_try. rewrite Hrun. unfold mbind, io_bind, lift.
  assert (Hs : settled rep = match oci_outcome rep with Ok _ => true | Err e => is_oci_not_found e end) by done.
  destruct (oci_outcome rep) as [o|e]; cbn.
  - eexists [_; _], fs. split_and!; [done|by rewrite <- (assoc_L (++))|done|].
    cbn. rewrite Forall_singleton. cbn. rewrite Hs. tauto.
  - destruct (is_oci_not_found e); cbn.
    + eexists [_; _], fs. split_and!; [done|by rewrite <- (assoc_L (++))|done|].
      cbn. rewrite Forall_singleton. cbn. rewrite Hs. tauto.
    + eexists [_], _. split_and!; [done|done|done|]. cbn. rewrite Forall_singleton. cbn. rewrite Hs.
      split; [by destruct fs|naive_solver].
Qed.
End cleanup.

(** The clean-up runs the deletion of each address the mapping names, the
    private one also when that of the public one failed, and succeeds exactly
    when every deletion succeeded or found its address absent. *)
Theorem cleanup_tries_both `{JsonLib} `{Env} m w :
  exists effs, w_log (cleanup_mapping_oci m w).2 = w_log w ++ effs /\
    fst <$> commands effs =
      match oci_public_ip_ocid m with Some i => [("oci", delete_public_args i)] | None => [] end ++
      match oci_private_ip_ocid m with Some i => [("oci", delete_private_args i)] | None => [] end /\
    ((cleanup_mapping_oci m w).1 = Ret tt <-> Forall (fun c => settled c.2 = true) (commands effs)).
Proof.
  unfold cleanup_mapping_oci.
  destruct (cleanup_address_run "public IP" (delete_public_ip oci_default) delete_public_args
    (oci_public_ip_ocid m) [] w) as (e1 & f1 & Hrun1 & Hl1 & Hc1 & Hf1); [done|].
  set (w1 := (cleanup_address _ _ _ _ w).2) in *.
  destruct (cleanup_address_run "private IP" (delete_private_ip oci_default) delete_private_args
    (oci_private_ip_ocid m) f1 w1) as (e2 & f2 & Hrun2 & Hl2 & Hc2 & Hf2); [done|].
  set (w2 := (cleanup_address _ _ _ f1 w1).2) in *.
  rewrite (bind_step _ _ _ _ _ Hrun1), (bind_step _ _ _ _ _ Hrun2). exists (e1 ++ e2).
  rewrite commands_app, fmap_app, Hc1, Hc2, Forall_app.
  assert (Hend : f2 = [] <-> Forall (fun c => settled c.2 = true) (commands e1) /\
                             Forall (fun c => settled c.2 = true) (commands e2)) by naive_solver.
  rewrite (assoc_L (++)), <- Hl1, <- Hl2.
  split_and!; [by destruct f2|done|]. rewrite <- Hend. by destruct f2.
Qed.

(** ** The check of [apply] *)

(** An effect that is no process, or the check of the file. *)
Definition only_checks (path : string) (e : Effect) : Prop :=
  match e with ECommand prog args _ => prog = "nft" /\ args = ["-c"; "-f"; path] | _ => True end.

Section check.
Context `{Ipnet} `{StoreLib} `{JsonLib} `{Env} (path : string).

Abbreviation R := (logs (only_checks path)).

#[local] Hint Extern 1 (only_checks _ _) => exact I : io.

Lemma checks_write bytes : preserves R (atomic_write path bytes).
Proof.
  apply through_atomic_write; [apply _|intros E; by apply logs_uuid|intros op; by apply logs_fs].
Qed.

Lemma checks_generation st cfg ap er : preserves R (record_generation st cfg ap er).
Proof. apply through_record_generation; auto with io. Qed.
Lemma checks_event lv msg data : preserves R (record_event lv msg data).
Proof. apply through_record_event; auto with io. Qed.
Lemma checks_list : preserves R Store.list_mappings.
Proof. apply through_list_mappings; auto with io. Qed.
#[local] Hint Resolve checks_write checks_generation checks_event checks_list : io.

Lemma checks_nft : preserves R (check_file nft_default path).
Proof.
  unfold check_file, nft_run. apply preserves_bind; [apply _|by apply logs_command|intros rep].
  repeat case_match; auto with io.
Qed.
#[local] Hint Resolve checks_nft : io.

Ltac check_steps := repeat first
  [ by auto with io | apply preserves_bind; [apply _| |intros ?] | apply preserves_map_err | apply preserves_try
  | apply preserves_lift; apply _ | apply preserves_from_out; apply _ | case_match ].

Lemma checks_reconcile config opts : nft_output opts = path -> apply_nft opts = false -> apply_linux opts = false ->
  preserves R (Reconcile.reconcile default_reconciler config opts).
Proof.
  intros Hp Hn Hl. unfold Reconcile.reconcile, install, conclude, record_failure, core. rewrite Hp, Hn, Hl.
  cbn [andb rc_nft default_reconciler]. check_steps.
Qed.
End check.

(** [apply --check] runs nothing but the check of the file it wrote: no
    ruleset is loaded and no address changes. *)
Theorem apply_check_only_checks `{Ipnet} `{StoreLib} `{JsonLib} `{Env} args config w (Hc : aa_check args = true) :
  exists effs, w_log (handle_apply args config w).2 = w_log w ++ effs /\ Forall (only_checks (aa_output args)) effs.
Proof.
  revert w. change (preserves (logs (only_checks (aa_output args))) (handle_apply args config)).
  unfold handle_apply, of_core, of_reconcile, anyhow, xdp_note, eprintln, println, print, bail.
  assert (Hr : forall opts, nft_output opts = aa_output args -> apply_nft opts = false -> apply_linux opts = false ->
    preserves (logs (only_checks (aa_output args))) (Reconcile.reconcile default_reconciler config opts))
    by (intros; by apply checks_reconcile).
  rewrite Hc. repeat first
    [ by auto with io | apply Hr; done | apply checks_list | apply logs_print; done
    | apply preserves_bind; [apply _| |intros ?]
    | apply preserves_map_err | apply preserves_from_out; apply _ | case_match ].
Qed.

(** ** Allocation *)

Section ledger.
Context `{Ipnet} `{StoreLib} `{JsonLib} `{Env} (debug_oci : OciError -> string).

Abbreviation led := (ledger (oci_binary oci_default)).
#[local] Hint Resolve idle_not_command : io.
#[local] Hint Extern 1 (_ <> ECommand _ _ _) => discriminate : io.

(** A failed computation holds no address; one that returns holds two. *)
Definition two_or_none {A} (o : Out Anyhow A) (s : list Resource) : Prop :=
  match o with
  | Ret _ => exists private public, s = [PrivateAddress private; PublicAddress public]
  | _ => s = []
  end.

Lemma clean_up_none {A} private public (k : Result OciError unit -> Result OciError unit -> IO Anyhow A) :
  (forall r1 r2, exists e, k r1 r2 = io_fail e) ->
  tracks led [PrivateAddress private; PublicAddress public]
    (r1 ← io_try (delete_public_ip oci_default public);
     r2 ← io_try (delete_private_ip oci_default private);
     k r1 r2) two_or_none.
Proof.
  intros Hk. apply tracks_bind, tracks_try. eapply tracks_mono; [apply delete_public_tracked|].
  rewrite filter_cons_True, filter_cons_False by naive_solver.
  assert (Hpriv : forall r1, tracks led [PrivateAddress private]
    (r2 ← io_try (delete_private_ip oci_default private); k r1 r2) two_or_none).
  { intros r1. apply tracks_bind, tracks_try. eapply tracks_mono; [apply delete_private_tracked|].
    rewrite filter_cons_False by naive_solver.
    intros [u|e|x] s'; cbn; [intros ->|intros ->|done].
    - destruct (Hk r1 (Ok u)) as [e ->]. by apply tracks_fail.
    - destruct (Hk r1 (Err e)) as [e' ->]. by apply tracks_fail. }
  intros [u|e|x] s'; cbn; [intros ->; apply Hpriv|intros ->; apply Hpriv|done].
Qed.

Lemma lines_idle s l : preserves (logs (idle led s)) (print_lines l).
Proof. apply preserves_for_each; [apply _|]. intros line _. apply logs_print, idle_not_command. discriminate. Qed.

Lemma lines_return l w : (print_lines l w).1 = Ret tt.
Proof. revert w; induction l as [|x l IH]; intros w; [done|apply IH]. Qed.
Lemma lines_tracked s l (Q : Out Anyhow unit -> list Resource -> Prop) : Q (Ret tt) s -> tracks led s (print_lines l) Q.
Proof.
  intros HQ w. destruct (tracks_idle led s _ (lines_idle s l) w) as (effs & s' & Hl & Hr & ->).
  exists effs, s. by rewrite lines_return.
Qed.

Lemma ip_allocate_tracked mapping_id compartment vnic display_name :
  tracks led [] (ip_allocate debug_oci mapping_id compartment vnic display_name) two_or_none.
Proof.
  unfold ip_allocate, map_id, of_core, of_oci, anyhow. apply tracks_bind, tracks_map_err, tracks_lift; [intros i _|done].
  apply tracks_beside; [auto with io|apply preserves_map_err, store_get_idle|intros m|done].
  destruct (has_allocation m); [by apply tracks_fail|].
  apply tracks_bind, tracks_map_err. eapply tracks_mono; [apply get_vnic_tracked|].
  intros [v|e|x] s; [intros ->|by intros ->|done].
  apply tracks_bind, tracks_map_err. eapply tracks_mono; [apply create_private_tracked|].
  intros [p|e|x] s; [intros ->|by intros ->|done]. cbn [List.app].
  apply tracks_bind, tracks_try. eapply tracks_mono; [apply create_public_tracked|].
  intros [q|e|x] s; [intros ->|intros ->|done].
  - apply tracks_through; [by eexists|apply logs_now, idle_not_command; discriminate|intros now].
    apply tracks_through; [by apply try_returns; auto with io|apply preserves_try, store_update_idle|intros [u|e]].
    + apply lines_tracked. by eexists _, _.
    + apply clean_up_none. intros r1 r2. by destruct (_ && _); eexists.
  - apply tracks_bind, tracks_try. eapply tracks_mono; [apply delete_private_tracked|].
    rewrite filter_cons_False by naive_solver.
    intros [u|e'|x] s; cbn; [intros ->; by apply tracks_fail|intros ->; by apply tracks_fail|done].
Qed.
End ledger.

(** An allocation from the command line leaves no orphan: when it fails, in
    the tool, the validation or the database, every address whose creation was
    reported has had its deletion asked for, and when it returns, the two
    addresses of the mapping are held. *)
Theorem cli_allocate_leaves_no_orphan `{Ipnet} `{StoreLib} `{JsonLib} `{Env} debug_oci mapping_id compartment vnic
    display_name w :
  exists effs, w_log (ip_allocate debug_oci mapping_id compartment vnic display_name w).2 = w_log w ++ effs /\
    two_or_none (ip_allocate debug_oci mapping_id compartment vnic display_name w).1
      (held_after (oci_binary oci_default) effs).
Proof.
  destruct (ip_allocate_tracked debug_oci mapping_id compartment vnic display_name w) as (effs & s & Hl & Hr & Hs).
  exists effs. split; [done|]. rewrite ledger_runs in Hr. injection Hr as Hr.
  unfold held_after. cbn [oci_binary oci_default]. by rewrite Hr.
Qed.

(** ** Witnesses *)

#[local] Existing Instance ipnet_model.
#[local] Existing Instance model_lib.
#[local] Existing Instance json_model.
#[local] Existing Instance quiet_env.


Lemma apply_check_only_checks_witness :
  let args := mkApplyArgs false true "/run/edge-router/generated.nft" false None "/sys/fs/bpf/edgeroute" in
  exists effs, w_log (handle_apply args sample_config sample_world).2 = [] ++ effs /\
    Forall (only_checks "/run/edge-router/generated.nft") effs.
Proof.
  cbn zeta.
  by apply (apply_check_only_checks
    (mkApplyArgs false true "/run/edge-router/generated.nft" false None "/sys/fs/bpf/edgeroute")).
Defined.
