(* ===== verification/TestsCore.v ===== *)
(** The tests of [edge-core], run on the model: [mapping.rs], [validation.rs] and
    [state.rs]. Each test is a definition with the statements of its function. *)
From S2P Require Import Prelude Str Net Core Validation State Sql World Store Json Testing Wire.
Local Open Scope Z_scope.

#[local] Existing Instance ipnet_model.
#[local] Existing Instance test_lib.
#[local] Existing Instance quiet_env.
#[local] Existing Instance text_json.
#[local] Instance EdgeCoreError_eq : EqDecision EdgeCoreError.
Proof. solve_decision. Defined.
#[local] Instance Generation_eq : EqDecision Generation.
Proof. solve_decision. Defined.
#[local] Instance Event_eq : EqDecision Event.
Proof. solve_decision. Defined.

(** ** [mapping.rs] *)

Definition mapping_id_rejects_empty_input : Test unit :=
  e ← err (mapping_id_from_str "  ");
  assert_eq e (Validation "mapping id cannot be empty").

Definition mapping_uses_snake_case_wire_names : Test unit :=
  json ← ok (json_write (JStr (wire OneToOneSnat)));
  assert_eq json (fixture "'one_to_one_snat'") ;;
  json ← ok (json_write (JStr (wire PortForwardSnat)));
  assert_eq json (fixture "'port_forward_snat'") ;;
  json ← ok (json_write (JStr (wire Nft)));
  assert_eq json (fixture "'nft'").

Definition mapping_defaults_to_nft_backend : Test unit :=
  mapping ← new_mapping "prod_vm_1" None (ip4 10 0 0 101) (ip4 192 168 20 42);
  assert_eq (backend mapping) Nft.

Definition legacy_mapping_json : string := fixture "{
            'id':'map_legacy',
            'name':'prod_vm_1',
            'public_ip':null,
            'oci_public_ip_ocid':null,
            'edge_private_ip':'10.0.0.101',
            'oci_private_ip_ocid':null,
            'target_ip':'192.168.20.42',
            'public_port':null,
            'target_port':null,
            'protocol':'all',
            'mode':'one_to_one_snat',
            'enabled':true,
            'status':'pending',
            'last_error':null,
            'health_status':null,
            'last_checked_at':null,
            'created_at':'2026-01-01T00:00:00Z',
            'updated_at':'2026-01-01T00:00:00Z'
        }".
Definition legacy_mapping_json_defaults_to_nft_backend : Test unit :=
  mapping ← ok (from_str decode_mapping legacy_mapping_json);
  assert_eq (backend mapping) Nft.

Example mapping_tests_pass :
  passes mapping_id_rejects_empty_input = true /\ passes mapping_uses_snake_case_wire_names = true /\
  passes mapping_defaults_to_nft_backend = true /\ passes legacy_mapping_json_defaults_to_nft_backend = true.
Proof. vm_compute. repeat split. Qed.

(** ** [validation.rs] *)

Definition config : EdgeConfig := config_new "ens3" "wt0" [net24 192 168 20].
Definition mapping : Test Mapping :=
  new_mapping "prod_vm_1" (Some (ip4 8 8 8 8)) (ip4 10 0 0 101) (ip4 192 168 20 42).

Definition accepts_valid_mapping_inside_target_cidr : Test unit :=
  m ← mapping;
  ok (validate_mapping m config).

Definition accepts_direct_netbird_target_when_overlay_cidr_is_configured : Test unit :=
  let config := config_new "enp0s6" "wt0" [mkNet (ip4 100 64 0 0) 16] in
  mapping ← new_mapping "direct-peer" (Some (ip4 8 8 8 8)) (ip4 10 0 0 101) (ip4 100 64 34 182);
  ok (validate_mapping mapping config).

Definition rejects_target_outside_target_cidrs : Test unit :=
  m ← mapping;
  e ← err (validate_mapping (set_target m (ip4 192 168 30 42)) config);
  assert_eq e (Validation "target IP is outside configured target CIDRs: 192.168.30.42").

Definition rejects_duplicate_public_ip : Test unit :=
  first ← mapping;
  second ← mapping;
  let second := set_addresses second (public_ip second) (ip4 10 0 0 102) (ip4 192 168 20 43) in
  e ← err (validate_mappings [first; second] config);
  assert_eq e (DuplicatePublicIp (ip4 8 8 8 8)).

Definition accepts_port_forwards_on_shared_edge_private_ip : Test unit :=
  first ← mapping;
  let first := forwarding first Tcp 13306 3306 in
  second ← mapping;
  i ← new_id;
  let second := set_addresses (set_id second i) (public_ip first) (edge_private_ip second) (ip4 192 168 20 43) in
  let second := forwarding second Udp 14444 4444 in
  ok (validate_mappings [first; second] config).

Definition rejects_duplicate_port_forward_tuple : Test unit :=
  first ← mapping;
  let first := forwarding first Tcp 13306 3306 in
  i ← new_id;
  let second := set_target (set_id first i) (ip4 192 168 20 43) in
  e ← err (validate_mappings [first; second] config);
  assert_eq e (DuplicateEdgePrivateIp (ip4 10 0 0 101)).

Definition rejects_port_forward_without_ports : Test unit :=
  m ← mapping;
  e ← err (validate_mapping (set_endpoints m None None PortForwardSnat Tcp (backend m)) config);
  assert_eq e (Validation "port-forward mappings require public_port").

Definition rejects_proxy_backend_until_implemented : Test unit :=
  m ← mapping;
  e ← err (validate_mapping (set_backend m Proxy) config);
  assert_eq e (Validation "proxy mapping backend is not implemented").

Definition rejects_xdp_for_one_to_one_mappings : Test unit :=
  m ← mapping;
  e ← err (validate_mapping (set_backend m Xdp) config);
  assert_eq e (Validation "xdp backend only supports port-forward mappings").

Definition rejects_network_and_broadcast_targets : Test unit :=
  network ← mapping;
  broadcast ← mapping;
  assert (negb (is_ok (validate_mapping (set_target network (ip4 192 168 20 0)) config))) ;;
  assert (negb (is_ok (validate_mapping (set_target broadcast (ip4 192 168 20 255)) config))).

Definition rejects_invalid_public_ip : Test unit :=
  m ← mapping;
  e ← err (validate_mapping (set_addresses m (Some (ip4 10 0 0 1)) (edge_private_ip m) (target_ip m)) config);
  assert_eq e (Validation "public IP must be globally routable: 10.0.0.1").

Example validation_tests_pass :
  forallb passes [accepts_valid_mapping_inside_target_cidr;
    accepts_direct_netbird_target_when_overlay_cidr_is_configured; rejects_target_outside_target_cidrs;
    rejects_duplicate_public_ip; accepts_port_forwards_on_shared_edge_private_ip;
    rejects_duplicate_port_forward_tuple; rejects_port_forward_without_ports; rejects_proxy_backend_until_implemented;
    rejects_xdp_for_one_to_one_mappings; rejects_network_and_broadcast_targets; rejects_invalid_public_ip] = true.
Proof. vm_compute. reflexivity. Qed.

(** ** [state.rs] *)

Definition state_config : EdgeConfig := config_new "ens3" "wt0" [net24 192 168 20].
Definition state_mapping : Test Mapping :=
  new_mapping "prod_vm_1" (Some (ip4 8 8 8 8)) (ip4 10 0 0 101) (ip4 192 168 20 42).

Definition inserts_and_reads_mapping : Test unit :=
  let store := store_new in
  '(_, store) ← ok_mut (State.set_edge_config state_config store);
  mapping ← state_mapping;
  let i := id mapping in
  '(_, store) ← ok_mut (State.insert_mapping mapping store);
  stored ← ok (State.get_mapping i store);
  assert_eq stored mapping ;;
  assert_eq (State.list_mappings store) [mapping].

Definition rejects_mapping_before_config : Test unit :=
  let store := store_new in
  mapping ← state_mapping;
  '(e, _) ← err_mut (State.insert_mapping mapping store);
  assert_eq e (StoreError "edge config must be set before mappings").

Definition rejects_duplicate_edge_private_ip : Test unit :=
  let store := store_new in
  '(_, store) ← ok_mut (State.set_edge_config state_config store);
  first ← state_mapping;
  second ← state_mapping;
  i ← new_id;
  let second := set_addresses (set_id second i) (Some (ip4 1 1 1 1)) (edge_private_ip second) (ip4 192 168 20 43) in
  '(_, store) ← ok_mut (State.insert_mapping first store);
  '(e, _) ← err_mut (State.insert_mapping second store);
  assert_eq e (DuplicateEdgePrivateIp (ip4 10 0 0 101)).

Definition disabling_mapping_updates_status : Test unit :=
  let store := store_new in
  '(_, store) ← ok_mut (State.set_edge_config state_config store);
  mapping ← state_mapping;
  let i := id mapping in
  '(_, store) ← ok_mut (State.insert_mapping mapping store);
  now ← now_utc;
  '(_, store) ← ok_mut (State.set_mapping_enabled now i false store);
  stored ← ok (State.get_mapping i store);
  assert (negb (enabled stored)) ;;
  assert_eq (status stored) Disabled.

Definition records_generation_and_event_ids : Test unit :=
  let store := store_new in
  now ← now_utc;
  '(generation, store) ← ok_mut (State.record_generation now
    (mkNewGeneration GenerationStatus.Rendered "table ip edge_nat {}" None None) store);
  now ← now_utc;
  '(event, store) ← ok_mut (State.record_event now (mkNewEvent EventLevel.Info "created mapping" None) store);
  assert_eq (g_id generation) 1 ;;
  assert_eq (e_id event) 1 ;;
  assert_eq (s_generations store) [generation] ;;
  assert_eq (s_events store) [event].

Example state_tests_pass :
  forallb passes [inserts_and_reads_mapping; rejects_mapping_before_config; rejects_duplicate_edge_private_ip;
    disabling_mapping_updates_status; records_generation_and_event_ids] = true.
Proof. vm_compute. reflexivity. Qed.
