(* ===== verification/TestsStore.v ===== *)
(** The tests of [edge-store] and [edge-reconcile], run on the model. A test connects
    to a database file of its own: [connect_to] is the migration of that file, and the
    store starts from the mappings it leaves. *)
From S2P Require Import Prelude Str Net Core Validation State Sql World Store Nft Linux Xdp Reconcile Migrate Opened Json Testing.
Local Open Scope Z_scope.

#[local] Existing Instance ipnet_model.
#[local] Existing Instance test_lib.
#[local] Existing Instance quiet_env.
#[local] Instance EdgeCoreError_eq : EqDecision EdgeCoreError.
Proof. solve_decision. Defined.

(** [SqliteStore::connect(dir.path().join("state.sqlite"))] on a file with this schema. *)
Definition connect_to (file : Schema) : Test unit := fun w =>
  match connect no_fault ddl_text (fun _ => None) "/tmp/test/state.sqlite" (mkConn 0 file) with
  | (Ok _, c) =>
      match opened_rows (cn_schema c) with
      | Some rows => (Ret tt, set_db w (set_rows (w_db w) rows))
      | None => (Panicked "the rows do not read", w)
      end
  | (Err _, _) => (Panicked "called `Result::unwrap()` on an `Err` value", w)
  end.
Definition new_file : Schema := empty_schema.
Definition history : Test History := fun w => (Ret (w_log w), w).

(** ** [edge-store] *)

Definition config : EdgeConfig := config_new "ens3" "wt0" [net24 192 168 20].
Definition mapping : Test Mapping := new_mapping "prod_vm_1" None (ip4 10 0 0 101) (ip4 192 168 20 42).
Definition port_forward (name : string) (public_port : Z) (target : Ipv4Addr) (target_port : Z) : Test Mapping :=
  mapping ← new_mapping name (Some (ip4 8 8 8 8)) (ip4 10 0 0 101) target;
  mret (forwarding mapping Tcp public_port target_port).

Definition insert_mapping_without_duplicate_check (m : Mapping) : IO EdgeCoreError unit :=
  row ← lift (row_of_mapping m);
  sql (sql_exec (InsertMapping row)) ;;
  mret tt.

Definition authoritative_config_replaces_persisted_config : Test unit :=
  connect_to new_file ;;
  unwrap (Store.set_edge_config config) ;;
  let replacement := config_new "enp0s6" "wt0" [net24 10 10 40] in
  resolved ← unwrap (resolve_edge_config replacement true);
  assert_eq resolved replacement ;;
  stored ← unwrap edge_config;
  assert_eq stored (Some replacement).

Definition defaults_do_not_replace_persisted_config : Test unit :=
  connect_to new_file ;;
  let persisted := config_new "enp0s6" "wt0" [net24 10 10 40] in
  unwrap (Store.set_edge_config persisted) ;;
  resolved ← unwrap (resolve_edge_config config false);
  assert_eq resolved persisted ;;
  stored ← unwrap edge_config;
  assert_eq stored (Some persisted).

Definition migrates_and_round_trips_mapping : Test unit :=
  connect_to new_file ;;
  unwrap (Store.set_edge_config config) ;;
  m ← mapping;
  unwrap (Store.insert_mapping m) ;;
  stored ← unwrap (Store.get_mapping (id m));
  assert_eq stored m ;;
  all ← unwrap Store.list_mappings;
  assert_eq (length all) 1%nat ;;
  deleted ← unwrap (Store.delete_mapping (id m));
  assert_eq (id deleted) (id m) ;;
  e ← unwrap_err (Store.get_mapping (id m));
  assert match e with NotFound _ => true | _ => false end.

Definition rejects_duplicate_static_targets : Test unit :=
  connect_to new_file ;;
  unwrap (Store.set_edge_config config) ;;
  first ← mapping;
  second ← mapping;
  i ← new_id;
  let second := set_addresses (set_id second i) (public_ip second) (ip4 10 0 0 102) (target_ip second) in
  unwrap (Store.insert_mapping first) ;;
  e ← unwrap_err (Store.insert_mapping second);
  assert_eq e (DuplicateTargetIp (ip4 192 168 20 42)).

Definition stores_multiple_port_forwards_on_shared_edge_ip : Test unit :=
  connect_to new_file ;;
  unwrap (Store.set_edge_config config) ;;
  tcp ← mapping;
  let tcp := set_addresses (forwarding tcp Tcp 13306 3306) (Some (ip4 8 8 8 8)) (edge_private_ip tcp) (target_ip tcp) in
  udp ← mapping;
  i ← new_id;
  let udp := forwarding (set_id udp i) Udp 14444 4444 in
  let udp := set_addresses udp (Some (ip4 8 8 8 8)) (edge_private_ip udp) (ip4 192 168 20 43) in
  unwrap (Store.insert_mapping tcp) ;;
  unwrap (Store.insert_mapping udp) ;;
  stored ← unwrap Store.list_mappings;
  assert_eq (length stored) 2%nat ;;
  assert (existsb (fun m => bool_decide (public_port m = Some 13306)) stored) ;;
  assert (existsb (fun m => bool_decide (public_port m = Some 14444)) stored).

Definition database_rejects_duplicate_port_forward_tuple : Test unit :=
  connect_to new_file ;;
  unwrap (Store.set_edge_config config) ;;
  first ← port_forward "mysql" 13306 (ip4 192 168 20 42) 3306;
  unwrap (Store.insert_mapping first) ;;
  duplicate ← port_forward "mysql_duplicate" 13306 (ip4 192 168 20 43) 3307;
  i ← new_id;
  e ← unwrap_err (insert_mapping_without_duplicate_check (set_id duplicate i));
  assert (contains ("UNIQUE constraint failed: mappings.edge_private_ip, mappings.protocol, " +:+ "mappings.public_port")
    (show_core_error e)).

Definition database_rejects_cross_mode_edge_private_ip_conflict : Test unit :=
  connect_to new_file ;;
  unwrap (Store.set_edge_config config) ;;
  first ← port_forward "mysql" 13306 (ip4 192 168 20 42) 3306;
  unwrap (Store.insert_mapping first) ;;
  one_to_one ← mapping;
  i ← new_id;
  e ← unwrap_err (insert_mapping_without_duplicate_check (set_target (set_id one_to_one i) (ip4 192 168 20 44)));
  assert (contains "mapping conflict: edge_private_ip already has port forwards" (show_core_error e)).

(** The two insertions of [tokio::join!] interleave by their statements. Once the right
    one has read what it checks, its [INSERT] comes [k] statements after the left one
    has begun; it has succeeded if its row is there in the end. *)
Definition joined (start : History) (k : nat) (right_row : MapRow) : Env := {|
  env_now := env_now;
  env_uuid := env_uuid;
  env_sql_fault := env_sql_fault;
  env_others h := if bool_decide (length h = length start + k)%nat then [InsertMapping right_row] else [];
  env_fs_fault := env_fs_fault;
  env_short_write := env_short_write;
  env_command := env_command;
  env_connect := env_connect;
  env_http := env_http;
|}.
Definition concurrent_conflicting_inserts_leave_one_mapping (k : nat) : Test unit :=
  connect_to new_file ;;
  unwrap (Store.set_edge_config config) ;;
  left ← port_forward "mysql_a" 13306 (ip4 192 168 20 42) 3306;
  right ← port_forward "mysql_b" 13306 (ip4 192 168 20 43) 3307;
  i ← new_id;
  let right := set_id right i in
  unwrap (config_for_write) ;;
  ok (validate_mapping right config) ;;
  unwrap (reject_duplicates right) ;;
  right_row ← ok (row_of_mapping right);
  start ← history;
  left_result ← io_try (Store.insert_mapping (H1 := joined start k right_row) left);
  all ← unwrap (Store.list_mappings (H1 := joined start k right_row));
  let right_ok := existsb (fun m => bool_decide (id m = id right)) all in
  let successes := length (filter (fun success => success = true) [is_ok left_result; right_ok]) in
  assert_eq successes 1%nat ;;
  assert_eq (length all) 1%nat.

Definition migrates_old_unique_mapping_schema : Test unit :=
  connect_to (legacy_schema []) ;;
  unwrap (Store.set_edge_config config) ;;
  m ← mapping;
  let m := forwarding m Tcp 13306 3306 in
  unwrap (Store.insert_mapping m) ;;
  stored ← unwrap (Store.get_mapping (id m));
  assert_eq (public_port stored) (Some 13306) ;;
  stored ← unwrap (Store.get_mapping (id m));
  assert_eq (backend stored) Nft.

(** The table of the next test: no unique columns, but no backend either. *)
Definition port_forward_columns : list Column :=
  [mkColumn "id" "TEXT PRIMARY KEY" false VNull; required_text "name"; text_column "public_ip";
   text_column "oci_public_ip_ocid"; required_text "edge_private_ip"; text_column "oci_private_ip_ocid";
   required_text "target_ip"; mkColumn "public_port" "INTEGER" false VNull; mkColumn "target_port" "INTEGER" false VNull;
   text_with_default "protocol" "all"; text_with_default "mode" "one_to_one_snat";
   mkColumn "enabled" "INTEGER NOT NULL DEFAULT 1" true (VInt 1); text_with_default "status" "pending";
   text_column "last_error"; text_column "health_status"; text_column "last_checked_at";
   required_text "created_at"; required_text "updated_at"].
Definition port_forward_schema : Schema :=
  mkSchema {["mappings" := new_table "mappings" port_forward_columns]} [primary_key "mappings" "id"] ∅.
Definition adds_backend_column_to_existing_port_forward_schema : Test unit :=
  connect_to port_forward_schema ;;
  unwrap (Store.set_edge_config config) ;;
  m ← mapping;
  unwrap (Store.insert_mapping m) ;;
  stored ← unwrap (Store.get_mapping (id m));
  assert_eq (backend stored) Nft.

Definition updates_oci_fields : Test unit :=
  connect_to new_file ;;
  unwrap (Store.set_edge_config config) ;;
  m ← mapping;
  unwrap (Store.insert_mapping m) ;;
  let m := set_oci m (Some (ip4 152 1 2 3)) (Some "ocid1.publicip.x") (edge_private_ip m) (Some "ocid1.privateip.x") in
  unwrap (Store.update_mapping m) ;;
  stored ← unwrap (Store.get_mapping (id m));
  assert_eq (public_ip stored) (Some (ip4 152 1 2 3)) ;;
  assert_eq (oci_public_ip_ocid stored) (Some "ocid1.publicip.x").

Definition records_generation_and_event : Test unit :=
  connect_to new_file ;;
  generation ← unwrap (Store.record_generation GenerationStatus.Validated "table ip edge_nat {}" None None);
  event ← unwrap (Store.record_event EventLevel.Info "validated nft" (Some (fixture "{'ok':true}")));
  assert_eq (g_id generation) 1 ;;
  stored ← unwrap (get_generation 1);
  assert_eq (g_status stored) GenerationStatus.Validated ;;
  assert_eq (e_id event) 1 ;;
  events ← unwrap (list_events 10);
  assert_eq (length events) 1%nat.

Example store_tests_pass :
  forallb passes [authoritative_config_replaces_persisted_config; defaults_do_not_replace_persisted_config;
    migrates_and_round_trips_mapping; rejects_duplicate_static_targets; stores_multiple_port_forwards_on_shared_edge_ip;
    database_rejects_duplicate_port_forward_tuple; database_rejects_cross_mode_edge_private_ip_conflict;
    migrates_old_unique_mapping_schema; adds_backend_column_to_existing_port_forward_schema; updates_oci_fields;
    records_generation_and_event] = true.
Proof. vm_compute. reflexivity. Qed.

(** Wherever the other statement falls: before each of the three of the left insertion,
    or after them. *)
Theorem concurrent_test_passes k : passes (concurrent_conflicting_inserts_leave_one_mapping k) = true.
Proof. do 4 (destruct k as [|k]; [vm_compute; reflexivity|]). vm_compute. reflexivity. Qed.

(** ** [edge-reconcile] *)

Definition atomic_write_replaces_file : Test unit :=
  let path := "/tmp/test/generated.nft" in
  unwrap (atomic_write path "first") ;;
  unwrap (atomic_write path "second") ;;
  text ← unwrap (read_to_string path);
  assert_eq text "second".

Definition xdp_mapping : Test Mapping :=
  mapping ← new_mapping "mysql" (Some (ip4 8 8 8 8)) (ip4 10 0 0 101) (ip4 10 10 40 60);
  mret (set_backend (forwarding mapping Tcp 13306 3306) Xdp).

Definition dry_run_reports_xdp_plan_entries : Test unit :=
  connect_to new_file ;;
  let config := config_new "ens3" "wt0" [net24 10 10 40] in
  unwrap (Store.set_edge_config config) ;;
  m ← xdp_mapping;
  unwrap (Store.insert_mapping m) ;;
  let options := mkOptions (nft_output default_options) true (apply_nft default_options) (apply_linux default_options)
    (xdp_config_enabled "ens3" "/sys/fs/bpf/edgeroute") in
  report ← unwrap (reconcile (mkReconciler linux_default nft_default) config options);
  assert_eq (xdp_plan_entries report) 1%nat ;;
  assert (contains "table ip edge_nat" (nftables_config report)).

Definition apply_rejects_xdp_until_loader_exists : Test unit :=
  connect_to new_file ;;
  let config := config_new "ens3" "wt0" [net24 10 10 40] in
  unwrap (Store.set_edge_config config) ;;
  m ← xdp_mapping;
  unwrap (Store.insert_mapping m) ;;
  let options := mkOptions "/tmp/test/generated.nft" (dry_run default_options) (apply_nft default_options)
    (apply_linux default_options) (xdp_config_enabled "ens3" "/sys/fs/bpf/edgeroute") in
  e ← unwrap_err (reconcile (mkReconciler linux_default nft_default) config options);
  assert match e with RXdpApplyUnsupported => true | _ => false end.

Example reconcile_tests_pass :
  forallb passes [atomic_write_replaces_file; dry_run_reports_xdp_plan_entries; apply_rejects_xdp_until_loader_exists] = true.
Proof. vm_compute. reflexivity. Qed.
