(* ===== verification/TestsTools.v ===== *)
(** The tests of [edge-nft], [edge-linux], [edge-xdp], [edge-oci] and [edge-netbird],
    run on the model. *)
From Stdlib Require Import Ascii Strings.Byte.
From S2P Require Import Prelude Str Net Core Validation Sql World Store Nft Linux Xdp Json Oci Netbird Testing.
Local Open Scope Z_scope.

#[local] Existing Instance ipnet_model.
#[local] Existing Instance quiet_env.
#[local] Existing Instance text_json.

(** ** [edge-nft] *)

(** The tool [false]. *)
Definition false_env : Env := {|
  env_now := env_now;
  env_uuid := env_uuid;
  env_sql_fault := env_sql_fault;
  env_others := env_others;
  env_fs_fault := env_fs_fault;
  env_short_write := env_short_write;
  env_command _ program _ := CmdDone (mkOutput (Some (if String.eqb program "/usr/bin/false" then 1 else 0)) "" "");
  env_connect := env_connect;
  env_http := env_http;
|}.
Definition reports_command_failure : Test unit :=
  let nft := nft_new "/usr/bin/false" in
  output ← unwrap (check_file (H := false_env) nft "/tmp/does-not-matter.nft");
  assert (negb (is_success output)) ;;
  assert_eq (error_message output) "exit status Some(1)".

(** [render_nftables(mappings, &config, &NftRenderConfig::default())] *)
Definition render (ms : list Mapping) (config : EdgeConfig) : Test string :=
  unwrap (from_out (render_nftables ms config render_table)).

Definition renders_static_mapping_rules : Test unit :=
  let config := config_new "ens3" "wt0" [net24 192 168 20] in
  mapping ← new_mapping "prod_vm_1" None (ip4 10 0 0 101) (ip4 192 168 20 42);
  rendered ← render [mapping] config;
  assert (contains "destroy table ip edge_nat" rendered) ;;
  assert (contains "table ip edge_nat" rendered) ;;
  assert (contains "10.0.0.101 : 192.168.20.42," rendered) ;;
  assert (contains "dnat to ip daddr map @edge_to_target" rendered) ;;
  assert (contains (fixture "oifname 'wt0' ip daddr 192.168.20.0/24 masquerade") rendered).

Definition explicit_nft_backend_preserves_rendered_output : Test unit :=
  let config := config_new "ens3" "wt0" [net24 192 168 20] in
  default_mapping ← new_mapping "prod_vm_1" None (ip4 10 0 0 101) (ip4 192 168 20 42);
  let explicit_mapping := set_backend default_mapping Core.Nft in
  default_rendered ← render [default_mapping] config;
  explicit_rendered ← render [explicit_mapping] config;
  assert_eq default_rendered explicit_rendered.

Definition renders_port_forward_rules : Test unit :=
  let config := config_new "ens3" "wt0" [net24 10 10 40] in
  tcp ← new_mapping "mysql" (Some (ip4 8 8 8 8)) (ip4 10 0 0 101) (ip4 10 10 40 60);
  udp ← new_mapping "udp_service" (Some (ip4 8 8 8 8)) (ip4 10 0 0 101) (ip4 10 10 40 60);
  rendered ← render [forwarding tcp Tcp 13306 3306; forwarding udp Udp 14444 4444] config;
  assert (contains (fixture "iifname 'ens3' ip daddr 10.0.0.101 tcp dport 13306 dnat to 10.10.40.60:3306") rendered) ;;
  assert (contains (fixture "iifname 'ens3' ip daddr 10.0.0.101 udp dport 14444 dnat to 10.10.40.60:4444") rendered) ;;
  assert (contains (fixture "oifname 'wt0' ip daddr 10.10.40.0/24 masquerade") rendered).

Definition renders_initial_netbird_cutover_rules : Test unit :=
  let config := config_new "enp0s6" "wt0" [net24 10 10 30; net24 10 10 40; net24 10 10 50] in
  first ← new_mapping "target-88" None (ip4 10 0 0 101) (ip4 10 10 40 88);
  second ← new_mapping "target-89" None (ip4 10 0 0 102) (ip4 10 10 40 89);
  rendered ← render [first; second] config;
  assert (contains "10.0.0.101 : 10.10.40.88" rendered) ;;
  assert (contains "10.0.0.102 : 10.10.40.89" rendered) ;;
  io_for_each (fun cidr => assert (contains (fixture ("oifname 'wt0' ip daddr " +:+ cidr +:+ " masquerade")) rendered))
    ["10.10.30.0/24"; "10.10.40.0/24"; "10.10.50.0/24"].

Example nft_tests_pass :
  forallb passes [reports_command_failure; renders_static_mapping_rules; explicit_nft_backend_preserves_rendered_output;
    renders_port_forward_rules; renders_initial_netbird_cutover_rules] = true.
Proof. vm_compute. reflexivity. Qed.

(** ** [edge-linux] *)

Definition parses_ip_addr_show : Test unit :=
  let output := "2: ens3: <BROADCAST,MULTICAST,UP,LOWER_UP> mtu 9000
    inet 10.0.0.4/24 metric 100 scope global dynamic ens3
       valid_lft 86399sec preferred_lft 86399sec
    inet 10.0.0.101/32 scope global ens3
" in
  assert_eq (parse_ipv4_addresses output) [ip4 10 0 0 4; ip4 10 0 0 101].

Example linux_test_passes : passes parses_ip_addr_show = true.
Proof. vm_compute. reflexivity. Qed.

(** ** [edge-xdp] *)

Definition config : EdgeConfig := config_new "ens3" "wt0" [net24 10 10 40].
Definition xdp_mapping : Test Mapping :=
  mapping ← new_mapping "mysql" (Some (ip4 8 8 8 8)) (ip4 10 0 0 101) (ip4 10 10 40 60);
  mret (set_backend (forwarding mapping Tcp 13306 3306) Core.Xdp).

Definition plans_xdp_port_forward_map_entry : Test unit :=
  let plugin := xdp_config_enabled "ens3" "/sys/fs/bpf/edgeroute" in
  mapping ← xdp_mapping;
  plan ← ok (plan plugin [mapping] config);
  assert_eq (plan_interface plan) "ens3" ;;
  assert_eq (length (plan_entries plan)) 1%nat ;;
  entry ← index (plan_entries plan) 0;
  assert_eq (k_edge (x_key entry)) (ip4 10 0 0 101) ;;
  assert_eq (v_target (x_value entry)) (ip4 10 10 40 60).

Definition serializes_key_and_value_in_network_order : Test unit :=
  let key := mkKey (ip4 10 0 0 101) Tcp 13306 in
  let value := mkValue (ip4 10 10 40 60) 3306 0 in
  assert_eq (key_bytes key) (zo <$> [10; 0; 0; 101; 0x33; 0xfa; 6; 0]) ;;
  assert_eq (value_bytes value) (zo <$> [10; 10; 40; 60; 0x0c; 0xea; 0; 0]).

Definition disabled_plugin_rejects_xdp_mappings : Test unit :=
  let plugin := xdp_config_disabled "ens3" in
  mapping ← xdp_mapping;
  e ← err (plan plugin [mapping] config);
  assert match e with XdpDisabled _ => true | _ => false end.

Example xdp_tests_pass :
  forallb passes [plans_xdp_port_forward_map_entry; serializes_key_and_value_in_network_order;
    disabled_plugin_rejects_xdp_mappings] = true.
Proof. vm_compute. reflexivity. Qed.

(** ** [edge-oci] *)

Definition parses_public_ip_list : Test unit :=
  let json := fixture "{'data':[{'id':'ocid1.publicip.x','ip-address':'152.1.2.3','private-ip-id':'ocid1.privateip.y','lifetime':'RESERVED','scope':'REGION','lifecycle-state':'AVAILABLE','display-name':'prod'}]}" in
  ips ← ok (parse_list decode_public_ip json);
  ip ← index ips 0;
  assert_eq (pub_id ip) "ocid1.publicip.x" ;;
  assert_eq (pub_ip_address ip) (ip4 152 1 2 3) ;;
  assert_eq (pub_private_ip_id ip) (Some "ocid1.privateip.y") ;;
  assert_eq (pub_lifetime ip) (Some "RESERVED").

Definition parses_private_ip_create : Test unit :=
  let json := fixture "{'data':{'id':'ocid1.privateip.x','ip-address':'10.0.0.101','vnic-id':'ocid1.vnic.x','display-name':'prod'}}" in
  private_ip ← ok (parse_item decode_private_ip json);
  assert_eq (priv_ip_address private_ip) (ip4 10 0 0 101) ;;
  assert_eq (priv_vnic_id private_ip) (Some "ocid1.vnic.x").

Definition validates_vnic_source_destination_check : Test unit :=
  let json := fixture "{'data':{'id':'ocid1.vnic.x','display-name':'edge','skip-source-dest-check':true}}" in
  vnic ← ok (parse_item decode_vnic json);
  ok (validate_vnic_forwarding vnic) ;;
  let blocked := mkVnic (vnic_id vnic) (vnic_display_name vnic) (Some false) in
  assert (negb (is_ok (validate_vnic_forwarding blocked))).

Definition builds_reserved_public_ip_reuse_request : Test unit :=
  let client := AuthInstancePrincipal "eu-paris-1" in
  request ← ok (api_assign_public_ip client "ocid1.publicip.x" "ocid1.privateip.y");
  assert match rq_method request with MPut => true | _ => false end ;;
  assert_eq (rq_endpoint request) "https://iaas.eu-paris-1.oraclecloud.com" ;;
  assert_eq (rq_path request) "/20160918/publicIps/ocid1.publicip.x" ;;
  assert_eq (rq_body request) (Some (fixture "{'privateIpId':'ocid1.privateip.y'}")).

Definition builds_nsg_ingress_rule_request : Test unit :=
  let client := AuthInstancePrincipal "eu-paris-1" in
  let rule := mkRule "6" "0.0.0.0/0" (Some (mkPortOptions (mkPortRange 13306 13306))) None (Some "EdgeRoute mysql") in
  request ← ok (api_add_rules client "ocid1.nsg.x" [rule]);
  assert match rq_method request with MPost => true | _ => false end ;;
  assert_eq (rq_path request) "/20160918/networkSecurityGroups/ocid1.nsg.x/actions/addSecurityRules" ;;
  body ← some (rq_body request);
  assert (contains (fixture "'destinationPortRange':{'min':13306,'max':13306}") body).

Example oci_tests_pass :
  forallb passes [parses_public_ip_list; parses_private_ip_create; validates_vnic_source_destination_check;
    builds_reserved_public_ip_reuse_request; builds_nsg_ingress_rule_request] = true.
Proof. vm_compute. reflexivity. Qed.

(** ** [edge-netbird] *)

Definition STATUS : string := fixture "{
      'peers':{'total':3,'connected':1,'details':[
        {'fqdn':'idle.bird.home','netbirdIp':'100.64.34.182','netbirdIpv6':'fd66::1','publicKey':'secret','status':'Idle','connectionType':'-','relayAddress':'rels://internal','networks':null},
        {'fqdn':'router.bird.home','netbirdIp':'100.64.94.84','status':'Connected','connectionType':'Relayed','networks':['10.10.40.0/24','10.10.30.0/24']},
        {'fqdn':'down.bird.home','netbirdIp':'100.64.49.18','status':'Disconnected','networks':null}
      ]},
      'cliVersion':'0.73.2','daemonVersion':'0.73.2','daemonStatus':'Connected',
      'management':{'url':'https://private.example','connected':true,'error':''},
      'signal':{'url':'https://private.example','connected':true,'error':''},
      'netbirdIp':'100.64.65.67/16','netbirdIpv6':'fd66:a144::1/64',
      'publicKey':'secret','usesKernelInterface':true,'fqdn':'mainvnic.bird.home',
      'networks':null,'lazyConnectionEnabled':true
    }".

Definition parses_netbird_status_and_networks : Test unit :=
  status ← ok (parse_status STATUS);
  assert (daemon_connected status) ;;
  assert_eq (nb_netbird_ipv6 status) (Some "fd66:a144::1/64") ;;
  assert_eq (advertised_networks status) ["10.10.30.0/24"; "10.10.40.0/24"] ;;
  idle ← index (peers_details (nb_peers status)) 0;
  assert (is_healthy idle) ;;
  router ← index (peers_details (nb_peers status)) 1;
  assert (is_healthy router) ;;
  down ← index (peers_details (nb_peers status)) 2;
  assert (negb (is_healthy down)).

(** [value[name]], which is [null] where there is no such field. *)
Definition field (name : string) (v : Json) : Json :=
  match v with JObj fs => default JNull (snd <$> find (fun f => String.eqb f.1 name) fs) | _ => JNull end.
Definition serialization_omits_sensitive_cli_fields : Test unit :=
  status ← ok (parse_status STATUS);
  let value := status_json status in
  encoded ← ok (json_write value);
  assert (negb (contains "publicKey" encoded)) ;;
  assert (negb (contains "relayAddress" encoded)) ;;
  assert (negb (contains "private.example" encoded)) ;;
  assert match field "connected" (field "management" value) with JBool true => true | _ => false end.

Definition accepts_missing_optional_fields : Test unit :=
  status ← ok (parse_status (fixture "{'daemonStatus':'Disconnected'}"));
  assert (negb (daemon_connected status)) ;;
  assert (bool_decide (length (peers_details (nb_peers status)) = 0%nat)) ;;
  assert (bool_decide (nb_networks status = [])).

Definition parses_main_and_policy_table_routes_exactly : Test unit :=
  let main := "100.64.34.182 dev wt0 src 100.64.65.67 uid 1001" in
  let policy := "10.10.40.89 dev wt0 table netbird src 100.64.65.67 uid 1001" in
  assert_eq (parse_route_interface main) (Some "wt0") ;;
  assert_eq (parse_route_interface policy) (Some "wt0") ;;
  assert (negb (bool_decide (parse_route_interface policy = Some "wt"))) ;;
  assert_eq (parse_route_interface "unreachable 10.0.0.1") None.

Example netbird_tests_pass :
  forallb passes [parses_netbird_status_and_networks; serialization_omits_sensitive_cli_fields;
    accepts_missing_optional_fields; parses_main_and_policy_table_routes_exactly] = true.
Proof. vm_compute. reflexivity. Qed.
