(* ===== verification/TestsServers.v ===== *)
(** The tests of [edge-agent] and [edge-gateway], run on the model. *)
From S2P Require Import Prelude Str Net Net6 Core Sql World Store Json Api Gateway Agent Testing.
Local Open Scope Z_scope.

#[local] Existing Instance quiet_env.
#[local] Existing Instance http_model.
#[local] Existing Instance no_toml.

Definition wildcard (port : Z) : SocketAddr := SockV4 (ip4 0 0 0 0) port.

(** ** [edge-agent] *)

Definition rejects_public_wildcard_bind : Test unit :=
  assert (negb (is_ok (reject_public_bind (wildcard 8443)))).

Definition compares_tokens_constant_time_style : Test unit :=
  assert (Api.constant_time_eq "secret" "secret") ;;
  assert (negb (Api.constant_time_eq "secret" "secrex")) ;;
  assert (negb (Api.constant_time_eq "secret" "secret2")).

Example agent_tests_pass :
  forallb passes [rejects_public_wildcard_bind; compares_tokens_constant_time_style] = true.
Proof. vm_compute. reflexivity. Qed.

(** ** [edge-gateway] *)

Definition gateway_rejects_public_wildcard_bind : Test unit :=
  assert (negb (is_ok (gateway_reject_public_bind (wildcard 8080)))).

Definition builds_upstream_uri_without_api_prefix : Test unit :=
  uri ← ok (upstream_uri "/v1/status?full=true");
  assert_eq uri "http://edge-agent/v1/status?full=true".

Definition strips_api_prefix_before_proxying : Test unit :=
  assert_eq (strip_api_prefix "/api/v1/status" "v1/status") "/v1/status" ;;
  assert_eq (strip_api_prefix "/api/v1/status?full=true" "v1/status") "/v1/status?full=true".

Definition loads_optional_gateway_token : Test unit :=
  tokens ← unwrap (load_tokens None None (Some "upstream"));
  assert_eq (tk_gateway tokens) None ;;
  assert_eq (tk_api tokens) (Some "upstream").

Definition mock_feature_allows_missing_upstream_token : Test unit :=
  tokens ← unwrap (load_tokens_with true None None None);
  assert_eq (tk_api tokens) None.

Definition headers_of (lines : list (string * string)) : HeaderMap :=
  foldl (fun headers l => hm_insert l.1 l.2 headers) hm_new lines.
(** [headers.get(name)] *)
Definition header_of (name : string) (headers : HeaderMap) : option string := head (hm_get_all name headers).

Definition rewrites_authorization_header : Test unit :=
  let headers := headers_of [("authorization", "Bearer client-token"); ("x-remove-me", "value");
    ("transfer-encoding", "chunked"); ("connection", "upgrade, x-remove-me")] in
  headers ← ok (rewrite_headers headers "upstream-token");
  assert_eq (header_of "authorization" headers) (Some "Bearer upstream-token") ;;
  assert_eq (header_of "connection" headers) None ;;
  assert_eq (header_of "transfer-encoding" headers) None ;;
  assert_eq (header_of "x-remove-me" headers) None.

Definition optional_gateway_authorization : Test unit :=
  let headers := hm_new in
  assert (is_ok (require_gateway_auth headers None)) ;;
  let token := Some "gateway-token" in
  assert (negb (is_ok (require_gateway_auth headers token))) ;;
  let headers := hm_insert "authorization" "Bearer wrong-token" headers in
  assert (negb (is_ok (require_gateway_auth headers token))) ;;
  let headers := hm_insert "authorization" "Bearer gateway-token" headers in
  assert (is_ok (require_gateway_auth headers token)).

Definition gateway_compares_tokens_constant_time_style : Test unit :=
  assert (Gateway.constant_time_eq "secret" "secret") ;;
  assert (negb (Gateway.constant_time_eq "secret" "secrex")) ;;
  assert (negb (Gateway.constant_time_eq "secret" "secret2")).

Example gateway_tests_pass :
  forallb passes [gateway_rejects_public_wildcard_bind; builds_upstream_uri_without_api_prefix;
    strips_api_prefix_before_proxying; loads_optional_gateway_token; mock_feature_allows_missing_upstream_token;
    rewrites_authorization_header; optional_gateway_authorization; gateway_compares_tokens_constant_time_style] = true.
Proof. vm_compute. reflexivity. Qed.
